(* ===== verification/_CoqProject ===== *)
-Q . S2P
Prelude.v
PyBytes.v
PyText.v
Sha256.v
Base64.v
Json.v
Crypto.v
ByteReader.v
Transaction.v
Block.v
Utxo.v
State.v
BlockProcessor.v
ForkStore.v
ForkChoice.v
Stores.v
Policy.v
Mempool.v
Selection.v
Mining.v
Node.v
Restart.v
Produced.v
Peers.v
WireJson.v
Explorer.v
JsonText.v
Network.v
Session.v
Databases.v
Transport.v
Service.v
Downloads.v
Relay.v
Serving.v
Server.v
Threads.v
Runtime.v
WalletFile.v
Dicts.v
Cli.v
Release.v
