(* ===== verification/Prelude.v ===== *)
(** * BlockchainCoin: a verification development

    A model of the Python package [src/blockchaincoin], a small UTXO blockchain
    node, and the theorems that make it correct.  The definitions translate the
    sources function by function, run by [vm_compute], and keep the errors the
    code raises as values.

    ** The program and where it is modelled

    - [consensus.py]: transactions, blocks and the consensus rules.
      [ByteReader] has [_ByteReader] and the field codecs; [Transaction] the
      transaction records, [to_bytes]/[from_bytes], the identifier and the
      signing message; [Dicts] the dictionaries of [to_dict]/[from_dict]; [Block] the header, its hash, the block codec and the
      Merkle root; [Utxo] the class [UTXOSet]; [State] the class
      [ConsensusState]; [BlockProcessor] block validation and application and
      the replay of a chain.
    - [crypto.py]: [Base64], [Json] (canonical JSON), [Crypto] (addresses, keys,
      wallets, signatures), [Sha256] (SHA-256 and HMAC, from the standards),
      [WalletFile] (passphrase encryption, saving and loading).
    - [storage.py]: [ForkStore] is the block table and its walk to the parents;
      [Stores] the UTXO index, mempool, invalid-block and peer-progress tables;
      [Databases] the files and connections under them: constructors, schemas,
      migrations, closing, and the four files of a node.
    - [fork_choice.py]: [ForkChoice].
    - [utxo_node.py]: [Policy] (mempool policy), [Mempool] (submission,
      replacement, eviction, pruning, reloading), [Selection] (block assembly),
      [Mining] (payments, candidate blocks, the nonce search), [Node] (import,
      creation, opening), [Restart] (what a process finds that opens the
      databases of another), [Produced] (what a node makes itself is in the form
      the codecs read), [Explorer] (the summaries a node reports).
    - [peers.py]: [Peers], the address manager.
    - [network.py]: [WireJson] (the JSON writer and reader), [JsonText] (their
      round trips), [Network] (message validation and authenticated frames).
    - [peer.py]: [Session], the state machine of one connection.
    - [service.py]: [Service] has the operations of [NodeService]; [Downloads],
      [Relay] and [Serving] are its theorems: block downloads, the node behind
      the network, and what is served to peers.
    - [transport.py]: [Transport], the reassembly of frames from chunks;
      [Server], the connection handler and what it sends; [Threads], the
      handlers of many connections under every schedule; [Runtime], the life
      cycles of server and client.
    - [runtime.py]: [Runtime].
    - [cli.py]: [Cli], each command from its parsed arguments to its output.
    - [release.py]: [Release], manifests and their signatures.

    [PyBytes] and [PyText] model the parts of Python they all use: [struct],
    UTF-8, hexadecimal and decimal texts.  This file has the exceptions, the
    error and state monads and the shared lemmas.  A method that changes an
    object is a computation of [SM], which keeps the state as it was when an
    exception is raised, so a half-finished mutation is visible.

    A node ([Mempool.Node]) holds its databases, the consensus state of its
    active chain and its mempool.  A received block goes through
    [import_block]: the processor checks it on its parent's branch, the store
    keeps it, fork choice replays the best branch, the index is updated and the
    mempool settled.  A received transaction goes through
    [submit_transaction].  Bytes from a socket go through [feed], [from_frame]
    and the service's [receive], which keeps one session per peer, before they
    reach the node.  A command opens the node's databases, runs one operation
    and closes them, so what one command leaves is what the next one finds
    ([Restart.history]).

    ** What the theorems show

    - The ledger ([State], [BlockProcessor]): transactions, blocks and chains are
      accepted exactly by declarative rules; over any run an output is spent once
      for every time it was created (consensus lets a coinbase be created again)
      and only with its owner's signature; the supply follows the emission
      schedule; a failed operation leaves the state alone.
    - The codecs ([Transaction], [Block], [Network]): decoding inverts encoding,
      accepted bytes are canonical, decoding is total; identifiers, hashes and
      signing messages bind what they hash, up to a collision that the proof
      exhibits (nothing assumes that SHA-256 is injective).
    - The chain ([ForkStore], [ForkChoice], [Node]): the parent walk terminates,
      the active chain is the replayed branch with most work, and importing any
      block, valid or not, keeps the node consistent.
    - The mempool ([Mempool], [Selection], [Mining], [Node]): a submission leaves
      it applicable to the state, and so does an import unless the policy
      refuses a transaction that still applies; what pruning keeps is
      characterised for every policy; block assembly never gets stuck on an
      applicable mempool and includes all of it; a mined block is accepted
      exactly when its reward is positive, the supply has room for the subsidy
      and its coinbase is new.
    - Restarts ([Restart], [Produced], [Runtime], [Cli]): creation, imports that
      return or raise, mining and the mempool operations leave databases from
      which [open] restores the node (if the money limit fits SQLite's integers,
      as [MAX_MONEY] does), and so does every command, however it ends; the runtime's life cycle is a four-state machine.
    - Files of databases ([Databases]): opening a store loses nothing and a
      second opening changes nothing; creating and opening a node over its four
      files implements the operations on tables, so one process after the other
      finds at its path the node the last one had.
    - The network ([Peers], [Network], [Session], [Transport], [Server],
      [Threads]): no interleaving of the connections' threads reorders the
      messages of one, and the sequential handler is one of the schedules; while
      calls into the service do not interrupt each other, no schedule breaks the
      node or leaves a connection without its thread, but nothing in the code
      keeps them apart, and a switch inside [import_block] or [mark_connecting]
      breaks the node's state or the connection limits; frames
      round-trip and are authenticated before they are decoded; a connection is
      served the same however its stream is cut; the handshake converges under
      every schedule and completes only when earned; limits, bans and backoff
      hold.
    - The service ([Downloads], [Relay], [Serving]): no message makes the node
      inconsistent; downloads are unique, bounded and accounted for; the headers
      a node serves are valid, and accepted exactly by a node that has the block
      before them; a block travels from one node to the next.
    - Files ([WalletFile], [Release]): wallets load as they were saved, and a
      crash while saving leaves the old or the new file; release manifests
      depend on their artifacts only and verify against their signing key.

    Some theorems record where the code does less than it means to: a forged copy
    of a block that makes a node refuse the genuine one, a coinbase that can be
    mined and spent twice, exceptions that escape the connection handler, inbound
    slots that are never given back, stored blocks that are refused after a
    restart, a [serve] command that stops at once, wallets with a passphrase that
    no command can read, connection limits that two threads exceed together, an
    import that another thread overtakes, mined blocks that the node's own
    consensus refuses, headers for an unknown locator that are held against the
    node that served them, a pruning that keeps the child of a refused
    transaction, a migration that changes a database before it refuses it, connections that a
    failed opening leaves behind.

    ** Parameters

    Ed25519 is third-party code: the class [Ed25519] has its operations and
    [Ed25519Ok] the facts used (lengths, and that a signature verifies).  The
    texts of floating-point numbers and the numerals [int()] and [float()] read
    are the class [NumText], with [NumTextOk] for what the round trips need.
    PBKDF2 and AES-GCM are the class [WalletCipher], with [WalletCipherOk]; the
    [str()] of a container is [ContainerText].  Each has an instance that the
    examples compute with.  What [mkdir] and [sqlite3.connect] answer is the
    record [Host].  The clock, random bytes and the answers of the
    operating system are arguments of the operations that read them.

    ** Fuel

    Recursion that is not structural takes fuel, with a theorem that the fuel
    given is enough: the parent walk the height of the block, block assembly the
    length of the mempool, the JSON reader the length of the text, reassembly the
    length of the buffer.  The nonce search is unbounded in the code; it returns
    as soon as the fuel reaches the first nonce that meets the target.

    ** Not modelled

    Thread switches inside a call into the service: in [Threads] such a call is
    one step, except in [Threads.import_race] and [Threads.admission_race], which
    show what one switch can do.  A process that is killed inside an operation:
    in [Databases] a process ends between two operations, each of which may have
    raised at any point.  SQLite beyond the rows and
    schema objects its statements describe: locks, the journal, tables that were
    declared with other columns.  In [Cli] and [Runtime] a node's databases are
    its tables; [Databases] relates these to the files.  [argparse].  The fuzz
    harness and the tests.  The recursion limit of Python and its limit on the
    digits of [str] of an integer. *)

From stdpp Require Export base tactics numbers list gmap strings sorting.
From stdpp Require Import options.
#[global] Set Default Proof Using "Type".
#[global] Unset Default Goal Selector.

(** ** Python exceptions as values *)

(** The exception classes the sources raise or catch.  [OutOfFuel] is not a
    Python exception: it marks a bounded loop of the model that ran out of
    fuel, and theorems show that it never escapes.  [RuntimeError] is the class
    of runtime.py. *)
Inductive exn_class :=
  | ConsensusError | ValueError | UnicodeError | StructError | KeyError
  | BinasciiError | StorageError | OverflowError | IntegrityError
  | ForkChoiceError | ConsensusNodeError | MempoolPolicyError
  | NetworkError | PeerError | PeerManagerError | NodeServiceError
  | TypeError | AttributeError | JSONDecodeError | TransportError | RuntimeError | OSError | InvalidTag | SystemExit
  | AssertionError | DatabaseError | OperationalError | ProgrammingError | OutOfFuel.

#[global] Instance exn_class_eq_dec : EqDecision exn_class.
Proof. solve_decision. Defined.

(** Text is a Python [str]: a sequence of Unicode code points.  Bytes are
    [list Byte.byte] and are kept a different type. *)
Notation str := (list Z).

Definition py (s : string) : str :=
  (λ a, Z.of_N (Ascii.N_of_ascii a)) <$> String.list_ascii_of_string s.

Record exn := Exn { exn_cls : exn_class; exn_msg : str }.

Definition exn_is (c : exn_class) (e : exn) : bool := bool_decide (exn_cls e = c).

(** [isinstance(e, ValueError)]: the subclasses of [ValueError] among the
    classes above. *)
Definition is_value_error (e : exn) : bool :=
  match exn_cls e with
  | ConsensusError | ValueError | UnicodeError | BinasciiError | JSONDecodeError
  | NetworkError | PeerManagerError | RuntimeError => true
  | _ => false
  end.

(** [isinstance(e, ConsensusNodeError)]: [MempoolPolicyError] derives from
    it. *)
Definition is_node_error (e : exn) : bool :=
  match exn_cls e with
  | ConsensusNodeError | MempoolPolicyError => true
  | _ => false
  end.

(** ** The error monad *)

Inductive result (A : Type) : Type :=
  | Ok (a : A)
  | Err (e : exn).
Arguments Ok {A} a.
Arguments Err {A} e.

#[global] Instance exn_eq_dec : EqDecision exn.
Proof. solve_decision. Defined.
#[global] Instance result_eq_dec {A} `{EqDecision A} : EqDecision (result A).
Proof. solve_decision. Defined.

#[global] Instance result_ret : MRet result := λ A a, Ok a.
#[global] Instance result_bind : MBind result := λ A B f m,
  match m with Ok a => f a | Err e => Err e end.
#[global] Instance result_fmap : FMap result := λ A B f m,
  match m with Ok a => Ok (f a) | Err e => Err e end.

Definition raise {A} (c : exn_class) (msg : string) : result A := Err (Exn c (py msg)).

(** [if cond: raise ...] *)
Definition raise_if (cond : bool) (c : exn_class) (msg : string) : result unit :=
  if cond then raise c msg else Ok tt.

(** [try: m except ... : h] *)
Definition try_catch {A} (m : result A) (h : exn → result A) : result A :=
  match m with Ok a => Ok a | Err e => h e end.

Definition is_ok {A} (m : result A) : bool := match m with Ok _ => true | Err _ => false end.

Definition err_class {A} (m : result A) : option exn_class :=
  match m with Ok _ => None | Err e => Some (exn_cls e) end.

Definition ok_or {A} (d : A) (m : result A) : A := match m with Ok a => a | Err _ => d end.

(** Sequential evaluation of [f] over a list, first exception wins: a Python
    list comprehension or a [for] loop that accumulates. *)
Fixpoint mapR {A B} (f : A → result B) (l : list A) : result (list B) :=
  match l with
  | [] => Ok []
  | x :: l' => y ← f x; ys ← mapR f l'; Ok (y :: ys)
  end.

Fixpoint foldR {A S} (f : S → A → result S) (s : S) (l : list A) : result S :=
  match l with
  | [] => Ok s
  | x :: l' => s' ← f s x; foldR f s' l'
  end.

(** [enumerate(l, start=i)] with Python integers as indices. *)
Fixpoint enumerate {A} (i : Z) (l : list A) : list (Z * A) :=
  match l with
  | [] => []
  | x :: l' => (i, x) :: enumerate (i + 1)%Z l'
  end.

Definition sumZ (l : list Z) : Z := foldr Z.add 0%Z l.
Arguments sumZ : simpl never.

Definition zlen {A} (l : list A) : Z := Z.of_nat (length l).

(** ** Stateful computations that may raise

    An exception keeps the state as it was mutated up to the raise, which is
    what a Python method does to [self]; a rollback has to be proved. *)
Definition SM (S A : Type) : Type := S → S * result A.

#[global] Instance SM_ret S : MRet (SM S) := λ A a s, (s, Ok a).
#[global] Instance SM_bind S : MBind (SM S) := λ A B f m s,
  match m s with
  | (s', Ok a) => f a s'
  | (s', Err e) => (s', Err e)
  end.

Definition sm_lift {S A} (m : result A) : SM S A := λ s, (s, m).
Definition sm_get {S} : SM S S := λ s, (s, Ok s).
Definition sm_put {S} (s' : S) : SM S unit := λ _, (s', Ok tt).
Definition sm_raise {S A} (c : exn_class) (msg : string) : SM S A := sm_lift (raise c msg).
Definition sm_try {S A} (m : SM S A) (h : exn → SM S A) : SM S A := λ s,
  match m s with
  | (s', Ok a) => (s', Ok a)
  | (s', Err e) => h e s'
  end.

(** A computation on a part of the state. *)
Definition sm_zoom {S T A} (get : S → T) (set : T → S → S) (m : SM T A) : SM S A := λ s,
  let r := m (get s) in (set r.1 s, r.2).

(** [with connection:]: a database transaction is rolled back when its body
    raises. *)
Definition sm_atomic {S A} (m : SM S A) : SM S A := λ s,
  match m s with
  | (s', Ok a) => (s', Ok a)
  | (_, Err e) => (s, Err e)
  end.

(** The state a run ends in, when it returned. *)
Definition run_state {S A} (r : S * result A) : result S :=
  match r with (s', Ok _) => Ok s' | (_, Err e) => Err e end.

(** ** Lemmas on the monads *)

Lemma Ok_inj {A} (x y : A) : Ok x = Ok y → x = y.
Proof. congruence. Qed.

(** [injection] on heads that must not be unfolded. *)
Lemma cons_inv {A} (x y : A) l k : x :: l = y :: k → x = y ∧ l = k.
Proof. by intros [= -> ->]. Qed.

Lemma bind_Ok {A B} (f : A → result B) (m : result A) (y : B) :
  (m ≫= f) = Ok y ↔ ∃ x, m = Ok x ∧ f x = Ok y.
Proof.
  destruct m as [a|e]; simpl.
  - split; [eauto|]. intros (x & Hx & Hf). by simplify_eq.
  - split; [done|]. by intros (x & ? & _).
Qed.

Lemma bind_unit_Ok {B} (f : unit → result B) (m : result unit) (y : B) :
  (m ≫= f) = Ok y ↔ m = Ok tt ∧ f tt = Ok y.
Proof. rewrite bind_Ok. split; [by intros ([] & ? & ?)|eauto]. Qed.

Lemma raise_if_Ok c k m u : raise_if c k m = Ok u ↔ c = false.
Proof. destruct u, c; unfold raise_if, raise; naive_solver. Qed.

Lemma raise_if_false b c k : b = false → raise_if b c k = Ok tt.
Proof. by intros ->. Qed.

Lemma raise_if_bind {B} c k m (f : unit → result B) y :
  (raise_if c k m ≫= f) = Ok y ↔ c = false ∧ f tt = Ok y.
Proof. destruct c; unfold raise_if, raise; simpl; naive_solver. Qed.

Lemma raise_not_Ok {A} c m (y : A) : raise c m = Ok y ↔ False.
Proof. unfold raise. naive_solver. Qed.

Lemma result_fmap_Ok {A B} (f : A → B) (m : result A) (y : B) :
  (f <$> m) = Ok y ↔ ∃ x, m = Ok x ∧ y = f x.
Proof. destruct m; simpl; naive_solver. Qed.

Lemma mapR_nil {A B} (f : A → result B) : mapR f [] = Ok [].
Proof. done. Qed.

Lemma mapR_Ok {A B} (f : A → result B) l l' :
  mapR f l = Ok l' ↔ Forall2 (λ x y, f x = Ok y) l l'.
Proof.
  revert l'. induction l as [|x l IH]; intros l'; simpl.
  - split; [intros [= <-]; constructor | by inversion 1].
  - rewrite bind_Ok. setoid_rewrite bind_Ok. setoid_rewrite IH. split.
    + intros (y & Hy & ys & Hys & [= <-]). by constructor.
    + inversion 1; subst; eauto 10.
Qed.

Lemma mapR_cons_Ok {A B} (f : A → result B) x l ys :
  mapR f (x :: l) = Ok ys ↔ ∃ y ys', ys = y :: ys' ∧ f x = Ok y ∧ mapR f l = Ok ys'.
Proof.
  rewrite mapR_Ok. split.
  - inversion 1; subst. do 2 eexists. rewrite mapR_Ok. eauto.
  - intros (y & ys' & -> & Hy & Hl%mapR_Ok). by constructor.
Qed.

Lemma mapR_length {A B} (f : A → result B) l l' : mapR f l = Ok l' → length l = length l'.
Proof. rewrite mapR_Ok. apply Forall2_length. Qed.

Lemma mapR_app {A B} (f : A → result B) l1 l2 :
  mapR f (l1 ++ l2) = (ys1 ← mapR f l1; ys2 ← mapR f l2; Ok (ys1 ++ ys2)).
Proof.
  induction l1 as [|x l1 IH]; simpl.
  - by destruct (mapR f l2).
  - destruct (f x); simpl; [|done]. rewrite IH.
    destruct (mapR f l1); simpl; [|done]. by destruct (mapR f l2).
Qed.

Lemma mapR_ext {A B} (f g : A → result B) l : (∀ x, x ∈ l → f x = g x) → mapR f l = mapR g l.
Proof.
  induction l as [|x l IH]; intros Hfg; simpl; [done|].
  rewrite Hfg by left. rewrite IH by (intros; apply Hfg; by right). done.
Qed.

Lemma mapR_perm {A B} (f : A → result B) l k ys : l ≡ₚ k → mapR f l = Ok ys →
  ∃ zs, mapR f k = Ok zs ∧ zs ≡ₚ ys.
Proof.
  intros Hp. revert ys. induction Hp as [|x l k _ IH|x y l|l k j _ IH1 _ IH2]; intros ys E; simpl in *.
  - by exists ys.
  - apply bind_Ok in E as (z & -> & E). apply bind_Ok in E as (zs & Hz & [= <-]).
    destruct (IH _ Hz) as (zs' & -> & Hp). exists (z :: zs'). split; [done|]. by constructor.
  - apply bind_Ok in E as (z & -> & E). apply bind_Ok in E as (zs & E & [= <-]).
    apply bind_Ok in E as (w & -> & E). apply bind_Ok in E as (zs' & -> & [= <-]).
    exists (w :: z :: zs'). split; [done|]. constructor.
  - destruct (IH1 _ E) as (zs & E2 & Hp1). destruct (IH2 _ E2) as (ws & E3 & Hp2).
    exists ws. split; [done|]. by rewrite Hp2.
Qed.

Lemma foldR_app {A S} (f : S → A → result S) s l1 l2 :
  foldR f s (l1 ++ l2) = (s' ← foldR f s l1; foldR f s' l2).
Proof.
  revert s. induction l1 as [|x l1 IH]; intros s; simpl; [done|].
  destruct (f s x); simpl; auto.
Qed.

(** A loop that only checks. *)
Lemma foldR_unit {A} (f : A → result unit) l u : foldR (λ _ x, f x) tt l = Ok u ↔ Forall (λ x, f x = Ok tt) l.
Proof.
  destruct u. induction l as [|x l IH]; simpl; [done|]. rewrite bind_Ok, Forall_cons, <- IH. split.
  - intros ([] & Hx & Hl). done.
  - intros [Hx Hl]. by exists tt.
Qed.

Lemma raises_only_foldR {A S} P (f : S → A → result S) l s :
  (∀ s x, x ∈ l → ∀ e, f s x = Err e → P e = true) → ∀ e, foldR f s l = Err e → P e = true.
Proof.
  revert s. induction l as [|x l IH]; intros s Hf e; simpl; [done|].
  destruct (f s x) eqn:E; simpl.
  - apply IH. intros s' y Hy. apply Hf. by right.
  - intros [= <-]. eapply Hf; [left|done].
Qed.

(** Invariants of a fold. *)
Lemma foldR_inv {A S} (P : S → Prop) (f : S → A → result S) l s s' :
  (∀ s x s', x ∈ l → P s → f s x = Ok s' → P s') →
  P s → foldR f s l = Ok s' → P s'.
Proof.
  revert s. induction l as [|x l IH]; intros s Hstep Hs; simpl.
  - by intros [= <-].
  - rewrite bind_Ok. intros (s1 & Hx & Hl).
    eapply IH; [|by eapply (Hstep s x); [left|..]|done].
    intros; eapply Hstep; [by right|..]; done.
Qed.

Lemma SM_bind_Ok {S A B} (m : SM S A) (f : A → SM S B) s s' y :
  (m ≫= f) s = (s', Ok y) ↔ ∃ x s1, m s = (s1, Ok x) ∧ f x s1 = (s', Ok y).
Proof.
  unfold mbind, SM_bind. destruct (m s) as [s1 [x|e]]; split.
  - eauto.
  - intros (x' & s1' & [= -> ->] & H). done.
  - by intros [=].
  - by intros (x' & s1' & [=] & H).
Qed.

(** Single steps, and the monad laws, at a state. *)
Lemma bind_get_run {S A} (f : S → SM S A) s : (sm_get ≫= f) s = f s s.
Proof. done. Qed.

Lemma bind_lift_run {S A B} (m : result A) (f : A → SM S B) s :
  (sm_lift m ≫= f) s = match m with Ok a => f a s | Err e => (s, Err e) end.
Proof. done. Qed.

Lemma sm_bind_assoc {S A B C} (m : SM S A) (f : A → SM S B) (g : B → SM S C) s :
  ((m ≫= f) ≫= g) s = (m ≫= (λ x, f x ≫= g)) s.
Proof. unfold mbind, SM_bind. by destruct (m s) as [? []]. Qed.

Lemma sm_bind_ext {S A B} (m : SM S A) (f g : A → SM S B) s : (∀ x s', f x s' = g x s') → (m ≫= f) s = (m ≫= g) s.
Proof. intros Hfg. unfold mbind, SM_bind. destruct (m s) as [? []]; [apply Hfg|done]. Qed.

Lemma sm_bind_congr {S A B} (m m' : SM S A) (f : A → SM S B) s : m s = m' s → (m ≫= f) s = (m' ≫= f) s.
Proof. intros Hm. unfold mbind, SM_bind. by rewrite Hm. Qed.

Lemma sm_bind_run {S A B} (m : SM S A) (f : A → SM S B) s s' a : m s = (s', Ok a) → (m ≫= f) s = f a s'.
Proof. intros Hm. unfold mbind, SM_bind. by rewrite Hm. Qed.

Lemma sm_try_run {S A} (m : SM S A) h s s' a : m s = (s', Ok a) → sm_try m h s = (s', Ok a).
Proof. intros Hm. unfold sm_try. by rewrite Hm. Qed.

Lemma sm_try_raises {S A} (m : SM S A) h s s' e : m s = (s', Err e) → sm_try m h s = h e s'.
Proof. intros Hm. unfold sm_try. by rewrite Hm. Qed.

(** A run that returned, from its value alone. *)
Lemma run_Ok {S A} (m : SM S A) s x : (m s).2 = Ok x → m s = ((m s).1, Ok x).
Proof. destruct (m s). by intros <-. Qed.

Lemma ok_or_spec {A} (d : A) (m : result A) : is_ok m = true → m = Ok (ok_or d m).
Proof. by destruct m. Qed.

Lemma run_ok_or {S A} (d : A) (m : SM S A) s : is_ok (m s).2 = true → m s = ((m s).1, Ok (ok_or d (m s).2)).
Proof. intros E. by apply run_Ok, ok_or_spec. Qed.

Lemma sm_zoom_Ok {S T A} (get : S → T) set (m : SM T A) s s' x :
  sm_zoom get set m s = (s', Ok x) ↔ ∃ t', m (get s) = (t', Ok x) ∧ s' = set t' s.
Proof.
  unfold sm_zoom. destruct (m (get s)) as [t' r]. simpl. split; [intros [= <- ->]; eauto|].
  by intros (t2 & [= -> ->] & ->).
Qed.

Lemma run_state_Ok {S A} (r : S * result A) s : run_state r = Ok s ↔ ∃ a, r = (s, Ok a).
Proof. destruct r as [s' [a|e]]; simpl; naive_solver. Qed.

Lemma sm_atomic_Ok {S A} (m : SM S A) s s' x : sm_atomic m s = (s', Ok x) ↔ m s = (s', Ok x).
Proof. unfold sm_atomic. destruct (m s) as [s1 [a|e]]; naive_solver. Qed.

Lemma sm_atomic_err {S A} (m : SM S A) s s' e : sm_atomic m s = (s', Err e) → s' = s.
Proof. unfold sm_atomic. destruct (m s) as [s1 [a|e']]; naive_solver. Qed.

Lemma sm_lift_Ok {S A} (m : result A) (s s' : S) x : sm_lift m s = (s', Ok x) ↔ s' = s ∧ m = Ok x.
Proof. unfold sm_lift. naive_solver. Qed.

(** ** Frames: what a computation leaves alone, on every outcome *)

Definition keeps {S A} (R : S → S → Prop) (m : SM S A) : Prop := ∀ s, R s (m s).1.

Lemma keeps_lift {S A} (R : S → S → Prop) `{!Reflexive R} (m : result A) : keeps R (sm_lift m).
Proof. by intros s. Qed.

Lemma keeps_get {S} (R : S → S → Prop) `{!Reflexive R} : keeps R sm_get.
Proof. by intros s. Qed.

Lemma keeps_raise {S A} (R : S → S → Prop) `{!Reflexive R} c msg : keeps R (@sm_raise S A c msg).
Proof. by intros s. Qed.

Lemma keeps_ret {S A} (R : S → S → Prop) `{!Reflexive R} (a : A) : keeps R (mret a : SM S A).
Proof. by intros s. Qed.

Lemma keeps_bind {S A B} (R : S → S → Prop) `{!Transitive R} (m : SM S A) (f : A → SM S B) :
  keeps R m → (∀ a, keeps R (f a)) → keeps R (m ≫= f).
Proof.
  intros Hm Hf s. unfold mbind, SM_bind. specialize (Hm s). destruct (m s) as [s1 [a|e]]; [|done].
  etransitivity; [exact Hm|apply Hf].
Qed.

(** The steps of a computation that keeps a preorder. *)
Ltac keeps_steps :=
  repeat first
    [ apply keeps_lift, _ | apply keeps_ret, _ | apply keeps_get, _ | solve [auto with bcc]
    | apply keeps_bind; [apply _| |intros] | progress case_match ].

(** ** Which exceptions a computation can raise *)

Definition raises_only {A} (P : exn → bool) (m : result A) : Prop := ∀ e, m = Err e → P e = true.

Lemma raises_only_ok {A} P (a : A) : raises_only P (Ok a).
Proof. by intros e. Qed.

Lemma raises_only_raise {A} (P : exn → bool) c msg : P (Exn c (py msg)) = true → raises_only P (@raise A c msg).
Proof. by intros Hp e [= <-]. Qed.

Lemma raises_only_if (P : exn → bool) b c msg :
  P (Exn c (py msg)) = true → raises_only P (raise_if b c msg).
Proof. unfold raise_if. destruct b; [apply raises_only_raise|]. by intros _ e. Qed.

Lemma raises_only_bind {A B} P (m : result A) (f : A → result B) :
  raises_only P m → (∀ a, m = Ok a → raises_only P (f a)) → raises_only P (m ≫= f).
Proof. intros Hm Hf. destruct m; simpl; [by apply Hf|]. intros e' [= <-]. by apply Hm. Qed.

Lemma raises_only_fmap {A B} P (m : result A) (f : A → B) : raises_only P m → raises_only P (f <$> m).
Proof. intros Hm. destruct m; simpl; [by intros e|]. intros e' [= <-]. by apply Hm. Qed.

(** ** Lists and integers *)

Lemma zlen_nonneg {A} (l : list A) : (0 ≤ zlen l)%Z.
Proof. unfold zlen; lia. Qed.

Lemma zlen_app {A} (l1 l2 : list A) : zlen (l1 ++ l2) = (zlen l1 + zlen l2)%Z.
Proof. unfold zlen. rewrite length_app. lia. Qed.

Lemma zlen_cons {A} (x : A) l : zlen (x :: l) = (1 + zlen l)%Z.
Proof. unfold zlen. simpl. lia. Qed.

Lemma zlen_to_nat {A} (l : list A) : Z.to_nat (zlen l) = length l.
Proof. unfold zlen. lia. Qed.

Lemma sumZ_app l1 l2 : sumZ (l1 ++ l2) = (sumZ l1 + sumZ l2)%Z.
Proof. unfold sumZ. induction l1; simpl; lia. Qed.

Lemma sumZ_nil : sumZ [] = 0%Z.
Proof. done. Qed.

Lemma sumZ_cons x l : sumZ (x :: l) = (x + sumZ l)%Z.
Proof. done. Qed.

#[global] Instance sumZ_perm : Proper ((≡ₚ) ==> (=)) sumZ.
Proof. unfold sumZ. induction 1; simpl; lia. Qed.

Lemma sumZ_nonneg l : Forall (λ x, 0 ≤ x)%Z l → (0 ≤ sumZ l)%Z.
Proof. induction 1; unfold sumZ in *; simpl; lia. Qed.

Lemma enumerate_lookup {A} (i : Z) (l : list A) (k : nat) :
  enumerate i l !! k = (λ x, ((i + Z.of_nat k)%Z, x)) <$> l !! k.
Proof.
  revert i k. induction l as [|x l IH]; intros i [|k]; simpl; try done.
  - by rewrite Z.add_0_r.
  - rewrite IH. destruct (l !! k); simpl; [|done]. do 2 f_equal. lia.
Qed.

Lemma filter_ext_in {A} (P Q : A → Prop) `{!∀ x, Decision (P x), !∀ x, Decision (Q x)} (l : list A) :
  (∀ x, x ∈ l → P x ↔ Q x) → filter P l = filter Q l.
Proof.
  induction l as [|x l IH]; intros HPQ; [done|]. rewrite !filter_cons, IH by (intros; apply HPQ; by right).
  pose proof (HPQ x (list_elem_of_here x l)). destruct (decide (P x)), (decide (Q x)); tauto.
Qed.

Lemma elem_of_enumerate {A} (i : Z) (l : list A) j x :
  (j, x) ∈ enumerate i l ↔ ∃ k : nat, l !! k = Some x ∧ j = (i + Z.of_nat k)%Z.
Proof.
  rewrite list_elem_of_lookup. split.
  - intros [k Hk]. rewrite enumerate_lookup in Hk.
    destruct (l !! k) eqn:E; simplify_eq/=. eauto.
  - intros (k & Hk & ->). exists k. by rewrite enumerate_lookup, Hk.
Qed.

Lemma enumerate_snd {A} (i : Z) (l : list A) : (enumerate i l).*2 = l.
Proof. revert i. induction l; intros; simpl; f_equal; auto. Qed.

Lemma enumerate_length {A} (i : Z) (l : list A) : length (enumerate i l) = length l.
Proof. revert i. induction l; intros; simpl; f_equal; auto. Qed.

(** ** Automation *)

Create HintDb bcc discriminated.
#[export] Hint Resolve zlen_nonneg : bcc.
#[export] Hint Resolve raises_only_ok raises_only_raise raises_only_if raises_only_bind
  raises_only_fmap : bcc.
#[export] Hint Resolve keeps_bind keeps_lift keeps_get keeps_raise keeps_ret : bcc.

(** [inv_ok H] takes a hypothesis [m = Ok x], [m] built from the combinators
    above, down to the facts on each step. *)
Ltac inv_ok_step H :=
  lazymatch type of H with
  | (raise_if _ _ _ ≫= _) = Ok _ =>
      let Hc := fresh "Hc" in apply raise_if_bind in H as [Hc H]
  | raise_if _ _ _ = Ok _ => apply raise_if_Ok in H
  | raise _ _ = Ok _ => by apply raise_not_Ok in H
  | (_ ≫= _) = Ok _ =>
      let x := fresh "x" in let Hx := fresh "Hx" in
      apply bind_Ok in H as (x & Hx & H)
  | (_ <$> _) = Ok _ =>
      let x := fresh "x" in let Hx := fresh "Hx" in
      apply result_fmap_Ok in H as (x & Hx & H)
  | Ok _ = Ok _ => apply Ok_inj in H
  | Err _ = Ok _ => discriminate H
  end.
Ltac inv_ok H := repeat (inv_ok_step H).
Ltac inv_oks := repeat match goal with H : _ = Ok _ |- _ => inv_ok_step H end.

(** The same for a computation of [SM] that returned. *)
Ltac inv_sm H :=
  lazymatch type of H with
  | (_ ≫= _) _ = (_, Ok _) =>
      let x := fresh "x" in let s := fresh "s" in let Hx := fresh "Hx" in
      apply SM_bind_Ok in H as (x & s & Hx & H); inv_sm Hx; inv_sm H
  | sm_lift _ _ = (_, Ok _) =>
      let E := fresh "E" in apply sm_lift_Ok in H as [E H]; subst
  | sm_get _ = (_, Ok _) => first [injection H as <- <- | injection H as <- | clear H]
  | sm_put _ _ = (_, Ok _) => first [injection H as <- <- | injection H as <- | clear H]
  | mret _ _ = (_, Ok _) => first [injection H as <- <- | injection H as <- | clear H]
  | _ => idtac
  end.

(** Turn boolean comparisons into propositions everywhere. *)
Ltac bool_prop :=
  repeat match goal with
  | H : (_ && _) = true |- _ => apply andb_true_iff in H as [? ?]
  | H : (_ || _) = false |- _ => apply orb_false_iff in H as [? ?]
  | H : negb _ = true |- _ => apply negb_true_iff in H
  | H : negb _ = false |- _ => apply negb_false_iff in H
  | H : (_ <? _)%Z = true |- _ => apply Z.ltb_lt in H
  | H : (_ <? _)%Z = false |- _ => apply Z.ltb_ge in H
  | H : (_ <=? _)%Z = true |- _ => apply Z.leb_le in H
  | H : (_ <=? _)%Z = false |- _ => apply Z.leb_gt in H
  | H : (_ =? _)%Z = true |- _ => apply Z.eqb_eq in H
  | H : (_ =? _)%Z = false |- _ => apply Z.eqb_neq in H
  | H : bool_decide _ = true |- _ => apply bool_decide_eq_true in H
  | H : bool_decide _ = false |- _ => apply bool_decide_eq_false in H
  end.

(** Goals that fix the value of boolean comparisons of integers. *)
Ltac bool_lia :=
  repeat match goal with
  | |- orb _ _ = false => apply orb_false_iff; split
  | |- andb _ _ = true => apply andb_true_iff; split
  | |- negb _ = false => apply negb_false_iff
  | |- negb _ = true => apply negb_true_iff
  end;
  first [done | apply Z.ltb_ge; lia | apply Z.leb_gt; lia | apply Z.ltb_lt; lia | apply Z.leb_le; lia
        | apply Z.eqb_eq; lia | apply Z.eqb_neq; lia].

(** ** Stable sorting by a boolean order ([sorted(l, key=...)]) *)

Fixpoint insert_by {A} (leb : A → A → bool) (x : A) (l : list A) : list A :=
  match l with
  | [] => [x]
  | y :: l' => if leb x y then x :: l else y :: insert_by leb x l'
  end.

Definition sort_by {A} (leb : A → A → bool) (l : list A) : list A := foldr (insert_by leb) [] l.

Lemma insert_by_perm {A} (leb : A → A → bool) x l : insert_by leb x l ≡ₚ x :: l.
Proof.
  induction l as [|y l IH]; simpl; [done|]. case_match; [done|].
  rewrite IH. apply Permutation_swap.
Qed.

Lemma sort_by_perm {A} (leb : A → A → bool) l : sort_by leb l ≡ₚ l.
Proof. induction l as [|x l IH]; simpl; [done|]. by rewrite insert_by_perm, IH. Qed.

Lemma Forall_sublist {A} (P : A → Prop) k l : k `sublist_of` l → Forall P l → Forall P k.
Proof. rewrite !Forall_forall. intros Hs Hl x Hx. apply Hl. by eapply elem_of_sublist. Qed.

Lemma sort_by_map {A B} (f : A → B) (la : A → A → bool) (lb : B → B → bool) l :
  (∀ x y, lb (f x) (f y) = la x y) → sort_by lb (map f l) = map f (sort_by la l).
Proof.
  intros Hf. induction l as [|x l IH]; [done|].
  change (insert_by lb (f x) (sort_by lb (map f l)) = map f (insert_by la x (sort_by la l))). rewrite IH. clear IH.
  induction (sort_by la l) as [|z k IHk]; [done|]. simpl. rewrite Hf. destruct (la x z); [done|]. simpl. by rewrite IHk.
Qed.

Section sorted.
Context {A : Type} (leb : A → A → bool).
Context (leb_total : ∀ x y, leb x y = true ∨ leb y x = true).
Context (leb_trans : ∀ x y z, leb x y = true → leb y z = true → leb x z = true).
Notation sorted := (StronglySorted (λ x y, leb x y = true)).

Lemma insert_by_sorted x l : sorted l → sorted (insert_by leb x l).
Proof using leb_total leb_trans.
  induction 1 as [|y l Hs IH Hy]; simpl; [by repeat constructor|].
  destruct (leb x y) eqn:E.
  - constructor; [by constructor|]. constructor; [done|].
    eapply Forall_impl; [done|]. eauto.
  - constructor; [done|]. rewrite insert_by_perm. constructor; [|done].
    destruct (leb_total x y); congruence.
Qed.

Lemma sort_by_sorted l : sorted (sort_by leb l).
Proof using leb_total leb_trans.
  induction l; simpl; [constructor|]. by apply insert_by_sorted.
Qed.

Lemma sort_by_sorted_id l : sorted l → sort_by leb l = l.
Proof.
  induction 1 as [|y l Hs IH Hy]; [done|]. change (insert_by leb y (sort_by leb l) = y :: l). rewrite IH.
  destruct Hy as [|z l Hz _]; simpl; [done|]. by rewrite Hz.
Qed.

(** Two sorted permutations of the same elements are equal, whatever order
    the elements came in. *)
Lemma sorted_perm_unique_in l1 l2 : (∀ x y, x ∈ l1 → y ∈ l1 → leb x y = true → leb y x = true → x = y) →
  sorted l1 → sorted l2 → l1 ≡ₚ l2 → l1 = l2.
Proof.
  intros Hanti H1. revert l2 Hanti. induction H1 as [|x l1 Hs1 IH Hx]; intros l2 Hanti H2 Hp.
  - by apply Permutation_nil in Hp.
  - destruct H2 as [|y l2 Hs2 Hy]; [by apply symmetry, Permutation_nil in Hp|].
    assert (x = y) as ->.
    { assert (Hxin : x ∈ y :: l2) by (rewrite <- Hp; left).
      assert (Hyin : y ∈ x :: l1) by (rewrite Hp; left).
      pose proof (Hanti x y (list_elem_of_here x l1) Hyin) as Hxy.
      apply elem_of_cons in Hxin as [->|Hxin]; [done|].
      apply elem_of_cons in Hyin as [->|Hyin]; [done|].
      rewrite Forall_forall in Hx, Hy. auto. }
    f_equal. apply IH; [|done|by eapply Permutation_cons_inv].
    intros a b Ha Hb. apply Hanti; by right.
Qed.

Context (leb_antisym : ∀ x y, leb x y = true → leb y x = true → x = y).

Lemma sorted_perm_unique l1 l2 : sorted l1 → sorted l2 → l1 ≡ₚ l2 → l1 = l2.
Proof using leb_antisym. apply sorted_perm_unique_in. auto. Qed.

Lemma sort_by_perm_eq l1 l2 : l1 ≡ₚ l2 → sort_by leb l1 = sort_by leb l2.
Proof using leb_total leb_trans leb_antisym.
  intros Hp. apply sorted_perm_unique; [apply sort_by_sorted..|]. by rewrite !sort_by_perm.
Qed.
End sorted.
