(* ===== verification/PyBytes.v ===== *)
(** * Python bytes and the [struct] formats the codecs use

    [bytes] is [list Byte.byte].  This file gives the bridge between bytes and
    integers, the big-endian [struct.pack]/[struct.unpack] formats [>q], [>Q],
    [>I], [>H] and [>d], and the lemmas the binary codecs need: a packed
    integer has the format's width, unpacking inverts packing, and packing
    inverts unpacking. *)

From S2P Require Import Prelude.
From Stdlib Require Import Init.Byte Strings.Byte.
Local Open Scope Z_scope.

Notation bytes := (list Byte.byte).

#[global] Instance byte_eq_dec : EqDecision Byte.byte := Byte.byte_eq_dec.

(** ** Bytes and integers *)

Definition byte_val (b : Byte.byte) : Z := Z.of_N (Byte.to_N b).

Definition byte_of (z : Z) : Byte.byte :=
  match Byte.of_N (Z.to_N (z mod 256)) with Some b => b | None => x00 end.

(** [int.from_bytes(b, "big")] *)
Fixpoint be_val_acc (acc : Z) (b : bytes) : Z :=
  match b with
  | [] => acc
  | x :: b' => be_val_acc (acc * 256 + byte_val x) b'
  end.
Definition be_val (b : bytes) : Z := be_val_acc 0 b.

(** [z.to_bytes(n, "big")] for [0 <= z < 256^n]. *)
Fixpoint be_bytes (n : nat) (z : Z) : bytes :=
  match n with
  | O => []
  | S n' => be_bytes n' (z / 256) ++ [byte_of z]
  end.

(** Text of one-byte characters, as in a Python bytes literal. *)
Definition b_lit (s : string) : bytes := byte_of <$> py s.

(** ** [struct] *)

(** [struct.pack(">q", v)] *)
Definition pack_q (v : Z) : result bytes :=
  if (- 2 ^ 63 <=? v) && (v <? 2 ^ 63) then Ok (be_bytes 8 (v mod 2 ^ 64))
  else raise StructError "int out of range for format q".

(** [struct.pack(">Q", v)] *)
Definition pack_Q (v : Z) : result bytes :=
  if (0 <=? v) && (v <? 2 ^ 64) then Ok (be_bytes 8 v)
  else raise StructError "int out of range for format Q".

(** [struct.pack(">I", v)] *)
Definition pack_I (v : Z) : result bytes :=
  if (0 <=? v) && (v <? 2 ^ 32) then Ok (be_bytes 4 v)
  else raise StructError "int out of range for format I".

(** [struct.pack(">H", v)] *)
Definition pack_H (v : Z) : result bytes :=
  if (0 <=? v) && (v <? 2 ^ 16) then Ok (be_bytes 2 v)
  else raise StructError "int out of range for format H".

(** A Python [float] is its IEEE 754 binary64 bit pattern, an integer in
    [0, 2^64): [struct.pack(">d", v)] writes the pattern. *)
Definition pack_d (v : Z) : bytes := be_bytes 8 v.

Definition unpack_q (b : bytes) : Z :=
  let u := be_val b in if u <? 2 ^ 63 then u else u - 2 ^ 64.
Definition unpack_Q (b : bytes) : Z := be_val b.
Definition unpack_I (b : bytes) : Z := be_val b.
Definition unpack_H (b : bytes) : Z := be_val b.
Definition unpack_d (b : bytes) : Z := be_val b.

(** ** Lemmas: bytes *)

Lemma byte_val_range b : 0 ≤ byte_val b < 256.
Proof.
  unfold byte_val. pose proof (Byte.to_N_bounded b) as Hb.
  change 256 with (Z.of_N (N.succ 255)). lia.
Qed.

Lemma byte_of_val b : byte_of (byte_val b) = b.
Proof.
  unfold byte_of, byte_val.
  pose proof (byte_val_range b) as Hb; unfold byte_val in Hb.
  rewrite Z.mod_small by done. by rewrite N2Z.id, Byte.of_to_N.
Qed.

Lemma byte_val_of z : byte_val (byte_of z) = z mod 256.
Proof.
  unfold byte_of, byte_val.
  pose proof (Z.mod_pos_bound z 256 eq_refl) as Hz.
  destruct (Byte.of_N (Z.to_N (z mod 256))) eqn:E.
  - apply Byte.to_of_N in E. rewrite E. lia.
  - apply Byte.of_N_None_iff in E. lia.
Qed.

Lemma byte_val_of_small z : 0 ≤ z < 256 → byte_val (byte_of z) = z.
Proof. intros. rewrite byte_val_of. by apply Z.mod_small. Qed.

Lemma byte_val_inj b1 b2 : byte_val b1 = byte_val b2 → b1 = b2.
Proof. intros H. by rewrite <- (byte_of_val b1), <- (byte_of_val b2), H. Qed.

(** ** Lemmas: big-endian integers *)

Lemma be_val_acc_app acc b1 b2 : be_val_acc acc (b1 ++ b2) = be_val_acc (be_val_acc acc b1) b2.
Proof. revert acc. induction b1; intros; simpl; auto. Qed.

Lemma be_val_snoc b x : be_val (b ++ [x]) = be_val b * 256 + byte_val x.
Proof. unfold be_val. by rewrite be_val_acc_app. Qed.

Lemma be_val_acc_spec acc b : be_val_acc acc b = acc * 256 ^ Z.of_nat (length b) + be_val b.
Proof.
  unfold be_val. revert acc. induction b as [|x b IH]; intros acc; cbn [be_val_acc length]; [cbn; lia|].
  rewrite (IH (acc * 256 + _)), (IH (0 * 256 + _)), Nat2Z.inj_succ, Z.pow_succ_r by lia. lia.
Qed.

Lemma be_val_cons x b : be_val (x :: b) = byte_val x * 256 ^ Z.of_nat (length b) + be_val b.
Proof. unfold be_val at 1. cbn [be_val_acc]. rewrite be_val_acc_spec. lia. Qed.

Lemma be_bytes_length n z : length (be_bytes n z) = n.
Proof. revert z. induction n; intros; simpl; [done|]. rewrite length_app, IHn. simpl. lia. Qed.

Lemma pow256_pos n : 0 < 256 ^ Z.of_nat n.
Proof. apply Z.pow_pos_nonneg; lia. Qed.

Lemma be_val_range b : 0 ≤ be_val b < 256 ^ Z.of_nat (length b).
Proof.
  induction b as [|x b IH] using rev_ind; [by cbn|].
  rewrite be_val_snoc, length_app. simpl length.
  replace (Z.of_nat (length b + 1)) with (Z.of_nat (length b) + 1) by lia.
  rewrite Z.pow_add_r by lia. pose proof (byte_val_range x). lia.
Qed.

Lemma be_val_bytes n z : 0 ≤ z < 256 ^ Z.of_nat n → be_val (be_bytes n z) = z.
Proof.
  revert z. induction n as [|n IH]; intros z Hz.
  - simpl in Hz. cbn. lia.
  - simpl be_bytes. rewrite be_val_snoc, byte_val_of, IH.
    + pose proof (Z.div_mod z 256). lia.
    + rewrite Nat2Z.inj_succ, Z.pow_succ_r in Hz by lia.
      split; [apply Z.div_pos; lia|]. apply Z.div_lt_upper_bound; lia.
Qed.

Lemma be_bytes_val b : be_bytes (length b) (be_val b) = b.
Proof.
  induction b as [|x b IH] using rev_ind; [done|].
  rewrite length_app, be_val_snoc. replace (length b + length [x])%nat with (S (length b)) by (simpl; lia).
  simpl be_bytes. pose proof (byte_val_range x) as Hx.
  rewrite Z.div_add_l by lia. rewrite (Z.div_small (byte_val x)) by lia.
  rewrite Z.add_0_r, IH. do 2 f_equal. apply byte_val_inj.
  rewrite byte_val_of. rewrite Z.add_comm, Z.mod_add by lia. by apply Z.mod_small.
Qed.

Lemma be_val_inj b1 b2 : length b1 = length b2 → be_val b1 = be_val b2 → b1 = b2.
Proof. intros Hl Hv. by rewrite <- (be_bytes_val b1), <- (be_bytes_val b2), Hl, Hv. Qed.

(** ** Lemmas: [struct] *)

Lemma pack_q_length v b : pack_q v = Ok b → length b = 8%nat.
Proof. unfold pack_q. case_match; intros H'; [|by apply raise_not_Ok in H'].
  apply Ok_inj in H' as <-. apply be_bytes_length. Qed.

Lemma pack_Q_length v b : pack_Q v = Ok b → length b = 8%nat.
Proof. unfold pack_Q. case_match; intros H'; [|by apply raise_not_Ok in H'].
  apply Ok_inj in H' as <-. apply be_bytes_length. Qed.

Lemma pack_I_length v b : pack_I v = Ok b → length b = 4%nat.
Proof. unfold pack_I. case_match; intros H'; [|by apply raise_not_Ok in H'].
  apply Ok_inj in H' as <-. apply be_bytes_length. Qed.

Lemma pack_unpack_q v b : pack_q v = Ok b → unpack_q b = v.
Proof.
  unfold pack_q. case_match eqn:E; intros H'; [|by apply raise_not_Ok in H'].
  apply Ok_inj in H' as <-. bool_prop. unfold unpack_q.
  rewrite be_val_bytes by (apply Z.mod_pos_bound; lia).
  destruct (Z.ltb_spec v 0).
  - replace (v mod 2 ^ 64) with (v + 2 ^ 64).
    + case_match; bool_prop; lia.
    + symmetry. rewrite <- (Z.mod_add v 1) by lia. rewrite Z.mul_1_l. apply Z.mod_small. lia.
  - rewrite Z.mod_small by lia. case_match; bool_prop; lia.
Qed.

Lemma unpack_pack_q b : length b = 8%nat → pack_q (unpack_q b) = Ok b.
Proof.
  intros Hl. pose proof (be_val_range b) as Hb. rewrite Hl in Hb.
  change (256 ^ Z.of_nat 8) with (2 ^ 64) in Hb.
  assert (Hm : (unpack_q b) mod 2 ^ 64 = be_val b).
  { unfold unpack_q. case_match; bool_prop.
    - apply Z.mod_small; lia.
    - rewrite <- (Z.mod_add _ 1) by lia. rewrite Z.mul_1_l, Z.sub_add. apply Z.mod_small; lia. }
  unfold pack_q. rewrite Hm.
  replace ((_ <=? _) && _) with true.
  - by rewrite <- Hl, be_bytes_val.
  - symmetry. apply andb_true_iff. unfold unpack_q.
    case_match; bool_prop; split; [apply Z.leb_le|apply Z.ltb_lt|apply Z.leb_le|apply Z.ltb_lt]; lia.
Qed.

Lemma pack_unpack_Q v b : pack_Q v = Ok b → unpack_Q b = v.
Proof.
  unfold pack_Q. case_match eqn:E; intros H'; [|by apply raise_not_Ok in H'].
  apply Ok_inj in H' as <-. bool_prop. apply be_val_bytes. change (256 ^ Z.of_nat 8) with (2 ^ 64). lia.
Qed.

Lemma unpack_Q_range b : length b = 8%nat → 0 ≤ unpack_Q b < 2 ^ 64.
Proof. intros Hl. pose proof (be_val_range b) as Hb. rewrite Hl in Hb. done. Qed.

Lemma unpack_pack_Q b : length b = 8%nat → pack_Q (unpack_Q b) = Ok b.
Proof.
  intros Hl. pose proof (unpack_Q_range b Hl) as Hb. unfold pack_Q.
  replace ((_ <=? _) && _) with true.
  - unfold unpack_Q. by rewrite <- Hl, be_bytes_val.
  - symmetry. apply andb_true_iff. split; [apply Z.leb_le|apply Z.ltb_lt]; lia.
Qed.

Lemma pack_unpack_I v b : pack_I v = Ok b → unpack_I b = v.
Proof.
  unfold pack_I. case_match eqn:E; intros H'; [|by apply raise_not_Ok in H'].
  apply Ok_inj in H' as <-. bool_prop. apply be_val_bytes. change (256 ^ Z.of_nat 4) with (2 ^ 32). lia.
Qed.

Lemma unpack_I_range b : length b = 4%nat → 0 ≤ unpack_I b < 2 ^ 32.
Proof. intros Hl. pose proof (be_val_range b) as Hb. rewrite Hl in Hb. done. Qed.

Lemma unpack_pack_I b : length b = 4%nat → pack_I (unpack_I b) = Ok b.
Proof.
  intros Hl. pose proof (unpack_I_range b Hl) as Hb. unfold pack_I.
  replace ((_ <=? _) && _) with true.
  - unfold unpack_I. by rewrite <- Hl, be_bytes_val.
  - symmetry. apply andb_true_iff. split; [apply Z.leb_le|apply Z.ltb_lt]; lia.
Qed.

Lemma pack_d_length v : length (pack_d v) = 8%nat.
Proof. apply be_bytes_length. Qed.

Lemma pack_unpack_d v : 0 ≤ v < 2 ^ 64 → unpack_d (pack_d v) = v.
Proof. intros. apply be_val_bytes. done. Qed.

Lemma unpack_pack_d b : length b = 8%nat → pack_d (unpack_d b) = b.
Proof. intros Hl. unfold pack_d, unpack_d. by rewrite <- Hl, be_bytes_val. Qed.

Lemma unpack_d_range b : length b = 8%nat → 0 ≤ unpack_d b < 2 ^ 64.
Proof. intros Hl. pose proof (be_val_range b) as Hb. rewrite Hl in Hb. done. Qed.

#[export] Hint Resolve pack_q_length pack_Q_length pack_I_length pack_d_length : bcc.
