(* ===== verification/PyText.v ===== *)
(** * Python text: UTF-8, hexadecimal, ordering and decimal printing

    [str.encode("utf-8")] and [bytes.decode("utf-8")] (strict), [bytes.hex] and
    [bytes.fromhex] (which skips ASCII white space and accepts both cases), the
    code-point order of [str], and [str(int)].  The round trips in both
    directions are what makes the binary codecs of the program canonical. *)

From S2P Require Import Prelude PyBytes.
Local Open Scope Z_scope.

(** ** UTF-8 *)

(** A Unicode scalar value; the surrogates, which a Python [str] may hold,
    cannot be encoded. *)
Definition scalar (c : Z) : bool :=
  ((0 <=? c) && (c <? 0xD800)) || ((0xE000 <=? c) && (c <? 0x110000)).

Definition utf8_char (c : Z) : bytes :=
  if c <? 0x80 then [byte_of c]
  else if c <? 0x800 then [byte_of (0xC0 + c / 64); byte_of (0x80 + c mod 64)]
  else if c <? 0x10000 then
    [byte_of (0xE0 + c / 4096); byte_of (0x80 + c / 64 mod 64); byte_of (0x80 + c mod 64)]
  else
    [byte_of (0xF0 + c / 262144); byte_of (0x80 + c / 4096 mod 64);
     byte_of (0x80 + c / 64 mod 64); byte_of (0x80 + c mod 64)].

Fixpoint utf8_encode (s : str) : result bytes :=
  match s with
  | [] => Ok []
  | c :: s' =>
      raise_if (negb (scalar c)) UnicodeError "surrogates not allowed";;
      b ← utf8_encode s';
      Ok (utf8_char c ++ b)
  end.

Definition cont (b : Byte.byte) : bool := (0x80 <=? byte_val b) && (byte_val b <? 0xC0).
Definition cont_val (b : Byte.byte) : Z := byte_val b - 0x80.

Definition utf8_error {A} : result A := raise UnicodeError "invalid utf-8".

(** Strict decoding: overlong forms, surrogates and values past U+10FFFF are
    refused. *)
Fixpoint utf8_decode (b : bytes) : result str :=
  match b with
  | [] => Ok []
  | b0 :: r0 =>
      let v0 := byte_val b0 in
      if v0 <? 0x80 then cons v0 <$> utf8_decode r0
      else match r0 with
      | [] => utf8_error
      | b1 :: r1 =>
          if negb (cont b1) then utf8_error
          else if (0xC2 <=? v0) && (v0 <? 0xE0) then
            cons ((v0 - 0xC0) * 64 + cont_val b1) <$> utf8_decode r1
          else match r1 with
          | [] => utf8_error
          | b2 :: r2 =>
              if negb (cont b2) then utf8_error
              else if (0xE0 <=? v0) && (v0 <? 0xF0) then
                let c := (v0 - 0xE0) * 4096 + cont_val b1 * 64 + cont_val b2 in
                if (0x800 <=? c) && scalar c then cons c <$> utf8_decode r2 else utf8_error
              else match r2 with
              | [] => utf8_error
              | b3 :: r3 =>
                  if negb (cont b3) then utf8_error
                  else if (0xF0 <=? v0) && (v0 <? 0xF5) then
                    let c := (v0 - 0xF0) * 262144 + cont_val b1 * 4096
                             + cont_val b2 * 64 + cont_val b3 in
                    if (0x10000 <=? c) && scalar c then cons c <$> utf8_decode r3
                    else utf8_error
                  else utf8_error
              end
          end
      end
  end.

(** ** Hexadecimal *)

Definition hex_digit (d : Z) : Z := if d <? 10 then 48 + d else 87 + d.

(** [b.hex()] *)
Fixpoint bytes_hex (b : bytes) : str :=
  match b with
  | [] => []
  | x :: b' => hex_digit (byte_val x / 16) :: hex_digit (byte_val x mod 16) :: bytes_hex b'
  end.

Definition hex_val (c : Z) : option Z :=
  if (48 <=? c) && (c <? 58) then Some (c - 48)
  else if (97 <=? c) && (c <? 103) then Some (c - 87)
  else if (65 <=? c) && (c <? 71) then Some (c - 55)
  else None.

Definition is_space (c : Z) : bool := (c =? 32) || ((9 <=? c) && (c <=? 13)).

(** [bytes.fromhex(s)] *)
Fixpoint fromhex (s : str) : result bytes :=
  match s with
  | [] => Ok []
  | c :: s' =>
      if is_space c then fromhex s'
      else match hex_val c, s' with
      | Some hi, c2 :: s'' =>
          match hex_val c2 with
          | Some lo => b ← fromhex s''; Ok (byte_of (hi * 16 + lo) :: b)
          | None => raise ValueError "non-hexadecimal number found in fromhex() arg"
          end
      | _, _ => raise ValueError "non-hexadecimal number found in fromhex() arg"
      end
  end.

(** [char in "0123456789abcdef"] *)
Definition lower_hex (c : Z) : bool :=
  ((48 <=? c) && (c <? 58)) || ((97 <=? c) && (c <? 103)).

(** ** Order: [str] compares by code points, a prefix first *)

Fixpoint str_compare (s t : str) : comparison :=
  match s, t with
  | [], [] => Eq
  | [], _ :: _ => Lt
  | _ :: _, [] => Gt
  | x :: s', y :: t' =>
      match x ?= y with Eq => str_compare s' t' | c => c end
  end.

Definition str_ltb (s t : str) : bool := match str_compare s t with Lt => true | _ => false end.
Definition str_leb (s t : str) : bool := match str_compare s t with Gt => false | _ => true end.

(** [s.startswith(p)] *)
Fixpoint startswith (s p : str) : bool :=
  match p, s with
  | [], _ => true
  | x :: p', y :: s' => (x =? y) && startswith s' p'
  | _ :: _, [] => false
  end.

(** ** [str(int)] *)

Fixpoint dec_aux (fuel : nat) (n : Z) (acc : str) : str :=
  match fuel with
  | O => acc
  | S fuel' =>
      let acc' := 48 + n mod 10 :: acc in
      if n <? 10 then acc' else dec_aux fuel' (n / 10) acc'
  end.

(** [S (log2 n)] digits are enough for [n]. *)
Definition dec_nonneg (n : Z) : str := dec_aux (S (Z.to_nat (Z.log2 n))) n [].

Definition str_of_int (z : Z) : str :=
  if z <? 0 then 45 :: dec_nonneg (- z) else dec_nonneg z.

(** ** Lemmas: UTF-8 *)

Lemma scalar_spec c : scalar c = true ↔ 0 ≤ c < 0xD800 ∨ 0xE000 ≤ c < 0x110000.
Proof. unfold scalar. rewrite orb_true_iff, !andb_true_iff, !Z.leb_le, !Z.ltb_lt. lia. Qed.

Lemma div64_mod c : c mod 64 = c - 64 * (c / 64).
Proof. pose proof (Z.div_mod c 64). lia. Qed.

Ltac utf8_bytes :=
  rewrite ?byte_val_of_small
    by (repeat match goal with |- context [?x mod 64] =>
          rewrite (div64_mod x) end;
        Z.to_euclidean_division_equations; lia).

Ltac decide_if :=
  match goal with
  | |- context [if ?b then _ else _] =>
      first [ replace b with true by (symmetry; rewrite ?andb_true_iff, ?negb_true_iff,
                ?andb_false_iff, ?Z.leb_le, ?Z.ltb_lt, ?Z.leb_gt, ?Z.ltb_ge;
                Z.to_euclidean_division_equations; lia)
            | replace b with false by (symmetry; rewrite ?andb_false_iff, ?negb_false_iff,
                ?andb_true_iff, ?Z.leb_le, ?Z.ltb_lt, ?Z.leb_gt, ?Z.ltb_ge;
                Z.to_euclidean_division_equations; lia) ]
  end.

Lemma cont_byte d : 0 ≤ d < 64 → cont (byte_of (0x80 + d)) = true.
Proof.
  intros. unfold cont. rewrite byte_val_of_small by lia.
  apply andb_true_iff. rewrite Z.leb_le, Z.ltb_lt. lia.
Qed.

Lemma cont_val_byte d : 0 ≤ d < 64 → cont_val (byte_of (0x80 + d)) = d.
Proof. intros. unfold cont_val. rewrite byte_val_of_small by lia. lia. Qed.

Lemma mod64_range c : 0 ≤ c mod 64 < 64.
Proof. apply Z.mod_pos_bound. lia. Qed.

#[local] Hint Resolve mod64_range : core.

Lemma utf8_decode_char c r :
  scalar c = true → utf8_decode (utf8_char c ++ r) = cons c <$> utf8_decode r.
Proof.
  intros Hs. pose proof (proj1 (scalar_spec c) Hs) as Hc. unfold utf8_char.
  destruct (Z.ltb_spec c 0x80); [|destruct (Z.ltb_spec c 0x800); [|destruct (Z.ltb_spec c 0x10000)]];
    cbn [app utf8_decode];
    rewrite ?cont_byte, ?cont_val_byte by auto; cbn [negb];
    rewrite byte_val_of_small by (Z.to_euclidean_division_equations; lia).
  - by decide_if.
  - do 2 decide_if. do 2 f_equal. Z.to_euclidean_division_equations; lia.
  - do 2 decide_if. decide_if.
    match goal with |- context [cons ?x <$> _] => replace x with c
      by (Z.to_euclidean_division_equations; lia) end.
    replace ((0xE0 + c / 4096 - 0xE0) * 4096 + c / 64 mod 64 * 64 + c mod 64) with c
      by (Z.to_euclidean_division_equations; lia).
    rewrite Hs. by decide_if.
  - do 3 decide_if. decide_if.
    replace ((0xF0 + c / 262144 - 0xF0) * 262144 + c / 4096 mod 64 * 4096 + c / 64 mod 64 * 64
             + c mod 64) with c by (Z.to_euclidean_division_equations; lia).
    rewrite Hs. by decide_if.
Qed.

(** Decoding inverts encoding. *)
Lemma utf8_decode_encode s b r :
  utf8_encode s = Ok b → utf8_decode (b ++ r) = app s <$> utf8_decode r.
Proof.
  revert b. induction s as [|c s IH]; intros b H; simpl in H; inv_ok H.
  - subst. rewrite app_nil_l. by destruct (utf8_decode r).
  - subst. bool_prop. rewrite <- app_assoc, utf8_decode_char, IH by done.
    by destruct (utf8_decode r).
Qed.

Lemma utf8_encode_app s t : utf8_encode (s ++ t) =
  (b1 ← utf8_encode s; b2 ← utf8_encode t; Ok (b1 ++ b2)).
Proof.
  induction s as [|c s IH]; simpl.
  - by destruct (utf8_encode t).
  - rewrite IH. destruct (raise_if _ _ _); simpl; [|done].
    destruct (utf8_encode s); simpl; [|done].
    destruct (utf8_encode t); simpl; [|done]. by rewrite app_assoc.
Qed.

Lemma cont_spec b : cont b = true → 0 ≤ cont_val b < 64 ∧ byte_val b = 0x80 + cont_val b.
Proof. unfold cont, cont_val. intros. bool_prop. lia. Qed.

Lemma byte_of_eq b z : byte_val b = z → byte_of z = b.
Proof. intros <-. apply byte_of_val. Qed.

(** Encoding inverts decoding: the text form is the only one with these
    bytes. *)
Lemma utf8_encode_decode b s : utf8_decode b = Ok s → utf8_encode s = Ok b.
Proof.
  remember (length b) as n eqn:Hn. revert b s Hn.
  induction (lt_wf n) as [n _ IH]. intros [|b0 r0] s Hn H; cbn [utf8_decode] in H.
  { by inv_ok H; subst. }
  assert (Hrec : ∀ r s', (length r < n)%nat → utf8_decode r = Ok s' → utf8_encode s' = Ok r)
    by (intros; by eapply IH).
  assert (Hstep : ∀ c r s', scalar c = true → (length r < n)%nat → utf8_decode r = Ok s' →
            utf8_encode (c :: s') = Ok (utf8_char c ++ r)).
  { intros c r s' Hc Hr Hs'. cbn [utf8_encode]. rewrite Hc. simpl. by rewrite (Hrec r s'). }
  clear IH. pose proof (byte_val_range b0) as Hb0. simpl length in Hn.
  destruct (Z.ltb_spec (byte_val b0) 0x80).
  { inv_ok H. subst. erewrite Hstep; [..|done]; [|apply scalar_spec; lia|lia].
    unfold utf8_char. decide_if. by rewrite byte_of_val. }
  destruct r0 as [|b1 r1]; [done|]. destruct (cont b1) eqn:E1; [|done]. cbn [negb] in H.
  apply cont_spec in E1 as [Hv1 Hb1].
  destruct ((0xC2 <=? byte_val b0) && (byte_val b0 <? 0xE0)) eqn:E0.
  { inv_ok H. bool_prop. subst. erewrite Hstep; [..|done]; [|apply scalar_spec; lia|simpl; lia].
    unfold utf8_char. do 2 decide_if. simpl. do 3 f_equal; [|f_equal]; apply byte_of_eq;
      Z.to_euclidean_division_equations; lia. }
  destruct r1 as [|b2 r2]; [done|]. destruct (cont b2) eqn:E2; [|done]. cbn [negb] in H.
  apply cont_spec in E2 as [Hv2 Hb2].
  destruct ((0xE0 <=? byte_val b0) && (byte_val b0 <? 0xF0)) eqn:E0'.
  { case_match eqn:Ec; [|done]. inv_ok H. bool_prop. subst.
    erewrite Hstep; [..|done]; [|done|simpl; lia].
    unfold utf8_char. do 3 decide_if. simpl.
    do 2 f_equal; [|f_equal; [|f_equal]]; apply byte_of_eq;
      Z.to_euclidean_division_equations; lia. }
  destruct r2 as [|b3 r3]; [done|]. destruct (cont b3) eqn:E3; [|done]. cbn [negb] in H.
  apply cont_spec in E3 as [Hv3 Hb3].
  case_match eqn:E0''; [|done]. case_match eqn:Ec; [|done]. inv_ok H. bool_prop. subst.
  erewrite Hstep; [..|done]; [|done|simpl; lia].
  unfold utf8_char. do 3 decide_if. simpl.
  do 2 f_equal; [|f_equal; [|f_equal; [|f_equal]]]; apply byte_of_eq;
    Z.to_euclidean_division_equations; lia.
Qed.

Lemma utf8_encode_scalar s b : utf8_encode s = Ok b → Forall (λ c, scalar c = true) s.
Proof.
  revert b. induction s as [|c s IH]; intros b H; simpl in H; inv_ok H; constructor; eauto.
  by bool_prop.
Qed.

Lemma utf8_encode_inj s t b : utf8_encode s = Ok b → utf8_encode t = Ok b → s = t.
Proof.
  intros Hs Ht. apply (utf8_decode_encode _ _ []) in Hs, Ht. rewrite Hs in Ht.
  simpl in Ht. rewrite !app_nil_r in Ht. congruence.
Qed.

Lemma utf8_decode_encode_nil s b : utf8_encode s = Ok b → utf8_decode b = Ok s.
Proof.
  intros H. apply (utf8_decode_encode _ _ []) in H.
  by rewrite app_nil_r in H; simpl in H; rewrite app_nil_r in H.
Qed.

(** ** Lemmas: hexadecimal *)

Lemma hex_val_digit d : 0 ≤ d < 16 → hex_val (hex_digit d) = Some d.
Proof.
  intros. unfold hex_val, hex_digit. destruct (Z.ltb_spec d 10).
  - decide_if. f_equal. lia.
  - do 2 decide_if. f_equal. lia.
Qed.

Lemma hex_digit_lower d : 0 ≤ d < 16 → lower_hex (hex_digit d) = true.
Proof.
  intros. unfold lower_hex, hex_digit. apply orb_true_iff. rewrite !andb_true_iff, !Z.leb_le, !Z.ltb_lt.
  destruct (Z.ltb_spec d 10); lia.
Qed.

Lemma hex_digit_val c d : lower_hex c = true → hex_val c = Some d → hex_digit d = c ∧ 0 ≤ d < 16.
Proof.
  unfold lower_hex, hex_val, hex_digit. rewrite orb_true_iff, !andb_true_iff, !Z.leb_le, !Z.ltb_lt.
  intros Hc. repeat case_match; intros [= <-]; bool_prop; lia.
Qed.

Lemma lower_hex_not_space c : lower_hex c = true → is_space c = false.
Proof.
  unfold lower_hex, is_space. rewrite orb_true_iff, orb_false_iff, !andb_true_iff, andb_false_iff.
  rewrite !Z.leb_le, !Z.ltb_lt, Z.eqb_neq, !Z.leb_gt. lia.
Qed.

Lemma byte_hex_range x : 0 ≤ byte_val x / 16 < 16 ∧ 0 ≤ byte_val x mod 16 < 16.
Proof. pose proof (byte_val_range x). Z.to_euclidean_division_equations; lia. Qed.

Lemma fromhex_hex b : fromhex (bytes_hex b) = Ok b.
Proof.
  induction b as [|x b IH]; [done|]. cbn [bytes_hex fromhex].
  destruct (byte_hex_range x) as [Hd Hm].
  rewrite lower_hex_not_space by by apply hex_digit_lower.
  rewrite !hex_val_digit by done. rewrite IH. simpl. do 2 f_equal.
  apply byte_of_eq. pose proof (Z.div_mod (byte_val x) 16). lia.
Qed.

Lemma hex_fromhex_lower s b : Forall (λ c, lower_hex c = true) s → fromhex s = Ok b → bytes_hex b = s.
Proof.
  remember (length s) as n eqn:Hn. revert s b Hn.
  induction (lt_wf n) as [n _ IH]. intros [|c [|c2 s]] b Hn Hs H; cbn [fromhex] in H.
  - by inv_ok H; subst.
  - apply Forall_cons in Hs as [Hc _]. rewrite lower_hex_not_space in H by done.
    by destruct (hex_val c).
  - apply Forall_cons in Hs as [Hc Hs]. apply Forall_cons in Hs as [Hc2 Hs].
    rewrite lower_hex_not_space in H by done.
    destruct (hex_val c) as [hi|] eqn:Eh; [|done]. destruct (hex_val c2) as [lo|] eqn:El; [|done].
    inv_ok H. subst. apply hex_digit_val in Eh as [Eh Rh]; [|done].
    apply hex_digit_val in El as [El Rl]; [|done].
    cbn [bytes_hex]. rewrite byte_val_of_small by lia.
    replace ((hi * 16 + lo) / 16) with hi by (Z.to_euclidean_division_equations; lia).
    replace ((hi * 16 + lo) mod 16) with lo by (Z.to_euclidean_division_equations; lia).
    rewrite Eh, El. do 2 f_equal. eapply IH; [|done|done|done]. simpl. lia.
Qed.

Lemma bytes_hex_length b : length (bytes_hex b) = (2 * length b)%nat.
Proof. induction b; simpl; lia. Qed.

Lemma bytes_hex_lower b : Forall (λ c, lower_hex c = true) (bytes_hex b).
Proof.
  induction b as [|x b IH]; simpl; [done|]. destruct (byte_hex_range x).
  repeat constructor; auto using hex_digit_lower.
Qed.

Lemma bytes_hex_inj b1 b2 : bytes_hex b1 = bytes_hex b2 → b1 = b2.
Proof. intros H. apply Ok_inj. by rewrite <- !fromhex_hex, H. Qed.

(** ** Lemmas: order *)

Lemma str_compare_eq s t : str_compare s t = Eq ↔ s = t.
Proof.
  revert t. induction s as [|x s IH]; intros [|y t]; simpl; try done.
  destruct (Z.compare_spec x y); subst.
  - rewrite IH. naive_solver.
  - split; [done|]. intros [=]; lia.
  - split; [done|]. intros [=]; lia.
Qed.

Lemma str_compare_refl s : str_compare s s = Eq.
Proof. by apply str_compare_eq. Qed.

Lemma str_compare_antisym s t : str_compare t s = CompOpp (str_compare s t).
Proof.
  revert t. induction s as [|x s IH]; intros [|y t]; simpl; try done.
  rewrite (Z.compare_antisym x y). destruct (x ?= y); simpl; auto.
Qed.

Lemma str_compare_trans s t u :
  str_compare s t = Lt → str_compare t u = Lt → str_compare s u = Lt.
Proof.
  revert t u. induction s as [|x s IH]; intros [|y t] [|z u]; simpl; try done.
  destruct (Z.compare_spec x y), (Z.compare_spec y z); subst; try done; intros H1 H2.
  - rewrite Z.compare_refl. eauto.
  - by rewrite (proj2 (Z.compare_lt_iff _ _)).
  - by rewrite (proj2 (Z.compare_lt_iff _ _)).
  - rewrite (proj2 (Z.compare_lt_iff x z)); [done|lia].
Qed.

Lemma str_ltb_spec s t : str_ltb s t = true ↔ str_compare s t = Lt.
Proof. unfold str_ltb. by destruct (str_compare s t). Qed.

Lemma str_leb_spec s t : str_leb s t = true ↔ str_compare s t ≠ Gt.
Proof. unfold str_leb. by destruct (str_compare s t). Qed.

Lemma str_leb_total s t : str_leb s t = true ∨ str_leb t s = true.
Proof.
  rewrite !str_leb_spec, (str_compare_antisym s t). destruct (str_compare s t); simpl; naive_solver.
Qed.

Lemma str_leb_trans s t u : str_leb s t = true → str_leb t u = true → str_leb s u = true.
Proof.
  rewrite !str_leb_spec. intros H1 H2 H3.
  destruct (str_compare s t) eqn:E1; [|clear H1|done].
  - by apply str_compare_eq in E1 as ->.
  - destruct (str_compare t u) eqn:E2; [|clear H2|done].
    + apply str_compare_eq in E2 as ->. congruence.
    + rewrite (str_compare_trans s t u) in H3; done.
Qed.

Lemma str_leb_antisym s t : str_leb s t = true → str_leb t s = true → s = t.
Proof.
  rewrite !str_leb_spec, (str_compare_antisym s t), <- str_compare_eq.
  destruct (str_compare s t); simpl; naive_solver.
Qed.

Lemma startswith_spec s p : startswith s p = true ↔ p `prefix_of` s.
Proof.
  revert s. induction p as [|x p IH]; intros [|y s]; simpl.
  - split; [|done]. intros _. by exists [].
  - split; [|done]. intros _. by exists (y :: s).
  - split; [done|]. by intros [k Hk].
  - rewrite andb_true_iff, Z.eqb_eq, IH. split.
    + intros [-> [k ->]]. by exists k.
    + intros [k [= -> ->]]. split; [done|]. by exists k.
Qed.

(** ** Lemmas: decimals *)

Definition is_digit (c : Z) : bool := (48 <=? c) && (c <? 58).

Definition dec_val (s : str) : Z := foldl (λ a c, a * 10 + (c - 48)) 0 s.

Lemma dec_aux_app fuel n acc : dec_aux fuel n acc = dec_aux fuel n [] ++ acc.
Proof.
  revert n acc. induction fuel as [|fuel IH]; intros; simpl; [done|].
  case_match; [done|]. rewrite IH, (IH _ [_]). by rewrite <- app_assoc.
Qed.

Lemma dec_aux_val fuel n : 0 ≤ n < 2 ^ Z.of_nat fuel → dec_val (dec_aux fuel n []) = n.
Proof.
  revert n. induction fuel as [|fuel IH]; intros n Hn; simpl; [simpl in Hn; cbn; lia|].
  case_match; bool_prop.
  - cbn. rewrite Z.mod_small by lia. lia.
  - rewrite dec_aux_app. unfold dec_val. rewrite foldl_app. fold (dec_val (dec_aux fuel (n / 10) [])).
    rewrite IH; [simpl; pose proof (Z.div_mod n 10); lia|].
    rewrite Nat2Z.inj_succ, Z.pow_succ_r in Hn by lia.
    split; [apply Z.div_pos; lia|]. apply Z.div_lt_upper_bound; lia.
Qed.

Lemma dec_nonneg_val n : 0 ≤ n → dec_val (dec_nonneg n) = n.
Proof.
  intros Hn. apply dec_aux_val. split; [done|].
  rewrite Nat2Z.inj_succ, Z2Nat.id by apply Z.log2_nonneg.
  destruct (decide (n = 0)) as [->|]; [done|]. apply Z.log2_spec. lia.
Qed.

Lemma dec_nonneg_digits n : Forall (λ c, is_digit c = true) (dec_nonneg n).
Proof.
  unfold dec_nonneg. generalize (S (Z.to_nat (Z.log2 n))) as fuel. intros fuel. revert n.
  assert (Hd : ∀ n, is_digit (48 + n mod 10) = true).
  { intros n. pose proof (Z.mod_pos_bound n 10 eq_refl). unfold is_digit.
    apply andb_true_iff. rewrite Z.leb_le, Z.ltb_lt. lia. }
  induction fuel as [|fuel IH]; intros n; simpl; [done|]. case_match.
  - by repeat constructor.
  - rewrite dec_aux_app. apply Forall_app. split; [done|]. by repeat constructor.
Qed.

Lemma dec_nonneg_inj n m : 0 ≤ n → 0 ≤ m → dec_nonneg n = dec_nonneg m → n = m.
Proof. intros Hn Hm H. by rewrite <- (dec_nonneg_val n), <- (dec_nonneg_val m), H. Qed.

Lemma dec_nonneg_nonempty n : dec_nonneg n ≠ [].
Proof.
  unfold dec_nonneg. simpl. case_match; [done|]. rewrite dec_aux_app. by destruct (dec_aux _ _ _).
Qed.

Lemma str_of_int_inj n m : str_of_int n = str_of_int m → n = m.
Proof.
  assert (Hhd : ∀ a b, 45 :: a = dec_nonneg b → False).
  { intros a b E. pose proof (dec_nonneg_digits b) as Hd. rewrite <- E in Hd.
    by apply Forall_cons in Hd as [? _]. }
  unfold str_of_int. do 2 case_match; bool_prop; intros E.
  - injection E as E. apply dec_nonneg_inj in E; lia.
  - by apply Hhd in E.
  - symmetry in E. by apply Hhd in E.
  - apply dec_nonneg_inj in E; lia.
Qed.

Definition int_char (c : Z) : bool := is_digit c || (c =? 45).

Lemma str_of_int_chars n : Forall (λ c, int_char c = true) (str_of_int n).
Proof.
  assert (H : ∀ m, Forall (λ c, int_char c = true) (dec_nonneg m)).
  { intros m. eapply Forall_impl; [apply dec_nonneg_digits|]. intros c Hc. simpl in Hc.
    unfold int_char. by rewrite Hc. }
  unfold str_of_int. case_match; [constructor; [done|]|]; apply H.
Qed.

Lemma utf8_encode_raises s : raises_only is_value_error (utf8_encode s).
Proof. induction s; cbn [utf8_encode]; auto with bcc. Qed.

Lemma fromhex_raises s : raises_only (exn_is ValueError) (fromhex s).
Proof.
  remember (length s) as n eqn:Hn. revert s Hn. induction (lt_wf n) as [n _ IH].
  intros [|c [|c2 s]] ->; cbn [fromhex]; repeat case_match;
    repeat (apply raises_only_bind; [|by auto with bcc]); auto with bcc;
    (eapply IH; [|reflexivity]; simpl; lia).
Qed.

Lemma utf8_decode_raises b : raises_only (exn_is UnicodeError) (utf8_decode b).
Proof.
  remember (length b) as n eqn:Hn. revert b Hn. induction (lt_wf n) as [n _ IH].
  assert (Hu : ∀ A, raises_only (exn_is UnicodeError) (@utf8_error A)) by (intros; by apply raises_only_raise).
  intros [|b0 r] ->; cbn [utf8_decode]; cbv zeta; [auto with bcc|].
  repeat case_match; auto with bcc; subst; apply raises_only_fmap;
    (eapply IH; [|reflexivity]; simpl; lia).
Qed.

Lemma utf8_encode_ascii s : Forall (λ c, 0 ≤ c < 128) s → ∃ b, utf8_encode s = Ok b.
Proof.
  induction 1 as [|c s Hc _ (b & IH)]; [by exists []|]. cbn [utf8_encode]. rewrite IH.
  assert (scalar c = true) as -> by (apply scalar_spec; lia). csimpl. eauto.
Qed.
