(* ===== verification/Sha256.v ===== *)
(** * SHA-256 and HMAC-SHA256

    [hashlib.sha256] and [hmac.new(key, msg, sha256)] as executable functions
    (FIPS 180-4, RFC 2104), on 32-bit words kept as integers modulo 2^32.  The
    rest of the development uses two facts only: the digest has 32 bytes, and
    the function is deterministic; nothing assumes that it is injective. *)

From S2P Require Import Prelude PyBytes.
Local Open Scope Z_scope.

Definition w32 (x : Z) : Z := Z.land x 0xffffffff.
(** A rotation of a word is a shift of the word written twice. *)
Definition twice (x : Z) : Z := Z.lor x (Z.shiftl x 32).
Definition big_sigma0 x := let y := twice x in w32 (Z.lxor (Z.shiftr y 2) (Z.lxor (Z.shiftr y 13) (Z.shiftr y 22))).
Definition big_sigma1 x := let y := twice x in w32 (Z.lxor (Z.shiftr y 6) (Z.lxor (Z.shiftr y 11) (Z.shiftr y 25))).
Definition small_sigma0 x := let y := twice x in w32 (Z.lxor (Z.shiftr y 7) (Z.lxor (Z.shiftr y 18) (Z.shiftr x 3))).
Definition small_sigma1 x := let y := twice x in w32 (Z.lxor (Z.shiftr y 17) (Z.lxor (Z.shiftr y 19) (Z.shiftr x 10))).
Definition ch x y z := Z.lxor (Z.land x y) (Z.ldiff z x).
Definition maj x y z := Z.lxor (Z.land x y) (Z.lxor (Z.land x z) (Z.land y z)).

(** The round constants and the initial state are the first 32 bits of the
    fractional parts of the cube and square roots of the first primes. *)
Definition is_prime (n : Z) : bool :=
  forallb (λ k, negb (n mod Z.of_nat k =? 0)) (seq 2 (Z.to_nat (Z.sqrt n) - 1)).

Definition primes : list Z := filter (λ n, is_prime n = true) (Z.of_nat <$> seq 2 310).

(** The greatest [r] with [r ^ 3 <= n], bit by bit. *)
Fixpoint cube_root (bits : nat) (r n : Z) : Z :=
  match bits with
  | O => r
  | S k => let r' := r + 2 ^ Z.of_nat k in cube_root k (if r' ^ 3 <=? n then r' else r) n
  end.

Definition sha_k : list Z :=
  Eval vm_compute in (λ p, w32 (cube_root 40 0 (p * 2 ^ 96))) <$> primes.

Record sha_state := ShaState { sa : Z; sb : Z; sc : Z; sd : Z; se : Z; sf : Z; sg : Z; sh : Z }.

Definition sha_init : sha_state :=
  Eval vm_compute in
    let h := (λ p, w32 (Z.sqrt (p * 2 ^ 64))) <$> primes in
    let w := λ i, nth i h 0 in
    ShaState (w 0%nat) (w 1%nat) (w 2%nat) (w 3%nat) (w 4%nat) (w 5%nat) (w 6%nat) (w 7%nat).

Definition sha_round (s : sha_state) (kw : Z * Z) : sha_state :=
  let t1 := w32 (sh s + big_sigma1 (se s) + ch (se s) (sf s) (sg s) + fst kw + snd kw) in
  let t2 := w32 (big_sigma0 (sa s) + maj (sa s) (sb s) (sc s)) in
  ShaState (w32 (t1 + t2)) (sa s) (sb s) (sc s) (w32 (sd s + t1)) (se s) (sf s) (sg s).

(** The message schedule, the last sixteen words kept newest first. *)
Fixpoint sha_extend (n : nat) (window : list Z) : list Z :=
  match n with
  | O => []
  | S n' =>
      let w := w32 (small_sigma1 (nth 1 window 0) + nth 6 window 0
                    + small_sigma0 (nth 14 window 0) + nth 15 window 0) in
      w :: sha_extend n' (w :: take 15 window)
  end.

Definition sha_schedule (ws : list Z) : list Z := ws ++ sha_extend 48 (rev ws).

Definition sha_add (s t : sha_state) : sha_state :=
  ShaState (w32 (sa s + sa t)) (w32 (sb s + sb t)) (w32 (sc s + sc t)) (w32 (sd s + sd t))
           (w32 (se s + se t)) (w32 (sf s + sf t)) (w32 (sg s + sg t)) (w32 (sh s + sh t)).

Fixpoint words_of (n : nat) (b : bytes) : list Z :=
  match n with
  | O => []
  | S n' => be_val (take 4 b) :: words_of n' (drop 4 b)
  end.

Definition sha_block (s : sha_state) (block : bytes) : sha_state :=
  sha_add s (foldl sha_round s (zip sha_k (sha_schedule (words_of 16 block)))).

Fixpoint sha_blocks (n : nat) (s : sha_state) (b : bytes) : sha_state :=
  match n with
  | O => s
  | S n' => sha_blocks n' (sha_block s (take 64 b)) (drop 64 b)
  end.

(** [0x80], zeros up to 56 modulo 64, and the bit length on 8 bytes. *)
Definition sha_pad (m : bytes) : bytes :=
  let zeros := Z.to_nat ((55 - zlen m) mod 64) in
  m ++ byte_of 0x80 :: replicate zeros (byte_of 0) ++ be_bytes 8 (8 * zlen m).

Definition sha256 (m : bytes) : bytes :=
  let p := sha_pad m in
  let s := sha_blocks (Z.to_nat (zlen p / 64)) sha_init p in
  be_bytes 4 (sa s) ++ be_bytes 4 (sb s) ++ be_bytes 4 (sc s) ++ be_bytes 4 (sd s)
  ++ be_bytes 4 (se s) ++ be_bytes 4 (sf s) ++ be_bytes 4 (sg s) ++ be_bytes 4 (sh s).

(** [hmac.new(key, msg, sha256).digest()] *)
Definition hmac_key_block (key : bytes) : bytes :=
  let k := if 64 <? zlen key then sha256 key else key in
  k ++ replicate (64 - length k) (byte_of 0).

Definition xor_bytes (v : Z) (b : bytes) : bytes := (λ x, byte_of (Z.lxor (byte_val x) v)) <$> b.

Definition hmac_sha256 (key msg : bytes) : bytes :=
  let k := hmac_key_block key in
  sha256 (xor_bytes 0x5c k ++ sha256 (xor_bytes 0x36 k ++ msg)).

(** ** Lemmas *)

Lemma sha256_length m : length (sha256 m) = 32%nat.
Proof. unfold sha256. by rewrite !length_app, !be_bytes_length. Qed.

Lemma hmac_sha256_length k m : length (hmac_sha256 k m) = 32%nat.
Proof. apply sha256_length. Qed.

(** Padding gives whole blocks. *)
Lemma sha_pad_blocks m : zlen (sha_pad m) mod 64 = 0.
Proof.
  unfold sha_pad. rewrite zlen_app, zlen_cons, zlen_app.
  replace (zlen (be_bytes 8 _)) with 8 by (unfold zlen; by rewrite be_bytes_length).
  unfold zlen at 2. rewrite length_replicate.
  pose proof (Z.mod_pos_bound (55 - zlen m) 64 eq_refl). rewrite Z2Nat.id by lia.
  Z.to_euclidean_division_equations; lia.
Qed.

#[export] Hint Resolve sha256_length hmac_sha256_length : bcc.

(** The published test vectors. *)
Example sha256_empty : be_val (sha256 []) =
  0xe3b0c44298fc1c149afbf4c8996fb92427ae41e4649b934ca495991b7852b855.
Proof. vm_compute. reflexivity. Qed.

Example sha256_abc : be_val (sha256 (b_lit "abc")) =
  0xba7816bf8f01cfea414140de5dae2223b00361a396177a9cb410ff61f20015ad.
Proof. vm_compute. reflexivity. Qed.

Example sha256_two_blocks :
  be_val (sha256 (b_lit "abcdbcdecdefdefgefghfghighijhijkijkljklmklmnlmnomnopnopq")) =
  0x248d6a61d20638b8e5c026930c3e6039a33ce45964ff2167f6ecedd419db06c1.
Proof. vm_compute. reflexivity. Qed.

Example hmac_sha256_jefe :
  be_val (hmac_sha256 (b_lit "Jefe") (b_lit "what do ya want for nothing?")) =
  0x5bdcc146bf60754e6a042426089575c75a003f089d2739839dec58b964ec3843.
Proof. vm_compute. reflexivity. Qed.

(** Proofs never look inside a digest; evaluation still does. *)
#[global] Opaque sha256 hmac_sha256.

Example sha256_evaluates : be_val (sha256 (b_lit "abc")) mod 256 = 0xad.
Proof. vm_compute. reflexivity. Qed.
