(* ===== verification/Base64.v ===== *)
(** * URL-safe base64 without padding

    [crypto.b64encode] and [crypto.b64decode], with the standard library's
    [base64.urlsafe_b64encode] and [base64.urlsafe_b64decode] they call.  The
    decoder is [binascii.a2b_base64] in its default non-strict mode: characters
    outside the alphabet are skipped, and a complete pad ends the input. *)

From S2P Require Import Prelude PyBytes PyText.
Local Open Scope Z_scope.

(** The URL-safe alphabet, by value. *)
Definition b64_char (v : Z) : Z :=
  if v <? 26 then 65 + v
  else if v <? 52 then 71 + v
  else if v <? 62 then v - 4
  else if v =? 62 then 45 else 95.

(** The decoder accepts both alphabets: [-] and [_] are translated to [+] and
    [/] before decoding. *)
Definition b64_val (c : Z) : option Z :=
  if (65 <=? c) && (c <? 91) then Some (c - 65)
  else if (97 <=? c) && (c <? 123) then Some (c - 71)
  else if (48 <=? c) && (c <? 58) then Some (c + 4)
  else if (c =? 43) || (c =? 45) then Some 62
  else if (c =? 47) || (c =? 95) then Some 63
  else None.

Definition b64_pad : Z := 61.

(** [base64.urlsafe_b64encode(data)], padded. *)
Fixpoint urlsafe_b64encode (data : bytes) : str :=
  match data with
  | [] => []
  | [x] =>
      [b64_char (byte_val x / 4); b64_char (byte_val x mod 4 * 16); b64_pad; b64_pad]
  | [x; y] =>
      [b64_char (byte_val x / 4); b64_char (byte_val x mod 4 * 16 + byte_val y / 16);
       b64_char (byte_val y mod 16 * 4); b64_pad]
  | x :: y :: z :: data' =>
      b64_char (byte_val x / 4) :: b64_char (byte_val x mod 4 * 16 + byte_val y / 16)
      :: b64_char (byte_val y mod 16 * 4 + byte_val z / 64) :: b64_char (byte_val z mod 64)
      :: urlsafe_b64encode data'
  end.

(** [s.rstrip("=")] *)
Fixpoint drop_pad (s : str) : str :=
  match s with
  | c :: s' => if c =? b64_pad then drop_pad s' else s
  | [] => []
  end.
Definition rstrip_pad (s : str) : str := reverse (drop_pad (reverse s)).

Definition b64encode (data : bytes) : str := rstrip_pad (urlsafe_b64encode data).

(** [binascii.a2b_base64] from a position in the quad: [quad_pos] characters
    of the current quad are read, [left] holds their pending bits, [pads] the
    pad characters seen. *)
Fixpoint a2b_base64 (s : str) (quad_pos : nat) (left pads : Z) : result bytes :=
  match s with
  | [] => if Nat.eqb quad_pos 0 then Ok [] else raise BinasciiError "Incorrect padding"
  | c :: s' =>
      if c =? b64_pad then
        if Nat.leb 2 quad_pos then
          if 4 <=? Z.of_nat quad_pos + (pads + 1) then Ok []
          else a2b_base64 s' quad_pos left (pads + 1)
        else a2b_base64 s' quad_pos left pads
      else match b64_val c with
      | None => a2b_base64 s' quad_pos left pads
      | Some v =>
          match quad_pos with
          | 0%nat => a2b_base64 s' 1 v 0
          | 1%nat => cons (byte_of (left * 4 + v / 16)) <$> a2b_base64 s' 2 (v mod 16) 0
          | 2%nat => cons (byte_of (left * 16 + v / 4)) <$> a2b_base64 s' 3 (v mod 4) 0
          | _ => cons (byte_of (left * 64 + v)) <$> a2b_base64 s' 0 0 0
          end
      end
  end.

Definition is_ascii (s : str) : bool := forallb (λ c, (0 <=? c) && (c <? 128)) s.

Definition b64decode (data : str) : result bytes :=
  let padding := replicate (Z.to_nat ((- zlen data) mod 4)) b64_pad in
  raise_if (negb (is_ascii (data ++ padding))) UnicodeError "ordinal not in range(128)";;
  a2b_base64 (data ++ padding) 0 0 0.

(** ** Lemmas *)

Lemma b64_val_char v : 0 ≤ v < 64 → b64_val (b64_char v) = Some v ∧ b64_char v ≠ b64_pad ∧ 0 ≤ b64_char v < 128.
Proof.
  intros Hv. assert (Hall : Forall (λ v, b64_val (b64_char v) = Some v ∧ b64_char v ≠ b64_pad
    ∧ 0 ≤ b64_char v < 128) (seqZ 0 64)).
  { unfold seqZ. simpl. repeat (constructor; [by repeat split|]). constructor. }
  rewrite Forall_forall in Hall. apply Hall. apply elem_of_seqZ. lia.
Qed.

(** Induction three bytes at a time. *)
Lemma bytes_ind3 (P : bytes → Prop) :
  P [] → (∀ x, P [x]) → (∀ x y, P [x; y]) →
  (∀ x y z l, P l → P (x :: y :: z :: l)) → ∀ l, P l.
Proof.
  intros H0 H1 H2 H3. enough (H : ∀ n l, (length l ≤ n)%nat → P l) by (intros l; by apply (H (length l))).
  intros n. induction n as [|n IH]; intros [|x [|y [|z l]]] Hl; simpl in Hl; try lia; auto.
  apply H3, IH. lia.
Qed.

(** The six-bit groups of three bytes are in range. *)
Definition b64_sextets (x y z : Byte.byte) : Prop :=
  0 ≤ byte_val x / 4 < 64 ∧ 0 ≤ byte_val x mod 4 * 16 < 64 ∧
  0 ≤ byte_val x mod 4 * 16 + byte_val y / 16 < 64 ∧ 0 ≤ byte_val y mod 16 * 4 < 64 ∧
  0 ≤ byte_val y mod 16 * 4 + byte_val z / 64 < 64 ∧ 0 ≤ byte_val z mod 64 < 64.

Lemma b64_sextets_range x y z : b64_sextets x y z.
Proof.
  pose proof (byte_val_range x). pose proof (byte_val_range y). pose proof (byte_val_range z).
  unfold b64_sextets. Z.to_euclidean_division_equations; lia.
Qed.

Lemma urlsafe_split data :
  ∃ body p, urlsafe_b64encode data = body ++ replicate p b64_pad ∧
    Forall (λ c, c ≠ b64_pad ∧ 0 ≤ c < 128) body ∧ Z.of_nat p = (- zlen body) mod 4.
Proof.
  induction data as [|x|x y|x y z l (body & p & He & Hb & Hp)] using bytes_ind3.
  - by exists [], 0%nat.
  - destruct (b64_sextets_range x x x) as (H1 & H2 & _).
    apply b64_val_char in H1 as (_ & ? & ?), H2 as (_ & ? & ?).
    eexists [_; _], 2%nat. split; [done|]. split; [by auto using Forall_cons_2, Forall_nil_2|done].
  - destruct (b64_sextets_range x y x) as (H1 & _ & H2 & H3 & _).
    apply b64_val_char in H1 as (_ & ? & ?), H2 as (_ & ? & ?), H3 as (_ & ? & ?).
    eexists [_; _; _], 1%nat. split; [done|]. split; [by auto using Forall_cons_2, Forall_nil_2|done].
  - destruct (b64_sextets_range x y z) as (H1 & _ & H2 & _ & H3 & H4).
    apply b64_val_char in H1 as (_ & ? & ?), H2 as (_ & ? & ?), H3 as (_ & ? & ?), H4 as (_ & ? & ?).
    eexists (_ :: _ :: _ :: _ :: body), p. simpl. rewrite He. split; [done|].
    split; [by auto 6 using Forall_cons_2|]. rewrite Hp, !zlen_cons.
    Z.to_euclidean_division_equations; lia.
Qed.

Lemma drop_pad_body s : Forall (λ c, c ≠ b64_pad ∧ 0 ≤ c < 128) s → drop_pad s = s.
Proof. destruct 1 as [|c s [Hc _] _]; simpl; [done|]. by rewrite (proj2 (Z.eqb_neq _ _)). Qed.

Lemma rstrip_pad_app body p :
  Forall (λ c, c ≠ b64_pad ∧ 0 ≤ c < 128) body → rstrip_pad (body ++ replicate p b64_pad) = body.
Proof.
  intros Hb. unfold rstrip_pad. rewrite reverse_app, reverse_replicate.
  replace (drop_pad (replicate p b64_pad ++ reverse body)) with (drop_pad (reverse body)).
  - rewrite drop_pad_body; [by rewrite reverse_involutive|]. by rewrite Forall_reverse.
  - induction p; simpl; auto.
Qed.

Lemma a2b_encode data : a2b_base64 (urlsafe_b64encode data) 0 0 0 = Ok data.
Proof.
  assert (Hstep : ∀ v s q left pads, 0 ≤ v < 64 →
    a2b_base64 (b64_char v :: s) q left pads =
      match q with
      | 0%nat => a2b_base64 s 1 v 0
      | 1%nat => cons (byte_of (left * 4 + v / 16)) <$> a2b_base64 s 2 (v mod 16) 0
      | 2%nat => cons (byte_of (left * 16 + v / 4)) <$> a2b_base64 s 3 (v mod 4) 0
      | _ => cons (byte_of (left * 64 + v)) <$> a2b_base64 s 0 0 0
      end).
  { intros v s q left pads Hv. apply b64_val_char in Hv as (Hval & Hne & _).
    cbn [a2b_base64]. by rewrite (proj2 (Z.eqb_neq _ _) Hne), Hval. }
  induction data as [|x|x y|x y z l IH] using bytes_ind3; [done|..]; cbn [urlsafe_b64encode].
  - destruct (b64_sextets_range x x x) as (H1 & H2 & _). pose proof (byte_val_range x).
    rewrite !Hstep by done. simpl. do 2 f_equal. apply byte_of_eq.
    Z.to_euclidean_division_equations; lia.
  - destruct (b64_sextets_range x y x) as (H1 & _ & H2 & H3 & _).
    pose proof (byte_val_range x). pose proof (byte_val_range y).
    rewrite !Hstep by done. simpl. do 2 f_equal; [|f_equal]; apply byte_of_eq;
      Z.to_euclidean_division_equations; lia.
  - destruct (b64_sextets_range x y z) as (H1 & _ & H2 & _ & H3 & H4).
    pose proof (byte_val_range x). pose proof (byte_val_range y). pose proof (byte_val_range z).
    rewrite !Hstep by done. rewrite IH. simpl.
    do 2 f_equal; [|f_equal; [|f_equal]]; apply byte_of_eq;
      Z.to_euclidean_division_equations; lia.
Qed.

(** Decoding inverts encoding. *)
Lemma b64_decode_encode data : b64decode (b64encode data) = Ok data.
Proof.
  destruct (urlsafe_split data) as (body & p & He & Hb & Hp).
  unfold b64decode, b64encode. rewrite He, rstrip_pad_app by done.
  rewrite <- Hp, Nat2Z.id, <- He, a2b_encode.
  replace (is_ascii _) with true; [done|]. symmetry. unfold is_ascii.
  rewrite He.
  apply forallb_forall. intros c Hc%list_elem_of_In. apply elem_of_app in Hc as [Hc|Hc].
  - rewrite Forall_forall in Hb. apply Hb in Hc as [_ Hc]. apply andb_true_iff.
    rewrite Z.leb_le, Z.ltb_lt. lia.
  - by apply elem_of_replicate in Hc as [-> _].
Qed.

Lemma b64encode_ascii data : Forall (λ c, 0 ≤ c < 128) (b64encode data).
Proof.
  destruct (urlsafe_split data) as (body & p & He & Hb & _).
  unfold b64encode. rewrite He, rstrip_pad_app by done.
  eapply Forall_impl; [done|]. naive_solver.
Qed.

Lemma b64encode_inj d1 d2 : b64encode d1 = b64encode d2 → d1 = d2.
Proof. intros H. apply Ok_inj. by rewrite <- !b64_decode_encode, H. Qed.

(** A character outside the alphabet is invisible to the decoder. *)
Lemma a2b_skip c s q left pads :
  b64_val c = None → c ≠ b64_pad → a2b_base64 (c :: s) q left pads = a2b_base64 s q left pads.
Proof. intros Hc Hp. cbn [a2b_base64]. by rewrite (proj2 (Z.eqb_neq _ _) Hp), Hc. Qed.

Lemma a2b_raises s q left pads : raises_only is_value_error (a2b_base64 s q left pads).
Proof.
  revert q left pads. induction s as [|c s IH]; intros q left pads; cbn [a2b_base64];
    repeat case_match; auto with bcc.
Qed.

Lemma b64decode_raises d : raises_only is_value_error (b64decode d).
Proof. unfold b64decode. auto using a2b_raises with bcc. Qed.
