(* ===== verification/Json.v ===== *)
(** * Canonical JSON text

    [crypto.canonical_json], that is [json.dumps] with sorted keys, no white
    space and ASCII output, for the values the program serialises with it:
    [None], booleans, integers, text, lists and dictionaries.  The text
    determines the value, provided the text fields hold no surrogate. *)

From S2P Require Import Prelude PyBytes PyText.
Local Open Scope Z_scope.

Inductive json :=
  | JNull
  | JBool (b : bool)
  | JInt (z : Z)
  | JStr (s : str)
  | JArr (l : list json)
  | JObj (l : list (str * json)).

Definition hex4 (u : Z) : str :=
  [hex_digit (u / 4096 mod 16); hex_digit (u / 256 mod 16); hex_digit (u / 16 mod 16); hex_digit (u mod 16)].

(** [py_encode_basestring_ascii], one character. *)
Definition esc_char (c : Z) : str :=
  if c =? 34 then [92; 34]
  else if c =? 92 then [92; 92]
  else if c =? 10 then [92; 110]
  else if c =? 13 then [92; 114]
  else if c =? 9 then [92; 116]
  else if c =? 12 then [92; 102]
  else if c =? 8 then [92; 98]
  else if (32 <=? c) && (c <=? 126) then [c]
  else if c <? 0x10000 then 92 :: 117 :: hex4 c
  else
    let n := c - 0x10000 in
    92 :: 117 :: hex4 (0xD800 + n / 1024) ++ 92 :: 117 :: hex4 (0xDC00 + n mod 1024).

Definition json_string (s : str) : str := 34 :: concat (esc_char <$> s) ++ [34].

Arguments json_string : simpl never.

Fixpoint join (sep : Z) (l : list str) : str :=
  match l with
  | [] => []
  | [x] => x
  | x :: l' => x ++ sep :: join sep l'
  end.

Definition item_leb (x y : str * str) : bool := str_leb x.1 y.1.

Definition json_item (kv : str * str) : str := json_string kv.1 ++ 58 :: kv.2.

(** [canonical_json(value)] *)
Fixpoint canonical_json (j : json) : str :=
  match j with
  | JNull => py "null"
  | JBool true => py "true"
  | JBool false => py "false"
  | JInt z => str_of_int z
  | JStr s => json_string s
  | JArr l => 91 :: join 44 (map canonical_json l) ++ [93]
  | JObj l =>
      123 :: join 44 (map json_item (sort_by item_leb
               (map (λ kv, (kv.1, canonical_json kv.2)) l))) ++ [125]
  end.

(** ** Lemmas: strings *)

Definition hex4_val (a b c d : Z) : option Z :=
  a ← hex_val a; b ← hex_val b; c ← hex_val c; d ← hex_val d;
  Some (a * 4096 + b * 256 + c * 16 + d).

(** The inverse of [esc_char], used to show that it is a prefix code. *)
Definition unesc_char (s : str) : option (Z * str) :=
  match s with
  | 92 :: 117 :: a :: b :: c :: d :: r =>
      u ← hex4_val a b c d;
      if (0xD800 <=? u) && (u <? 0xDC00) then
        match r with
        | _ :: _ :: a' :: b' :: c' :: d' :: r' =>
            v ← hex4_val a' b' c' d';
            Some (0x10000 + (u - 0xD800) * 1024 + (v - 0xDC00), r')
        | _ => None
        end
      else Some (u, r)
  | 92 :: e :: r =>
      if e =? 110 then Some (10, r) else if e =? 114 then Some (13, r)
      else if e =? 116 then Some (9, r) else if e =? 102 then Some (12, r)
      else if e =? 98 then Some (8, r) else Some (e, r)
  | c :: r => Some (c, r)
  | [] => None
  end.

Lemma hex4_val_digits u : 0 ≤ u < 0x10000 →
  hex4_val (hex_digit (u / 4096 mod 16)) (hex_digit (u / 256 mod 16))
           (hex_digit (u / 16 mod 16)) (hex_digit (u mod 16)) = Some u.
Proof.
  intros Hu. unfold hex4_val.
  rewrite !hex_val_digit by (apply Z.mod_pos_bound; lia). simpl. f_equal.
  Z.to_euclidean_division_equations; lia.
Qed.

Lemma unesc_esc c r : scalar c = true → unesc_char (esc_char c ++ r) = Some (c, r).
Proof.
  intros Hs%scalar_spec. unfold esc_char.
  repeat (case_match; bool_prop; [by subst|]).
  destruct ((32 <=? c) && (c <=? 126)) eqn:E.
  - bool_prop. simpl. destruct c as [|p|p]; [lia| |lia].
    assert (Hne : Zpos p ≠ 92) by lia. clear -Hne.
    do 7 (destruct p as [p|p|]; try done). 
  - destruct (Z.ltb_spec c 0x10000).
    + cbn [app]. unfold hex4. cbn [app unesc_char]. rewrite hex4_val_digits by lia.
      cbn [mbind option_bind]. by decide_if.
    + cbv zeta. cbn [app]. unfold hex4. cbn [app unesc_char].
      rewrite !hex4_val_digits by (Z.to_euclidean_division_equations; lia).
      cbn [mbind option_bind]. decide_if.
      do 2 f_equal. Z.to_euclidean_division_equations; lia.
Qed.

Lemma esc_char_head c : ∃ x l, esc_char c = x :: l ∧ x ≠ 34.
Proof.
  unfold esc_char. repeat (case_match; bool_prop; [by eauto|]). by eauto.
Qed.

Lemma esc_body_inj s t r1 r2 :
  Forall (λ c, scalar c = true) s → Forall (λ c, scalar c = true) t →
  concat (esc_char <$> s) ++ 34 :: r1 = concat (esc_char <$> t) ++ 34 :: r2 → s = t ∧ r1 = r2.
Proof.
  intros Hs. revert t. induction Hs as [|c s Hc Hs IH]; intros t Ht E.
  - destruct Ht as [|d t Hd Ht]; [by simplify_eq/=|].
    destruct (esc_char_head d) as (x & l & Ed & Hx). rewrite fmap_cons in E. simpl in E. rewrite Ed in E.
    by simplify_eq/=.
  - destruct Ht as [|d t Hd Ht].
    + destruct (esc_char_head c) as (x & l & Ec & Hx). rewrite fmap_cons in E. simpl in E. rewrite Ec in E.
      by simplify_eq/=.
    + rewrite !fmap_cons in E. cbn [concat] in E. rewrite <- !app_assoc in E.
      assert (E' := f_equal unesc_char E). rewrite !unesc_esc in E' by done.
      injection E' as -> E'. apply IH in E' as [-> ->]; done.
Qed.

Lemma json_string_inj s t r1 r2 :
  Forall (λ c, scalar c = true) s → Forall (λ c, scalar c = true) t →
  json_string s ++ r1 = json_string t ++ r2 → s = t ∧ r1 = r2.
Proof.
  intros Hs Ht E. unfold json_string in E. simpl in E. injection E as E.
  rewrite <- !app_assoc in E. by apply esc_body_inj in E.
Qed.

(** ** Lemmas: the text determines the value *)

Section json_ind.
Variable P : json → Prop.
Hypothesis Pnull : P JNull.
Hypothesis Pbool : ∀ b, P (JBool b).
Hypothesis Pint : ∀ z, P (JInt z).
Hypothesis Pstr : ∀ s, P (JStr s).
Hypothesis Parr : ∀ l, Forall P l → P (JArr l).
Hypothesis Pobj : ∀ l, Forall (λ kv, P kv.2) l → P (JObj l).

Fixpoint json_nested_ind (j : json) : P j :=
  match j with
  | JNull => Pnull
  | JBool b => Pbool b
  | JInt z => Pint z
  | JStr s => Pstr s
  | JArr l => Parr l ((fix go (l : list json) : Forall P l :=
      match l with [] => Forall_nil_2 _ | x :: l' => Forall_cons_2 _ _ _ (json_nested_ind x) (go l') end) l)
  | JObj l => Pobj l ((fix go (l : list (str * json)) : Forall (λ kv, P kv.2) l :=
      match l with
      | [] => Forall_nil_2 _
      | x :: l' => Forall_cons_2 _ _ _ (json_nested_ind x.2) (go l')
      end) l)
  end.
End json_ind.

Definition key_sorted (l : list (str * json)) : Prop :=
  StronglySorted (λ x y, str_leb x.1 y.1 = true) l.

(** Text without surrogates and objects listed in key order. *)
Fixpoint json_wf (j : json) : Prop :=
  match j with
  | JStr s => Forall (λ c, scalar c = true) s
  | JArr l => foldr (λ x acc, json_wf x ∧ acc) True l
  | JObj l => key_sorted l ∧
      foldr (λ kv acc, (Forall (λ c, scalar c = true) kv.1 ∧ json_wf kv.2) ∧ acc) True l
  | _ => True
  end.

Lemma foldr_and {A} (P : A → Prop) l : foldr (λ x acc, P x ∧ acc) True l ↔ Forall P l.
Proof. induction l; simpl; [done|]. by rewrite Forall_cons, IHl. Qed.

Lemma json_wf_arr l : json_wf (JArr l) ↔ Forall json_wf l.
Proof. apply foldr_and. Qed.

Lemma json_wf_obj l : json_wf (JObj l) ↔
  key_sorted l ∧ Forall (λ kv, Forall (λ c, scalar c = true) kv.1 ∧ json_wf kv.2) l.
Proof.
  simpl. f_equiv. apply (foldr_and (λ kv, Forall (λ c, scalar c = true) kv.1 ∧ json_wf kv.2)).
Qed.

(** What may follow a value: the end, a comma, a closing bracket or a line
    break. *)
Definition ends (r : str) : Prop :=
  match r with [] => True | c :: _ => c = 44 ∨ c = 93 ∨ c = 125 ∨ c = 10 end.

(** The longest prefix of characters an integer's text may hold. *)
Fixpoint int_span (s : str) : str * str :=
  match s with
  | [] => ([], [])
  | c :: s' => if int_char c then (c :: (int_span s').1, (int_span s').2) else ([], s)
  end.

Lemma int_span_app s r :
  Forall (λ c, int_char c = true) s → ends r → int_span (s ++ r) = (s, r).
Proof.
  intros Hs Hr. induction Hs as [|c s Hc Hs IH]; simpl.
  - destruct r as [|c r]; [done|]. simpl in *. by destruct Hr as [-> | [-> | [-> | ->]]].
  - by rewrite Hc, IH.
Qed.

Lemma int_text_inj n m r1 r2 :
  ends r1 → ends r2 → str_of_int n ++ r1 = str_of_int m ++ r2 → n = m ∧ r1 = r2.
Proof.
  intros H1 H2 E. apply (f_equal int_span) in E.
  rewrite !int_span_app in E by (done || apply str_of_int_chars).
  injection E as E ->. by apply str_of_int_inj in E.
Qed.

(** A list of texts, comma-separated and closed, splits one way only. *)
#[local] Ltac mem :=
  repeat (rewrite elem_of_cons || rewrite elem_of_app || rewrite elem_of_nil);
  repeat (rewrite elem_of_cons in * || rewrite elem_of_app in * ); tauto.

Lemma join_inj {A} (f : A → str) (close : Z) l1 l2 r1 r2 :
  close = 93 ∨ close = 125 →
  (∀ x, x ∈ l1 ++ l2 → ∃ c t, f x = c :: t ∧ c ≠ close) →
  (∀ x y s t, x ∈ l1 → y ∈ l2 → ends s → ends t → f x ++ s = f y ++ t → x = y ∧ s = t) →
  join 44 (map f l1) ++ close :: r1 = join 44 (map f l2) ++ close :: r2 → l1 = l2 ∧ r1 = r2.
Proof.
  intros Hclose Hhd. revert l2 Hhd.
  assert (Hends : ∀ r, ends (close :: r)) by (simpl; lia).
  induction l1 as [|x l1 IH]; intros [|y l2] Hhd Hinj E.
  - simpl in E. by simplify_eq.
  - exfalso. destruct (Hhd y) as (c & t & Hy & Hc); [mem|].
    destruct l2; simpl in E; rewrite Hy in E; by simplify_eq/=.
  - exfalso. destruct (Hhd x) as (c & t & Hx & Hc); [mem|].
    destruct l1; simpl in E; rewrite Hx in E; by simplify_eq/=.
  - destruct l1 as [|x' l1], l2 as [|y' l2].
    + simpl in E. apply Hinj in E as [-> E]; [|mem|mem|done..]. by simplify_eq.
    + exfalso. simpl in E. rewrite <- app_assoc in E.
      apply Hinj in E as [-> E]; [|mem|mem|done|simpl; lia]. simplify_eq/=. lia.
    + exfalso. simpl in E. rewrite <- app_assoc in E.
      apply Hinj in E as [-> E]; [|mem|mem|simpl; lia|done]. simplify_eq/=. lia.
    + change (map f (x :: x' :: l1)) with (f x :: map f (x' :: l1)) in E.
      change (map f (y :: y' :: l2)) with (f y :: map f (y' :: l2)) in E.
      change (join 44 (f x :: map f (x' :: l1))) with (f x ++ 44 :: join 44 (map f (x' :: l1))) in E.
      change (join 44 (f y :: map f (y' :: l2))) with (f y ++ 44 :: join 44 (map f (y' :: l2))) in E.
      rewrite <- !app_assoc in E.
      apply Hinj in E as [-> E]; [|mem|mem|simpl; lia..].
      apply (inj (cons 44)) in E. apply IH in E as [-> ->]; [done| |].
      * intros z Hz. apply Hhd. mem.
      * intros. eapply Hinj; [mem|mem|done..].
Qed.

Lemma int_text_head z : ∃ c t, str_of_int z = c :: t ∧ int_char c = true.
Proof.
  pose proof (str_of_int_chars z) as Hc. destruct (str_of_int z) as [|c t] eqn:E.
  - exfalso. unfold str_of_int in E. case_match; [done|]. by apply dec_nonneg_nonempty in E.
  - apply Forall_cons in Hc as [Hc _]. eauto.
Qed.

Lemma int_char_spec c : int_char c = true → 48 ≤ c < 58 ∨ c = 45.
Proof.
  unfold int_char, is_digit. rewrite orb_true_iff, andb_true_iff, Z.leb_le, Z.ltb_lt, Z.eqb_eq. lia.
Qed.

(** The first character tells the constructor. *)
Definition json_tag (j : json) : Z :=
  match j with
  | JNull => 110 | JBool true => 116 | JBool false => 102 | JInt _ => 48
  | JStr _ => 34 | JArr _ => 91 | JObj _ => 123
  end.
Definition char_tag (c : Z) : Z := if int_char c then 48 else c.

Lemma json_head j : ∃ c t, canonical_json j = c :: t ∧ char_tag c = json_tag j.
Proof.
  destruct j as [|[]|z|s|l|l]; try (by do 2 eexists).
  destruct (int_text_head z) as (c & t & Hz & Hc). exists c, t. split; [done|].
  unfold char_tag. by rewrite Hc.
Qed.

Lemma json_head_close j close :
  close = 93 ∨ close = 125 → ∃ c t, canonical_json j = c :: t ∧ c ≠ close.
Proof.
  intros Hclose. destruct (json_head j) as (c & t & Hj & Hc). exists c, t. split; [done|].
  intros ->. assert (char_tag close = close) as E by (by destruct Hclose as [-> | ->]).
  rewrite E in Hc. destruct j as [|[]|z|s|l|l]; simpl in Hc; lia.
Qed.

(** An object listed in key order prints its items in that order. *)
Lemma canonical_json_obj l : key_sorted l →
  canonical_json (JObj l) =
  123 :: join 44 (map (λ kv, json_string kv.1 ++ 58 :: canonical_json kv.2) l) ++ [125].
Proof.
  intros Hs. cbn [canonical_json]. rewrite sort_by_sorted_id.
  - by rewrite map_map.
  - unfold key_sorted in Hs. induction Hs as [|x l Hs IH Hx]; simpl; constructor; [done|].
    clear IH Hs. induction Hx; simpl; by constructor.
Qed.

Lemma canonical_json_prefix j : ∀ j2 r1 r2,
  json_wf j → json_wf j2 → ends r1 → ends r2 →
  canonical_json j ++ r1 = canonical_json j2 ++ r2 → j = j2 ∧ r1 = r2.
Proof.
  induction j as [|b|z|s|l IH|l IH] using json_nested_ind; intros j2 r1 r2 Hw1 Hw2 He1 He2 E;
    match type of E with canonical_json ?j ++ _ = canonical_json ?j2 ++ _ =>
      destruct (json_head j) as (c1 & t1 & Hh1 & Ht1);
      destruct (json_head j2) as (c2 & t2 & Hh2 & Ht2);
      assert (c1 = c2) as -> by (rewrite Hh1, Hh2 in E; by simplify_eq/=);
      rewrite Ht1 in Ht2; clear Hh1 Hh2 Ht1
    end.
  - destruct j2 as [|[]|?|?|?|?]; try done. by apply app_inv_head in E.
  - destruct b; destruct j2 as [|[]|?|?|?|?]; try done; by apply app_inv_head in E.
  - destruct j2 as [|[]|?|?|?|?]; try done. apply int_text_inj in E as [-> ->]; done.
  - destruct j2 as [|[]|?|?|?|?]; try done. apply json_string_inj in E as [-> ->]; done.
  - destruct j2 as [|[]|?|?|l2|?]; try done. rewrite json_wf_arr in Hw1, Hw2.
    rewrite Forall_forall in IH, Hw1, Hw2.
    cbn [canonical_json] in E. simpl in E. injection E as E. rewrite <- !app_assoc in E. simpl in E.
    apply join_inj in E as [-> ->]; [done|lia| |].
    + intros. apply json_head_close. lia.
    + intros x y s t Hx Hy. apply IH; auto.
  - destruct j2 as [|[]|?|?|?|l2]; try done. rewrite json_wf_obj in Hw1, Hw2.
    destruct Hw1 as [Hk1 Hw1], Hw2 as [Hk2 Hw2]. rewrite !canonical_json_obj in E by done.
    rewrite Forall_forall in IH, Hw1, Hw2.
    rewrite <- !app_comm_cons, <- !(app_assoc (join _ _)) in E. apply (inj (cons 123)) in E.
    apply join_inj in E as [-> ->]; [done|lia| |].
    + intros. by do 2 eexists.
    + intros [k1 v1] [k2 v2] s t Hx Hy Hs Ht. cbn [fst snd]. intros E'.
      rewrite <- (app_assoc (json_string k1)), <- (app_assoc (json_string k2)) in E'.
      apply Hw1 in Hx as Hx'. apply Hw2 in Hy as Hy'. cbn [fst snd] in Hx', Hy'.
      apply json_string_inj in E' as [-> E']; [|naive_solver..].
      apply (inj (cons 58)) in E'. 
      destruct (IH _ Hx v2 s t) as [Ev Es]; simpl in *; [naive_solver..|]. by subst.
Qed.

Lemma canonical_json_inj j1 j2 :
  json_wf j1 → json_wf j2 → canonical_json j1 = canonical_json j2 → j1 = j2.
Proof.
  intros H1 H2 E. apply (canonical_json_prefix j1 j2 [] []); [done..|]. by rewrite !app_nil_r.
Qed.

(** ** Lemmas: the text is ASCII *)

Lemma hex_digit_ascii d : 0 ≤ d < 16 → 32 ≤ hex_digit d < 128.
Proof. unfold hex_digit. case_match; bool_prop; lia. Qed.

Lemma hex4_ascii u : Forall (λ c, 32 ≤ c < 128) (hex4 u).
Proof. unfold hex4. repeat constructor; apply hex_digit_ascii, Z.mod_pos_bound; lia. Qed.

Lemma esc_char_ascii c : Forall (λ x, 32 ≤ x < 128) (esc_char c).
Proof.
  unfold esc_char. repeat (case_match; [bool_prop; repeat constructor; lia|]). case_match.
  - do 2 (constructor; [lia|]). apply hex4_ascii.
  - cbv zeta. do 2 (constructor; [lia|]). apply Forall_app. split; [apply hex4_ascii|].
    do 2 (constructor; [lia|]). apply hex4_ascii.
Qed.

Lemma json_string_ascii s : Forall (λ x, 32 ≤ x < 128) (json_string s).
Proof.
  unfold json_string. constructor; [lia|]. apply Forall_app. split; [|repeat constructor; lia].
  apply Forall_concat, Forall_fmap, Forall_forall. intros c _. apply esc_char_ascii.
Qed.

Lemma join_forall (P : Z → Prop) (sep : Z) l : P sep → Forall (Forall P) l → Forall P (join sep l).
Proof.
  intros Hs. induction 1 as [|x l Hx Hl IH]; [constructor|]. destruct l as [|y l]; [done|]. cbn [join] in *.
  apply Forall_app. split; [done|]. by constructor.
Qed.

Lemma canonical_json_ascii j : Forall (λ x, 0 ≤ x < 128) (canonical_json j).
Proof.
  induction j as [|[]|z|s|l IH|l IH] using json_nested_ind; cbn [canonical_json].
  1-3: vm_compute; repeat constructor; done.
  - eapply Forall_impl; [apply str_of_int_chars|]. intros c [?| ->]%int_char_spec; lia.
  - eapply Forall_impl; [apply json_string_ascii|]. intros; simpl in *; lia.
  - constructor; [lia|]. apply Forall_app. split; [|repeat constructor; lia]. apply join_forall; [lia|]. by apply Forall_map.
  - constructor; [lia|]. apply Forall_app. split; [|repeat constructor; lia]. apply join_forall; [lia|].
    apply Forall_map. rewrite sort_by_perm. apply Forall_map. eapply Forall_impl; [exact IH|]. intros [k v] Hv. simpl in *.
    unfold json_item. apply Forall_app. split; [eapply Forall_impl; [apply json_string_ascii|]; intros; simpl in *; lia|]. constructor; [lia|done].
Qed.
