(* ===== verification/Crypto.v ===== *)
(** * Wallets, addresses and signatures (crypto.py)

    Hashing, addresses, public keys and Ed25519 wallets.  The signature scheme
    is the third-party [cryptography] package: its raw operations are the class
    [Ed25519], and what the program relies on is the class [Ed25519Ok]. *)

From S2P Require Import Prelude PyBytes PyText Sha256 Base64 Json.
Local Open Scope Z_scope.

Definition ADDRESS_PREFIX : str := py "bcc_".
Definition KEY_ALGORITHM : str := py "ed25519".

(** [sha256_hex(data)] on bytes, and on text, which is encoded first. *)
Definition sha256_hex (data : bytes) : str := bytes_hex (sha256 data).
Definition sha256_hex_str (data : str) : result str := sha256_hex <$> utf8_encode data.

(** [is_valid_address(address)] *)
Definition is_valid_address (address : str) : bool :=
  if negb (startswith address ADDRESS_PREFIX) then false
  else
    let suffix := drop (length ADDRESS_PREFIX) address in
    (zlen suffix =? 40) && forallb lower_hex suffix.

(** ** Keys *)

Record PublicKey := mkPublicKey { pk_algorithm : str; pk_key : str }.

#[global] Instance PublicKey_eq_dec : EqDecision PublicKey.
Proof. solve_decision. Defined.

(** [PublicKey.address] *)
Definition address (pk : PublicKey) : result str :=
  h ← sha256_hex_str (pk_key pk); Ok (ADDRESS_PREFIX ++ take 40 h).

(** [PublicKey.to_dict] / [PublicKey.from_dict] on a [dict[str, str]]. *)
Definition pk_to_dict (pk : PublicKey) : gmap str str :=
  <[py "algorithm" := pk_algorithm pk]> (<[py "key" := pk_key pk]> ∅).

Definition dict_get (d : gmap str str) (k : str) : result str :=
  match d !! k with Some v => Ok v | None => Err (Exn KeyError k) end.

Definition pk_from_dict (d : gmap str str) : result PublicKey :=
  a ← dict_get d (py "algorithm"); k ← dict_get d (py "key"); Ok (mkPublicKey a k).

(** ** The signature scheme *)

(** The operations of [cryptography.hazmat...ed25519] on raw keys: whether
    [from_public_bytes] and [from_private_bytes] accept the bytes, the public
    key of a private key, signing, and whether [verify] accepts. *)
Class Ed25519 := {
  ed_public_ok : bytes → bool;
  ed_private_ok : bytes → bool;
  ed_public : bytes → bytes;
  ed_sign : bytes → bytes → bytes;
  ed_verify : bytes → bytes → bytes → bool;
}.

(** A generated key pair is well formed and verifies its own signatures, which
    are not empty. *)
Class Ed25519Ok `{Ed25519} : Prop := {
  ed_public_valid sk : ed_private_ok sk = true → ed_public_ok (ed_public sk) = true;
  ed_sign_verify sk m : ed_private_ok sk = true → ed_verify (ed_public sk) (ed_sign sk m) m = true;
  ed_sign_nonempty sk m : ed_private_ok sk = true → ed_sign sk m ≠ [];
}.

Section signatures.
Context `{Ed25519}.

(** [PublicKey.create] on the raw public key. *)
Definition pk_create (raw : bytes) : PublicKey := mkPublicKey KEY_ALGORITHM (b64encode raw).

(** [PublicKey.material] *)
Definition material (pk : PublicKey) : result bytes :=
  raise_if (bool_decide (pk_algorithm pk ≠ KEY_ALGORITHM)) ValueError "unsupported public key algorithm";;
  raw ← b64decode (pk_key pk);
  raise_if (negb (ed_public_ok raw)) ValueError "An Ed25519 public key is 32 bytes long";;
  Ok raw.

(** [verify_signature]; [InvalidSignature] is the [False] of [ed_verify]. *)
Definition verify_signature (pk : PublicKey) (message signature : str) : result bool :=
  try_catch
    (key ← material pk;
     sig ← b64decode signature;
     msg ← utf8_encode message;
     Ok (ed_verify key sig msg))
    (λ e, if is_value_error e then Ok false else Err e).

Record Wallet := mkWallet { w_public_key : PublicKey; w_private_key : str }.

(** [Wallet.create] on the generated raw private key; [bits] must be absent
    or 256. *)
Definition wallet_create (bits : option Z) (raw_private : bytes) : result Wallet :=
  raise_if (match bits with Some b => negb (b =? 256) | None => false end)
    ValueError "Ed25519 wallets use fixed 256-bit private keys";;
  Ok (mkWallet (pk_create (ed_public raw_private)) (b64encode raw_private)).

(** [Wallet.sign] *)
Definition wallet_sign (w : Wallet) (message : str) : result str :=
  raw ← b64decode (w_private_key w);
  raise_if (negb (ed_private_ok raw)) ValueError "An Ed25519 private key is 32 bytes long";;
  msg ← utf8_encode message;
  Ok (b64encode (ed_sign raw msg)).

Definition wallet_address (w : Wallet) : result str := address (w_public_key w).
End signatures.

(** ** Lemmas *)

Lemma sha256_hex_length b : length (sha256_hex b) = 64%nat.
Proof. unfold sha256_hex. by rewrite bytes_hex_length, sha256_length. Qed.

Lemma sha256_hex_lower b : Forall (λ c, lower_hex c = true) (sha256_hex b).
Proof. apply bytes_hex_lower. Qed.

Lemma sha256_hex_inj b1 b2 : sha256_hex b1 = sha256_hex b2 → sha256 b1 = sha256 b2.
Proof. apply bytes_hex_inj. Qed.

Lemma is_valid_address_spec a :
  is_valid_address a = true ↔
  ∃ suffix, a = ADDRESS_PREFIX ++ suffix ∧ length suffix = 40%nat ∧ Forall (λ c, lower_hex c = true) suffix.
Proof.
  assert (Hall : ∀ l, forallb lower_hex l = true ↔ Forall (λ c, lower_hex c = true) l).
  { intros l. rewrite forallb_forall, Forall_forall. by setoid_rewrite list_elem_of_In. }
  unfold is_valid_address. destruct (startswith a ADDRESS_PREFIX) eqn:E; simpl negb; cbn iota.
  - apply startswith_spec in E as [k ->]. rewrite drop_app_length, andb_true_iff, Z.eqb_eq, Hall.
    unfold zlen. split.
    + intros [Hl Hk]. exists k. split_and!; [done|lia|done].
    + intros (s & E & Hl & Hs). apply app_inv_head in E as ->. split; [lia|done].
  - split; [done|]. intros (s & -> & _). assert (startswith (ADDRESS_PREFIX ++ s) ADDRESS_PREFIX = true) as E'.
    { apply startswith_spec. by exists s. } congruence.
Qed.

(** Every derived address has the shape the ledger accepts. *)
Lemma address_valid pk a : address pk = Ok a → is_valid_address a = true.
Proof.
  unfold address, sha256_hex_str. intros E. inv_oks. subst. apply is_valid_address_spec.
  eexists. split; [done|]. split.
  - rewrite length_take, sha256_hex_length. lia.
  - apply Forall_take, sha256_hex_lower.
Qed.

Lemma pk_from_to_dict pk : pk_from_dict (pk_to_dict pk) = Ok pk.
Proof.
  unfold pk_from_dict, pk_to_dict, dict_get. rewrite lookup_insert_eq.
  rewrite lookup_insert_ne by done. rewrite lookup_insert_eq. simpl. by destruct pk.
Qed.

Section signature_lemmas.
Context `{Ed25519}.

(** [verify_signature] never raises. *)
Lemma verify_signature_total pk m s : ∃ b, verify_signature pk m s = Ok b.
Proof.
  unfold verify_signature, try_catch. case_match eqn:E; [by eauto|].
  assert (is_value_error e = true) as ->; [|by eauto].
  revert e E. change (raises_only is_value_error
    (key ← material pk; sig ← b64decode s; msg ← utf8_encode m; Ok (ed_verify key sig msg))).
  unfold material. eauto 10 using b64decode_raises, utf8_encode_raises with bcc.
Qed.

Lemma verify_signature_true pk m s :
  verify_signature pk m s = Ok true ↔
  ∃ key sig msg, material pk = Ok key ∧ b64decode s = Ok sig ∧ utf8_encode m = Ok msg ∧
    ed_verify key sig msg = true.
Proof.
  unfold verify_signature, try_catch. split.
  - case_match eqn:E; [|by case_match]. intros [= ->]. inv_ok E. eauto 10.
  - intros (key & sig & msg & -> & -> & -> & Hv). simpl. by rewrite Hv.
Qed.

(** What a wallet signs verifies under the wallet's public key. *)
Lemma wallet_sign_verifies `{!Ed25519Ok} bits raw w m s :
  ed_private_ok raw = true → wallet_create bits raw = Ok w → wallet_sign w m = Ok s →
  verify_signature (w_public_key w) m s = Ok true.
Proof.
  unfold wallet_create, wallet_sign. intros Hraw Hw Hs. inv_ok Hw. subst w. simpl in Hs.
  rewrite b64_decode_encode in Hs. inv_ok Hs. simplify_eq.
  apply verify_signature_true. simpl. unfold material. simpl.
  rewrite b64_decode_encode. simpl.
  rewrite ed_public_valid by done. simpl.
  eexists _, _, _. split_and!; [done|apply b64_decode_encode|done|]. by apply ed_sign_verify.
Qed.

(** A created wallet signs every message, with a signature that is not empty. *)
Lemma wallet_sign_total `{!Ed25519Ok} bits raw w m :
  ed_private_ok raw = true → wallet_create bits raw = Ok w → Forall (λ c, 0 ≤ c < 128) m →
  ∃ s, wallet_sign w m = Ok s ∧ s ≠ [].
Proof.
  unfold wallet_create, wallet_sign. intros Hraw Hw Hm. inv_ok Hw. subst w. simpl.
  rewrite b64_decode_encode. csimpl. rewrite Hraw. csimpl. destruct (utf8_encode_ascii m Hm) as [b ->]. csimpl.
  eexists. split; [done|]. intros E. apply (ed_sign_nonempty raw b Hraw), b64encode_inj. rewrite E. done.
Qed.

Lemma wallet_address_total bits raw w : wallet_create bits raw = Ok w → ∃ a, wallet_address w = Ok a.
Proof.
  unfold wallet_create, wallet_address, address, sha256_hex_str. intros Hw. inv_ok Hw. subst w. simpl.
  destruct (utf8_encode_ascii (b64encode (ed_public raw)) (b64encode_ascii _)) as [b ->]. csimpl. eauto.
Qed.
End signature_lemmas.

(** A concrete scheme that satisfies what the program relies on: it shows that
    the assumptions are consistent, and examples evaluate with it. *)
Definition toy_ed25519 : Ed25519 := {|
  ed_public_ok b := zlen b =? 32;
  ed_private_ok b := zlen b =? 32;
  ed_public sk := sha256 sk;
  ed_sign sk m := sha256 (sha256 sk ++ m);
  ed_verify pk sig m := bool_decide (sig = sha256 (pk ++ m));
|}.

Lemma toy_ed25519_ok : @Ed25519Ok toy_ed25519.
Proof.
  split; simpl.
  - intros sk _. unfold zlen. by rewrite sha256_length.
  - intros sk m _. by apply bool_decide_eq_true.
  - intros sk m _ E. apply (f_equal length) in E. by rewrite sha256_length in E.
Qed.

Definition toy_key (name : string) : bytes := sha256 (b_lit name).

Definition toy_wallet (name : string) : Wallet :=
  mkWallet (@pk_create (@ed_public toy_ed25519 (toy_key name))) (b64encode (toy_key name)).

Definition toy_address (name : string) : str :=
  ok_or [] (wallet_address (toy_wallet name)).
