(* ===== verification/ByteReader.v ===== *)
(** * The bounds-checked reader and the field codecs (consensus.py)

    [_ByteReader] keeps the payload and an offset; [_encode_*] and [_decode_*]
    are the field codecs built on [struct].  Two relations carry the proofs
    about composed codecs: [parses p b x] (on any input that starts with [b],
    [p] consumes exactly [b] and returns [x]) and [consumes p e] (whatever [p]
    accepts is the encoding, under [e], of what it returns). *)

From S2P Require Import Prelude PyBytes PyText.
Local Open Scope Z_scope.

Record ByteReader := mkReader { payload : bytes; offset : Z }.

Definition new_reader (b : bytes) : ByteReader := mkReader b 0.

Notation Parser A := (SM ByteReader A) (only parsing).

(** [_ByteReader.read] *)
Definition read (size : Z) : Parser bytes := λ r,
  let end_ := offset r + size in
  if (size <? 0) || (zlen (payload r) <? end_) then
    (r, raise ConsensusError "binary payload is truncated")
  else
    (mkReader (payload r) end_,
     Ok (take (Z.to_nat size) (drop (Z.to_nat (offset r)) (payload r)))).

(** [_ByteReader.require_finished] *)
Definition require_finished : Parser unit := λ r,
  (r, raise_if (negb (offset r =? zlen (payload r))) ConsensusError "binary payload has trailing bytes").

(** ** Encoders *)

Definition encode_int (value : Z) : result bytes := pack_q value.

Definition encode_uint (value : Z) : result bytes :=
  raise_if (value <? 0) ConsensusError "unsigned integer cannot be negative";;
  pack_Q value.

Definition encode_float (value : Z) : bytes := pack_d value.

Definition encode_bytes (value : bytes) : result bytes :=
  raise_if (2 ^ 32 - 1 <? zlen value) ConsensusError "binary field is too large";;
  l ← pack_I (zlen value);
  Ok (l ++ value).

Definition encode_text (value : str) : result bytes :=
  b ← utf8_encode value; encode_bytes b.

Definition encode_hash (value : str) : result bytes :=
  raw ← try_catch (fromhex value)
          (λ e, if is_value_error e then raise ConsensusError "hash field is not hexadecimal" else Err e);
  raise_if (negb (zlen raw =? 32)) ConsensusError "hash field must be 32 bytes";;
  Ok raw.

(** ** Decoders *)

Definition decode_int : Parser Z := b ← read 8; mret (unpack_q b).
Definition decode_uint : Parser Z := b ← read 8; mret (unpack_Q b).
Definition decode_float : Parser Z := b ← read 8; mret (unpack_d b).
Definition decode_bytes : Parser bytes := b ← read 4; read (unpack_I b).

Definition decode_text : Parser str :=
  sm_try (b ← decode_bytes; sm_lift (utf8_decode b))
    (λ e, if exn_is UnicodeError e then sm_raise ConsensusError "text field is not valid utf-8"
          else sm_lift (Err e)).

(** [tuple(p(reader) for _ in range(count))].  The count is read from the
    payload and may be as large as 2^64 - 1; every element takes at least one
    byte, so a fuel above the payload's length is never used up. *)
Fixpoint read_many {A} (fuel : nat) (p : Parser A) (count : Z) : Parser (list A) :=
  if count <=? 0 then mret []
  else match fuel with
  | O => sm_raise OutOfFuel "read_many"
  | S fuel' => x ← p; xs ← read_many fuel' p (count - 1); mret (x :: xs)
  end.

(** ** Lemmas: the reader *)

Definition rest_of (r : ByteReader) : bytes := drop (Z.to_nat (offset r)) (payload r).
Definition reader_wf (r : ByteReader) : Prop := 0 ≤ offset r ≤ zlen (payload r).

Lemma new_reader_wf b : reader_wf (new_reader b).
Proof. split; simpl; [lia|]. apply zlen_nonneg. Qed.

Lemma new_reader_rest b : rest_of (new_reader b) = b.
Proof. done. Qed.

(** On a well-formed reader, [p] applied to input that starts with [b] consumes
    exactly [b] and returns [x]. *)
Definition parses {A} (p : Parser A) (b : bytes) (x : A) : Prop :=
  ∀ r rest, reader_wf r → rest_of r = b ++ rest →
  ∃ r', p r = (r', Ok x) ∧ reader_wf r' ∧ payload r' = payload r ∧ rest_of r' = rest.

(** What [p] consumed is the encoding of what it returned. *)
Definition consumes {A} (p : Parser A) (e : A → result bytes) : Prop :=
  ∀ r r' x, reader_wf r → p r = (r', Ok x) →
  ∃ b, e x = Ok b ∧ rest_of r = b ++ rest_of r' ∧ reader_wf r' ∧ payload r' = payload r.

Lemma read_consumes n r r' b : reader_wf r → read n r = (r', Ok b) →
  zlen b = n ∧ rest_of r = b ++ rest_of r' ∧ reader_wf r' ∧ payload r' = payload r.
Proof.
  unfold read, reader_wf, rest_of, raise, zlen. intros Hwf.
  destruct (_ || _) eqn:E; [by intros [=]|]. intros [= <- <-]. bool_prop. simpl.
  split_and!; [|..|lia|lia|done].
  - rewrite length_take, length_drop. lia.
  - rewrite <- (take_drop (Z.to_nat n) (drop (Z.to_nat (offset r)) (payload r))) at 1.
    rewrite drop_drop. do 2 f_equal. lia.
Qed.

Lemma read_parses n b : zlen b = n → parses (read n) b b.
Proof.
  unfold parses, read, reader_wf, rest_of. intros Hn r rest Hwf Hr.
  assert (Hlen : zlen (payload r) = offset r + zlen b + zlen rest).
  { apply (f_equal length) in Hr. rewrite length_drop, length_app in Hr. unfold zlen in *. lia. }
  pose proof (zlen_nonneg b). pose proof (zlen_nonneg rest).
  destruct (_ || _) eqn:E.
  { apply orb_true_iff in E as [E|E]; bool_prop; lia. }
  assert (Hnat : Z.to_nat n = length b) by (unfold zlen in Hn; lia).
  exists (mkReader (payload r) (offset r + n)). split_and!; simpl; [|lia|lia|done|].
  - by rewrite Hr, Hnat, take_app_length.
  - rewrite Z2Nat.inj_add, <- drop_drop, Hr, Hnat by lia. apply drop_app_length.
Qed.

(** ** Lemmas: composing codecs *)

Lemma parses_ret {A} (x : A) : parses (mret x) [] x.
Proof. intros r rest Hwf Hr. by exists r. Qed.

Lemma parses_bind {A B} (p : Parser A) (f : A → Parser B) b1 b2 x y :
  parses p b1 x → parses (f x) b2 y → parses (p ≫= f) (b1 ++ b2) y.
Proof.
  intros Hp Hf r rest Hwf Hr. rewrite <- app_assoc in Hr.
  destruct (Hp r _ Hwf Hr) as (r1 & E1 & Hwf1 & Hpl1 & Hr1).
  destruct (Hf r1 _ Hwf1 Hr1) as (r2 & E2 & Hwf2 & Hpl2 & Hr2).
  exists r2. split_and!; [|done|congruence|done]. apply SM_bind_Ok. eauto.
Qed.

Lemma parses_bind_nil {A B} (p : Parser A) (f : A → Parser B) b x y :
  parses p b x → parses (f x) [] y → parses (p ≫= f) b y.
Proof. intros Hp Hf. rewrite <- (app_nil_r b). by eapply parses_bind. Qed.

(** The last step of a decoder, which consumes nothing. *)
Lemma parses_bind_last {A B} (p : Parser A) (f : A → B) b x :
  parses p b x → parses (y ← p; mret (f y)) b (f x).
Proof. intros Hp. eapply parses_bind_nil; [done|]. apply parses_ret. Qed.

Lemma parses_try {A} (p : Parser A) h b x : parses p b x → parses (sm_try p h) b x.
Proof.
  intros Hp r rest Hwf Hr. destruct (Hp r rest Hwf Hr) as (r' & E & ?). exists r'.
  unfold sm_try. by rewrite E.
Qed.

Lemma consumes_try {A} (p : Parser A) h e :
  consumes p e → (∀ x s y, (h x s).2 ≠ Ok y) → consumes (sm_try p h) e.
Proof.
  intros Hp Hh r r' x Hwf. unfold sm_try. destruct (p r) as [r1 [y|y]] eqn:E.
  - intros [= <- <-]. by eapply Hp.
  - intros E'. exfalso. eapply (Hh y r1). by rewrite E'.
Qed.

Lemma parses_many {A} (p : Parser A) fuel bs xs :
  (length xs ≤ fuel)%nat → Forall2 (λ b x, parses p b x) bs xs →
  parses (read_many fuel p (zlen xs)) (concat bs) xs.
Proof.
  intros Hf HF. revert fuel Hf. induction HF as [|b x bs xs Hb HF IH]; intros fuel Hf.
  - destruct fuel; apply parses_ret.
  - destruct fuel as [|fuel]; simpl in Hf; [lia|]. cbn [read_many].
    rewrite zlen_cons. pose proof (zlen_nonneg xs).
    replace (1 + zlen xs <=? 0) with false by (symmetry; apply Z.leb_gt; lia).
    replace (1 + zlen xs - 1) with (zlen xs) by lia.
    simpl concat. eapply parses_bind; [done|]. apply parses_bind_last. apply IH. lia.
Qed.

(** ** Lemmas: the field codecs *)

Lemma encode_uint_parses v b : encode_uint v = Ok b → parses decode_uint b v.
Proof.
  unfold encode_uint. intros H. inv_ok H.
  rewrite <- (pack_unpack_Q _ _ H). apply parses_bind_last, read_parses.
  unfold zlen. by erewrite pack_Q_length.
Qed.

Lemma encode_int_parses v b : encode_int v = Ok b → parses decode_int b v.
Proof.
  unfold encode_int. intros H.
  rewrite <- (pack_unpack_q _ _ H). apply parses_bind_last, read_parses.
  unfold zlen. by erewrite pack_q_length.
Qed.

Lemma encode_float_parses v : 0 ≤ v < 2 ^ 64 → parses decode_float (encode_float v) v.
Proof.
  intros H. unfold encode_float. rewrite <- (pack_unpack_d v) at 2 by done.
  apply parses_bind_last, read_parses. unfold zlen. by rewrite pack_d_length.
Qed.

Lemma encode_bytes_parses v b : encode_bytes v = Ok b → parses decode_bytes b v.
Proof.
  unfold encode_bytes, decode_bytes. intros H. inv_ok H. subst.
  eapply parses_bind; [apply read_parses; unfold zlen; by erewrite pack_I_length|].
  apply read_parses. by erewrite pack_unpack_I.
Qed.

Lemma encode_text_parses v b : encode_text v = Ok b → parses decode_text b v.
Proof.
  unfold encode_text, decode_text. intros H. inv_ok H.
  apply parses_try. eapply parses_bind_nil; [by apply encode_bytes_parses|].
  intros r rest Hwf Hr. exists r. unfold sm_lift.
  by rewrite (utf8_decode_encode_nil _ _ Hx).
Qed.

Lemma decode_int_consumes : consumes decode_int encode_int.
Proof.
  intros r r' x Hwf H. apply SM_bind_Ok in H as (b & r1 & H & [= <- <-]).
  apply read_consumes in H as (Hl & ?); [|done]. exists b. split; [|done].
  apply unpack_pack_q. unfold zlen in Hl. lia.
Qed.

Lemma decode_uint_consumes : consumes decode_uint encode_uint.
Proof.
  intros r r' x Hwf H. apply SM_bind_Ok in H as (b & r1 & H & [= <- <-]).
  apply read_consumes in H as (Hl & ?); [|done]. exists b. split; [|done].
  assert (Hl' : length b = 8%nat) by (unfold zlen in Hl; lia).
  unfold encode_uint. pose proof (unpack_Q_range b Hl').
  replace (unpack_Q b <? 0) with false by (symmetry; apply Z.ltb_ge; lia).
  by apply unpack_pack_Q.
Qed.

Lemma decode_uint_range r r' x : reader_wf r → decode_uint r = (r', Ok x) → 0 ≤ x < 2 ^ 64.
Proof.
  intros Hwf H. apply SM_bind_Ok in H as (b & r1 & H & [= <- <-]).
  apply read_consumes in H as (Hl & ?); [|done]. apply unpack_Q_range. unfold zlen in Hl. lia.
Qed.

Lemma decode_float_consumes : consumes decode_float (λ v, Ok (encode_float v)).
Proof.
  intros r r' x Hwf H. apply SM_bind_Ok in H as (b & r1 & H & [= <- <-]).
  apply read_consumes in H as (Hl & ?); [|done]. exists b. split; [|done].
  f_equal. apply unpack_pack_d. unfold zlen in Hl. lia.
Qed.

Lemma decode_bytes_consumes : consumes decode_bytes encode_bytes.
Proof.
  intros r r' x Hwf H. apply SM_bind_Ok in H as (l & r1 & H1 & H2).
  apply read_consumes in H1 as (Hl1 & Hr1 & Hwf1 & Hp1); [|done].
  apply read_consumes in H2 as (Hl2 & Hr2 & Hwf2 & Hp2); [|done].
  assert (Hl' : length l = 4%nat) by (unfold zlen in Hl1; lia).
  exists (l ++ x). pose proof (unpack_I_range l Hl'). split_and!; [|by rewrite Hr1, Hr2, app_assoc|done|congruence].
  unfold encode_bytes. rewrite Hl2.
  replace (_ <? _) with false by (symmetry; apply Z.ltb_ge; lia).
  simpl. by rewrite unpack_pack_I.
Qed.

Lemma decode_text_consumes : consumes decode_text encode_text.
Proof.
  apply consumes_try.
  - intros r r' x Hwf H. apply SM_bind_Ok in H as (b & r1 & H1 & H2).
    destruct (decode_bytes_consumes _ _ _ Hwf H1) as (b' & Hb & ?).
    unfold sm_lift in H2. injection H2 as <- H2. exists b'. split; [|done].
    unfold encode_text. by rewrite (utf8_encode_decode _ _ H2).
  - intros x s y. by case_match.
Qed.

Lemma encode_hash_length v b : encode_hash v = Ok b → length b = 32%nat.
Proof. unfold encode_hash. intros H. inv_ok H. subst. bool_prop. unfold zlen in *. lia. Qed.

(** The text of a 32-byte hash in the form [bytes.hex] writes: 64 lower-case
    digits. *)
Definition hash_text (s : str) : Prop := length s = 64%nat ∧ Forall (λ c, lower_hex c = true) s.

#[global] Instance hash_text_dec s : Decision (hash_text s).
Proof. unfold hash_text. apply _. Defined.

Lemma bytes_hex_hash_text b : length b = 32%nat → hash_text (bytes_hex b).
Proof. intros H. split; [by rewrite bytes_hex_length, H|apply bytes_hex_lower]. Qed.

Lemma encode_hash_hex b : length b = 32%nat → encode_hash (bytes_hex b) = Ok b.
Proof.
  intros Hl. unfold encode_hash. rewrite fromhex_hex. simpl. unfold zlen. by rewrite Hl.
Qed.

Lemma encode_hash_fromhex s b : encode_hash s = Ok b → fromhex s = Ok b.
Proof.
  unfold encode_hash, try_catch. intros H. inv_ok H. subst.
  destruct (fromhex s); [done|]. by case_match.
Qed.

(** A hash field in [hash_text] form reads back as itself. *)
Lemma encode_hash_parses s b : hash_text s → encode_hash s = Ok b →
  parses (x ← read 32; mret (bytes_hex x)) b s.
Proof.
  intros [_ Hs] H. rewrite <- (hex_fromhex_lower s b) by eauto using encode_hash_fromhex.
  apply parses_bind_last, read_parses. unfold zlen. by erewrite encode_hash_length.
Qed.

(** A list decoder consumes the concatenation of the elements' encodings. *)
Lemma consumes_many {A} (p : Parser A) (e : A → result bytes) fuel count r r' xs :
  consumes p e → reader_wf r → 0 ≤ count → read_many fuel p count r = (r', Ok xs) →
  zlen xs = count ∧ ∃ bs, mapR e xs = Ok bs ∧ rest_of r = concat bs ++ rest_of r' ∧
    reader_wf r' ∧ payload r' = payload r.
Proof.
  intros Hp. revert count r xs. induction fuel as [|fuel IH]; intros count r xs Hwf Hc H;
    cbn [read_many] in H; destruct (Z.leb_spec count 0).
  - injection H as <- <-. split; [unfold zlen; simpl; lia|]. by exists [].
  - by injection H.
  - injection H as <- <-. split; [unfold zlen; simpl; lia|]. by exists [].
  - apply SM_bind_Ok in H as (x & r1 & H1 & H). apply SM_bind_Ok in H as (ys & r2 & H2 & [= <- <-]).
    destruct (Hp _ _ _ Hwf H1) as (b & Hb & Hr1 & Hwf1 & Hp1).
    apply IH in H2 as (Hl & bs & Hbs & Hr2 & Hwf2 & Hp2); [|done|lia].
    split; [rewrite zlen_cons; lia|]. exists (b :: bs). simpl. rewrite Hb. simpl. rewrite Hbs. simpl.
    split_and!; [done|by rewrite Hr1, Hr2, app_assoc|done|congruence].
Qed.

(** ** Lemmas: decoders raise nothing but [ConsensusError]

    [safe_at n p]: on a well-formed reader with at most [n] bytes left, [p]
    moves forward and either returns or raises [ConsensusError]. *)
Definition safe_at {A} (n : nat) (p : Parser A) : Prop := ∀ r r' res,
  reader_wf r → (length (rest_of r) ≤ n)%nat → p r = (r', res) →
  reader_wf r' ∧ payload r' = payload r ∧ (length (rest_of r') ≤ length (rest_of r))%nat ∧
  raises_only (exn_is ConsensusError) res.

(** A decoder that returns has consumed something. *)
Definition productive {A} (p : Parser A) : Prop := ∀ r r' x,
  reader_wf r → p r = (r', Ok x) → (length (rest_of r') < length (rest_of r))%nat.

Lemma safe_ret {A} n (x : A) : safe_at n (mret x).
Proof. intros r r' res Hwf Hn [= <- <-]. auto with bcc. Qed.

Lemma safe_raise {A} n msg : safe_at n (@sm_raise ByteReader A ConsensusError msg).
Proof. intros r r' res Hwf Hn [= <- <-]. auto with bcc. Qed.

Lemma safe_bind {A B} n (p : Parser A) (f : A → Parser B) :
  safe_at n p → (∀ x, safe_at n (f x)) → safe_at n (p ≫= f).
Proof.
  intros Hp Hf r r' res Hwf Hn. unfold mbind, SM_bind. destruct (p r) as [r1 [x|e]] eqn:E; intros H.
  - destruct (Hp _ _ _ Hwf Hn E) as (Hwf1 & Hpl & Hl & _).
    destruct (Hf x r1 r' res) as (? & ? & ? & ?); [done|lia|done|].
    split_and!; [done|congruence|lia|done].
  - injection H as <- <-. destruct (Hp _ _ _ Hwf Hn E) as (? & ? & ? & Hr).
    split_and!; [done..|]. intros e' [= <-]. by apply Hr.
Qed.

Lemma safe_read n size : safe_at n (read size).
Proof.
  intros r r' res Hwf Hn H. destruct res as [b|e].
  - apply read_consumes in H as (_ & Hr & ? & ?); [|done].
    split_and!; [done..| |auto with bcc]. rewrite Hr, length_app. lia.
  - unfold read in H. destruct (_ || _); [|by injection H]. injection H as <- <-.
    split_and!; [done..|]. by intros e' [= <-].
Qed.

Lemma safe_lift_raise_if n c msg : safe_at n (sm_lift (raise_if c ConsensusError msg)).
Proof. intros r r' res Hwf Hn [= <- <-]. auto with bcc. Qed.

Lemma safe_require_finished n : safe_at n require_finished.
Proof. intros r r' res Hwf Hn [= <- <-]. auto with bcc. Qed.

Lemma safe_decode_text n : safe_at n decode_text.
Proof.
  intros r r' res Hwf Hn. unfold decode_text, sm_try.
  destruct (decode_bytes r) as [r1 [b|e]] eqn:E; unfold mbind, SM_bind; rewrite E;
    (destruct (safe_bind n (read 4) (λ b, read (unpack_I b)) (safe_read n 4)
      (λ b, safe_read n (unpack_I b)) r r1 _ Hwf Hn E) as (? & ? & ? & Hr)).
  - unfold sm_lift. destruct (utf8_decode b) as [s|e] eqn:Eu; simpl.
    + intros [= <- <-]. auto with bcc.
    + assert (exn_is UnicodeError e = true) as ->.
      { revert e Eu. change (raises_only (exn_is UnicodeError) (utf8_decode b)).
        apply utf8_decode_raises. }
      intros [= <- <-]. auto with bcc.
  - specialize (Hr e eq_refl). unfold exn_is in *. bool_prop. rewrite Hr. simpl.
    intros [= <- <-]. split_and!; [done..|]. intros e' [= <-]. unfold exn_is. by rewrite Hr.
Qed.

Lemma productive_bind {A B} (p : Parser A) (f : A → Parser B) :
  (∀ n, safe_at n p) → productive p → (∀ x n, safe_at n (f x)) → productive (p ≫= f).
Proof.
  intros Hs Hp Hf r r' x Hwf H. apply SM_bind_Ok in H as (y & r1 & H1 & H2).
  destruct (Hs _ _ _ _ Hwf (le_n _) H1) as (Hwf1 & _).
  destruct (Hf y _ _ _ _ Hwf1 (le_n _) H2) as (_ & _ & ? & _). apply Hp in H1; [lia|done].
Qed.

Lemma productive_read n : 0 < n → productive (read n).
Proof.
  intros Hn r r' b Hwf H. apply read_consumes in H as (Hl & Hr & _); [|done].
  rewrite Hr, length_app. unfold zlen in Hl. lia.
Qed.

(** With more fuel than bytes left, [read_many] does not run out. *)
Lemma safe_many {A} (p : Parser A) fuel count n :
  (∀ n, safe_at n p) → productive p → (n < fuel)%nat → safe_at n (read_many fuel p count).
Proof.
  intros Hs Hp. revert count n. induction fuel as [|fuel IH]; intros count n Hn; [lia|].
  cbn [read_many]. destruct (count <=? 0); [apply safe_ret|].
  intros r r' res Hwf Hr. unfold mbind at 1, SM_bind at 1. destruct (p r) as [r1 [x|e]] eqn:E; intros H.
  - destruct (Hs n _ _ _ Hwf Hr E) as (Hwf1 & Hpl1 & _ & _). apply Hp in E; [|done].
    destruct (safe_bind (pred n) (read_many fuel p (count - 1)) (λ xs, mret (x :: xs))
      ltac:(apply IH; lia) (λ xs, safe_ret _ _) r1 r' res) as (? & ? & ? & ?); [done|lia|done|].
    split_and!; [done|congruence|lia|done].
  - injection H as <- <-. destruct (Hs n _ _ _ Hwf Hr E) as (? & ? & ? & Hre).
    split_and!; [done..|]. intros e' [= <-]. by apply Hre.
Qed.

Create HintDb reader discriminated.
#[export] Hint Resolve safe_ret safe_raise safe_bind safe_read safe_decode_text safe_lift_raise_if
  safe_require_finished : reader.
