(* ===== verification/Transaction.v ===== *)
(** * Transactions and their canonical encoding (consensus.py)

    [OutPoint], [TxInput], [TxOutput] and [ConsensusTransaction]: the records,
    the binary encoding [to_bytes]/[from_bytes], the transaction identifier,
    the signing message and input signing. *)

From S2P Require Import Prelude PyBytes PyText Sha256 Base64 Json Crypto ByteReader.
Local Open Scope Z_scope.

Definition COINBASE_PREV_TXID : str := replicate 64 48.
Definition BINARY_CODEC_VERSION : Z := 1.

Record OutPoint := mkOutPoint { op_txid : str; op_index : Z }.

Record TxInput := mkTxInput {
  previous_output : OutPoint;
  in_signature : option str;
  in_public_key : option (gmap str str);
}.

Record TxOutput := mkTxOutput { amount : Z; out_address : str }.

Record ConsensusTransaction := mkTx {
  inputs : list TxInput;
  outputs : list TxOutput;
  tx_version : Z;
}.

#[global] Instance OutPoint_eq_dec : EqDecision OutPoint.
Proof. solve_decision. Defined.
#[global] Instance OutPoint_countable : Countable OutPoint.
Proof.
  apply (inj_countable' (λ o, (op_txid o, op_index o)) (λ p, mkOutPoint p.1 p.2)).
  by intros [].
Defined.
#[global] Instance TxInput_eq_dec : EqDecision TxInput.
Proof. solve_decision. Defined.
#[global] Instance TxOutput_eq_dec : EqDecision TxOutput.
Proof. solve_decision. Defined.
#[global] Instance ConsensusTransaction_eq_dec : EqDecision ConsensusTransaction.
Proof. solve_decision. Defined.

(** ** Encoding *)

Definition outpoint_to_bytes (o : OutPoint) : result bytes :=
  h ← encode_hash (op_txid o); i ← encode_int (op_index o); Ok (h ++ i).

(** [str(d.get(key, ""))] *)
Definition dict_get_default (d : gmap str str) (key : string) : str := default [] (d !! py key).

Definition witness_to_bytes (i : TxInput) : result bytes :=
  s ← match in_signature i with
      | None => Ok [byte_of 0]
      | Some s => t ← encode_text s; Ok (byte_of 1 :: t)
      end;
  k ← match in_public_key i with
      | None => Ok [byte_of 0]
      | Some d =>
          a ← encode_text (dict_get_default d "algorithm");
          k ← encode_text (dict_get_default d "key");
          Ok (byte_of 1 :: a ++ k)
      end;
  Ok (s ++ k).

(** [TxInput.to_bytes(include_witness)] *)
Definition input_to_bytes (include_witness : bool) (i : TxInput) : result bytes :=
  p ← outpoint_to_bytes (previous_output i);
  if include_witness then w ← witness_to_bytes i; Ok (p ++ w) else Ok p.

(** [TxOutput.to_bytes] *)
Definition output_to_bytes (o : TxOutput) : result bytes :=
  a ← encode_uint (amount o); t ← encode_text (out_address o); Ok (a ++ t).

(** [ConsensusTransaction.to_bytes(include_witness)] *)
Definition tx_to_bytes (include_witness : bool) (t : ConsensusTransaction) : result bytes :=
  cv ← pack_H BINARY_CODEC_VERSION;
  v ← encode_int (tx_version t);
  ni ← encode_uint (zlen (inputs t));
  ins ← mapR (input_to_bytes include_witness) (inputs t);
  no ← encode_uint (zlen (outputs t));
  outs ← mapR output_to_bytes (outputs t);
  Ok (b_lit "bcctx" ++ cv ++ v ++ ni ++ concat ins ++ no ++ concat outs).

(** ** Decoding *)

Definition read_hash : Parser str := b ← read 32; mret (bytes_hex b).

(** [OutPoint.from_reader] *)
Definition outpoint_from_reader : Parser OutPoint :=
  h ← read_hash; i ← decode_int; mret (mkOutPoint h i).

Definition read_flag (msg : string) : Parser bool :=
  f ← read 1;
  sm_lift (raise_if (negb (bool_decide (f = [byte_of 0]) || bool_decide (f = [byte_of 1])))
             ConsensusError msg);;
  mret (bool_decide (f = [byte_of 1])).

Definition read_signature : Parser (option str) :=
  present ← read_flag "signature presence flag is invalid";
  if (present : bool) then s ← decode_text; mret (Some s) else mret None.

Definition read_public_key : Parser (option (gmap str str)) :=
  present ← read_flag "public key presence flag is invalid";
  if (present : bool) then
    a ← decode_text; k ← decode_text;
    mret (Some (<[py "algorithm" := a]> (<[py "key" := k]> ∅)))
  else mret None.

(** [TxInput.from_reader] *)
Definition input_from_reader (include_witness : bool) : Parser TxInput :=
  o ← outpoint_from_reader;
  if include_witness then
    s ← read_signature; k ← read_public_key; mret (mkTxInput o s k)
  else mret (mkTxInput o None None).

(** [TxOutput.from_reader] *)
Definition output_from_reader : Parser TxOutput :=
  a ← decode_uint; t ← decode_text; mret (mkTxOutput a t).

Definition read_magic (n : Z) (magic : bytes) (msg : string) : Parser unit :=
  b ← read n; sm_lift (raise_if (bool_decide (b ≠ magic)) ConsensusError msg).

Definition read_codec_version (msg : string) : Parser unit :=
  b ← read 2;
  sm_lift (raise_if (negb (unpack_H b =? BINARY_CODEC_VERSION)) ConsensusError msg).

Definition tx_body (include_witness : bool) (fuel : nat) : Parser ConsensusTransaction :=
  read_magic 5 (b_lit "bcctx") "transaction binary magic is invalid";;
  read_codec_version "transaction binary codec version is unsupported";;
  v ← decode_int;
  ni ← decode_uint;
  ins ← read_many fuel (input_from_reader include_witness) ni;
  no ← decode_uint;
  outs ← read_many fuel output_from_reader no;
  mret (mkTx ins outs v).

Definition tx_reader (include_witness : bool) (fuel : nat) : Parser ConsensusTransaction :=
  t ← tx_body include_witness fuel; require_finished;; mret t.

(** [ConsensusTransaction.from_bytes(payload, include_witness)] *)
Definition tx_from_bytes (include_witness : bool) (b : bytes) : result ConsensusTransaction :=
  (tx_reader include_witness (S (length b)) (new_reader b)).2.

(** ** Identity, signing *)

(** [ConsensusTransaction.is_coinbase] *)
Definition is_coinbase (t : ConsensusTransaction) : bool :=
  match inputs t with
  | [i] => bool_decide (op_txid (previous_output i) = COINBASE_PREV_TXID)
           && (op_index (previous_output i) <? 0)
  | _ => false
  end.

(** [ConsensusTransaction.txid] *)
Definition txid (t : ConsensusTransaction) : result str := sha256_hex <$> tx_to_bytes true t.

Definition outpoint_json (o : OutPoint) : json :=
  JObj [(py "index", JInt (op_index o)); (py "txid", JStr (op_txid o))].

Definition unsigned_input_json (i : TxInput) : json :=
  JObj [(py "previous_output", outpoint_json (previous_output i))].

Definition output_json (o : TxOutput) : json :=
  JObj [(py "address", JStr (out_address o)); (py "amount", JInt (amount o))].

Definition signing_json (t : ConsensusTransaction) (input_index : Z) : json :=
  JObj [(py "input_index", JInt input_index);
        (py "inputs", JArr (map unsigned_input_json (inputs t)));
        (py "outputs", JArr (map output_json (outputs t)));
        (py "version", JInt (tx_version t))].

(** [ConsensusTransaction.signing_message] *)
Definition signing_message (t : ConsensusTransaction) (input_index : Z) : str :=
  canonical_json (signing_json t input_index).

Section signing.
Context `{Ed25519}.

(** [ConsensusTransaction.sign_input] *)
Definition sign_input (t : ConsensusTransaction) (input_index : Z) (w : Wallet) :
    result ConsensusTransaction :=
  raise_if ((input_index <? 0) || (zlen (inputs t) <=? input_index))
    ConsensusError "input index out of range";;
  match inputs t !! Z.to_nat input_index with
  | None => raise KeyError "unreachable"
  | Some i =>
      s ← wallet_sign w (signing_message t input_index);
      let i' := mkTxInput (previous_output i) (Some s) (Some (pk_to_dict (w_public_key w))) in
      Ok (mkTx (<[Z.to_nat input_index := i']> (inputs t)) (outputs t) (tx_version t))
  end.
End signing.

(** ** Lemmas: decoding inverts encoding *)

(** The forms [from_bytes] produces: hash texts in lower case, and a public
    key dictionary with exactly the two keys of the schema. *)
Definition canonical_key (d : gmap str str) : Prop :=
  d = <[py "algorithm" := dict_get_default d "algorithm"]>
        (<[py "key" := dict_get_default d "key"]> ∅).

Definition canonical_input (i : TxInput) : Prop :=
  hash_text (op_txid (previous_output i)) ∧
  match in_public_key i with None => True | Some d => canonical_key d end.

Definition canonical_tx (t : ConsensusTransaction) : Prop := Forall canonical_input (inputs t).

#[global] Instance canonical_input_dec i : Decision (canonical_input i).
Proof. unfold canonical_input, canonical_key. destruct (in_public_key i); apply _. Defined.
#[global] Instance canonical_tx_dec t : Decision (canonical_tx t).
Proof. unfold canonical_tx. apply _. Defined.

Lemma outpoint_parses o b :
  hash_text (op_txid o) → outpoint_to_bytes o = Ok b → parses outpoint_from_reader b o.
Proof.
  unfold outpoint_to_bytes, outpoint_from_reader. intros Ho H. inv_ok H. subst.
  eapply parses_bind; [by apply encode_hash_parses|].
  destruct o as [h n]. simpl in *. apply (parses_bind_last _ (mkOutPoint h)). by apply encode_int_parses.
Qed.

Lemma flag_parses msg (v : bool) : parses (read_flag msg) [byte_of (Z.b2z v)] v.
Proof.
  unfold read_flag. eapply parses_bind_nil; [by apply read_parses|].
  intros r rest Hwf Hr. exists r. by destruct v.
Qed.

Lemma signature_parses i s : 
  (match in_signature i with
   | None => Ok [byte_of 0]
   | Some s => t ← encode_text s; Ok (byte_of 1 :: t)
   end) = Ok s → parses read_signature s (in_signature i).
Proof.
  intros H. unfold read_signature. destruct (in_signature i) as [v|]; inv_ok H; subst.
  - change (byte_of 1 :: x) with ([byte_of (Z.b2z true)] ++ x).
    eapply parses_bind; [apply flag_parses|]. apply (parses_bind_last _ Some).
    by apply encode_text_parses.
  - change [byte_of 0] with ([byte_of (Z.b2z false)] ++ []).
    eapply parses_bind; [apply flag_parses|]. apply parses_ret.
Qed.

Lemma public_key_parses (k : option (gmap str str)) b :
  match k with None => True | Some d => canonical_key d end →
  (match k with
   | None => Ok [byte_of 0]
   | Some d =>
       a ← encode_text (dict_get_default d "algorithm");
       k ← encode_text (dict_get_default d "key");
       Ok (byte_of 1 :: a ++ k)
   end) = Ok b → parses read_public_key b k.
Proof.
  intros Hk H. unfold read_public_key. destruct k as [d|]; inv_ok H; subst.
  - change (byte_of 1 :: x ++ x0) with ([byte_of (Z.b2z true)] ++ x ++ x0).
    eapply parses_bind; [apply flag_parses|]. cbn iota.
    eapply parses_bind; [by apply encode_text_parses|]. rewrite (f_equal Some Hk : Some d = _).
    apply (parses_bind_last _ (λ k, Some (<[py "algorithm" := _]> (<[py "key" := k]> ∅)))).
    by apply encode_text_parses.
  - change [byte_of 0] with ([byte_of (Z.b2z false)] ++ []).
    eapply parses_bind; [apply flag_parses|]. apply parses_ret.
Qed.

Lemma input_parses i b :
  canonical_input i → input_to_bytes true i = Ok b → parses (input_from_reader true) b i.
Proof.
  unfold input_to_bytes, input_from_reader, witness_to_bytes. intros [Ho Hk] H. inv_oks. subst.
  eapply parses_bind; [by apply outpoint_parses|]. cbn iota.
  eapply parses_bind; [by apply signature_parses|].
  destruct i as [o s k]. apply (parses_bind_last _ (mkTxInput o s)). by apply public_key_parses.
Qed.

Lemma output_parses o b : output_to_bytes o = Ok b → parses output_from_reader b o.
Proof.
  unfold output_to_bytes, output_from_reader. intros H. inv_ok H. subst.
  eapply parses_bind; [by apply encode_uint_parses|].
  destruct o as [a t]. apply (parses_bind_last _ (mkTxOutput a)). by apply encode_text_parses.
Qed.

Lemma mapR_parses {A} (p : Parser A) (e : A → result bytes) xs bs :
  (∀ x b, x ∈ xs → e x = Ok b → parses p b x) → mapR e xs = Ok bs → Forall2 (λ b x, parses p b x) bs xs.
Proof.
  intros Hp. rewrite mapR_Ok. intros HF. apply Forall2_flip.
  induction HF as [|x b xs bs Hb HF IH]; constructor.
  - apply Hp; [left|done].
  - apply IH. intros. apply Hp; [by right|done].
Qed.

(** Encoded elements are never empty, so there are no more of them than bytes. *)
Lemma concat_length_le {A} (e : A → result bytes) xs bs :
  (∀ x b, e x = Ok b → b ≠ []) → mapR e xs = Ok bs → (length xs ≤ length (concat bs))%nat.
Proof.
  intros He. rewrite mapR_Ok. induction 1 as [|x b xs bs Hb HF IH]; simpl; [done|].
  rewrite length_app. apply He in Hb. destruct b; [done|]. simpl. lia.
Qed.

Lemma input_to_bytes_nonempty w i b : input_to_bytes w i = Ok b → b ≠ [].
Proof.
  unfold input_to_bytes, outpoint_to_bytes. intros H ->. inv_oks. subst.
  apply encode_hash_length in Hx0. destruct w; inv_oks; by destruct x0.
Qed.

Lemma output_to_bytes_nonempty o b : output_to_bytes o = Ok b → b ≠ [].
Proof.
  unfold output_to_bytes, encode_uint. intros H ->. inv_oks.
  apply pack_Q_length in Hx. by destruct x.
Qed.

Lemma magic_parses n magic msg : zlen magic = n → parses (read_magic n magic msg) magic tt.
Proof.
  intros Hn. unfold read_magic. eapply parses_bind_nil; [by apply read_parses|]. intros r rest Hwf Hr. exists r.
  unfold sm_lift. by rewrite bool_decide_false by naive_solver.
Qed.

Lemma codec_version_parses msg b :
  pack_H BINARY_CODEC_VERSION = Ok b → parses (read_codec_version msg) b tt.
Proof.
  intros [= <-]. unfold read_codec_version. eapply parses_bind_nil; [by apply read_parses|]. intros r rest Hwf Hr. by exists r.
Qed.

Lemma finished_parses b :
  ∀ r, reader_wf r → rest_of r = [] → payload r = b → require_finished r = (r, Ok tt).
Proof.
  unfold reader_wf, rest_of, require_finished, zlen. intros r Hwf Hr Hb.
  apply (f_equal length) in Hr. rewrite length_drop in Hr. simpl in Hr.
  rewrite (proj2 (Z.eqb_eq _ _)) by lia. done.
Qed.

(** A decoder for a whole payload, run on exactly its encoding. *)
Lemma parses_whole {A} (p : Parser A) b (x : A) :
  parses p b x → (y ← p; require_finished;; mret y) (new_reader b)
                 = (mkReader b (zlen b), Ok x).
Proof.
  intros Hp. destruct (Hp (new_reader b) [] (new_reader_wf b)) as (r' & E & Hwf & Hpl & Hr).
  { by rewrite new_reader_rest, app_nil_r. }
  apply SM_bind_Ok. exists x, r'. split; [done|]. simpl in Hpl.
  assert (r' = mkReader b (zlen b)) as ->.
  { destruct r' as [pl off]. simpl in Hpl. subst pl. f_equal.
    unfold rest_of, reader_wf in *. simpl in *. apply (f_equal length) in Hr.
    rewrite length_drop in Hr. unfold zlen in *. simpl in Hr. lia. }
  unfold mbind, SM_bind. by rewrite (finished_parses b).
Qed.

Lemma tx_body_parses t b fuel :
  canonical_tx t → tx_to_bytes true t = Ok b → (length b < fuel)%nat → parses (tx_body true fuel) b t.
Proof.
  unfold tx_to_bytes, tx_body. intros Hc H Hf. inv_oks. subst.
  rewrite !length_app in Hf.
  pose proof (concat_length_le _ _ _ (input_to_bytes_nonempty true) Hx2).
  pose proof (concat_length_le _ _ _ output_to_bytes_nonempty Hx4).
  eapply parses_bind; [by apply magic_parses|].
  eapply parses_bind; [by apply codec_version_parses|].
  eapply parses_bind; [by apply encode_int_parses|].
  eapply parses_bind; [by apply encode_uint_parses|].
  eapply parses_bind.
  { apply parses_many; [lia|]. eapply mapR_parses; [|done]. intros i b' Hi Hb'.
    apply input_parses; [|done]. unfold canonical_tx in Hc. rewrite Forall_forall in Hc. auto. }
  eapply parses_bind; [by apply encode_uint_parses|].
  destruct t as [ins outs v]. apply (parses_bind_last _ (λ outs, mkTx ins outs v)).
  apply parses_many; [simpl in *; lia|]. eapply mapR_parses; [|done]. eauto using output_parses.
Qed.

Lemma tx_from_to_bytes t b : canonical_tx t → tx_to_bytes true t = Ok b → tx_from_bytes true b = Ok t.
Proof.
  intros Hc Hb. unfold tx_from_bytes, tx_reader.
  rewrite (parses_whole _ b t); [done|]. apply tx_body_parses; [done..|lia].
Qed.

(** ** Lemmas: encoding inverts decoding *)

Lemma outpoint_consumes : consumes outpoint_from_reader outpoint_to_bytes.
Proof.
  intros r r' o Hwf H. apply SM_bind_Ok in H as (h & r1 & H1 & H).
  apply SM_bind_Ok in H1 as (b & r1' & H1 & [= <- <-]).
  apply SM_bind_Ok in H as (n & r2 & H2 & [= <- <-]).
  apply read_consumes in H1 as (Hl & Hr1 & Hwf1 & Hp1); [|done].
  destruct (decode_int_consumes _ _ _ Hwf1 H2) as (b2 & Hb2 & Hr2 & Hwf2 & Hp2).
  exists (b ++ b2). unfold outpoint_to_bytes. simpl.
  rewrite encode_hash_hex by (unfold zlen in Hl; lia). simpl. rewrite Hb2. simpl.
  split_and!; [done|by rewrite Hr1, Hr2, app_assoc|done|congruence].
Qed.

Lemma outpoint_from_reader_hash r r' o :
  reader_wf r → outpoint_from_reader r = (r', Ok o) → hash_text (op_txid o).
Proof.
  intros Hwf H. apply SM_bind_Ok in H as (h & r1 & H1 & H).
  apply SM_bind_Ok in H1 as (b & r1' & H1 & [= <- <-]).
  apply SM_bind_Ok in H as (n & r2 & H2 & [= <- <-]).
  apply read_consumes in H1 as (Hl & _); [|done]. simpl. apply bytes_hex_hash_text.
  unfold zlen in Hl. lia.
Qed.

Lemma flag_consumes msg : consumes (read_flag msg) (λ v, Ok [byte_of (Z.b2z v)]).
Proof.
  intros r r' v Hwf H. apply SM_bind_Ok in H as (f & r1 & H1 & H).
  apply SM_bind_Ok in H as (u & r2 & H2 & [= <- <-]).
  apply read_consumes in H1 as (Hl & Hr1 & Hwf1 & Hp1); [|done].
  unfold sm_lift in H2. injection H2 as <- H2. apply raise_if_Ok in H2.
  apply negb_false_iff, orb_true_iff in H2. exists f. split_and!; [|done..].
  destruct H2 as [Hf|Hf]; bool_prop; subst; by vm_compute.
Qed.

Lemma signature_consumes : consumes read_signature (λ s,
  match s with None => Ok [byte_of 0] | Some s => t ← encode_text s; Ok (byte_of 1 :: t) end).
Proof.
  intros r r' s Hwf H. apply SM_bind_Ok in H as (v & r1 & H1 & H).
  destruct (flag_consumes _ _ _ _ Hwf H1) as (b1 & [= <-] & Hr1 & Hwf1 & Hp1). destruct v.
  - apply SM_bind_Ok in H as (t & r2 & H2 & [= <- <-]).
    destruct (decode_text_consumes _ _ _ Hwf1 H2) as (b2 & Hb2 & Hr2 & Hwf2 & Hp2).
    eexists. rewrite Hb2. simpl. split_and!; [done|by rewrite Hr1, Hr2|done|congruence].
  - injection H as <- <-. by eexists.
Qed.

Lemma public_key_consumes : consumes read_public_key (λ k,
  match k with
  | None => Ok [byte_of 0]
  | Some d =>
      a ← encode_text (dict_get_default d "algorithm");
      k ← encode_text (dict_get_default d "key");
      Ok (byte_of 1 :: a ++ k)
  end).
Proof.
  intros r r' s Hwf H. apply SM_bind_Ok in H as (v & r1 & H1 & H).
  destruct (flag_consumes _ _ _ _ Hwf H1) as (b1 & [= <-] & Hr1 & Hwf1 & Hp1). destruct v.
  - apply SM_bind_Ok in H as (a & r2 & H2 & H). apply SM_bind_Ok in H as (k & r3 & H3 & [= <- <-]).
    destruct (decode_text_consumes _ _ _ Hwf1 H2) as (b2 & Hb2 & Hr2 & Hwf2 & Hp2).
    destruct (decode_text_consumes _ _ _ Hwf2 H3) as (b3 & Hb3 & Hr3 & Hwf3 & Hp3).
    unfold dict_get_default. rewrite lookup_insert_eq, lookup_insert_ne, lookup_insert_eq by done.
    simpl. rewrite Hb2. simpl. rewrite Hb3. simpl. eexists. split; [done|].
    split_and!; [by rewrite Hr1, Hr2, Hr3; simpl; rewrite app_assoc|done|congruence].
  - injection H as <- <-. by eexists.
Qed.

Lemma read_public_key_canonical r r' d : read_public_key r = (r', Ok (Some d)) → canonical_key d.
Proof.
  intros H. apply SM_bind_Ok in H as ([|] & r1 & H1 & H); [|done].
  apply SM_bind_Ok in H as (a & r2 & H2 & H). apply SM_bind_Ok in H as (k & r3 & H3 & [= <- <-]).
  unfold canonical_key, dict_get_default.
  by rewrite lookup_insert_eq, lookup_insert_ne, lookup_insert_eq by done.
Qed.

Lemma input_consumes : consumes (input_from_reader true) (input_to_bytes true).
Proof.
  intros r r' i Hwf H. apply SM_bind_Ok in H as (o & r1 & H1 & H). cbn iota in H.
  apply SM_bind_Ok in H as (s & r2 & H2 & H). apply SM_bind_Ok in H as (k & r3 & H3 & [= <- <-]).
  destruct (outpoint_consumes _ _ _ Hwf H1) as (b1 & Hb1 & Hr1 & Hwf1 & Hp1).
  destruct (signature_consumes _ _ _ Hwf1 H2) as (b2 & Hb2 & Hr2 & Hwf2 & Hp2).
  destruct (public_key_consumes _ _ _ Hwf2 H3) as (b3 & Hb3 & Hr3 & Hwf3 & Hp3).
  exists (b1 ++ b2 ++ b3). unfold input_to_bytes, witness_to_bytes. cbn [previous_output in_signature in_public_key].
  rewrite Hb1. simpl. rewrite Hb2. simpl. rewrite Hb3. simpl.
  split_and!; [done|by rewrite Hr1, Hr2, Hr3, !app_assoc|done|congruence].
Qed.

Lemma input_from_reader_canonical r r' i :
  reader_wf r → input_from_reader true r = (r', Ok i) → canonical_input i.
Proof.
  intros Hwf H. apply SM_bind_Ok in H as (o & r1 & H1 & H). cbn iota in H.
  apply SM_bind_Ok in H as (s & r2 & H2 & H). apply SM_bind_Ok in H as (k & r3 & H3 & [= <- <-]).
  split; simpl; [by eapply outpoint_from_reader_hash|]. destruct k; [|done].
  by eapply read_public_key_canonical.
Qed.

Lemma output_consumes : consumes output_from_reader output_to_bytes.
Proof.
  intros r r' o Hwf H. apply SM_bind_Ok in H as (a & r1 & H1 & H).
  apply SM_bind_Ok in H as (t & r2 & H2 & [= <- <-]).
  destruct (decode_uint_consumes _ _ _ Hwf H1) as (b1 & Hb1 & Hr1 & Hwf1 & Hp1).
  destruct (decode_text_consumes _ _ _ Hwf1 H2) as (b2 & Hb2 & Hr2 & Hwf2 & Hp2).
  exists (b1 ++ b2). unfold output_to_bytes. simpl. rewrite Hb1. simpl. rewrite Hb2. simpl.
  split_and!; [done|by rewrite Hr1, Hr2, app_assoc|done|congruence].
Qed.

Lemma magic_consumes n magic msg : consumes (read_magic n magic msg) (λ _, Ok magic).
Proof.
  intros r r' u Hwf H. apply SM_bind_Ok in H as (b & r1 & H1 & H).
  apply read_consumes in H1 as (Hl & Hr1 & Hwf1 & Hp1); [|done].
  unfold sm_lift in H. injection H as <- H. apply raise_if_Ok in H. bool_prop.
  apply dec_stable in H as ->. by exists magic.
Qed.

Lemma codec_version_consumes msg : consumes (read_codec_version msg) (λ _, pack_H BINARY_CODEC_VERSION).
Proof.
  intros r r' u Hwf H. apply SM_bind_Ok in H as (b & r1 & H1 & H).
  apply read_consumes in H1 as (Hl & Hr1 & Hwf1 & Hp1); [|done].
  unfold sm_lift in H. injection H as <- H. apply raise_if_Ok in H. bool_prop.
  exists b. split; [|done]. change (Ok (be_bytes 2 BINARY_CODEC_VERSION) = Ok b). rewrite <- H.
  unfold unpack_H, zlen in *. replace 2%nat with (length b) by lia. by rewrite be_bytes_val.
Qed.

Lemma canonical_many r r' fuel count l :
  reader_wf r → read_many fuel (input_from_reader true) count r = (r', Ok l) → Forall canonical_input l.
Proof.
  revert r count l. induction fuel as [|fuel IH]; intros r count l Hwf H; cbn [read_many] in H;
    destruct (count <=? 0); try (by injection H as <- <-); try done.
  apply SM_bind_Ok in H as (i & r1 & H1 & H). apply SM_bind_Ok in H as (l' & r2 & H2 & [= <- <-]).
  destruct (input_consumes _ _ _ Hwf H1) as (_ & _ & _ & Hwf1 & _).
  constructor; [exact (input_from_reader_canonical _ _ _ Hwf H1)|exact (IH _ _ _ Hwf1 H2)].
Qed.

Lemma tx_body_consumes fuel r r' t :
  reader_wf r → tx_body true fuel r = (r', Ok t) →
  ∃ b, tx_to_bytes true t = Ok b ∧ rest_of r = b ++ rest_of r' ∧ reader_wf r' ∧
    payload r' = payload r ∧ canonical_tx t.
Proof.
  intros Hwf H. unfold tx_body in H.
  apply SM_bind_Ok in H as (u1 & r1 & H1 & H). apply SM_bind_Ok in H as (u2 & r2 & H2 & H).
  apply SM_bind_Ok in H as (v & r3 & H3 & H). apply SM_bind_Ok in H as (ni & r4 & H4 & H).
  apply SM_bind_Ok in H as (ins & r5 & H5 & H). apply SM_bind_Ok in H as (no & r6 & H6 & H).
  apply SM_bind_Ok in H as (outs & r7 & H7 & [= <- <-]).
  destruct (magic_consumes _ _ _ _ _ _ Hwf H1) as (b1 & [= <-] & Hr1 & Hwf1 & Hp1).
  destruct (codec_version_consumes _ _ _ _ Hwf1 H2) as (b2 & Hb2 & Hr2 & Hwf2 & Hp2).
  destruct (decode_int_consumes _ _ _ Hwf2 H3) as (b3 & Hb3 & Hr3 & Hwf3 & Hp3).
  destruct (decode_uint_consumes _ _ _ Hwf3 H4) as (b4 & Hb4 & Hr4 & Hwf4 & Hp4).
  destruct (consumes_many _ _ _ _ _ _ _ input_consumes Hwf4
    (proj1 (decode_uint_range _ _ _ Hwf3 H4)) H5) as (Hl5 & b5 & Hb5 & Hr5 & Hwf5 & Hp5).
  destruct (decode_uint_consumes _ _ _ Hwf5 H6) as (b6 & Hb6 & Hr6 & Hwf6 & Hp6).
  destruct (consumes_many _ _ _ _ _ _ _ output_consumes Hwf6
    (proj1 (decode_uint_range _ _ _ Hwf5 H6)) H7) as (Hl7 & b7 & Hb7 & Hr7 & Hwf7 & Hp7).
  exists (b_lit "bcctx" ++ b2 ++ b3 ++ b4 ++ concat b5 ++ b6 ++ concat b7).
  split_and!; [|by rewrite Hr1, Hr2, Hr3, Hr4, Hr5, Hr6, Hr7, <- !app_assoc|done|congruence|].
  - unfold tx_to_bytes. cbn [tx_version inputs outputs]. rewrite Hb2. cbn [mbind result_bind].
    rewrite Hb3. cbn [mbind result_bind]. rewrite Hl5, Hb4. cbn [mbind result_bind].
    rewrite Hb5. cbn [mbind result_bind]. rewrite Hl7, Hb6. cbn [mbind result_bind].
    by rewrite Hb7.
  - unfold canonical_tx. simpl. exact (canonical_many _ _ _ _ _ Hwf4 H5).
Qed.

(** A whole payload is consumed when [require_finished] passes. *)
Lemma require_finished_rest r r' u :
  reader_wf r → require_finished r = (r', Ok u) → rest_of r = [] ∧ r' = r.
Proof.
  intros Hwf [= <- H]. apply raise_if_Ok in H. bool_prop. split; [|done].
  unfold rest_of. apply drop_ge. unfold reader_wf, zlen in *. lia.
Qed.

Lemma tx_to_from_bytes b t :
  tx_from_bytes true b = Ok t → tx_to_bytes true t = Ok b ∧ canonical_tx t.
Proof.
  unfold tx_from_bytes. destruct (tx_reader true _ (new_reader b)) as [r' res] eqn:H. simpl. intros ->.
  apply SM_bind_Ok in H as (t' & r1 & H1 & H). apply SM_bind_Ok in H as (u & r2 & H2 & [= <- <-]).
  apply tx_body_consumes in H1 as (b' & Hb' & Hr & Hwf & _ & Hc); [|apply new_reader_wf].
  apply require_finished_rest in H2 as [Hr2 _]; [|done].
  rewrite new_reader_rest, Hr2, app_nil_r in Hr. by subst.
Qed.

(** ** Lemmas: decoding raises nothing but [ConsensusError] *)

Lemma safe_read_flag n msg : safe_at n (read_flag msg).
Proof. unfold read_flag. auto with reader. Qed.

Lemma safe_outpoint n : safe_at n outpoint_from_reader.
Proof. unfold outpoint_from_reader, read_hash, decode_int. auto with reader. Qed.

Lemma safe_input w n : safe_at n (input_from_reader w).
Proof.
  unfold input_from_reader, read_signature, read_public_key.
  apply safe_bind; [apply safe_outpoint|]. intros o. destruct w; [|auto with reader].
  repeat (apply safe_bind; [apply safe_bind; [apply safe_read_flag|intros []; auto with reader]|intros ?]).
  apply safe_ret.
Qed.

Lemma productive_input w : productive (input_from_reader w).
Proof.
  unfold input_from_reader. apply productive_bind; [apply safe_outpoint| |].
  - unfold outpoint_from_reader, read_hash. apply productive_bind; [auto with reader| |].
    + apply productive_bind; [auto with reader|by apply productive_read|auto with reader].
    + intros. unfold decode_int. auto with reader.
  - intros o n. destruct w; [|apply safe_ret]. unfold read_signature, read_public_key.
    repeat (apply safe_bind; [apply safe_bind; [apply safe_read_flag|intros []; auto with reader]|intros ?]).
    apply safe_ret.
Qed.

Lemma safe_output n : safe_at n output_from_reader.
Proof. unfold output_from_reader, decode_uint. auto with reader. Qed.

Lemma productive_output : productive output_from_reader.
Proof.
  unfold output_from_reader, decode_uint. apply productive_bind; [auto with reader| |auto with reader].
  apply productive_bind; [auto with reader|by apply productive_read|auto with reader].
Qed.

Lemma safe_tx_reader w n fuel : (n < fuel)%nat → safe_at n (tx_reader w fuel).
Proof.
  intros Hf. unfold tx_reader, tx_body, read_magic, read_codec_version, decode_int, decode_uint.
  pose proof (λ c, safe_many (input_from_reader w) fuel c n (safe_input w) (productive_input w) Hf).
  pose proof (λ c, safe_many output_from_reader fuel c n safe_output productive_output Hf).
  auto 20 with reader.
Qed.

Lemma tx_from_bytes_raises w b : raises_only (exn_is ConsensusError) (tx_from_bytes w b).
Proof.
  unfold tx_from_bytes. destruct (tx_reader w _ (new_reader b)) as [r' res] eqn:E. simpl.
  apply (safe_tx_reader w (length b)) in E as (_ & _ & _ & ?); [done|lia|apply new_reader_wf|done].
Qed.

(** ** Lemmas: the signing message *)

Definition text_ok (s : str) : Prop := Forall (λ c, scalar c = true) s.

(** Every text field the signing message covers is free of surrogates. *)
Definition tx_text_ok (t : ConsensusTransaction) : Prop :=
  Forall (λ i, text_ok (op_txid (previous_output i))) (inputs t) ∧
  Forall (λ o, text_ok (out_address o)) (outputs t).

#[global] Instance tx_text_ok_dec t : Decision (tx_text_ok t).
Proof. unfold tx_text_ok, text_ok. apply _. Defined.

Lemma py_text_ok s : forallb scalar (py s) = true → text_ok (py s).
Proof. unfold text_ok. rewrite forallb_forall, Forall_forall. by setoid_rewrite list_elem_of_In. Qed.

Ltac key_order := repeat constructor; vm_compute; reflexivity.

Lemma unsigned_input_json_wf i : text_ok (op_txid (previous_output i)) → json_wf (unsigned_input_json i).
Proof.
  intros Hi. apply json_wf_obj. split; [key_order|]. constructor; [|done]. split.
  - by apply py_text_ok.
  - apply json_wf_obj. split; [key_order|]. repeat constructor; try (by apply py_text_ok). done.
Qed.

Lemma output_json_wf o : text_ok (out_address o) → json_wf (output_json o).
Proof.
  intros Ho. apply json_wf_obj. split; [key_order|].
  repeat constructor; try (by apply py_text_ok). done.
Qed.

Lemma signing_json_wf t i : tx_text_ok t → json_wf (signing_json t i).
Proof.
  intros [Hi Ho]. apply json_wf_obj. split; [key_order|].
  repeat (apply Forall_cons_2; [split; [by apply py_text_ok|]|]); [done| | |done|constructor];
    cbn [snd]; apply json_wf_arr, Forall_map.
  - eapply Forall_impl; [exact Hi|]. intros. by apply unsigned_input_json_wf.
  - eapply Forall_impl; [exact Ho|]. intros. by apply output_json_wf.
Qed.

Lemma unsigned_input_json_inj i j :
  unsigned_input_json i = unsigned_input_json j → previous_output i = previous_output j.
Proof. destruct i as [[] ? ?], j as [[] ? ?]. unfold unsigned_input_json, outpoint_json. simpl. congruence. Qed.

Lemma map_inj_on {A B C} (f : A → B) (g : A → C) l1 l2 :
  (∀ x y, f x = f y → g x = g y) → map f l1 = map f l2 → map g l1 = map g l2.
Proof.
  intros Hfg. revert l2. induction l1 as [|x l1 IH]; intros [|y l2] E; simplify_eq/=; [done|].
  f_equal; auto.
Qed.

(** Signing an input leaves every signing message as it was. *)
Lemma signing_message_witness t1 t2 n :
  map previous_output (inputs t1) = map previous_output (inputs t2) →
  outputs t1 = outputs t2 → tx_version t1 = tx_version t2 →
  signing_message t1 n = signing_message t2 n.
Proof.
  intros Hi Ho Hv. unfold signing_message, signing_json. rewrite Ho, Hv. do 6 f_equal.
  revert Hi. generalize (inputs t1) (inputs t2). intros l1.
  induction l1 as [|x l1 IH]; intros [|y l2] E; simplify_eq/=; [done|]. f_equal; [|auto].
  unfold unsigned_input_json. by f_equal; f_equal; f_equal; f_equal.
Qed.

Lemma sign_input_spec `{Ed25519} t n w t' :
  sign_input t n w = Ok t' →
  ∃ i s, 0 ≤ n ∧ inputs t !! Z.to_nat n = Some i ∧ wallet_sign w (signing_message t n) = Ok s ∧
    t' = mkTx (<[Z.to_nat n := mkTxInput (previous_output i) (Some s) (Some (pk_to_dict (w_public_key w)))]>
                (inputs t)) (outputs t) (tx_version t).
Proof.
  unfold sign_input. intros E. inv_ok E. bool_prop.
  destruct (inputs t !! Z.to_nat n) as [i|] eqn:Ei; inv_ok E. eauto 10.
Qed.

Lemma sign_input_outpoints `{Ed25519} t n w t' :
  sign_input t n w = Ok t' → map previous_output (inputs t') = map previous_output (inputs t).
Proof.
  intros (i & s & _ & Hi & _ & ->)%sign_input_spec. simpl. clear -Hi.
  revert Hi. generalize (Z.to_nat n). generalize (inputs t).
  intros l. induction l as [|x l IH]; intros [|k] Hk; simplify_eq/=; [done|]. f_equal; eauto.
Qed.

Lemma sign_input_messages `{Ed25519} t n w t' k :
  sign_input t n w = Ok t' → signing_message t' k = signing_message t k.
Proof.
  intros E. pose proof (sign_input_outpoints _ _ _ _ E).
  apply sign_input_spec in E as (i & s & _ & _ & _ & ->). by apply signing_message_witness.
Qed.

(** ** Properties *)

(** A sample transaction: one signed input, two outputs. *)
Definition sample_tx : ConsensusTransaction :=
  mkTx [mkTxInput (mkOutPoint (bytes_hex (sha256 (b_lit "parent"))) 1) (Some (py "c2ln"))
          (Some (<[py "algorithm" := py "ed25519"]> (<[py "key" := py "a2V5"]> ∅)))]
    [mkTxOutput 7 (py "bcc_0123456789abcdef0123456789abcdef01234567");
     mkTxOutput 35 (py "bcc_89abcdef0123456789abcdef0123456789abcdef")] 1.

Definition sample_tx_bytes : bytes :=
  ok_or [] (tx_to_bytes true sample_tx).

(** [ConsensusTransaction.from_bytes] inverts [to_bytes]: a transaction in
    canonical form (hash texts in lower case, public key dictionaries with the
    two schema keys) that encodes decodes back to exactly itself, witnesses
    included. *)
Theorem tx_roundtrip t b :
  canonical_tx t → tx_to_bytes true t = Ok b → tx_from_bytes true b = Ok t.
Proof. apply tx_from_to_bytes. Qed.

Lemma tx_roundtrip_witness : tx_from_bytes true sample_tx_bytes = Ok sample_tx.
Proof.
  apply tx_roundtrip.
  - apply (bool_decide_unpack (canonical_tx sample_tx)). vm_compute. exact I.
  - vm_compute. reflexivity.
Defined.

(** The encoding is canonical: any byte string [from_bytes] accepts is
    exactly the encoding of the transaction it returns, and that transaction is
    in canonical form.  No two byte strings decode to the same transaction, so
    relaying or storing the bytes never changes a transaction identifier. *)
Theorem tx_decode_canonical b t :
  tx_from_bytes true b = Ok t → tx_to_bytes true t = Ok b ∧ canonical_tx t.
Proof. apply tx_to_from_bytes. Qed.

Lemma tx_decode_canonical_witness :
  tx_to_bytes true sample_tx = Ok sample_tx_bytes ∧ canonical_tx sample_tx.
Proof. apply tx_decode_canonical. vm_compute. reflexivity. Defined.

(** Decoding arbitrary untrusted bytes, with or without witnesses, returns a
    transaction or raises [ConsensusError]: no [struct.error], no Unicode error,
    and no unbounded loop, whatever element counts the payload announces. *)
Theorem tx_decode_total w b :
  (∃ t, tx_from_bytes w b = Ok t) ∨
  (∃ msg, tx_from_bytes w b = Err (Exn ConsensusError msg)).
Proof.
  destruct (tx_from_bytes w b) as [t|[c msg]] eqn:E; [by eauto|].
  apply tx_from_bytes_raises in E. unfold exn_is in E. bool_prop. simpl in E. subst. eauto.
Qed.

(** The identifier binds the transaction: two canonical transactions with
    the same [txid] are equal, or their encodings are an explicit SHA-256
    collision. *)
Theorem txid_binds t1 t2 h :
  canonical_tx t1 → canonical_tx t2 → txid t1 = Ok h → txid t2 = Ok h →
  t1 = t2 ∨ ∃ b1 b2, tx_to_bytes true t1 = Ok b1 ∧ tx_to_bytes true t2 = Ok b2 ∧
    b1 ≠ b2 ∧ sha256 b1 = sha256 b2.
Proof.
  unfold txid. intros Hc1 Hc2 H1 H2. inv_oks. subst. apply sha256_hex_inj in H2.
  destruct (decide (x0 = x)) as [->|Hne]; [left|right; by exists x0, x].
  apply Ok_inj. by rewrite <- (tx_from_to_bytes t1 x), <- (tx_from_to_bytes t2 x).
Qed.

Lemma txid_binds_witness :
  sample_tx = sample_tx ∨ ∃ b1 b2, tx_to_bytes true sample_tx = Ok b1 ∧
    tx_to_bytes true sample_tx = Ok b2 ∧ b1 ≠ b2 ∧ sha256 b1 = sha256 b2.
Proof.
  apply (txid_binds _ _ (sha256_hex sample_tx_bytes)).
  1,2: apply (bool_decide_unpack (canonical_tx sample_tx)); vm_compute; exact I.
  1,2: vm_compute; reflexivity.
Defined.

(** A signature covers the whole spend: two transactions with the same
    signing message agree on the signed position, on every outpoint spent in
    order, on every output and on the version.  A signature can therefore not
    be moved to another input, nor survive a change of outputs. *)
Theorem signing_message_binds t1 t2 n1 n2 :
  tx_text_ok t1 → tx_text_ok t2 → signing_message t1 n1 = signing_message t2 n2 →
  n1 = n2 ∧ map previous_output (inputs t1) = map previous_output (inputs t2) ∧
  outputs t1 = outputs t2 ∧ tx_version t1 = tx_version t2.
Proof.
  intros H1 H2 E. apply canonical_json_inj in E; [|by apply signing_json_wf..].
  injection E as -> Ei Eo ->. split_and!; [done| | |done].
  - by eapply map_inj_on, Ei; eauto using unsigned_input_json_inj.
  - rewrite <- (map_id (outputs t1)), <- (map_id (outputs t2)).
    eapply map_inj_on, Eo. intros [] []. unfold output_json. simpl. congruence.
Qed.

Lemma signing_message_binds_witness :
  0 = 0 ∧ map previous_output (inputs sample_tx) = map previous_output (inputs sample_tx) ∧
  outputs sample_tx = outputs sample_tx ∧ tx_version sample_tx = tx_version sample_tx.
Proof.
  apply (signing_message_binds sample_tx sample_tx 0 0); [| |reflexivity].
  all: apply (bool_decide_unpack (tx_text_ok sample_tx)); vm_compute; exact I.
Defined.
