(* ===== verification/Block.v ===== *)
(** * Blocks, their encoding and the Merkle root (consensus.py)

    [calculate_transaction_root] and [ConsensusBlock]: the header, its hash, the
    binary encoding of a whole block.  The header commits to the transactions
    only through the root; the lemmas say what that commitment gives (lists of
    the same length with the same root are the same, up to a collision the
    computation exhibits) and what it does not (an odd list and the same list
    with its last element repeated have the same root). *)

From S2P Require Import Prelude PyBytes PyText Sha256 Crypto ByteReader Transaction.
Local Open Scope Z_scope.

(** ** Merkle root *)

(** One pass of the loop body over an even layer. *)
Fixpoint merkle_pairs (layer : list bytes) : result (list bytes) :=
  match layer with
  | x :: y :: layer' =>
      h ← fromhex (sha256_hex (x ++ y)); hs ← merkle_pairs layer'; Ok (h :: hs)
  | _ => Ok []
  end.

(** [if len(layer) % 2 == 1: layer.append(layer[-1])] *)
Definition pad_odd (layer : list bytes) : list bytes :=
  if Nat.odd (length layer) then layer ++ [default [] (last layer)] else layer.

(** [while len(layer) > 1: ...; return layer[0].hex()] *)
Fixpoint merkle_loop (fuel : nat) (layer : list bytes) : result str :=
  match layer with
  | [] => raise KeyError "list index out of range"
  | [x] => Ok (bytes_hex x)
  | _ =>
      match fuel with
      | O => raise OutOfFuel "merkle_loop"
      | S fuel' => layer' ← merkle_pairs (pad_odd layer); merkle_loop fuel' layer'
      end
  end.

(** [calculate_transaction_root]; a layer of [n > 1] elements is followed by one
    of at most [n - 1], so the list's length is fuel enough. *)
Definition calculate_transaction_root (transactions : list ConsensusTransaction) : result str :=
  match transactions with
  | [] => sha256_hex_str []
  | _ =>
      layer ← mapR (λ t, h ← txid t; fromhex h) transactions;
      merkle_loop (length transactions) layer
  end.

(** ** Blocks *)

Record ConsensusBlock := mkBlock {
  height : Z;
  previous_hash : str;
  transactions : list ConsensusTransaction;
  difficulty : Z;
  timestamp : Z;
  nonce : Z;
  transaction_root : str;
  block_version : Z;
}.

#[global] Instance ConsensusBlock_eq_dec : EqDecision ConsensusBlock.
Proof. solve_decision. Defined.

(** The dataclass constructor with its [__post_init__]: an empty root is filled
    in from the transactions. *)
Definition make_block (height : Z) (previous_hash : str) (transactions : list ConsensusTransaction)
    (difficulty timestamp nonce : Z) (transaction_root : str) (version : Z) : result ConsensusBlock :=
  root ← match transaction_root with
         | [] => calculate_transaction_root transactions
         | _ => Ok transaction_root
         end;
  Ok (mkBlock height previous_hash transactions difficulty timestamp nonce root version).

(** [ConsensusBlock.header_bytes] *)
Definition header_bytes (b : ConsensusBlock) : result bytes :=
  cv ← pack_H BINARY_CODEC_VERSION;
  v ← encode_int (block_version b);
  h ← encode_int (height b);
  p ← encode_hash (previous_hash b);
  r ← encode_hash (transaction_root b);
  d ← encode_int (difficulty b);
  n ← encode_int (nonce b);
  Ok (b_lit "bccblk" ++ cv ++ v ++ h ++ p ++ r ++ d ++ encode_float (timestamp b) ++ n).

(** [ConsensusBlock.hash] *)
Definition block_hash (b : ConsensusBlock) : result str := sha256_hex <$> header_bytes b.

(** [ConsensusBlock.to_bytes] *)
Definition block_to_bytes (b : ConsensusBlock) : result bytes :=
  hd ← header_bytes b;
  n ← encode_uint (zlen (transactions b));
  ts ← mapR (λ t, x ← tx_to_bytes true t; encode_bytes x) (transactions b);
  Ok (hd ++ n ++ concat ts).

Definition block_tx_reader : Parser ConsensusTransaction :=
  b ← decode_bytes; sm_lift (tx_from_bytes true b).

Definition block_body (fuel : nat) : Parser ConsensusBlock :=
  read_magic 6 (b_lit "bccblk") "block binary magic is invalid";;
  read_codec_version "block binary codec version is unsupported";;
  v ← decode_int;
  h ← decode_int;
  p ← read_hash;
  r ← read_hash;
  d ← decode_int;
  ts ← decode_float;
  n ← decode_int;
  count ← decode_uint;
  txs ← read_many fuel block_tx_reader count;
  mret (mkBlock h p txs d ts n r v).

(** [ConsensusBlock.from_bytes]; the decoded fields go through the
    constructor. *)
Definition block_reader (fuel : nat) : Parser ConsensusBlock :=
  b ← block_body fuel; require_finished;; mret b.

Definition block_from_bytes (b : bytes) : result ConsensusBlock :=
  blk ← (block_reader (S (length b)) (new_reader b)).2;
  make_block (height blk) (previous_hash blk) (transactions blk) (difficulty blk)
    (timestamp blk) (nonce blk) (transaction_root blk) (block_version blk).

(** ** Lemmas: the Merkle root *)

(** The layer function without its conversions: [fromhex] of a digest is the
    digest. *)
Fixpoint pair_hashes (layer : list bytes) : list bytes :=
  match layer with
  | x :: y :: layer' => sha256 (x ++ y) :: pair_hashes layer'
  | _ => []
  end.

Lemma list_ind2 {A} (P : list A → Prop) :
  P [] → (∀ x, P [x]) → (∀ x y l, P l → P (x :: y :: l)) → ∀ l, P l.
Proof.
  intros H0 H1 H2 l. enough (P l ∧ ∀ x, P (x :: l)) as [? _]; [done|].
  induction l as [|x l [IH1 IH2]]; split; auto.
Qed.

Lemma merkle_pairs_hashes l : merkle_pairs l = Ok (pair_hashes l).
Proof.
  induction l as [|x|x y l IH] using list_ind2; [done..|]. cbn [merkle_pairs pair_hashes].
  unfold sha256_hex. rewrite fromhex_hex. simpl. by rewrite IH.
Qed.

Lemma pair_hashes_length l : length (pair_hashes l) = Nat.div2 (length l).
Proof. induction l as [|x|x y l IH] using list_ind2; [done..|]. simpl. by rewrite IH. Qed.

Lemma pad_odd_length l : length (pad_odd l) = if Nat.odd (length l) then S (length l) else length l.
Proof. unfold pad_odd. case_match; [|done]. rewrite length_app. simpl. lia. Qed.

Definition next_layer (l : list bytes) : list bytes := pair_hashes (pad_odd l).

Lemma next_layer_length l : length (next_layer l) = Nat.div2 (S (length l)).
Proof.
  unfold next_layer. rewrite pair_hashes_length, pad_odd_length. case_match eqn:E; [done|].
  rewrite <- Nat.negb_even in E. apply negb_false_iff, Nat.even_spec in E as [k ->].
  rewrite Nat.div2_double. symmetry. apply Nat.div2_succ_double.
Qed.

Lemma next_layer_shrinks l : (2 ≤ length l)%nat → (1 ≤ length (next_layer l) < length l)%nat.
Proof.
  rewrite next_layer_length. destruct (length l) as [|[|n]]; [lia..|]. intros _.
  change (Nat.div2 (S (S (S n)))) with (S (Nat.div2 (S n))).
  pose proof (Nat.le_div2 n). revert H. generalize (Nat.div2 (S n)). lia.
Qed.

Lemma merkle_loop_unfold fuel l : (2 ≤ length l)%nat →
  merkle_loop (S fuel) l = merkle_loop fuel (next_layer l).
Proof.
  intros Hl. destruct l as [|x [|y l]]; simpl in Hl; [lia..|].
  cbn [merkle_loop]. rewrite merkle_pairs_hashes. done.
Qed.

(** With as much fuel as elements, the loop returns. *)
Lemma merkle_loop_total fuel l :
  l ≠ [] → (length l ≤ S fuel)%nat → ∃ x, merkle_loop fuel l = Ok (bytes_hex x) ∧
    (Forall (λ b, length b = 32%nat) l → length x = 32%nat).
Proof.
  revert l. induction fuel as [|fuel IH]; intros l Hne Hl.
  - destruct l as [|x [|]]; simpl in Hl; [done| |lia]. exists x. split; [done|].
    by inversion 1.
  - destruct (decide (2 ≤ length l)%nat) as [H2|H2].
    + rewrite merkle_loop_unfold by done. pose proof (next_layer_shrinks l H2).
      destruct (IH (next_layer l)) as (x & Hx & Hlen); [by intros E; rewrite E in *; simpl in *; lia|lia|].
      exists x. split; [done|]. intros _. apply Hlen. unfold next_layer.
      generalize (pad_odd l) as l'. intros l'. induction l' using list_ind2; simpl; auto using sha256_length.
    + destruct l as [|x [|]]; simpl in H2; [done| |lia]. exists x. split; [done|]. by inversion 1.
Qed.

(** More fuel does not change the result. *)
Lemma merkle_loop_fuel fuel fuel' l r :
  merkle_loop fuel l = Ok r → (fuel ≤ fuel')%nat → merkle_loop fuel' l = Ok r.
Proof.
  revert fuel' l. induction fuel as [|fuel IH]; intros fuel' l H Hf.
  - by destruct l as [|x [|y l]], fuel'.
  - destruct (decide (2 ≤ length l)%nat) as [H2|H2].
    + destruct fuel' as [|fuel']; [lia|]. rewrite merkle_loop_unfold in * by done. apply IH; [done|lia].
    + destruct l as [|x [|]]; simpl in H2; [by destruct fuel'|by destruct fuel'|lia].
Qed.

(** The strings hashed for the inner nodes. *)
Fixpoint pair_inputs (layer : list bytes) : list bytes :=
  match layer with
  | x :: y :: layer' => (x ++ y) :: pair_inputs layer'
  | _ => []
  end.

Fixpoint merkle_preimages (fuel : nat) (layer : list bytes) : list bytes :=
  match layer, fuel with
  | _ :: _ :: _, S fuel' => pair_inputs (pad_odd layer) ++ merkle_preimages fuel' (next_layer layer)
  | _, _ => []
  end.

Definition digests (l : list bytes) : Prop := Forall (λ b, length b = 32%nat) l.

(** Two hashed strings, one from each computation, that collide. *)
Definition collision_in (l1 l2 : list bytes) : Prop :=
  ∃ x y, x ∈ l1 ∧ y ∈ l2 ∧ x ≠ y ∧ sha256 x = sha256 y.

Lemma collision_in_mono l1 l2 k1 k2 : l1 ⊆ k1 → l2 ⊆ k2 → collision_in l1 l2 → collision_in k1 k2.
Proof. intros H1 H2 (x & y & Hx & Hy & ?). exists x, y. auto. Qed.

Lemma pair_hashes_inj l1 l2 :
  length l1 = length l2 → pair_hashes l1 = pair_hashes l2 →
  pair_inputs l1 = pair_inputs l2 ∨ collision_in (pair_inputs l1) (pair_inputs l2).
Proof.
  revert l2. induction l1 as [|x|x y l1 IH] using list_ind2; intros [|x' [|y' l2]] Hl E;
    try discriminate Hl; auto.
  injection Hl as Hl. cbn [pair_hashes pair_inputs] in *. apply cons_inv in E as [E1 E].
  destruct (decide (x ++ y = x' ++ y')) as [->|Hne].
  - destruct (IH l2) as [->|Hc]; [done..|by left|]. right.
    eapply collision_in_mono, Hc; intros z Hz; by right.
  - right. exists (x ++ y), (x' ++ y'). split_and!; [left|left|done|done].
Qed.

Lemma pair_inputs_inj l1 l2 :
  length l1 = length l2 → Nat.even (length l1) = true → digests l1 → digests l2 →
  pair_inputs l1 = pair_inputs l2 → l1 = l2.
Proof.
  revert l2. induction l1 as [|x|x y l1 IH] using list_ind2; intros [|x' [|y' l2]] Hl He H1 H2 E;
    try discriminate Hl; [done|done|]. injection Hl as Hl. cbn [pair_inputs] in E.
  apply Forall_cons in H1 as [Hx H1]. apply Forall_cons in H1 as [Hy H1].
  apply Forall_cons in H2 as [Hx' H2]. apply Forall_cons in H2 as [Hy' H2].
  apply cons_inv in E as [E1 E2]. apply app_inj_1 in E1 as [-> ->]; [|congruence].
  do 2 f_equal. by apply IH.
Qed.

Lemma pad_odd_even l : Nat.even (length (pad_odd l)) = true.
Proof.
  rewrite pad_odd_length. case_match eqn:E.
  - by rewrite Nat.even_succ.
  - by rewrite <- Nat.negb_odd, E.
Qed.

Lemma pad_odd_digests l : l ≠ [] → digests l → digests (pad_odd l).
Proof.
  intros Hne Hl. unfold pad_odd. case_match; [|done]. apply Forall_app. split; [done|].
  constructor; [|done]. destruct (last l) as [x|] eqn:E; simpl.
  - apply last_Some_elem_of in E. unfold digests in Hl. rewrite Forall_forall in Hl. auto.
  - by apply last_None in E.
Qed.

Lemma pad_odd_inj l1 l2 : length l1 = length l2 → pad_odd l1 = pad_odd l2 → l1 = l2.
Proof.
  intros Hl. unfold pad_odd. rewrite <- Hl. case_match; [|done]. intros E.
  apply app_inj_1 in E as [? _]; done.
Qed.

Lemma pair_hashes_digests l : digests (pair_hashes l).
Proof. induction l using list_ind2; simpl; try constructor; auto using sha256_length. Qed.

Lemma merkle_loop_binds fuel l1 l2 r :
  length l1 = length l2 → digests l1 → digests l2 →
  merkle_loop fuel l1 = Ok r → merkle_loop fuel l2 = Ok r →
  l1 = l2 ∨ collision_in (merkle_preimages fuel l1) (merkle_preimages fuel l2).
Proof.
  revert l1 l2. induction fuel as [|fuel IH]; intros l1 l2 Hl H1 H2 E1 E2.
  - destruct l1 as [|x [|]], l2 as [|y [|]]; simplify_eq/=. left. f_equal.
    apply bytes_hex_inj. congruence.
  - destruct (decide (2 ≤ length l1)%nat) as [Hge|Hlt].
    + rewrite merkle_loop_unfold in E1, E2 by lia.
      assert (Hp : ∀ l, (2 ≤ length l)%nat → merkle_preimages (S fuel) l =
                pair_inputs (pad_odd l) ++ merkle_preimages fuel (next_layer l)).
      { intros [|? [|? ?]] ?; simpl in *; [lia..|done]. }
      rewrite !Hp by lia. destruct (IH (next_layer l1) (next_layer l2)) as [E|Hc];
        [by rewrite !next_layer_length, Hl|apply pair_hashes_digests..|done|done| |].
      * assert (Hpl : length (pad_odd l1) = length (pad_odd l2)) by by rewrite !pad_odd_length, Hl.
        destruct (pair_hashes_inj _ _ Hpl E) as [E'|Hc].
        -- left. apply pad_odd_inj; [done|]. apply pair_inputs_inj; [done|apply pad_odd_even|..|done];
             apply pad_odd_digests; try done; intros ->; simpl in *; lia.
        -- right. eapply collision_in_mono, Hc; intros z; rewrite elem_of_app; auto.
      * right. eapply collision_in_mono, Hc; intros z; rewrite elem_of_app; auto.
    + destruct l1 as [|x [|]], l2 as [|y [|]]; simplify_eq/=; try lia. left. f_equal.
      apply bytes_hex_inj. congruence.
Qed.

(** Repeating the last element of an odd layer changes nothing. *)
Lemma pad_odd_duplicate l :
  Nat.odd (length l) = true → pad_odd (l ++ [default [] (last l)]) = pad_odd l.
Proof.
  intros Ho. unfold pad_odd at 2. rewrite Ho. unfold pad_odd.
  rewrite length_app. simpl. rewrite Nat.add_1_r, Nat.odd_succ, <- Nat.negb_odd, Ho. done.
Qed.

Lemma merkle_loop_duplicate fuel l :
  Nat.odd (length l) = true → (2 ≤ length l)%nat →
  merkle_loop (S fuel) (l ++ [default [] (last l)]) = merkle_loop (S fuel) l.
Proof.
  intros Ho Hl. rewrite !merkle_loop_unfold by (rewrite ?length_app; simpl; lia).
  unfold next_layer. by rewrite pad_odd_duplicate.
Qed.

Definition txid_bytes (t : ConsensusTransaction) : result bytes := h ← txid t; fromhex h.

Lemma txid_bytes_spec t b : txid_bytes t = Ok b ↔ ∃ x, tx_to_bytes true t = Ok x ∧ b = sha256 x.
Proof.
  unfold txid_bytes, txid, sha256_hex. split.
  - intros H. inv_oks. subst. rewrite fromhex_hex in H. inv_oks. eauto.
  - intros (x & -> & ->). cbn [fmap result_fmap mbind result_bind]. by rewrite fromhex_hex.
Qed.

Lemma txid_hash_text t h : txid t = Ok h → hash_text h.
Proof. unfold txid, sha256_hex. intros H. inv_oks. subst. apply bytes_hex_hash_text, sha256_length. Qed.

Lemma txids_digests ts l : mapR txid_bytes ts = Ok l → digests l.
Proof.
  rewrite mapR_Ok. induction 1 as [|t b ts l Hb HF IH]; constructor; [|done].
  apply txid_bytes_spec in Hb as (x & _ & ->). apply sha256_length.
Qed.

Lemma root_unfold ts : ts ≠ [] →
  calculate_transaction_root ts = (layer ← mapR txid_bytes ts; merkle_loop (length ts) layer).
Proof. by destruct ts. Qed.

(** The root of any list of encodable transactions exists, and is a hash. *)
Lemma root_total ts l : mapR txid_bytes ts = Ok l → ∃ r, calculate_transaction_root ts = Ok r ∧ hash_text r.
Proof.
  intros Hl. destruct ts as [|t ts].
  - eexists. split; [reflexivity|]. unfold sha256_hex_str, sha256_hex. apply bytes_hex_hash_text, sha256_length.
  - rewrite root_unfold by done. rewrite Hl. cbn [mbind result_bind].
    pose proof (mapR_length _ _ _ Hl) as Hlen. pose proof (txids_digests _ _ Hl) as Hd.
    destruct (merkle_loop_total (length (t :: ts)) l) as (x & Hx & Hx32).
    + by destruct l.
    + simpl in *. lia.
    + rewrite Hx. eauto using bytes_hex_hash_text.
Qed.

Lemma root_hash_text ts r : calculate_transaction_root ts = Ok r → hash_text r.
Proof.
  intros H. destruct (mapR txid_bytes ts) as [l|e] eqn:E.
  - destruct (root_total _ _ E) as (r' & H' & Hr). congruence.
  - destruct ts; [done|]. rewrite root_unfold in H by done. by rewrite E in H.
Qed.

(** ** Lemmas: block codec *)

(** What [from_bytes] produces. *)
Definition canonical_block (b : ConsensusBlock) : Prop :=
  hash_text (previous_hash b) ∧ hash_text (transaction_root b) ∧ 0 ≤ timestamp b < 2 ^ 64 ∧
  Forall canonical_tx (transactions b).

#[global] Instance canonical_block_dec b : Decision (canonical_block b).
Proof. unfold canonical_block. apply _. Defined.

Definition block_tx_to_bytes (t : ConsensusTransaction) : result bytes :=
  x ← tx_to_bytes true t; encode_bytes x.

Lemma block_tx_parses t b : canonical_tx t → block_tx_to_bytes t = Ok b → parses block_tx_reader b t.
Proof.
  unfold block_tx_to_bytes, block_tx_reader. intros Hc H. inv_oks.
  eapply parses_bind_nil; [by apply encode_bytes_parses|].
  intros r rest Hwf Hr. exists r. unfold sm_lift. by rewrite (tx_from_to_bytes t x).
Qed.

Lemma block_tx_nonempty t b : block_tx_to_bytes t = Ok b → b ≠ [].
Proof.
  unfold block_tx_to_bytes, encode_bytes. intros H ->. inv_oks.
  apply pack_I_length in Hx0. by destruct x0.
Qed.

Lemma block_body_parses blk b fuel :
  canonical_block blk → block_to_bytes blk = Ok b → (length b < fuel)%nat →
  parses (block_body fuel) b blk.
Proof.
  unfold block_to_bytes, block_body, header_bytes. intros (Hp & Hr & Ht & Hc) H Hf. inv_oks. subst.
  rewrite !length_app in Hf.
  pose proof (concat_length_le _ _ _ block_tx_nonempty Hx1) as Hlen.
  rewrite <- !app_assoc. destruct blk as [h p txs d ts n r v].
  cbn [block_version height previous_hash transaction_root difficulty timestamp nonce transactions] in *.
  eapply parses_bind; [by apply magic_parses|].
  eapply parses_bind; [by apply codec_version_parses|].
  do 2 (eapply parses_bind; [by apply encode_int_parses|]).
  do 2 (eapply parses_bind; [eapply encode_hash_parses; [|eassumption]; assumption|]).
  eapply parses_bind; [by apply encode_int_parses|].
  eapply parses_bind; [by apply encode_float_parses|].
  eapply parses_bind; [by apply encode_int_parses|].
  eapply parses_bind; [by apply encode_uint_parses|].
  apply (parses_bind_last _ (λ txs, mkBlock h p txs d ts n r v)).
  apply parses_many; [lia|]. eapply mapR_parses; [|done]. intros t b' Ht' Hb'.
  apply block_tx_parses; [|done]. rewrite Forall_forall in Hc. auto.
Qed.

Lemma make_block_nonempty h p txs d ts n r v :
  r ≠ [] → make_block h p txs d ts n r v = Ok (mkBlock h p txs d ts n r v).
Proof. by destruct r. Qed.

Lemma hash_text_nonempty s : hash_text s → s ≠ [].
Proof. by intros [Hl _] ->. Qed.

Lemma block_from_to_bytes blk b :
  canonical_block blk → block_to_bytes blk = Ok b → block_from_bytes b = Ok blk.
Proof.
  intros Hc Hb. unfold block_from_bytes, block_reader.
  rewrite (parses_whole _ b blk) by (apply block_body_parses; [done..|lia]).
  cbn [snd mbind result_bind]. rewrite make_block_nonempty; [by destruct blk|].
  apply hash_text_nonempty, Hc.
Qed.

Lemma block_tx_consumes : consumes block_tx_reader block_tx_to_bytes.
Proof.
  intros r r' t Hwf H. apply SM_bind_Ok in H as (b & r1 & H1 & [= <- H]).
  destruct (decode_bytes_consumes _ _ _ Hwf H1) as (b' & Hb' & Hr). exists b'. split; [|done].
  unfold block_tx_to_bytes. apply tx_to_from_bytes in H as [-> _]. done.
Qed.

Lemma block_txs_canonical r r' fuel count l :
  read_many fuel block_tx_reader count r = (r', Ok l) → Forall canonical_tx l.
Proof.
  revert r count l. induction fuel as [|fuel IH]; intros r count l H; cbn [read_many] in H;
    destruct (count <=? 0); try (by injection H as <- <-); try done.
  apply SM_bind_Ok in H as (t & r1 & H1 & H). apply SM_bind_Ok in H as (l' & r2 & H2 & [= <- <-]).
  constructor; [|exact (IH _ _ _ H2)].
  apply SM_bind_Ok in H1 as (b & r3 & H3 & [= <- H1]). by apply tx_to_from_bytes in H1 as [_ ?].
Qed.

Lemma read_hash_consumes r r' h : reader_wf r → read_hash r = (r', Ok h) →
  hash_text h ∧ ∃ b, encode_hash h = Ok b ∧ rest_of r = b ++ rest_of r' ∧ reader_wf r' ∧
    payload r' = payload r.
Proof.
  intros Hwf H. apply SM_bind_Ok in H as (b & r1 & H1 & [= <- <-]).
  apply read_consumes in H1 as (Hl & ?); [|done]. unfold zlen in Hl.
  split; [apply bytes_hex_hash_text; lia|]. exists b. split; [apply encode_hash_hex; lia|done].
Qed.

Lemma decode_float_range r r' x : reader_wf r → decode_float r = (r', Ok x) → 0 ≤ x < 2 ^ 64.
Proof.
  intros Hwf H. apply SM_bind_Ok in H as (b & r1 & H & [= <- <-]).
  apply read_consumes in H as (Hl & ?); [|done]. apply unpack_d_range. unfold zlen in Hl. lia.
Qed.

Lemma block_body_consumes fuel r r' blk :
  reader_wf r → block_body fuel r = (r', Ok blk) →
  ∃ b, block_to_bytes blk = Ok b ∧ rest_of r = b ++ rest_of r' ∧ reader_wf r' ∧ canonical_block blk.
Proof.
  intros Hwf H. unfold block_body in H.
  apply SM_bind_Ok in H as (u1 & r1 & H1 & H). apply SM_bind_Ok in H as (u2 & r2 & H2 & H).
  apply SM_bind_Ok in H as (v & r3 & H3 & H). apply SM_bind_Ok in H as (h & r4 & H4 & H).
  apply SM_bind_Ok in H as (p & r5 & H5 & H). apply SM_bind_Ok in H as (rt & r6 & H6 & H).
  apply SM_bind_Ok in H as (d & r7 & H7 & H). apply SM_bind_Ok in H as (ts & r8 & H8 & H).
  apply SM_bind_Ok in H as (n & r9 & H9 & H). apply SM_bind_Ok in H as (c & r10 & H10 & H).
  apply SM_bind_Ok in H as (txs & r11 & H11 & [= <- <-]).
  destruct (magic_consumes _ _ _ _ _ _ Hwf H1) as (b1 & [= <-] & Hr1 & Hwf1 & _).
  destruct (codec_version_consumes _ _ _ _ Hwf1 H2) as (b2 & Hb2 & Hr2 & Hwf2 & _).
  destruct (decode_int_consumes _ _ _ Hwf2 H3) as (b3 & Hb3 & Hr3 & Hwf3 & _).
  destruct (decode_int_consumes _ _ _ Hwf3 H4) as (b4 & Hb4 & Hr4 & Hwf4 & _).
  destruct (read_hash_consumes _ _ _ Hwf4 H5) as (Hp & b5 & Hb5 & Hr5 & Hwf5 & _).
  destruct (read_hash_consumes _ _ _ Hwf5 H6) as (Hrt & b6 & Hb6 & Hr6 & Hwf6 & _).
  destruct (decode_int_consumes _ _ _ Hwf6 H7) as (b7 & Hb7 & Hr7 & Hwf7 & _).
  destruct (decode_float_consumes _ _ _ Hwf7 H8) as (b8 & [= Hb8] & Hr8 & Hwf8 & _).
  destruct (decode_int_consumes _ _ _ Hwf8 H9) as (b9 & Hb9 & Hr9 & Hwf9 & _).
  destruct (decode_uint_consumes _ _ _ Hwf9 H10) as (b10 & Hb10 & Hr10 & Hwf10 & _).
  destruct (consumes_many _ _ _ _ _ _ _ block_tx_consumes Hwf10
    (proj1 (decode_uint_range _ _ _ Hwf9 H10)) H11) as (Hl & bs & Hbs & Hr11 & Hwf11 & _).
  exists ((b_lit "bccblk" ++ b2 ++ b3 ++ b4 ++ b5 ++ b6 ++ b7 ++ b8 ++ b9) ++ b10 ++ concat bs).
  split_and!; [| |done|].
  - unfold block_to_bytes, header_bytes.
    cbn [block_version height previous_hash transaction_root difficulty timestamp nonce transactions].
    rewrite Hb2, Hb3, Hb4, Hb5, Hb6, Hb7, Hb9. cbn [mbind result_bind]. rewrite Hl, Hb10.
    cbn [mbind result_bind]. fold block_tx_to_bytes. rewrite Hbs. by rewrite <- Hb8.
  - by rewrite Hr1, Hr2, Hr3, Hr4, Hr5, Hr6, Hr7, Hr8, Hr9, Hr10, Hr11, <- !app_assoc.
  - split_and!; [done|done|exact (proj1 (decode_float_range _ _ _ Hwf7 H8))
      |exact (proj2 (decode_float_range _ _ _ Hwf7 H8))|exact (block_txs_canonical _ _ _ _ _ H11)].
Qed.

Lemma block_to_from_bytes b blk :
  block_from_bytes b = Ok blk → block_to_bytes blk = Ok b ∧ canonical_block blk.
Proof.
  unfold block_from_bytes. destruct (block_reader _ (new_reader b)) as [r' res] eqn:H.
  cbn [snd]. intros E. apply bind_Ok in E as (blk' & -> & E).
  apply SM_bind_Ok in H as (t' & r1 & H1 & H). apply SM_bind_Ok in H as (u & r2 & H2 & [= <- <-]).
  apply block_body_consumes in H1 as (b' & Hb' & Hr & Hwf & Hc); [|apply new_reader_wf].
  rewrite make_block_nonempty in E by (apply hash_text_nonempty, Hc).
  assert (blk = t') as -> by (apply Ok_inj; rewrite <- E; by destruct t').
  apply require_finished_rest in H2 as [Hr2 _]; [|done].
  rewrite new_reader_rest, Hr2, app_nil_r in Hr. by subst.
Qed.

Lemma safe_block_tx n : safe_at n block_tx_reader.
Proof.
  unfold block_tx_reader, decode_bytes. apply safe_bind; [auto with reader|]. intros b r r' res Hwf Hn [= <- <-].
  split_and!; [done..|]. apply tx_from_bytes_raises.
Qed.

Lemma productive_block_tx : productive block_tx_reader.
Proof.
  unfold block_tx_reader, decode_bytes. apply productive_bind; [auto with reader| |].
  - apply productive_bind; [auto with reader|by apply productive_read|auto with reader].
  - intros b n r r' res Hwf Hn [= <- <-]. split_and!; [done..|]. apply tx_from_bytes_raises.
Qed.

Lemma safe_block_reader n fuel : (n < fuel)%nat → safe_at n (block_reader fuel).
Proof.
  intros Hf. unfold block_reader, block_body, read_magic, read_codec_version, read_hash,
    decode_int, decode_uint, decode_float.
  pose proof (λ c, safe_many block_tx_reader fuel c n safe_block_tx productive_block_tx Hf).
  auto 20 with reader.
Qed.

Lemma block_from_bytes_raises b : raises_only (exn_is ConsensusError) (block_from_bytes b).
Proof.
  unfold block_from_bytes. destruct (block_reader _ (new_reader b)) as [r' res] eqn:E. cbn [snd].
  pose proof (safe_block_reader (length b) _ (Nat.lt_succ_diag_r _) _ _ _ (new_reader_wf b) (le_n _) E)
    as (_ & _ & _ & Hr).
  apply raises_only_bind; [done|]. intros blk ->.
  apply SM_bind_Ok in E as (t' & r1 & H1 & H). apply SM_bind_Ok in H as (u & r2 & H2 & [= <- <-]).
  apply block_body_consumes in H1 as (_ & _ & _ & _ & Hc); [|apply new_reader_wf].
  rewrite make_block_nonempty by (apply hash_text_nonempty, Hc). by intros e.
Qed.

(** ** Lemmas: the header *)

(** The block with its transactions dropped; the header does not read them. *)
Definition header_only (b : ConsensusBlock) : ConsensusBlock :=
  mkBlock (height b) (previous_hash b) [] (difficulty b) (timestamp b) (nonce b)
    (transaction_root b) (block_version b).

Definition canonical_header (b : ConsensusBlock) : Prop :=
  hash_text (previous_hash b) ∧ hash_text (transaction_root b) ∧ 0 ≤ timestamp b < 2 ^ 64.

#[global] Instance canonical_header_dec b : Decision (canonical_header b).
Proof. unfold canonical_header. apply _. Defined.

Lemma header_bytes_only b : header_bytes (header_only b) = header_bytes b.
Proof. done. Qed.

Lemma header_bytes_inj b1 b2 x :
  canonical_header b1 → canonical_header b2 → header_bytes b1 = Ok x → header_bytes b2 = Ok x →
  header_only b1 = header_only b2.
Proof.
  intros (Hp1 & Hr1 & Ht1) (Hp2 & Hr2 & Ht2) H1 H2.
  assert (Henc : ∀ b, header_bytes b = Ok x → block_to_bytes (header_only b) = Ok (x ++ be_bytes 8 0 ++ [])).
  { intros b Hb. unfold block_to_bytes. rewrite header_bytes_only, Hb. done. }
  assert (Hc : ∀ b, canonical_header b → canonical_block (header_only b)).
  { intros b (? & ? & ?). split_and!; simpl; auto; tauto. }
  pose proof (block_from_to_bytes (header_only b1) _ (Hc b1 (conj Hp1 (conj Hr1 Ht1))) (Henc b1 H1)) as D1.
  pose proof (block_from_to_bytes (header_only b2) _ (Hc b2 (conj Hp2 (conj Hr2 Ht2))) (Henc b2 H2)) as D2.
  apply Ok_inj. by rewrite <- D1, <- D2.
Qed.

(** An odd list and the same list with its last element repeated. *)
Lemma root_duplicate ts t :
  Nat.odd (length (ts ++ [t])) = true → (2 ≤ length (ts ++ [t]))%nat →
  is_ok (mapR txid_bytes (ts ++ [t])) = true →
  calculate_transaction_root (ts ++ [t; t]) = calculate_transaction_root (ts ++ [t]).
Proof.
  intros Ho Hl Hok. destruct (mapR txid_bytes (ts ++ [t])) as [l|] eqn:E; [|done].
  assert (∃ x l', txid_bytes t = Ok x ∧ l = l' ++ [x]) as (x & l' & Hx & ->).
  { rewrite mapR_app in E. apply bind_Ok in E as (l' & _ & E). apply bind_Ok in E as (k & E2 & E).
    simpl in E2. inv_oks. subst. eauto. }
  assert (E' : mapR txid_bytes (ts ++ [t; t]) = Ok ((l' ++ [x]) ++ [x])).
  { change [t; t] with ([t] ++ [t]). rewrite app_assoc, mapR_app, E. simpl. by rewrite Hx. }
  rewrite !root_unfold by (by destruct ts). rewrite E, E'. cbn [mbind result_bind].
  pose proof (mapR_length _ _ _ E) as Hlen.
  replace x with (default [] (last (l' ++ [x]))) at 2 by by rewrite last_snoc.
  destruct (merkle_loop_total (length (ts ++ [t])) (l' ++ [x])) as (y & Hy & _); [by destruct l'|lia|].
  rewrite Hy. assert (length (ts ++ [t; t]) = S (length (ts ++ [t]))) as ->.
  { rewrite !length_app. simpl. lia. }
  rewrite merkle_loop_duplicate by by rewrite <- Hlen. eapply merkle_loop_fuel; [exact Hy|lia].
Qed.

(** ** Properties *)

(** A sample block over two transactions, with the root the constructor fills
    in and no proof of work. *)
Definition sample_tx2 : ConsensusTransaction :=
  mkTx [mkTxInput (mkOutPoint COINBASE_PREV_TXID (-1)) None None]
    [mkTxOutput 50 (py "bcc_0123456789abcdef0123456789abcdef01234567")] 1.

Definition empty_block : ConsensusBlock := mkBlock 0 [] [] 0 0 0 [] 0.

Definition sample_block : ConsensusBlock := Eval vm_compute in
  ok_or empty_block (make_block 0 (replicate 64 48) [sample_tx2; sample_tx] 0 4741671816366391296 7 [] 1).

Definition sample_block_bytes : bytes :=
  ok_or [] (block_to_bytes sample_block).

(** C31: [ConsensusBlock.from_bytes] inverts [to_bytes] on blocks in canonical
    form, so a block read back from the fork store is the block written. *)
Theorem block_roundtrip blk b :
  canonical_block blk → block_to_bytes blk = Ok b → block_from_bytes b = Ok blk.
Proof. apply block_from_to_bytes. Qed.

Lemma block_roundtrip_witness : block_from_bytes sample_block_bytes = Ok sample_block.
Proof.
  apply block_roundtrip.
  - apply (bool_decide_unpack (canonical_block sample_block)). vm_compute. exact I.
  - vm_compute. reflexivity.
Defined.

(** Block decoding is canonical: accepted bytes are the encoding of the
    block returned, which is in canonical form. *)
Theorem block_decode_canonical b blk :
  block_from_bytes b = Ok blk → block_to_bytes blk = Ok b ∧ canonical_block blk.
Proof. apply block_to_from_bytes. Qed.

Lemma block_decode_canonical_witness :
  block_to_bytes sample_block = Ok sample_block_bytes ∧ canonical_block sample_block.
Proof. apply block_decode_canonical. vm_compute. reflexivity. Defined.

(** Decoding arbitrary bytes as a block returns a block or raises
    [ConsensusError]; the nested transaction decoders are covered. *)
Theorem block_decode_total b :
  (∃ blk, block_from_bytes b = Ok blk) ∨
  (∃ msg, block_from_bytes b = Err (Exn ConsensusError msg)).
Proof.
  destruct (block_from_bytes b) as [t|[c msg]] eqn:E; [by eauto|].
  apply block_from_bytes_raises in E. unfold exn_is in E. bool_prop. simpl in E. subst. eauto.
Qed.

(** The Merkle loop terminates: for transactions that all have an
    identifier the root is computed, and it is 64 lower-case hexadecimal
    digits. *)
Theorem merkle_root_total ts ids :
  mapR txid ts = Ok ids → ∃ r, calculate_transaction_root ts = Ok r ∧ hash_text r.
Proof.
  intros H. apply mapR_Ok in H.
  assert (∃ l, mapR txid_bytes ts = Ok l) as [l Hl].
  { induction H as [|t h ts ids Ht HF [l IH]]; [by exists []|].
    unfold txid in Ht. inv_oks. exists (sha256 x :: l). simpl.
    assert (txid_bytes t = Ok (sha256 x)) as -> by (apply txid_bytes_spec; eauto).
    cbn [mbind result_bind]. by rewrite IH. }
  by eapply root_total.
Qed.

Lemma merkle_root_total_witness :
  ∃ r, calculate_transaction_root [sample_tx2; sample_tx] = Ok r ∧ hash_text r.
Proof. eapply merkle_root_total. vm_compute. reflexivity. Defined.

(** The root commits to the transactions: two lists of the same length with
    the same root have the same identifiers in the same order, or one of the
    strings hashed for the first root collides with one hashed for the
    second. *)
Theorem merkle_root_binds ts1 ts2 l1 l2 r :
  length ts1 = length ts2 → mapR txid_bytes ts1 = Ok l1 → mapR txid_bytes ts2 = Ok l2 →
  calculate_transaction_root ts1 = Ok r → calculate_transaction_root ts2 = Ok r →
  l1 = l2 ∨ collision_in (merkle_preimages (length ts1) l1) (merkle_preimages (length ts2) l2).
Proof.
  intros Hlen H1 H2 E1 E2. destruct ts1 as [|t1 ts1].
  { destruct ts2; [|done]. left. simpl in H1, H2. congruence. }
  rewrite root_unfold in E1, E2 by (done || by intros ->).
  rewrite H1 in E1. rewrite H2 in E2. cbn [mbind result_bind] in E1, E2.
  rewrite <- Hlen in *. apply merkle_loop_binds with r; eauto using txids_digests.
  apply mapR_length in H1, H2. congruence.
Qed.

Lemma merkle_root_binds_witness :
  let l := ok_or [] (mapR txid_bytes [sample_tx2; sample_tx]) in
  l = l ∨ collision_in (merkle_preimages 2 l) (merkle_preimages 2 l).
Proof.
  intros l. apply (merkle_root_binds [sample_tx2; sample_tx] [sample_tx2; sample_tx] l l
    (transaction_root sample_block)); vm_compute; reflexivity.
Defined.

(** The commitment is not injective on the length: any list of an odd number
    of at least three transactions and the same list with its last transaction
    repeated have the same root, hence the same block hash. *)
Theorem merkle_root_duplicate ts t :
  Nat.odd (length (ts ++ [t])) = true → (2 ≤ length (ts ++ [t]))%nat →
  is_ok (mapR txid_bytes (ts ++ [t])) = true →
  calculate_transaction_root (ts ++ [t; t]) = calculate_transaction_root (ts ++ [t]).
Proof. apply root_duplicate. Qed.

Lemma merkle_root_duplicate_witness :
  calculate_transaction_root ([sample_tx2; sample_tx] ++ [sample_tx2; sample_tx2]) =
  calculate_transaction_root ([sample_tx2; sample_tx] ++ [sample_tx2]).
Proof. apply merkle_root_duplicate; [reflexivity|simpl; lia|vm_compute; reflexivity]. Defined.

(** C32: The block hash binds the header: two blocks with canonical headers and
    the same hash agree on every header field, or their header encodings are an
    explicit SHA-256 collision. *)
Theorem block_hash_binds b1 b2 h :
  canonical_header b1 → canonical_header b2 → block_hash b1 = Ok h → block_hash b2 = Ok h →
  header_only b1 = header_only b2 ∨
  ∃ x1 x2, header_bytes b1 = Ok x1 ∧ header_bytes b2 = Ok x2 ∧ x1 ≠ x2 ∧ sha256 x1 = sha256 x2.
Proof.
  unfold block_hash. intros Hc1 Hc2 H1 H2. inv_oks. subst. apply sha256_hex_inj in H2.
  destruct (decide (x0 = x)) as [->|Hne]; [left|right; by exists x0, x].
  by eapply header_bytes_inj.
Qed.

Lemma block_hash_binds_witness :
  header_only sample_block = header_only sample_block ∨
  ∃ x1 x2, header_bytes sample_block = Ok x1 ∧ header_bytes sample_block = Ok x2 ∧
    x1 ≠ x2 ∧ sha256 x1 = sha256 x2.
Proof.
  eapply (block_hash_binds sample_block sample_block).
  1,2: apply (bool_decide_unpack (canonical_header sample_block)); vm_compute; exact I.
  1,2: vm_compute; reflexivity.
Defined.
