(* ===== verification/Utxo.v ===== *)
(** * The set of unspent outputs (consensus.py, [UTXO] and [UTXOSet])

    The dictionary [_entries] is a finite map from outpoints to outputs; a
    method that mutates it returns the new map, and none of them changes it
    before it raises.  [utxo_total] is the amount of money in the set; the
    lemmas give its change under each operation and the effect of a
    transaction's loops ([spend_all], [add_outputs]) on lookups. *)

From S2P Require Import Prelude PyText Transaction.
Local Open Scope Z_scope.

(** [UTXO]: an outpoint and the output it names. *)
Notation UTXO := (OutPoint * TxOutput)%type.
Notation UTXOSet := (gmap OutPoint TxOutput).

Definition utxo_add (m : UTXOSet) (o : OutPoint) (x : TxOutput) : result UTXOSet :=
  raise_if (bool_decide (is_Some (m !! o))) ConsensusError "duplicate utxo";;
  Ok (<[o := x]> m).

(** [UTXOSet.__init__] *)
Definition utxo_init (entries : list UTXO) : result UTXOSet :=
  foldR (λ m e, utxo_add m e.1 e.2) ∅ entries.

(** [UTXOSet.copy] *)
Definition utxo_copy (m : UTXOSet) : result UTXOSet := utxo_init (map_to_list m).

Definition utxo_spend (m : UTXOSet) (o : OutPoint) : result (TxOutput * UTXOSet) :=
  match m !! o with
  | Some x => Ok (x, delete o m)
  | None => raise ConsensusError "missing or already spent output"
  end.

Definition utxo_get (m : UTXOSet) (o : OutPoint) : result TxOutput :=
  match m !! o with Some x => Ok x | None => raise ConsensusError "missing output" end.

Definition utxo_contains (m : UTXOSet) (o : OutPoint) : bool := bool_decide (is_Some (m !! o)).

Definition utxo_total (m : UTXOSet) : Z := sumZ ((λ e, amount e.2) <$> map_to_list m).

(** The sort key [(outpoint.txid, outpoint.index)]. *)
Definition outpoint_leb (o p : OutPoint) : bool :=
  match str_compare (op_txid o) (op_txid p) with
  | Lt => true
  | Eq => op_index o <=? op_index p
  | Gt => false
  end.

Definition utxo_entries (m : UTXOSet) : list UTXO :=
  sort_by (λ x y, outpoint_leb x.1 y.1) (map_to_list m).

Definition entries_for_address (m : UTXOSet) (a : str) : list UTXO :=
  filter (λ e, out_address e.2 = a) (utxo_entries m).

Definition utxo_len (m : UTXOSet) : Z := Z.of_nat (size m).

(** [for tx_input in transaction.inputs: updated.spend(...)] *)
Definition spend_all (m : UTXOSet) (os : list OutPoint) : result UTXOSet :=
  foldR (λ m o, snd <$> utxo_spend m o) m os.

(** [for index, output in enumerate(outputs): updated.add(OutPoint(txid, index), output)] *)
Definition add_outputs (m : UTXOSet) (t : ConsensusTransaction) : result UTXOSet :=
  foldR (λ m e, h ← txid t; utxo_add m (mkOutPoint h e.1) e.2) m (enumerate 0 (outputs t)).

(** ** Lemmas: single operations *)

Lemma utxo_add_Ok m o x m' : utxo_add m o x = Ok m' ↔ m !! o = None ∧ m' = <[o := x]> m.
Proof.
  unfold utxo_add. rewrite raise_if_bind, bool_decide_eq_false, <- eq_None_not_Some. naive_solver.
Qed.

Lemma utxo_spend_Ok m o x m' : utxo_spend m o = Ok (x, m') ↔ m !! o = Some x ∧ m' = delete o m.
Proof. unfold utxo_spend, raise. case_match; naive_solver. Qed.

Lemma utxo_get_Ok m o x : utxo_get m o = Ok x ↔ m !! o = Some x.
Proof. unfold utxo_get, raise. case_match; naive_solver. Qed.

(** ** Lemmas: the total *)

Lemma utxo_total_empty : utxo_total ∅ = 0.
Proof. unfold utxo_total. by rewrite map_to_list_empty. Qed.

Lemma utxo_total_insert m o x : m !! o = None → utxo_total (<[o := x]> m) = amount x + utxo_total m.
Proof. intros Ho. unfold utxo_total. by rewrite map_to_list_insert by done. Qed.

Lemma utxo_total_delete m o x : m !! o = Some x → utxo_total (delete o m) = utxo_total m - amount x.
Proof.
  intros Ho. rewrite <- (insert_delete_id m o x) at 2 by done.
  rewrite utxo_total_insert by apply lookup_delete_eq. lia.
Qed.

Lemma utxo_total_nonneg m : map_Forall (λ _ x, 0 ≤ amount x) m → 0 ≤ utxo_total m.
Proof.
  intros Hm. apply sumZ_nonneg, Forall_fmap, Forall_forall. intros [o x] Hx.
  by apply elem_of_map_to_list, Hm in Hx.
Qed.

Lemma utxo_total_lookup m o x : map_Forall (λ _ x, 0 ≤ amount x) m → m !! o = Some x → amount x ≤ utxo_total m.
Proof.
  intros Hm Ho. pose proof (utxo_total_delete m o x Ho).
  pose proof (utxo_total_nonneg (delete o m) (map_Forall_delete _ _ _ Hm)). lia.
Qed.

(** ** Lemmas: construction and copies *)

(** [add] over entries with distinct outpoints. *)
Lemma add_entries_Ok l m m' : NoDup l.*1 →
  foldR (λ m e, utxo_add m e.1 e.2) m l = Ok m' →
  (∀ o, o ∈ l.*1 → m !! o = None) ∧ m' = list_to_map l ∪ m ∧
  utxo_total m' = utxo_total m + sumZ ((λ e, amount e.2) <$> l).
Proof.
  revert m. induction l as [|[o x] l IH]; intros m Hn H; simpl in *.
  - inv_ok H. subst. split_and!; [by intros o ?%elem_of_nil|by rewrite map_empty_union|rewrite sumZ_nil; lia].
  - apply NoDup_cons in Hn as [Ho Hn]. inv_ok H. apply utxo_add_Ok in Hx as [Hm ->].
    apply IH in H as (Hl & -> & Ht); [|done]. split_and!.
    + intros p [->|Hp]%elem_of_cons; [done|]. specialize (Hl p Hp).
      by apply lookup_insert_None in Hl as [? _].
    + rewrite <- insert_union_r by (by apply not_elem_of_list_to_map). by rewrite insert_union_l.
    + rewrite Ht, utxo_total_insert, sumZ_cons by done. unfold fmap. lia.
Qed.

Lemma add_entries_ok l m : NoDup l.*1 → (∀ o, o ∈ l.*1 → m !! o = None) →
  ∃ m', foldR (λ m e, utxo_add m e.1 e.2) m l = Ok m'.
Proof.
  revert m. induction l as [|[o x] l IH]; intros m Hn Hl; simpl in *; [by eauto|].
  apply NoDup_cons in Hn as [Ho Hn].
  assert (utxo_add m o x = Ok (<[o := x]> m)) as ->.
  { apply utxo_add_Ok. split; [|done]. apply Hl. by left. }
  apply IH; [done|]. intros p Hp. rewrite lookup_insert_ne by (by intros ->). apply Hl. by right.
Qed.

(** A copy holds the entries of the original. *)
Lemma utxo_copy_id m : utxo_copy m = Ok m.
Proof.
  unfold utxo_copy. pose proof (NoDup_fst_map_to_list m) as Hn.
  destruct (add_entries_ok _ ∅ Hn) as [m' E]; [intros; apply lookup_empty|].
  unfold utxo_init. rewrite E. f_equal. apply add_entries_Ok in E as (_ & -> & _); [|done].
  by rewrite list_to_map_to_list, map_union_empty.
Qed.

(** ** Lemmas: the loops of a transaction *)

Lemma spend_all_cons m o os : spend_all m (o :: os) = (r ← utxo_spend m o; spend_all r.2 os).
Proof. unfold spend_all. simpl. by destruct (utxo_spend m o). Qed.

Lemma spend_all_Ok m os m' : spend_all m os = Ok m' →
  NoDup os ∧ (∀ o, o ∈ os → is_Some (m !! o)) ∧
  (∀ o, m' !! o = if decide (o ∈ os) then None else m !! o).
Proof.
  revert m. induction os as [|o os IH]; intros m H.
  - cbn in H. inv_ok H. subst.
    split_and!; [constructor|by intros o ?%elem_of_nil|]. intros o. by rewrite decide_False by apply not_elem_of_nil.
  - rewrite spend_all_cons in H. apply bind_Ok in H as ([x m1] & Hs & H).
    apply utxo_spend_Ok in Hs as [Ho ->]. apply IH in H as (Hn & Hin & Hl). cbn [snd] in *.
    assert (Hno : o ∉ os).
    { intros Hos. apply Hin in Hos. rewrite lookup_delete_eq in Hos. by destruct Hos. }
    split_and!.
    + by constructor.
    + intros p [->|Hp]%elem_of_cons; [eauto|]. specialize (Hin p Hp).
      by rewrite lookup_delete_ne in Hin by (by intros ->).
    + intros p. rewrite Hl. destruct (decide (p = o)) as [->|Hpo].
      * rewrite lookup_delete_eq, (decide_True (P := o ∈ o :: os)) by left. by case_decide.
      * rewrite lookup_delete_ne by done. by repeat case_decide; set_solver.
Qed.

Lemma spend_all_ok m os :
  NoDup os → (∀ o, o ∈ os → is_Some (m !! o)) → ∃ m', spend_all m os = Ok m'.
Proof.
  revert m. induction os as [|o os IH]; intros m Hn Hin; [by eexists|].
  apply NoDup_cons in Hn as [Ho Hn]. rewrite spend_all_cons.
  destruct (Hin o) as [x Hx]; [left|].
  assert (utxo_spend m o = Ok (x, delete o m)) as -> by (by apply utxo_spend_Ok).
  apply IH; [done|]. intros p Hp. cbn [snd]. rewrite lookup_delete_ne by (by intros ->). apply Hin. by right.
Qed.

Lemma spend_all_filter m os m' : spend_all m os = Ok m' → m' = filter (λ e, e.1 ∉ os) m.
Proof.
  intros (_ & _ & Hl)%spend_all_Ok. apply map_eq. intros o. rewrite Hl, map_lookup_filter.
  destruct (m !! o); simpl; repeat (case_decide || case_guard); naive_solver.
Qed.

Lemma filter_spent_nil (m : UTXOSet) : filter (λ e, e.1 ∉ []) m = m.
Proof. apply map_filter_id. intros o x _. apply not_elem_of_nil. Qed.

Lemma spend_all_total m os m' xs :
  spend_all m os = Ok m' → mapR (utxo_get m) os = Ok xs →
  utxo_total m' = utxo_total m - sumZ (amount <$> xs).
Proof.
  revert m xs. induction os as [|o os IH]; intros m xs H Hxs.
  - cbn in H, Hxs. inv_oks. subst. rewrite fmap_nil, sumZ_nil. lia.
  - pose proof (spend_all_Ok _ _ _ H) as (Hn & _ & _). apply NoDup_cons in Hn as [Ho _].
    rewrite spend_all_cons in H. apply bind_Ok in H as ([x m1] & Hs & H).
    apply utxo_spend_Ok in Hs as [Hm ->]. simpl in Hxs. inv_ok Hxs. subst.
    apply utxo_get_Ok in Hx. simplify_eq. cbn [snd] in H.
    rewrite (IH _ x1 H).
    + rewrite (utxo_total_delete _ _ _ Hm), fmap_cons, sumZ_cons. lia.
    + rewrite <- Hx0. apply mapR_ext. intros p Hp. unfold utxo_get.
      by rewrite lookup_delete_ne by (by intros ->).
Qed.

(** The entries a transaction with identifier [h] creates. *)
Definition created (h : str) (i : Z) (outs : list TxOutput) : list UTXO :=
  (λ e, (mkOutPoint h e.1, e.2)) <$> enumerate i outs.

Lemma created_NoDup h i outs : NoDup (created h i outs).*1.
Proof.
  unfold created. rewrite <- list_fmap_compose.
  revert i. induction outs as [|x outs IH]; intros i; simpl; constructor; [|apply IH].
  intros ([j y] & E & Hj)%list_elem_of_fmap. simpl in E. simplify_eq.
  apply elem_of_enumerate in Hj as (k & _ & Hk). lia.
Qed.

Lemma created_index h i outs o x : (o, x) ∈ created h i outs → op_txid o = h ∧ i ≤ op_index o ∧ x ∈ outs.
Proof.
  intros ([j y] & E & Hj)%list_elem_of_fmap. simpl in E. simplify_eq. simpl.
  apply elem_of_enumerate in Hj as (k & Hk & ->). split_and!; [done|lia|].
  by eapply list_elem_of_lookup_2.
Qed.

Lemma created_amounts h i outs : (λ e, amount e.2) <$> created h i outs = amount <$> outs.
Proof.
  unfold created. rewrite <- list_fmap_compose. rewrite <- (enumerate_snd i outs) at 2.
  by rewrite <- list_fmap_compose.
Qed.

Lemma add_outputs_unfold m t h : txid t = Ok h →
  add_outputs m t = foldR (λ m e, utxo_add m e.1 e.2) m (created h 0 (outputs t)).
Proof.
  intros Hh. unfold add_outputs, created. rewrite Hh. generalize 0. intros i. revert m i.
  induction (outputs t) as [|x outs IH]; intros m i; simpl; [done|].
  destruct (utxo_add _ _ _); simpl; [apply IH|done].
Qed.

Lemma add_outputs_txid m t m' : outputs t ≠ [] → add_outputs m t = Ok m' → ∃ h, txid t = Ok h.
Proof. unfold add_outputs. destruct (outputs t); [done|]. intros _ H. cbn [enumerate foldR] in H. inv_ok H. inv_ok Hx. eauto. Qed.

Lemma add_outputs_Ok m t m' h : txid t = Ok h → add_outputs m t = Ok m' →
  (∀ o, o ∈ (created h 0 (outputs t)).*1 → m !! o = None) ∧
  m' = list_to_map (created h 0 (outputs t)) ∪ m ∧
  utxo_total m' = utxo_total m + sumZ (amount <$> outputs t).
Proof.
  intros Hh H. rewrite (add_outputs_unfold _ _ _ Hh) in H.
  rewrite <- (created_amounts h 0). by apply add_entries_Ok; [apply created_NoDup|].
Qed.

(** ** Lemmas: listing *)

Lemma outpoint_leb_total o p : outpoint_leb o p = true ∨ outpoint_leb p o = true.
Proof.
  unfold outpoint_leb. rewrite (str_compare_antisym (op_txid o)).
  destruct (str_compare (op_txid o) (op_txid p)); simpl; auto. rewrite !Z.leb_le. lia.
Qed.

Lemma outpoint_leb_trans o p q : outpoint_leb o p = true → outpoint_leb p q = true → outpoint_leb o q = true.
Proof.
  unfold outpoint_leb.
  destruct (str_compare (op_txid o) (op_txid p)) eqn:E1; try done;
    destruct (str_compare (op_txid p) (op_txid q)) eqn:E2; try done.
  - apply str_compare_eq in E1, E2. rewrite E1, E2, str_compare_refl, !Z.leb_le. lia.
  - apply str_compare_eq in E1. by rewrite E1, E2.
  - apply str_compare_eq in E2. by rewrite <- E2, E1.
  - by rewrite (str_compare_trans _ _ _ E1 E2).
Qed.

Lemma outpoint_leb_antisym o p : outpoint_leb o p = true → outpoint_leb p o = true → o = p.
Proof.
  unfold outpoint_leb. rewrite (str_compare_antisym (op_txid o)).
  destruct (str_compare (op_txid o) (op_txid p)) eqn:E; simpl; try done.
  rewrite !Z.leb_le. intros. apply str_compare_eq in E. destruct o, p. simpl in *. f_equal; [done|lia].
Qed.

Lemma elem_of_utxo_entries m o x : (o, x) ∈ utxo_entries m ↔ m !! o = Some x.
Proof. unfold utxo_entries. rewrite sort_by_perm. apply elem_of_map_to_list. Qed.

Lemma utxo_entries_total m : sumZ ((λ e, amount e.2) <$> utxo_entries m) = utxo_total m.
Proof. unfold utxo_entries, utxo_total. by rewrite sort_by_perm. Qed.
