(* ===== verification/State.v ===== *)
(** * The consensus state and the transaction rules (consensus.py)

    [ConsensusState]: construction, [validate_transaction],
    [apply_transaction], [create_coinbase], [apply_block_coinbase] and
    [apply_genesis_coinbase].  A method that assigns [self.utxos] is a
    computation of the state-and-exception monad [SM]; the checks it runs first
    are pure.

    [tx_valid] is the declarative rule a transaction has to meet, and
    [validate_transaction_Ok] the equivalence of the code with it; [state_wf]
    is the invariant of the ledger. *)

From S2P Require Import Prelude PyBytes PyText Sha256 Crypto ByteReader Transaction Utxo.
Local Open Scope Z_scope.

Definition MAX_MONEY : Z := 21000000000000000.
Definition SUPPORTED_TRANSACTION_VERSIONS : list Z := [1].

Record ConsensusState := mkState { utxos : UTXOSet; block_subsidy : Z; max_money : Z }.

Definition with_utxos (s : ConsensusState) (m : UTXOSet) : ConsensusState :=
  mkState m (block_subsidy s) (max_money s).

(** [ConsensusState.__init__]; an absent or empty set is replaced by a new
    one. *)
Definition state_init (m : option UTXOSet) (subsidy max : Z) : result ConsensusState :=
  raise_if (subsidy <? 0) ConsensusError "block subsidy cannot be negative";;
  raise_if (max <=? 0) ConsensusError "max money must be positive";;
  Ok (mkState (default ∅ m) subsidy max).

Definition output_total (t : ConsensusTransaction) : Z := sumZ (amount <$> outputs t).

(** [_validate_transaction_version] *)
Definition validate_transaction_version (t : ConsensusTransaction) : result unit :=
  raise_if (bool_decide (tx_version t ∉ SUPPORTED_TRANSACTION_VERSIONS))
    ConsensusError "transaction version is unsupported".

Definition validate_output (s : ConsensusState) (o : TxOutput) : result unit :=
  raise_if (amount o <=? 0) ConsensusError "output amount must be positive";;
  raise_if (max_money s <? amount o) ConsensusError "output exceeds maximum supply";;
  raise_if (negb (is_valid_address (out_address o))) ConsensusError "invalid output address".

(** [_validate_outputs] *)
Definition validate_outputs (s : ConsensusState) (outs : list TxOutput) : result unit :=
  raise_if (bool_decide (outs = [])) ConsensusError "transaction has no outputs";;
  foldR (λ _ o, validate_output s o) tt outs.

(** [inputs[0].signature is not None or inputs[0].public_key is not None] *)
Definition coinbase_unsigned (t : ConsensusTransaction) : result unit :=
  match inputs t with
  | [] => raise KeyError "tuple index out of range"
  | i :: _ =>
      raise_if (bool_decide (in_signature i ≠ None) || bool_decide (in_public_key i ≠ None))
        ConsensusError "coinbase input must not be signed"
  end.

(** [_validate_coinbase] *)
Definition validate_coinbase (s : ConsensusState) (t : ConsensusTransaction) : result Z :=
  raise_if (negb (zlen (inputs t) =? 1)) ConsensusError "coinbase must have exactly one input";;
  coinbase_unsigned t;;
  raise_if (block_subsidy s <? output_total t) ConsensusError "coinbase pays more than subsidy";;
  Ok 0.

(** [self.utxos = updated], after the outputs are added to [m] and the supply
    is checked: the tail of the three [apply_*] methods. *)
Definition commit_outputs (m : UTXOSet) (t : ConsensusTransaction) : SM ConsensusState unit :=
  s ← sm_get;
  updated ← sm_lift (add_outputs m t);
  sm_lift (raise_if (max_money s <? utxo_total updated) ConsensusError "utxo set exceeds maximum supply");;
  sm_put (with_utxos s updated).

(** [create_coinbase] *)
Definition create_coinbase (s : ConsensusState) (miner_address : str) (fees height : Z) :
    result ConsensusTransaction :=
  raise_if (negb (is_valid_address miner_address)) ConsensusError "invalid miner address";;
  raise_if (fees <? 0) ConsensusError "fees cannot be negative";;
  raise_if (height <? 0) ConsensusError "height cannot be negative";;
  let amount := block_subsidy s + fees in
  raise_if (max_money s <? utxo_total (utxos s) + block_subsidy s)
    ConsensusError "coinbase would exceed maximum supply";;
  Ok (mkTx [mkTxInput (mkOutPoint COINBASE_PREV_TXID (- (height + 1))) None None]
        [mkTxOutput amount miner_address] 1).

(** [apply_block_coinbase] *)
Definition apply_block_coinbase (t : ConsensusTransaction) (fees : Z) : SM ConsensusState unit :=
  s ← sm_get;
  sm_lift (validate_transaction_version t);;
  sm_lift (validate_outputs s (outputs t));;
  sm_lift (raise_if (negb (is_coinbase t)) ConsensusError "block reward transaction must be coinbase");;
  sm_lift (raise_if (fees <? 0) ConsensusError "fees cannot be negative");;
  sm_lift (coinbase_unsigned t);;
  sm_lift (raise_if (block_subsidy s + fees <? output_total t)
    ConsensusError "coinbase pays more than subsidy plus fees");;
  updated ← sm_lift (utxo_copy (utxos s));
  commit_outputs updated t.

(** [apply_genesis_coinbase] *)
Definition apply_genesis_coinbase (t : ConsensusTransaction) : SM ConsensusState unit :=
  s ← sm_get;
  sm_lift (validate_transaction_version t);;
  sm_lift (validate_outputs s (outputs t));;
  sm_lift (raise_if (negb (is_coinbase t)) ConsensusError "genesis transaction must be coinbase");;
  sm_lift (coinbase_unsigned t);;
  updated ← sm_lift (utxo_copy (utxos s));
  commit_outputs updated t.

Section state.
Context `{Ed25519}.

(** [_validate_input_signature] *)
Definition validate_input_signature (t : ConsensusTransaction) (input_index : Z)
    (i : TxInput) (prev : TxOutput) : result unit :=
  let d := default ∅ (in_public_key i) in
  let signature := default [] (in_signature i) in
  raise_if (bool_decide (d = ∅) || bool_decide (signature = [])) ConsensusError "input is missing witness";;
  pk ← try_catch (pk_from_dict d) (λ e,
         if exn_is KeyError e || is_value_error e
         then raise ConsensusError "invalid input public key" else Err e);
  a ← address pk;
  raise_if (bool_decide (a ≠ out_address prev)) ConsensusError "input public key does not own output";;
  v ← verify_signature pk (signing_message t input_index) signature;
  raise_if (negb v) ConsensusError "invalid input signature".

(** The body of the loop over [enumerate(transaction.inputs)]; the loop's
    state is [(seen_inputs, input_total)]. *)
Definition validate_input (s : ConsensusState) (t : ConsensusTransaction)
    (acc : list OutPoint * Z) (e : Z * TxInput) : result (list OutPoint * Z) :=
  let o := previous_output e.2 in
  raise_if (bool_decide (o ∈ acc.1)) ConsensusError "transaction double-spends an input";;
  prev ← utxo_get (utxos s) o;
  validate_input_signature t e.1 e.2 prev;;
  Ok (o :: acc.1, acc.2 + amount prev).

(** [validate_transaction] *)
Definition validate_transaction (s : ConsensusState) (t : ConsensusTransaction) : result Z :=
  validate_transaction_version t;;
  validate_outputs s (outputs t);;
  if is_coinbase t then validate_coinbase s t
  else
    raise_if (bool_decide (inputs t = [])) ConsensusError "transaction has no inputs";;
    acc ← foldR (validate_input s t) ([], 0) (enumerate 0 (inputs t));
    raise_if (acc.2 <? output_total t) ConsensusError "transaction spends more than its inputs";;
    Ok (acc.2 - output_total t).

(** [apply_transaction] *)
Definition apply_transaction (t : ConsensusTransaction) : SM ConsensusState Z :=
  s ← sm_get;
  fee ← sm_lift (validate_transaction s t);
  copied ← sm_lift (utxo_copy (utxos s));
  updated ← sm_lift (if is_coinbase t then Ok copied
                     else spend_all copied (previous_output <$> inputs t));
  commit_outputs updated t;;
  mret fee.
End state.

(** ** The rules, stated declaratively *)

Definition output_ok (max : Z) (o : TxOutput) : Prop :=
  0 < amount o ≤ max ∧ is_valid_address (out_address o) = true.

#[global] Instance output_ok_dec max o : Decision (output_ok max o).
Proof. unfold output_ok. apply _. Defined.

(** The well-formedness every transaction needs. *)
Definition tx_shape (max : Z) (t : ConsensusTransaction) : Prop :=
  tx_version t = 1 ∧ outputs t ≠ [] ∧ Forall (output_ok max) (outputs t).

#[global] Instance tx_shape_dec max t : Decision (tx_shape max t).
Proof. unfold tx_shape. apply _. Defined.

(** A coinbase that carries no witness. *)
Definition coinbase_shape (t : ConsensusTransaction) : Prop :=
  ∃ i, 0 < i ∧ inputs t = [mkTxInput (mkOutPoint COINBASE_PREV_TXID (- i)) None None].

(** Input number [k] of [t] may spend [prev]: the public key it shows hashes to
    the output's address and verifies the signature over the transaction. *)
Definition authorizes `{Ed25519} (t : ConsensusTransaction) (k : Z) (i : TxInput) (prev : TxOutput) : Prop :=
  ∃ d pk sig, in_public_key i = Some d ∧ in_signature i = Some sig ∧ sig ≠ [] ∧
    pk_from_dict d = Ok pk ∧ address pk = Ok (out_address prev) ∧
    verify_signature pk (signing_message t k) sig = Ok true.

(** The inputs exist, are distinct and authorized, and their value covers the
    outputs; the fee is the difference. *)
Definition spend_valid `{Ed25519} (m : UTXOSet) (t : ConsensusTransaction) (fee : Z) : Prop :=
  inputs t ≠ [] ∧ NoDup (previous_output <$> inputs t) ∧
  ∃ prevs, mapR (utxo_get m) (previous_output <$> inputs t) = Ok prevs ∧
    (∀ k i prev, inputs t !! k = Some i → prevs !! k = Some prev → authorizes t (Z.of_nat k) i prev) ∧
    sumZ (amount <$> prevs) = output_total t + fee ∧ 0 ≤ fee.

Definition tx_valid `{Ed25519} (s : ConsensusState) (t : ConsensusTransaction) (fee : Z) : Prop :=
  tx_shape (max_money s) t ∧
  if is_coinbase t then coinbase_shape t ∧ output_total t ≤ block_subsidy s ∧ fee = 0
  else spend_valid (utxos s) t fee.

(** The invariant of a ledger: every output is positive, bounded and paid to an
    address of the right shape, the supply is within its bound, and no entry
    sits at a coinbase marker. *)
Definition state_wf (s : ConsensusState) : Prop :=
  0 ≤ block_subsidy s ∧ 0 < max_money s ∧ utxo_total (utxos s) ≤ max_money s ∧
  map_Forall (λ o x, output_ok (max_money s) x ∧ 0 ≤ op_index o) (utxos s).

#[global] Instance state_wf_dec s : Decision (state_wf s).
Proof. unfold state_wf. apply _. Defined.

(** What a transaction with identifier [h] does to the set. *)
Definition spent_outpoints (t : ConsensusTransaction) : list OutPoint :=
  if is_coinbase t then [] else previous_output <$> inputs t.

Definition tx_effect (h : str) (t : ConsensusTransaction) (m : UTXOSet) : UTXOSet :=
  list_to_map (created h 0 (outputs t)) ∪ filter (λ e, e.1 ∉ spent_outpoints t) m.

(** [s'] is [s] after the effect of [t] is committed: the outpoints it creates
    are new, and the supply stays within its bound. *)
Definition tx_commits (s : ConsensusState) (t : ConsensusTransaction) (s' : ConsensusState) : Prop :=
  ∃ h, txid t = Ok h ∧
    (∀ o, o ∈ (created h 0 (outputs t)).*1 → o ∉ spent_outpoints t → utxos s !! o = None) ∧
    utxo_total (tx_effect h t (utxos s)) ≤ max_money s ∧
    s' = with_utxos s (tx_effect h t (utxos s)).

(** ** Lemmas: the checks *)

Lemma supported_tx_version v : v ∉ SUPPORTED_TRANSACTION_VERSIONS ↔ v ≠ 1.
Proof. unfold SUPPORTED_TRANSACTION_VERSIONS. by rewrite list_elem_of_singleton. Qed.

Lemma validate_version_Ok t u : validate_transaction_version t = Ok u ↔ tx_version t = 1.
Proof.
  unfold validate_transaction_version. rewrite raise_if_Ok, bool_decide_eq_false, supported_tx_version.
  destruct (decide (tx_version t = 1)); naive_solver.
Qed.

Lemma validate_output_Ok s o u : validate_output s o = Ok u ↔ output_ok (max_money s) o.
Proof.
  unfold validate_output, output_ok. rewrite !raise_if_bind, raise_if_Ok, negb_false_iff, Z.leb_gt, Z.ltb_ge.
  tauto.
Qed.

Lemma validate_outputs_Ok s outs u :
  validate_outputs s outs = Ok u ↔ outs ≠ [] ∧ Forall (output_ok (max_money s)) outs.
Proof.
  unfold validate_outputs. rewrite raise_if_bind, bool_decide_eq_false, foldR_unit.
  by setoid_rewrite validate_output_Ok.
Qed.

Lemma is_coinbase_inputs t : is_coinbase t = true ↔
  ∃ i, inputs t = [i] ∧ op_txid (previous_output i) = COINBASE_PREV_TXID ∧ op_index (previous_output i) < 0.
Proof.
  unfold is_coinbase. destruct (inputs t) as [|i [|j l]]; [naive_solver| |naive_solver].
  rewrite andb_true_iff, bool_decide_eq_true, Z.ltb_lt. split; [by eauto|]. by intros (? & [= <-] & ?).
Qed.

Lemma coinbase_unsigned_Ok t u : is_coinbase t = true → coinbase_unsigned t = Ok u ↔ coinbase_shape t.
Proof.
  rewrite is_coinbase_inputs. unfold coinbase_unsigned, coinbase_shape.
  intros ([[h n] sg pk] & -> & Ht & Hi). simpl in *. subst.
  rewrite raise_if_Ok, orb_false_iff, !bool_decide_eq_false. split.
  - intros [Hs Hp]. exists (- n). split; [lia|]. rewrite Z.opp_involutive. do 2 f_equal; by apply dec_stable.
  - intros (i & ? & [= -> -> ->]). by split; intros [].
Qed.

Lemma coinbase_shape_is_coinbase t : coinbase_shape t → is_coinbase t = true.
Proof.
  intros (i & Hi & E). apply is_coinbase_inputs. eexists. split; [done|]. simpl. split; [done|lia].
Qed.

Section check_lemmas.
Context `{ED : Ed25519}.

Lemma validate_input_signature_Ok t k i prev u :
  validate_input_signature t k i prev = Ok u ↔ authorizes t k i prev.
Proof.
  unfold validate_input_signature, authorizes. split.
  - intros E. inv_ok E. bool_prop. subst.
    destruct (in_public_key i) as [d|]; [|done]. destruct (in_signature i) as [sg|]; [|done].
    exists d, x, sg. split_and!; try done.
    + simpl in Hx. destruct (pk_from_dict d); simpl in Hx; [done|]. by case_match.
    + rewrite Hx0. f_equal. by apply dec_stable.
  - intros (d & pk & sg & -> & -> & Hs & Hpk & Ha & Hv). simpl.
    rewrite (bool_decide_false (d = ∅)) by (intros ->; by vm_compute in Hpk).
    rewrite (bool_decide_false (sg = [])) by done. simpl. rewrite Hpk. simpl. rewrite Ha. simpl.
    rewrite bool_decide_false by naive_solver. simpl. rewrite Hv. by destruct u.
Qed.

(** The loop over the inputs. *)
Lemma validate_inputs_Ok s t ins i seen tot r :
  foldR (validate_input s t) (seen, tot) (enumerate i ins) = Ok r →
  NoDup (previous_output <$> ins) ∧ (∀ o, o ∈ previous_output <$> ins → o ∉ seen) ∧
  ∃ prevs, mapR (utxo_get (utxos s)) (previous_output <$> ins) = Ok prevs ∧
    (∀ k x prev, ins !! k = Some x → prevs !! k = Some prev → authorizes t (i + Z.of_nat k) x prev) ∧
    r.2 = tot + sumZ (amount <$> prevs).
Proof.
  revert i seen tot. induction ins as [|x ins IH]; intros i seen tot H; simpl in H.
  - inv_ok H. subst. split_and!; [constructor|by intros o ?%elem_of_nil|].
    exists []. split_and!; [done|by intros [|]|]. rewrite fmap_nil, sumZ_nil. simpl. lia.
  - apply bind_Ok in H as ([seen1 tot1] & Hs & H). unfold validate_input in Hs. cbn [fst snd] in Hs.
    inv_ok Hs. bool_prop. simplify_eq. apply validate_input_signature_Ok in Hx0.
    apply IH in H as (Hn & Hd & prevs & Hp & Ha & ->). split_and!.
    + constructor; [|done]. intros Hin%Hd. apply Hin. by left.
    + intros o [->|Ho]%elem_of_cons; [done|]. intros Hs. apply (Hd o Ho). by right.
    + exists (x0 :: prevs). csimpl. rewrite Hx. csimpl. rewrite Hp. split_and!; [done| |].
      * intros [|k] y prev Hy Hprev; simplify_eq/=; [by rewrite Z.add_0_r|].
        replace (i + Z.of_nat (S k)) with (i + 1 + Z.of_nat k) by lia. eauto.
      * csimpl. rewrite sumZ_cons. lia.
Qed.

Lemma validate_inputs_ok s t ins i seen tot prevs :
  NoDup (previous_output <$> ins) → (∀ o, o ∈ previous_output <$> ins → o ∉ seen) →
  mapR (utxo_get (utxos s)) (previous_output <$> ins) = Ok prevs →
  (∀ k x prev, ins !! k = Some x → prevs !! k = Some prev → authorizes t (i + Z.of_nat k) x prev) →
  ∃ seen', foldR (validate_input s t) (seen, tot) (enumerate i ins) = Ok (seen', tot + sumZ (amount <$> prevs)).
Proof.
  revert i seen tot prevs. induction ins as [|x ins IH]; intros i seen tot prevs Hn Hd Hp Ha; csimpl in *.
  - inv_ok Hp. subst. exists seen. rewrite fmap_nil, sumZ_nil. by rewrite Z.add_0_r.
  - inv_ok Hp. subst. apply NoDup_cons in Hn as [Hx1 Hn].
    assert (validate_input s t (seen, tot) (i, x) = Ok (previous_output x :: seen, tot + amount x0)) as ->.
    { unfold validate_input. cbn [fst snd]. rewrite bool_decide_false by (apply Hd; left). csimpl.
      rewrite Hx. csimpl.
      assert (validate_input_signature t i x x0 = Ok tt) as ->; [|done].
      apply validate_input_signature_Ok. rewrite <- (Z.add_0_r i). by apply (Ha 0%nat). }
    simpl. destruct (IH (i + 1) (previous_output x :: seen) (tot + amount x0) x1) as [seen' E].
    + done.
    + intros o Ho [->|Hs]%elem_of_cons; [done|]. apply (Hd o); [by right|done].
    + done.
    + intros k y prev Hy Hprev. replace (i + 1 + Z.of_nat k) with (i + Z.of_nat (S k)) by lia. by apply Ha.
    + exists seen'. csimpl. rewrite E, sumZ_cons, Z.add_assoc. done.
Qed.
End check_lemmas.

Lemma output_total_spec t : sumZ (amount <$> outputs t) = output_total t.
Proof. done. Qed.

Lemma output_total_nonneg max t : tx_shape max t → 0 ≤ output_total t.
Proof.
  intros (_ & _ & Ho). apply sumZ_nonneg, Forall_fmap. eapply Forall_impl; [exact Ho|].
  intros o [? _]. simpl. lia.
Qed.

Section transaction_lemmas.
Context `{ED : Ed25519}.

Lemma validate_transaction_Ok s t fee : validate_transaction s t = Ok fee ↔ tx_valid s t fee.
Proof.
  unfold validate_transaction, tx_valid, tx_shape.
  rewrite !bind_unit_Ok, validate_version_Ok, validate_outputs_Ok.
  rewrite (assoc (∧) (tx_version t = 1)). apply and_iff_compat_l. destruct (is_coinbase t) eqn:Ec.
  - unfold validate_coinbase.
    rewrite raise_if_bind, bind_unit_Ok, raise_if_bind, (coinbase_unsigned_Ok t _ Ec), negb_false_iff, Z.eqb_eq, Z.ltb_ge.
    apply is_coinbase_inputs in Ec as (i & -> & _). unfold zlen. simpl. naive_solver.
  - unfold spend_valid. rewrite raise_if_bind, bool_decide_eq_false, bind_Ok. apply and_iff_compat_l. split.
    + intros (acc & Ha & H). inv_ok H. subst fee. apply Z.ltb_ge in Hc.
      apply validate_inputs_Ok in Ha as (Hn & _ & prevs & Hp & Hauth & Hr).
      split; [done|]. exists prevs. split_and!; [done|exact Hauth|lia|lia].
    + intros (Hn & prevs & Hp & Hauth & Htot & Hfee).
      destruct (validate_inputs_ok s t (inputs t) 0 [] 0 prevs) as [seen E]; [done|by intros ? ? ?%elem_of_nil|done|exact Hauth|].
      eexists. split; [exact E|]. cbn [snd]. rewrite raise_if_bind, Z.ltb_ge. split; [lia|]. f_equal. lia.
Qed.

Lemma commit_outputs_Ok m t s s' u h : txid t = Ok h →
  commit_outputs m t s = (s', Ok u) →
  (∀ o, o ∈ (created h 0 (outputs t)).*1 → m !! o = None) ∧
  s' = with_utxos s (list_to_map (created h 0 (outputs t)) ∪ m) ∧
  utxo_total (utxos s') = utxo_total m + output_total t ∧ utxo_total (utxos s') ≤ max_money s.
Proof.
  intros Hh E. unfold commit_outputs in E. inv_sm E. apply raise_if_Ok in Hx0. apply Z.ltb_ge in Hx0.
  pose proof (add_outputs_Ok _ _ _ _ Hh Hx) as (Hf & -> & Ht). by split_and!.
Qed.

Lemma commit_outputs_ok m t s h : txid t = Ok h →
  (∀ o, o ∈ (created h 0 (outputs t)).*1 → m !! o = None) →
  utxo_total (list_to_map (created h 0 (outputs t)) ∪ m) ≤ max_money s →
  commit_outputs m t s = (with_utxos s (list_to_map (created h 0 (outputs t)) ∪ m), Ok tt).
Proof.
  intros Hh Hf Ht. unfold commit_outputs, sm_get, sm_lift, sm_put, mbind, SM_bind.
  destruct (add_entries_ok (created h 0 (outputs t)) m) as [m' E]; [apply created_NoDup|done|].
  rewrite <- (add_outputs_unfold _ _ _ Hh) in E. rewrite E.
  apply (add_outputs_Ok _ _ _ _ Hh) in E as (_ & -> & _). unfold raise_if.
  destruct (Z.ltb_spec (max_money s) (utxo_total (list_to_map (created h 0 (outputs t)) ∪ m))); [lia|done].
Qed.

Lemma spend_step_Ok s t m' fee : tx_valid s t fee →
  (if is_coinbase t then Ok (utxos s) else spend_all (utxos s) (previous_output <$> inputs t)) = Ok m' ↔
  m' = filter (λ e, e.1 ∉ spent_outpoints t) (utxos s).
Proof.
  unfold tx_valid, spent_outpoints. intros [_ Hv]. destruct (is_coinbase t).
  - rewrite filter_spent_nil. naive_solver.
  - destruct Hv as (_ & Hn & prevs & Hp & _).
    destruct (spend_all_ok (utxos s) (previous_output <$> inputs t)) as [m1 E]; [done| |].
    + intros o (k & Ho)%list_elem_of_lookup. apply mapR_Ok in Hp.
      destruct (Forall2_lookup_l _ _ _ _ _ Hp Ho) as (x & _ & Hx%utxo_get_Ok). by eexists.
    + rewrite E. apply spend_all_filter in E as ->. naive_solver.
Qed.

Lemma apply_transaction_Ok s s' t fee :
  apply_transaction t s = (s', Ok fee) ↔ tx_valid s t fee ∧ tx_commits s t s'.
Proof.
  assert (Hf : ∀ h, (∀ o, o ∈ (created h 0 (outputs t)).*1 →
      filter (λ e, e.1 ∉ spent_outpoints t) (utxos s) !! o = None) ↔
    (∀ o, o ∈ (created h 0 (outputs t)).*1 → o ∉ spent_outpoints t → utxos s !! o = None)).
  { intros h. apply forall_proper. intros o. rewrite map_lookup_filter_None.
    destruct (utxos s !! o) as [x|]; [|naive_solver]. split; intros Ho Hin; specialize (Ho Hin).
    - intros Hs. destruct Ho as [?|Ho]; [done|]. exfalso. exact (Ho x eq_refl Hs).
    - destruct (decide (o ∈ spent_outpoints t)) as [Hs|Hs]; [|by specialize (Ho Hs)]. right. intros x' _ Hx'. by apply Hx'. }
  unfold apply_transaction. split.
  - intros E. inv_sm E. apply validate_transaction_Ok in Hx. rewrite utxo_copy_id in Hx0. simplify_eq.
    apply (spend_step_Ok _ _ _ _ Hx) in Hx1 as ->. split; [done|].
    destruct (add_outputs (filter (λ e, e.1 ∉ spent_outpoints t) (utxos s)) t) as [m'|] eqn:Ea.
    + apply add_outputs_txid in Ea as [h Hh]; [|by apply Hx]. exists h.
      apply (commit_outputs_Ok _ _ _ _ _ _ Hh) in Hx2 as (Hfr & -> & _ & Ht). split_and!; [done|by apply Hf|done..].
    + unfold commit_outputs in Hx2. inv_sm Hx2. congruence.
  - intros (Hv & h & Hh & Hfr & Ht & ->). unfold sm_get, sm_lift, mbind, SM_bind.
    rewrite (proj2 (validate_transaction_Ok s t fee) Hv), utxo_copy_id.
    rewrite (proj2 (spend_step_Ok s t _ fee Hv) eq_refl).
    rewrite (commit_outputs_ok _ _ _ h); [done..|by apply Hf|done].
Qed.

(** The money an accepted transaction moves. *)
Lemma apply_transaction_total s s' t fee :
  apply_transaction t s = (s', Ok fee) →
  utxo_total (utxos s') = utxo_total (utxos s) + (if is_coinbase t then output_total t else - fee).
Proof.
  unfold apply_transaction. intros E. inv_sm E. apply validate_transaction_Ok in Hx. rewrite utxo_copy_id in Hx0. simplify_eq.
  destruct (add_outputs x1 t) as [m'|] eqn:Ea; [|unfold commit_outputs in Hx2; inv_sm Hx2; congruence].
  apply add_outputs_txid in Ea as [h Hh]; [|by apply Hx].
  apply (commit_outputs_Ok _ _ _ _ _ _ Hh) in Hx2 as (_ & _ & -> & _).
  destruct Hx as [_ Hv]. destruct (is_coinbase t); [simplify_eq; lia|].
  destruct Hv as (_ & _ & prevs & Hp & _ & Ht & _).
  rewrite (spend_all_total _ _ _ _ Hx1 Hp). lia.
Qed.

(** The fee of a spend is not negative. *)
Lemma apply_fee_nonneg s s' t fee : is_coinbase t = false → apply_transaction t s = (s', Ok fee) → 0 ≤ fee.
Proof.
  intros Hc [[_ Hv] _]%apply_transaction_Ok. rewrite Hc in Hv. by destruct Hv as (_ & _ & ? & _ & _ & _ & ?).
Qed.

Lemma apply_transaction_err s s' t e : apply_transaction t s = (s', Err e) → s' = s.
Proof.
  unfold apply_transaction, commit_outputs, sm_get, sm_lift, sm_put, mret, SM_ret, mbind, SM_bind.
  repeat case_match; naive_solver.
Qed.
End transaction_lemmas.

(** ** Lemmas: coinbase application *)

Lemma spent_outpoints_coinbase t : is_coinbase t = true → spent_outpoints t = [].
Proof. unfold spent_outpoints. by intros ->. Qed.

Lemma tx_effect_coinbase h t m : is_coinbase t = true → tx_effect h t m = list_to_map (created h 0 (outputs t)) ∪ m.
Proof. intros Hc. unfold tx_effect. by rewrite spent_outpoints_coinbase, filter_spent_nil. Qed.

Lemma commit_coinbase_Ok t s s' u : is_coinbase t = true → outputs t ≠ [] →
  commit_outputs (utxos s) t s = (s', Ok u) ↔ tx_commits s t s'.
Proof.
  intros Hc Ho. unfold tx_commits. setoid_rewrite (λ h m, tx_effect_coinbase h t m Hc).
  rewrite (spent_outpoints_coinbase t Hc). destruct u. split.
  - intros E. destruct (add_outputs (utxos s) t) as [m'|] eqn:Ea; [|unfold commit_outputs in E; inv_sm E; congruence].
    apply add_outputs_txid in Ea as [h Hh]; [|done]. exists h.
    apply (commit_outputs_Ok _ _ _ _ _ _ Hh) in E as (Hf & -> & _ & Ht). split_and!; auto.
  - intros (h & Hh & Hf & Ht & ->). apply commit_outputs_ok; [done| |done].
    intros o Hin. apply Hf; [done|]. apply not_elem_of_nil.
Qed.

Lemma apply_genesis_coinbase_Ok t s s' u :
  apply_genesis_coinbase t s = (s', Ok u) ↔
  tx_shape (max_money s) t ∧ coinbase_shape t ∧ tx_commits s t s'.
Proof.
  unfold apply_genesis_coinbase. split.
  - intros E. inv_sm E. apply validate_version_Ok in Hx. apply validate_outputs_Ok in Hx0 as [Ho Hs].
    apply raise_if_Ok in Hx1. bool_prop. rewrite coinbase_unsigned_Ok in Hx2 by done.
    rewrite utxo_copy_id in Hx3. simplify_eq. rewrite commit_coinbase_Ok in E by done. done.
  - intros ((Hv & Ho & Hs) & Hc & Hcm). pose proof (coinbase_shape_is_coinbase _ Hc) as Hb.
    unfold sm_get, sm_lift, mbind, SM_bind.
    rewrite (proj2 (validate_version_Ok t tt) Hv), (proj2 (validate_outputs_Ok s (outputs t) tt)) by done.
    rewrite Hb, (proj2 (coinbase_unsigned_Ok t tt Hb) Hc), utxo_copy_id. by apply commit_coinbase_Ok.
Qed.

Lemma apply_block_coinbase_Ok t fees s s' u :
  apply_block_coinbase t fees s = (s', Ok u) ↔
  tx_shape (max_money s) t ∧ coinbase_shape t ∧ 0 ≤ fees ∧ output_total t ≤ block_subsidy s + fees ∧
  tx_commits s t s'.
Proof.
  unfold apply_block_coinbase. split.
  - intros E. inv_sm E. apply validate_version_Ok in Hx. apply validate_outputs_Ok in Hx0 as [Ho Hs].
    apply raise_if_Ok in Hx1, Hx2, Hx4. bool_prop. rewrite coinbase_unsigned_Ok in Hx3 by done.
    rewrite utxo_copy_id in Hx5. simplify_eq. rewrite commit_coinbase_Ok in E by done. done.
  - intros ((Hv & Ho & Hs) & Hc & Hf & Ht & Hcm). pose proof (coinbase_shape_is_coinbase _ Hc) as Hb.
    unfold sm_get, sm_lift, mbind, SM_bind.
    rewrite (proj2 (validate_version_Ok t tt) Hv), (proj2 (validate_outputs_Ok s (outputs t) tt)) by done.
    rewrite Hb, (proj2 (coinbase_unsigned_Ok t tt Hb) Hc), utxo_copy_id.
    rewrite (proj2 (Z.ltb_ge fees 0)), (proj2 (Z.ltb_ge (block_subsidy s + fees) (output_total t))) by lia.
    by apply commit_coinbase_Ok.
Qed.

Lemma commits_coinbase_total t s s' : is_coinbase t = true → outputs t ≠ [] → tx_commits s t s' →
  utxo_total (utxos s') = utxo_total (utxos s) + output_total t.
Proof.
  intros Hc Ho Hcm. assert (∃ h, txid t = Ok h) as [h Hh] by (destruct Hcm as (h & Hh & _); eauto).
  apply (commit_coinbase_Ok _ _ _ tt Hc Ho) in Hcm.
  by destruct (commit_outputs_Ok _ _ _ _ _ _ Hh Hcm) as (_ & _ & ? & _).
Qed.

Lemma apply_genesis_coinbase_err t s s' e : apply_genesis_coinbase t s = (s', Err e) → s' = s.
Proof.
  unfold apply_genesis_coinbase, commit_outputs, sm_get, sm_lift, sm_put, mbind, SM_bind.
  repeat case_match; naive_solver.
Qed.

Lemma apply_block_coinbase_err t f s s' e : apply_block_coinbase t f s = (s', Err e) → s' = s.
Proof.
  unfold apply_block_coinbase, commit_outputs, sm_get, sm_lift, sm_put, mbind, SM_bind.
  repeat case_match; naive_solver.
Qed.

(** ** Lemmas: the ledger invariant *)

Lemma commits_params s t s' : tx_commits s t s' → block_subsidy s' = block_subsidy s ∧ max_money s' = max_money s.
Proof. by intros (h & _ & _ & _ & ->). Qed.

(** Where an entry of the new set comes from. *)
Lemma tx_effect_lookup h t m o x : tx_effect h t m !! o = Some x →
  (o, x) ∈ created h 0 (outputs t) ∨ m !! o = Some x ∧ o ∉ spent_outpoints t.
Proof.
  unfold tx_effect. intros [Hl|[_ Hr]]%lookup_union_Some_raw.
  - left. by apply elem_of_list_to_map_2.
  - right. by apply map_lookup_filter_Some in Hr.
Qed.

Lemma state_wf_commits s t s' :
  state_wf s → tx_shape (max_money s) t → tx_commits s t s' → state_wf s'.
Proof.
  intros (Hs & Hm & _ & Hu) (_ & _ & Ho) (h & _ & _ & Ht & ->). unfold state_wf. split_and!; [done..|].
  intros o x [Hc|[Hx _]]%tx_effect_lookup; [|by apply Hu].
  apply created_index in Hc as (_ & Hi & Hin). rewrite Forall_forall in Ho. auto.
Qed.

Lemma state_wf_amounts s : state_wf s → map_Forall (λ _ x, 0 ≤ amount x) (utxos s).
Proof. intros (_ & _ & _ & Hu) o x Hx. destruct (Hu o x Hx) as [[? _] _]. lia. Qed.

(** ** Runs *)

(** [t] creates the outpoint [o]. *)
Definition creates (t : ConsensusTransaction) (o : OutPoint) : Prop :=
  ∃ h, txid t = Ok h ∧ o ∈ (created h 0 (outputs t)).*1.

Section runs.
Context `{ED : Ed25519}.

(** One operation of the ledger that returns. *)
Inductive ledger_step (t : ConsensusTransaction) (s s' : ConsensusState) : Prop :=
  | step_transaction fee : apply_transaction t s = (s', Ok fee) → ledger_step t s s'
  | step_reward fees : apply_block_coinbase t fees s = (s', Ok tt) → ledger_step t s s'
  | step_genesis : apply_genesis_coinbase t s = (s', Ok tt) → ledger_step t s s'.

(** Operations one after the other, with the transactions they apply. *)
Inductive ledger_run : ConsensusState → list ConsensusTransaction → ConsensusState → Prop :=
  | ledger_nil s : ledger_run s [] s
  | ledger_cons t s s1 ts s2 : ledger_step t s s1 → ledger_run s1 ts s2 → ledger_run s (t :: ts) s2.

Lemma ledger_step_commits t s s' : ledger_step t s s' → tx_commits s t s'.
Proof.
  intros [fee [_ Hc]%apply_transaction_Ok|fees (_ & _ & _ & _ & Hc)%apply_block_coinbase_Ok|(_ & _ & Hc)%apply_genesis_coinbase_Ok]; exact Hc.
Qed.

Lemma ledger_run_app s ts1 s1 ts2 s2 : ledger_run s ts1 s1 → ledger_run s1 ts2 s2 → ledger_run s (ts1 ++ ts2) s2.
Proof. intros H1 H2. induction H1 as [|t s s1 s3 ts Hs _ IH]; [done|]. cbn. econstructor; [exact Hs|by apply IH]. Qed.

Lemma ledger_run_split s ts s' i t : ledger_run s ts s' → ts !! i = Some t →
  ∃ s0 s1, ledger_step t s0 s1 ∧ ledger_run s1 (drop (S i) ts) s'.
Proof.
  intros Hr. revert i. induction Hr as [|t1 s s1 ts s2 Hs Hr IH]; intros i Hi; [done|]. destruct i as [|i].
  - injection Hi as ->. exists s, s1. by destruct ts.
  - exact (IH i Hi).
Qed.

Lemma commits_missing t s s' o : tx_commits s t s' → ¬ creates t o → utxos s !! o = None ∨ o ∈ spent_outpoints t → utxos s' !! o = None.
Proof.
  intros (h & Hh & _ & _ & ->) Hc Ho. cbn [utxos with_utxos]. destruct (tx_effect h t (utxos s) !! o) as [x|] eqn:E; [|done]. exfalso.
  apply tx_effect_lookup in E as [Hin|[Hx Hs]]; [|destruct Ho; congruence].
  apply Hc. exists h. split; [done|]. apply list_elem_of_fmap. by exists (o, x).
Qed.

Lemma step_spends t s s' o : ledger_step t s s' → o ∈ spent_outpoints t → ¬ creates t o → utxos s' !! o = None.
Proof. intros Hs%ledger_step_commits Ho Hc. eapply commits_missing; [exact Hs|exact Hc|by right]. Qed.

Lemma stays_spent s ts s' o : ledger_run s ts s' → utxos s !! o = None → (∀ t, t ∈ ts → ¬ creates t o) → utxos s' !! o = None.
Proof.
  induction 1 as [|t s s1 ts s2 Hs%ledger_step_commits _ IH]; intros Ho Hc; [done|]. apply IH.
  - eapply commits_missing; [exact Hs|apply Hc; by left|by left].
  - intros t' Ht. apply Hc. by right.
Qed.

Lemma missing_refused s t o fee : utxos s !! o = None → o ∈ spent_outpoints t → validate_transaction s t ≠ Ok fee.
Proof.
  intros Hl Ho [_ Hv]%validate_transaction_Ok. unfold spent_outpoints in Ho.
  destruct (is_coinbase t); [by apply not_elem_of_nil in Ho|].
  destruct Hv as (_ & _ & prevs & Hp & _). apply list_elem_of_lookup in Ho as [k Hk].
  apply mapR_Ok in Hp. destruct (Forall2_lookup_l _ _ _ _ _ Hp Hk) as (y & _ & Hy).
  apply utxo_get_Ok in Hy. congruence.
Qed.

End runs.

Lemma not_creates t o : bool_decide (txid t = Ok (op_txid o)) = false → ¬ creates t o.
Proof.
  intros Hb%bool_decide_eq_false (h & Hh & ([p x] & -> & Hin)%list_elem_of_fmap). apply created_index in Hin as (Hx & _). cbn in Hb. congruence.
Qed.

(** ** Lemmas: exceptions *)

(** The text of every witness key can be encoded. *)
Definition keys_encodable (t : ConsensusTransaction) : Prop :=
  Forall (λ i, match in_public_key i with
               | Some d => is_ok (utf8_encode (dict_get_default d "key")) = true
               | None => True
               end) (inputs t).

Lemma encoded_keys t b : tx_to_bytes true t = Ok b → keys_encodable t.
Proof.
  unfold tx_to_bytes. intros E. inv_oks. clear -Hx2. apply mapR_Ok in Hx2. unfold keys_encodable.
  induction Hx2 as [|i bi l bl Hi _ IH]; constructor; [|done]. clear IH.
  unfold input_to_bytes, witness_to_bytes in Hi. destruct (in_public_key i); [|done].
  inv_oks. match goal with E : encode_text (dict_get_default _ "key") = _ |- _ =>
    unfold encode_text in E; by apply bind_Ok in E as (? & -> & _) end.
Qed.

Lemma validate_version_raises t : raises_only (exn_is ConsensusError) (validate_transaction_version t).
Proof. unfold validate_transaction_version. auto with bcc. Qed.

Lemma validate_outputs_raises s outs : raises_only (exn_is ConsensusError) (validate_outputs s outs).
Proof.
  unfold validate_outputs. apply raises_only_bind; [auto with bcc|]. intros _ _.
  unfold raises_only. apply raises_only_foldR. intros [] o _. unfold validate_output.
  change (raises_only (exn_is ConsensusError) (validate_output s o)). unfold validate_output. auto with bcc.
Qed.

Lemma utxo_get_raises m o : raises_only (exn_is ConsensusError) (utxo_get m o).
Proof. unfold utxo_get. case_match; auto with bcc. Qed.

Lemma utxo_spend_raises m o : raises_only (exn_is ConsensusError) (utxo_spend m o).
Proof. unfold utxo_spend. case_match; auto with bcc. Qed.

Lemma coinbase_unsigned_raises t : inputs t ≠ [] → raises_only (exn_is ConsensusError) (coinbase_unsigned t).
Proof. unfold coinbase_unsigned. destruct (inputs t); [done|]. auto with bcc. Qed.

Lemma is_coinbase_nonempty t : is_coinbase t = true → inputs t ≠ [].
Proof. unfold is_coinbase. by destruct (inputs t). Qed.

Lemma add_outputs_raises m t h : txid t = Ok h → raises_only (exn_is ConsensusError) (add_outputs m t).
Proof.
  intros Hh. unfold add_outputs, raises_only. apply raises_only_foldR. intros m' e _. rewrite Hh.
  change (raises_only (exn_is ConsensusError) (utxo_add m' (mkOutPoint h e.1) e.2)). unfold utxo_add. auto with bcc.
Qed.

(** The same for computations of [SM]. *)
Definition sm_raises {S A} (P : exn → bool) (m : SM S A) : Prop := ∀ s, raises_only P (m s).2.

Lemma sm_raises_bind {S A B} P (m : SM S A) (f : A → SM S B) :
  sm_raises P m → (∀ s s' a, m s = (s', Ok a) → sm_raises P (f a)) → sm_raises P (m ≫= f).
Proof.
  intros Hm Hf s. unfold mbind, SM_bind. specialize (Hm s).
  destruct (m s) as [s' [a|e]] eqn:E; simpl in *.
  - exact (Hf _ _ _ E s').
  - intros e' [= <-]. by apply Hm.
Qed.

Lemma sm_raises_lift {S A} P (m : result A) : raises_only P m → sm_raises P (@sm_lift S A m).
Proof. by intros Hm s. Qed.

Lemma sm_raises_ret {S A} P (a : A) : sm_raises P (mret a : SM S A).
Proof. by intros s e. Qed.

Lemma sm_raises_get {S} P : sm_raises P (@sm_get S).
Proof. by intros s e. Qed.

Lemma sm_raises_put {S} P (s : S) : sm_raises P (sm_put s).
Proof. by intros ? e. Qed.

#[export] Hint Resolve validate_version_raises validate_outputs_raises utxo_get_raises utxo_spend_raises
  coinbase_unsigned_raises is_coinbase_nonempty sm_raises_lift sm_raises_ret sm_raises_get sm_raises_put : bcc.

Lemma commit_outputs_raises m t h : txid t = Ok h → sm_raises (exn_is ConsensusError) (commit_outputs m t).
Proof.
  intros Hh. unfold commit_outputs.
  repeat (apply sm_raises_bind; [eauto using add_outputs_raises with bcc|intros ? ? ? _]). auto with bcc.
Qed.

Lemma apply_block_coinbase_raises t fees h :
  txid t = Ok h → sm_raises (exn_is ConsensusError) (apply_block_coinbase t fees).
Proof.
  intros Hh. unfold apply_block_coinbase.
  do 3 (apply sm_raises_bind; [auto with bcc|intros ? ? ? _]).
  apply sm_raises_bind; [auto with bcc|intros ? ? ? Hb].
  apply sm_lift_Ok in Hb as [_ Hb]. apply raise_if_Ok in Hb. bool_prop.
  rewrite utxo_copy_id.
  do 4 (apply sm_raises_bind; [auto with bcc|intros ? ? ? _]). by eapply commit_outputs_raises.
Qed.

Lemma apply_genesis_coinbase_raises t h :
  txid t = Ok h → sm_raises (exn_is ConsensusError) (apply_genesis_coinbase t).
Proof.
  intros Hh. unfold apply_genesis_coinbase.
  do 3 (apply sm_raises_bind; [auto with bcc|intros ? ? ? _]).
  apply sm_raises_bind; [auto with bcc|intros ? ? ? Hb].
  apply sm_lift_Ok in Hb as [_ Hb]. apply raise_if_Ok in Hb. bool_prop.
  rewrite utxo_copy_id.
  do 2 (apply sm_raises_bind; [auto with bcc|intros ? ? ? _]). by eapply commit_outputs_raises.
Qed.

Section exceptions.
Context `{ED : Ed25519}.

Lemma validate_input_signature_raises t k i prev :
  match in_public_key i with
  | Some d => is_ok (utf8_encode (dict_get_default d "key")) = true
  | None => True
  end →
  raises_only (exn_is ConsensusError) (validate_input_signature t k i prev).
Proof.
  intros Hk. unfold validate_input_signature. apply raises_only_bind; [auto with bcc|]. intros ? Hw.
  apply raises_only_bind.
  { assert (Hd : ∀ e, pk_from_dict (default ∅ (in_public_key i)) = Err e → exn_cls e = KeyError).
    { unfold pk_from_dict, dict_get. intros e. by repeat (case_match; simpl); intros [= <-]. }
    unfold try_catch. destruct (pk_from_dict _) as [pk|e] eqn:E; [auto with bcc|].
    unfold exn_is. rewrite (Hd e eq_refl). simpl. auto with bcc. }
  intros pk Hpk. apply raise_if_Ok in Hw. bool_prop.
  destruct (in_public_key i) as [d|]; [|done]. simpl in Hpk.
  assert (Hkey : pk_key pk = dict_get_default d "key").
  { unfold pk_from_dict, dict_get, dict_get_default in *.
    destruct (d !! py "algorithm"), (d !! py "key"); simpl in *; simplify_eq; done. }
  apply raises_only_bind.
  { unfold address, sha256_hex_str. rewrite Hkey. destruct (utf8_encode _); [|done]. simpl. auto with bcc. }
  intros ? _. apply raises_only_bind; [auto with bcc|]. intros _ _.
  destruct (verify_signature_total pk (signing_message t k) (default [] (in_signature i))) as [v ->].
  simpl. auto with bcc.
Qed.

Lemma validate_transaction_raises s t :
  keys_encodable t → raises_only (exn_is ConsensusError) (validate_transaction s t).
Proof.
  intros Hk. unfold validate_transaction. do 2 (apply raises_only_bind; [auto with bcc|intros _ _]).
  destruct (is_coinbase t) eqn:Ec; [unfold validate_coinbase; auto 7 with bcc|].
  apply raises_only_bind; [auto with bcc|]. intros _ _. apply raises_only_bind; [|auto with bcc].
  unfold raises_only. apply raises_only_foldR. intros acc [k i] Hin.
  change (raises_only (exn_is ConsensusError) (validate_input s t acc (k, i))). unfold validate_input.
  do 2 (apply raises_only_bind; [auto with bcc|intros ? _]).
  apply raises_only_bind; [|auto with bcc]. apply validate_input_signature_raises.
  apply elem_of_enumerate in Hin as (j & Hj & _). by apply (Forall_lookup_1 _ _ _ _ Hk Hj).
Qed.

Lemma apply_transaction_raises t b :
  tx_to_bytes true t = Ok b → sm_raises (exn_is ConsensusError) (apply_transaction t).
Proof.
  intros Hb. assert (Hh : txid t = Ok (sha256_hex b)) by (unfold txid; by rewrite Hb).
  unfold apply_transaction.
  apply sm_raises_bind; [auto with bcc|]. intros _ _ s _.
  apply sm_raises_bind; [eauto using validate_transaction_raises, encoded_keys with bcc|]. intros _ _ fee _.
  apply sm_raises_bind; [rewrite utxo_copy_id; auto with bcc|]. intros _ _ m _.
  apply sm_raises_bind.
  { apply sm_raises_lift. case_match; [auto with bcc|]. unfold spend_all, raises_only.
    apply raises_only_foldR. intros m' o _. change (raises_only (exn_is ConsensusError) (snd <$> utxo_spend m' o)).
    auto with bcc. }
  intros _ _ m' _. apply sm_raises_bind; [by eapply commit_outputs_raises|]. auto with bcc.
Qed.
End exceptions.

(** ** Properties *)

(** A sample ledger: one output of 100 owned by a wallet, and a signed
    transaction that spends it with a fee of 10. *)
Definition sample_outpoint : OutPoint := Eval vm_compute in mkOutPoint (sha256_hex (b_lit "funding")) 0.

Definition sample_state : ConsensusState :=
  mkState {[ sample_outpoint := mkTxOutput 100 (toy_address "alice") ]} 50 MAX_MONEY.

Definition sample_spend : ConsensusTransaction := Eval vm_compute in
  let t := mkTx [mkTxInput sample_outpoint None None]
             [mkTxOutput 60 (toy_address "bob"); mkTxOutput 30 (toy_address "alice")] 1 in
  ok_or t (@sign_input toy_ed25519 t 0 (toy_wallet "alice")).

Definition sample_next : ConsensusState :=
  (@apply_transaction toy_ed25519 sample_spend sample_state).1.

Lemma sample_spend_applies : @apply_transaction toy_ed25519 sample_spend sample_state = (sample_next, Ok 10).
Proof. unfold sample_next. refine (run_Ok (@apply_transaction toy_ed25519 sample_spend) sample_state 10 _). vm_compute. reflexivity. Qed.

(** [validate_transaction] accepts exactly the transactions the rules allow
    and returns their fee: version 1; at least one output, each positive,
    within the supply bound and to a well-formed address; and either an unsigned
    single-input coinbase within the subsidy, or distinct existing inputs, each
    authorized by the owner's key, whose value covers the outputs. *)
Theorem validate_transaction_refines `{Ed25519} s t fee :
  validate_transaction s t = Ok fee ↔ tx_valid s t fee.
Proof. apply validate_transaction_Ok. Qed.

(** C2: [apply_transaction] succeeds exactly when the transaction is valid, the
    outpoints it creates are new and the resulting supply is within the bound;
    the new set is then the old one without the spent outpoints and with one
    entry per output at [(txid, index)]; when it raises, the state is the one it
    started from. *)
Theorem apply_transaction_refines `{Ed25519} s t :
  (∀ s' fee, apply_transaction t s = (s', Ok fee) ↔ tx_valid s t fee ∧ tx_commits s t s') ∧
  (∀ s' e, apply_transaction t s = (s', Err e) → s' = s).
Proof. split; [intros s' fee; apply apply_transaction_Ok|intros s' e; apply apply_transaction_err]. Qed.

(** Money is conserved by a spend: the supply after it plus the fee is the
    supply before, and the fee is not negative. *)
Theorem apply_transaction_conserves `{Ed25519} s s' t fee :
  is_coinbase t = false → apply_transaction t s = (s', Ok fee) →
  utxo_total (utxos s') + fee = utxo_total (utxos s) ∧ 0 ≤ fee.
Proof.
  intros Hc E. pose proof (apply_transaction_total _ _ _ _ E) as Ht. rewrite Hc in Ht. split; [lia|].
  apply apply_transaction_Ok in E as [[_ Hv] _]. rewrite Hc in Hv. by destruct Hv as (_ & _ & ? & _ & _ & _ & ?).
Qed.

Lemma apply_transaction_conserves_witness :
  utxo_total (utxos sample_next) + 10 = utxo_total (utxos sample_state) ∧ 0 ≤ 10.
Proof.
  apply (@apply_transaction_conserves toy_ed25519 sample_state sample_next sample_spend 10).
  - vm_compute. reflexivity.
  - apply sample_spend_applies.
Defined.

(** C30: The ledger invariant is inductive: every operation of the state that
    returns takes a well-formed ledger (all outputs positive and paid to
    well-formed addresses, supply within the bound) to a well-formed one. *)
Theorem state_wf_preserved `{Ed25519} s s' t fees :
  state_wf s →
  (∃ fee, apply_transaction t s = (s', Ok fee)) ∨ apply_block_coinbase t fees s = (s', Ok tt) ∨
    apply_genesis_coinbase t s = (s', Ok tt) →
  state_wf s'.
Proof.
  intros Hwf [(fee & [Hv Hc]%apply_transaction_Ok)|[(Hv & _ & _ & _ & Hc)%apply_block_coinbase_Ok
    |(Hv & _ & Hc)%apply_genesis_coinbase_Ok]]; [destruct Hv as [Hv _]|..]; by eapply state_wf_commits.
Qed.

Lemma state_wf_preserved_witness : state_wf sample_next.
Proof.
  apply (@state_wf_preserved toy_ed25519 sample_state sample_next sample_spend 0).
  - apply (bool_decide_unpack (state_wf sample_state)). vm_compute. exact I.
  - left. exists 10. apply sample_spend_applies.
Defined.

(** C10: Funds move only with their owner's authorization, and nothing else is
    touched: an entry that a transaction removes or changes was named by one of
    its inputs, whose key hashes to the entry's address and signed the
    transaction. *)
Theorem only_owner_spends `{Ed25519} s s' t fee o x :
  apply_transaction t s = (s', Ok fee) → utxos s !! o = Some x → utxos s' !! o ≠ Some x →
  ∃ k i, inputs t !! k = Some i ∧ previous_output i = o ∧ authorizes t (Z.of_nat k) i x.
Proof.
  intros E Hx Hx'. apply apply_transaction_Ok in E as [[_ Hv] (h & Hh & Hf & _ & ->)].
  assert (Hs : o ∈ spent_outpoints t).
  { destruct (decide (o ∈ spent_outpoints t)) as [|Hn]; [done|]. exfalso. apply Hx'. simpl. unfold tx_effect.
    rewrite lookup_union_r.
    - by apply map_lookup_filter_Some.
    - apply not_elem_of_list_to_map. intros Hin. specialize (Hf o Hin Hn). congruence. }
  unfold spent_outpoints in Hs. destruct (is_coinbase t); [by apply not_elem_of_nil in Hs|].
  destruct Hv as (_ & _ & prevs & Hp & Ha & _). apply list_elem_of_lookup in Hs as [k Hk].
  rewrite list_lookup_fmap in Hk. apply fmap_Some in Hk as (i & Hi & ->). exists k, i. split_and!; [done..|].
  apply mapR_Ok in Hp. destruct (Forall2_lookup_l _ _ _ k (previous_output i) Hp) as (y & Hy & Hg).
  { by rewrite list_lookup_fmap, Hi. }
  apply utxo_get_Ok in Hg. simplify_eq. by apply Ha.
Qed.

Lemma only_owner_spends_witness :
  ∃ k i, inputs sample_spend !! k = Some i ∧ previous_output i = sample_outpoint ∧
    @authorizes toy_ed25519 sample_spend (Z.of_nat k) i (mkTxOutput 100 (toy_address "alice")).
Proof.
  apply (@only_owner_spends toy_ed25519 sample_state sample_next sample_spend 10 sample_outpoint
    (mkTxOutput 100 (toy_address "alice"))).
  - apply sample_spend_applies.
  - vm_compute. reflexivity.
  - intros E. vm_compute in E. discriminate E.
Defined.

(** C9: No double spend.  Take any run of accepted operations, in the order in
    which they are applied.  Once one of its transactions has spent an outpoint,
    the outpoint is gone at the end of the run, and no transaction that names it
    is valid there, unless a transaction of the run, that one or a later one,
    creates the outpoint again. *)
Theorem no_double_spend `{Ed25519} s ts s' i t o :
  ledger_run s ts s' → ts !! i = Some t → o ∈ spent_outpoints t →
  (∀ k t', (i ≤ k)%nat → ts !! k = Some t' → ¬ creates t' o) →
  utxos s' !! o = None ∧ ∀ t2 fee2, o ∈ spent_outpoints t2 → validate_transaction s' t2 ≠ Ok fee2.
Proof.
  intros Hrun Hi Ho Hnew. destruct (ledger_run_split _ _ _ _ _ Hrun Hi) as (s0 & s1 & Hs & Hrun2).
  assert (Hl : utxos s' !! o = None).
  { refine (stays_spent _ _ _ o Hrun2 _ _).
    - apply (step_spends _ _ _ o Hs Ho). by apply (Hnew i).
    - intros t' [k Hk]%list_elem_of_lookup. apply (Hnew (i + S k)%nat); [lia|]. rewrite lookup_drop in Hk.
      by replace (i + S k)%nat with (S i + k)%nat by lia. }
  split; [done|]. intros t2 fee2 Ho2. by apply missing_refused with o.
Qed.

(** Alice's output is spent, then a block reward is applied. *)
Definition sample_reward : ConsensusTransaction :=
  mkTx [mkTxInput (mkOutPoint COINBASE_PREV_TXID (-1)) None None] [mkTxOutput 50 (toy_address "alice")] 1.
Definition sample_rewarded : ConsensusState := (apply_block_coinbase sample_reward 10 sample_next).1.

Lemma sample_reward_applies : apply_block_coinbase sample_reward 10 sample_next = (sample_rewarded, Ok tt).
Proof. unfold sample_rewarded. refine (run_Ok (apply_block_coinbase sample_reward 10) sample_next tt _). vm_compute. reflexivity. Qed.

Lemma no_double_spend_witness :
  utxos sample_rewarded !! sample_outpoint = None ∧
  ∀ t2 fee2, sample_outpoint ∈ spent_outpoints t2 → @validate_transaction toy_ed25519 sample_rewarded t2 ≠ Ok fee2.
Proof.
  apply (@no_double_spend toy_ed25519 sample_state [sample_spend; sample_reward] sample_rewarded 0 sample_spend sample_outpoint).
  - econstructor; [by eapply step_transaction, sample_spend_applies|].
    econstructor; [by eapply step_reward, sample_reward_applies|constructor].
  - reflexivity.
  - apply (bool_decide_unpack (sample_outpoint ∈ spent_outpoints sample_spend)). vm_compute. exact I.
  - intros k t' _ Hk. apply not_creates. destruct k as [|[|k]]; cbn in Hk; [injection Hk as <-|injection Hk as <-|done]; vm_compute; reflexivity.
Defined.

(** The condition on creation is needed: the same reward can be applied again
    after its output was spent, and then the same transaction spends it again. *)
Definition respend : ConsensusTransaction := Eval vm_compute in
  let t := mkTx [mkTxInput (mkOutPoint (ok_or [] (txid sample_reward)) 0) None None] [mkTxOutput 50 (toy_address "bob")] 1 in
  ok_or t (@sign_input toy_ed25519 t 0 (toy_wallet "alice")).

Definition respend_start : ConsensusState := mkState ∅ 50 MAX_MONEY.

Example reward_spent_twice :
  ((apply_block_coinbase sample_reward 0;; @apply_transaction toy_ed25519 respend;;
    apply_block_coinbase sample_reward 0) respend_start).2 = Ok tt ∧
  @validate_transaction toy_ed25519
    ((apply_block_coinbase sample_reward 0;; @apply_transaction toy_ed25519 respend;; apply_block_coinbase sample_reward 0) respend_start).1 respend = Ok 0.
Proof. vm_compute. split; reflexivity. Qed.

(** A transaction that can be encoded, such as every decoded one, makes
    [apply_transaction] return a fee or raise [ConsensusError] and leave the
    state alone; no other exception escapes, whatever keys and signatures it
    carries. *)
Theorem apply_transaction_errors `{Ed25519} s t b :
  tx_to_bytes true t = Ok b →
  (∃ s' fee, apply_transaction t s = (s', Ok fee)) ∨
  (∃ msg, apply_transaction t s = (s, Err (Exn ConsensusError msg))).
Proof.
  intros Hb. pose proof (apply_transaction_raises t b Hb s) as Hr.
  destruct (apply_transaction t s) as [s' [fee|[c msg]]] eqn:E; [by eauto|]. right. exists msg.
  apply apply_transaction_err in E as ->. specialize (Hr _ eq_refl). unfold exn_is in Hr. bool_prop. by simpl in Hr; subst.
Qed.

Lemma apply_transaction_errors_witness :
  (∃ s' fee, @apply_transaction toy_ed25519 sample_tx sample_state = (s', Ok fee)) ∨
  (∃ msg, @apply_transaction toy_ed25519 sample_tx sample_state = (sample_state, Err (Exn ConsensusError msg))).
Proof. apply (@apply_transaction_errors toy_ed25519 sample_state sample_tx sample_tx_bytes). vm_compute. reflexivity. Defined.
