(* ===== verification/BlockProcessor.v ===== *)
(** * Validating and applying blocks (consensus.py)

    [BlockProcessor.validate_block], [BlockProcessor.apply_block] and
    [rebuild_state_from_blocks].  A processor is its [ConsensusState], so its
    methods are computations over that state.  [block_step] is the declarative
    rule for one block and [chain_steps] the rule for a chain; the code is
    proved equivalent to them. *)

From S2P Require Import Prelude PyBytes PyText Sha256 Crypto ByteReader Transaction Block Utxo State.
Local Open Scope Z_scope.

Definition SUPPORTED_BLOCK_VERSIONS : list Z := [1].
Definition ZERO_HASH : str := replicate 64 48.

(** ["0" * difficulty] *)
Definition zeros (difficulty : Z) : str := replicate (Z.to_nat difficulty) 48.

(** [block.height == 0 and block.previous_hash == "0" * 64] *)
Definition is_genesis (b : ConsensusBlock) : bool :=
  (height b =? 0) && bool_decide (previous_hash b = ZERO_HASH).

(** The checks of [validate_block] that do not read the state. *)
Definition check_block (b : ConsensusBlock) (expected_height : Z) (expected_previous_hash : str) : result unit :=
  raise_if (bool_decide (block_version b ∉ SUPPORTED_BLOCK_VERSIONS)) ConsensusError "block version is unsupported";;
  raise_if (negb (height b =? expected_height)) ConsensusError "block height is invalid";;
  raise_if (bool_decide (previous_hash b ≠ expected_previous_hash)) ConsensusError "block previous hash is invalid";;
  raise_if (difficulty b <? 0) ConsensusError "block difficulty cannot be negative";;
  h ← block_hash b;
  raise_if (negb (startswith h (zeros (difficulty b)))) ConsensusError "block proof of work is invalid";;
  r ← calculate_transaction_root (transactions b);
  raise_if (bool_decide (transaction_root b ≠ r)) ConsensusError "block transaction root is invalid";;
  match transactions b with
  | [] => raise ConsensusError "block has no transactions"
  | cb :: ts =>
      raise_if (negb (is_coinbase cb)) ConsensusError "first transaction must be coinbase";;
      raise_if (existsb is_coinbase ts) ConsensusError "block has multiple coinbase transactions"
  end.

(** [block.transactions[0]] and [block.transactions[1:]] *)
Definition block_coinbase (b : ConsensusBlock) : result ConsensusTransaction :=
  match transactions b with [] => raise KeyError "tuple index out of range" | cb :: _ => Ok cb end.
Definition block_rest (b : ConsensusBlock) : list ConsensusTransaction := tail (transactions b).

Section processor.
Context `{Ed25519}.

(** [for transaction in ...: fees += state.apply_transaction(transaction)] *)
Fixpoint apply_transactions (fees : Z) (ts : list ConsensusTransaction) : SM ConsensusState Z :=
  match ts with
  | [] => mret fees
  | t :: ts' => fee ← apply_transaction t; apply_transactions (fees + fee) ts'
  end.

(** The coinbase, last. *)
Definition apply_reward (b : ConsensusBlock) (fees : Z) : SM ConsensusState unit :=
  cb ← sm_lift (block_coinbase b);
  if is_genesis b then apply_genesis_coinbase cb else apply_block_coinbase cb fees.

(** [BlockProcessor.validate_block], on a candidate that copies the state. *)
Definition validate_block (s : ConsensusState) (b : ConsensusBlock)
    (expected_height : Z) (expected_previous_hash : str) : result Z :=
  check_block b expected_height expected_previous_hash;;
  copied ← utxo_copy (utxos s);
  candidate ← state_init (Some copied) (block_subsidy s) (max_money s);
  ((fees ← apply_transactions 0 (block_rest b);
    apply_reward b fees;;
    mret fees) candidate).2.

(** [BlockProcessor.apply_block] *)
Definition apply_block (b : ConsensusBlock) (expected_height : Z) (expected_previous_hash : str) :
    SM ConsensusState Z :=
  s ← sm_get;
  fees ← sm_lift (validate_block s b expected_height expected_previous_hash);
  apply_transactions 0 (block_rest b);;
  apply_reward b fees;;
  mret fees.

(** The loop of [rebuild_state_from_blocks]. *)
Fixpoint apply_blocks (expected_height : Z) (expected_previous_hash : str) (bs : list ConsensusBlock) :
    SM ConsensusState unit :=
  match bs with
  | [] => mret tt
  | b :: bs' =>
      apply_block b expected_height expected_previous_hash;;
      h ← sm_lift (block_hash b);
      apply_blocks (expected_height + 1) h bs'
  end.

(** [rebuild_state_from_blocks] *)
Definition rebuild_state_from_blocks (bs : list ConsensusBlock) (subsidy max : Z) : result ConsensusState :=
  s ← state_init None subsidy max;
  let r := apply_blocks 0 ZERO_HASH bs s in
  r.2;; Ok r.1.
End processor.

(** ** The rules, stated declaratively *)

(** The header is for this place in the chain, carries its proof of work and
    commits to the body. *)
Definition header_ok (b : ConsensusBlock) (h : Z) (prev : str) : Prop :=
  block_version b = 1 ∧ height b = h ∧ previous_hash b = prev ∧ 0 ≤ difficulty b ∧
  (∃ hash, block_hash b = Ok hash ∧ zeros (difficulty b) `prefix_of` hash) ∧
  calculate_transaction_root (transactions b) = Ok (transaction_root b).

(** Transactions applied one after the other. *)
Inductive tx_steps `{Ed25519} : ConsensusState → list ConsensusTransaction → Z → ConsensusState → Prop :=
  | tx_steps_nil s : tx_steps s [] 0 s
  | tx_steps_cons s t fee s1 ts fees s2 :
      tx_valid s t fee → tx_commits s t s1 → tx_steps s1 ts fees s2 → tx_steps s (t :: ts) (fee + fees) s2.

(** One block: a coinbase, and spends that collect [fees]; the coinbase pays at
    most the subsidy and the fees, except in the genesis block. *)
Definition block_step `{Ed25519} (s : ConsensusState) (b : ConsensusBlock) (h : Z) (prev : str)
    (fees : Z) (s' : ConsensusState) : Prop :=
  header_ok b h prev ∧
  ∃ cb ts s1, transactions b = cb :: ts ∧ Forall (λ t, is_coinbase t = false) ts ∧
    tx_steps s ts fees s1 ∧
    tx_shape (max_money s) cb ∧ coinbase_shape cb ∧
    (is_genesis b = false → 0 ≤ fees ∧ output_total cb ≤ block_subsidy s + fees) ∧
    tx_commits s1 cb s'.

(** A chain of blocks from height [h] on top of the block [prev]. *)
Inductive chain_steps `{Ed25519} : ConsensusState → Z → str → list ConsensusBlock → ConsensusState → Prop :=
  | chain_steps_nil s h prev : chain_steps s h prev [] s
  | chain_steps_cons s h prev b fees s1 hash bs s2 :
      block_step s b h prev fees s1 → block_hash b = Ok hash → chain_steps s1 (h + 1) hash bs s2 →
      chain_steps s h prev (b :: bs) s2.

(** ** Lemmas *)

Lemma supported_block_version v : v ∉ SUPPORTED_BLOCK_VERSIONS ↔ v ≠ 1.
Proof. unfold SUPPORTED_BLOCK_VERSIONS. by rewrite list_elem_of_singleton. Qed.

Lemma check_block_Ok b h prev u :
  check_block b h prev = Ok u ↔
  header_ok b h prev ∧ ∃ cb ts, transactions b = cb :: ts ∧ is_coinbase cb = true ∧
    Forall (λ t, is_coinbase t = false) ts.
Proof.
  assert (Hex : ∀ ts, existsb is_coinbase ts = false ↔ Forall (λ t, is_coinbase t = false) ts).
  { induction ts as [|t ts IH]; simpl; [naive_solver|]. rewrite orb_false_iff, Forall_cons. naive_solver. }
  unfold check_block, header_ok. split.
  - intros E. inv_ok E. bool_prop. apply startswith_spec in Hc3.
    assert (block_version b = 1) by (apply dec_stable; by rewrite supported_block_version in Hc).
    destruct (transactions b) as [|cb ts] eqn:Et; [done|]. inv_ok E. bool_prop. apply Hex in E.
    assert (transaction_root b = x0) as <- by (by apply dec_stable).
    assert (previous_hash b = prev) by (by apply dec_stable).
    split_and!; eauto 10.
  - intros ((Hv & Hh & Hp & Hd & (hash & Hhash & Hw) & Hr) & cb & ts & Et & Hcb & Hts).
    rewrite Hr, Hhash. rewrite (bool_decide_false (block_version b ∉ SUPPORTED_BLOCK_VERSIONS))
      by (intros Hn; apply supported_block_version in Hn; lia).
    rewrite Hh, Z.eqb_refl. rewrite (bool_decide_false (previous_hash b ≠ prev)) by (by intros []).
    rewrite (proj2 (Z.ltb_ge (difficulty b) 0) Hd). apply startswith_spec in Hw. csimpl.
    rewrite Hw. csimpl. rewrite bool_decide_false by (by intros []). csimpl.
    rewrite Et, Hcb. csimpl. apply Hex in Hts. rewrite Hts. by destruct u.
Qed.

Section processor_lemmas.
Context `{ED : Ed25519}.

Lemma apply_transactions_Ok fees ts s s' r :
  apply_transactions fees ts s = (s', Ok r) ↔ ∃ f, r = fees + f ∧ tx_steps s ts f s'.
Proof.
  revert fees s r. induction ts as [|t ts IH]; intros fees s r; cbn [apply_transactions].
  - split.
    + intros [= <- <-]. exists 0. split; [lia|constructor].
    + intros (f & -> & Hs). inversion Hs; subst. by rewrite Z.add_0_r.
  - rewrite SM_bind_Ok. setoid_rewrite IH. setoid_rewrite apply_transaction_Ok. split.
    + intros (fee & s1 & [Hv Hc] & f & -> & Hs). exists (fee + f). split; [lia|]. by econstructor.
    + intros (f & -> & Hs). inversion Hs; subst. eexists _, _. split; [done|]. eexists. split; [|done]. lia.
Qed.

Lemma tx_steps_params s ts f s' : tx_steps s ts f s' → block_subsidy s' = block_subsidy s ∧ max_money s' = max_money s.
Proof. induction 1 as [|s t fee s1 ts fees s2 _ [-> ->]%commits_params _ IH]; [done|]. done. Qed.

Lemma apply_reward_Ok b fees s s' u :
  apply_reward b fees s = (s', Ok u) ↔
  ∃ cb ts, transactions b = cb :: ts ∧ tx_shape (max_money s) cb ∧ coinbase_shape cb ∧
    (is_genesis b = false → 0 ≤ fees ∧ output_total cb ≤ block_subsidy s + fees) ∧ tx_commits s cb s'.
Proof.
  unfold apply_reward, block_coinbase. rewrite SM_bind_Ok. setoid_rewrite sm_lift_Ok.
  destruct (transactions b) as [|cb ts]; [unfold raise; naive_solver|]. destruct (is_genesis b).
  - setoid_rewrite apply_genesis_coinbase_Ok. naive_solver.
  - setoid_rewrite apply_block_coinbase_Ok. naive_solver.
Qed.

Lemma state_init_copy s r : state_init (Some (utxos s)) (block_subsidy s) (max_money s) = Ok r ↔
  0 ≤ block_subsidy s ∧ 0 < max_money s ∧ r = s.
Proof.
  unfold state_init. rewrite !raise_if_bind, Z.ltb_ge, Z.leb_gt. destruct s. simpl. naive_solver.
Qed.

(** The candidate runs the same computation the state runs afterwards. *)
Definition run_block (b : ConsensusBlock) : SM ConsensusState Z :=
  fees ← apply_transactions 0 (block_rest b); apply_reward b fees;; mret fees.

Lemma run_block_Ok b s s' fees : header_ok b (height b) (previous_hash b) →
  (∃ cb ts, transactions b = cb :: ts ∧ Forall (λ t, is_coinbase t = false) ts) →
  run_block b s = (s', Ok fees) ↔ block_step s b (height b) (previous_hash b) fees s'.
Proof.
  intros Hh (cb & ts & Et & Hts). unfold run_block, block_step, block_rest. rewrite Et. cbn [tail]. split.
  - intros E. inv_sm E. apply apply_transactions_Ok in Hx as (f & -> & Hs). rewrite Z.add_0_l in *.
    apply apply_reward_Ok in Hx0 as (cb' & ts' & Et' & ? & ? & ? & ?). rewrite Et in Et'. simplify_eq.
    destruct (tx_steps_params _ _ _ _ Hs) as [<- <-]. split; [done|]. eexists _, _, _. by split_and!.
  - intros (_ & cb' & ts' & s1 & Et' & _ & Hs & Hshape & Hc & Hg & Hcm). simplify_eq.
    apply SM_bind_Ok. exists fees, s1. split; [apply apply_transactions_Ok; by exists fees|].
    apply SM_bind_Ok. exists tt, s'. split; [|done]. destruct (tx_steps_params _ _ _ _ Hs) as [E1 E2].
    apply apply_reward_Ok. rewrite E1, E2. by eexists _, _.
Qed.

Lemma validate_block_unfold s b h prev :
  validate_block s b h prev =
    (check_block b h prev;;
     raise_if (block_subsidy s <? 0) ConsensusError "block subsidy cannot be negative";;
     raise_if (max_money s <=? 0) ConsensusError "max money must be positive";;
     (run_block b s).2).
Proof.
  unfold validate_block, state_init. rewrite utxo_copy_id. destruct (check_block b h prev); [|done].
  csimpl. destruct (block_subsidy s <? 0); [done|]. csimpl. destruct (max_money s <=? 0); [done|].
  csimpl. by destruct s.
Qed.

Lemma validate_block_run s b h prev fees :
  validate_block s b h prev = Ok fees ↔
  check_block b h prev = Ok tt ∧ 0 ≤ block_subsidy s ∧ 0 < max_money s ∧ (run_block b s).2 = Ok fees.
Proof. by rewrite validate_block_unfold, bind_unit_Ok, !raise_if_bind, Z.ltb_ge, Z.leb_gt. Qed.

(** What [apply_block] runs after the validation is [run_block] again. *)
Lemma apply_block_unfold s b h prev :
  apply_block b h prev s =
    match validate_block s b h prev with
    | Ok _ => run_block b s
    | Err e => (s, Err e)
    end.
Proof.
  unfold apply_block, sm_get, sm_lift, mbind at 1 2, SM_bind at 1 2.
  destruct (validate_block s b h prev) as [fees|e] eqn:Hv; [|done].
  apply validate_block_run in Hv as (_ & _ & _ & Hr). apply run_Ok in Hr.
  unfold run_block in *. unfold mbind, SM_bind, mret, SM_ret in *.
  destruct (apply_transactions 0 (block_rest b) s) as [s1 [f|e]]; [|done].
  destruct (apply_reward b f s1) as [s2 [u|e]] eqn:E; [|done]. simpl in Hr. simplify_eq. by rewrite E.
Qed.

Lemma apply_block_Ok s s' b h prev fees :
  apply_block b h prev s = (s', Ok fees) ↔
  0 ≤ block_subsidy s ∧ 0 < max_money s ∧ block_step s b h prev fees s'.
Proof.
  rewrite apply_block_unfold. split.
  - destruct (validate_block s b h prev) as [f|e] eqn:Hv; [|done]. intros Hr.
    apply validate_block_run in Hv as ([Hh (cb & ts & Et & _ & Hts)]%check_block_Ok & Hs & Hm & _).
    split_and!; [done..|]. assert (height b = h ∧ previous_hash b = prev) as [<- <-] by (by destruct Hh as (_ & ? & ? & _)).
    apply run_block_Ok; eauto.
  - intros (Hs & Hm & Hb). assert (Hr : run_block b s = (s', Ok fees)).
    { pose proof Hb as [Hh (cb & ts & _ & Et & Hts & _)].
      assert (height b = h ∧ previous_hash b = prev) as [<- <-] by (by destruct Hh as (_ & ? & ? & _)).
      apply run_block_Ok; eauto. }
    assert (validate_block s b h prev = Ok fees) as ->; [|done]. apply validate_block_run.
    destruct Hb as [Hh (cb & ts & s1 & Et & Hts & _ & _ & Hc & _)]. split_and!; [|done..|by rewrite Hr].
    apply check_block_Ok. split; [done|]. exists cb, ts. split_and!; [done|by apply coinbase_shape_is_coinbase|done].
Qed.

Lemma apply_block_validate s b h prev : (apply_block b h prev s).2 = validate_block s b h prev.
Proof.
  rewrite apply_block_unfold. destruct (validate_block s b h prev) as [fees|e] eqn:E; [|done].
  by apply validate_block_run in E as (_ & _ & _ & ?).
Qed.

Lemma apply_block_err s s' b h prev e : apply_block b h prev s = (s', Err e) → s' = s.
Proof.
  intros E. pose proof (apply_block_validate s b h prev) as Hv. rewrite E in Hv. simpl in Hv.
  rewrite apply_block_unfold, <- Hv in E. by simplify_eq.
Qed.

(** ** Lemmas: what a block does to the ledger *)

Lemma tx_steps_wf s ts f s' : state_wf s → tx_steps s ts f s' → state_wf s'.
Proof. intros Hw. induction 1 as [|s t fee s1 ts fees s2 [Hv _] Hc _ IH]; eauto using state_wf_commits. Qed.

Lemma tx_steps_total s ts f s' : Forall (λ t, is_coinbase t = false) ts → tx_steps s ts f s' →
  utxo_total (utxos s') + f = utxo_total (utxos s).
Proof.
  intros Hts. induction 1 as [|s t fee s1 ts fees s2 Hv Hc _ IH]; [lia|].
  apply Forall_cons in Hts as [Ht Hts]. specialize (IH Hts).
  pose proof (apply_transaction_total s s1 t fee) as Htot. rewrite Ht in Htot.
  rewrite apply_transaction_Ok in Htot. specialize (Htot (conj Hv Hc)). lia.
Qed.

Lemma tx_steps_fees s ts f s' : Forall (λ t, is_coinbase t = false) ts → tx_steps s ts f s' → 0 ≤ f.
Proof.
  intros Hts. induction 1 as [|s t fee s1 ts fees s2 [_ Hv] Hc _ IH]; [lia|].
  apply Forall_cons in Hts as [Ht Hts]. specialize (IH Hts). rewrite Ht in Hv.
  destruct Hv as (_ & _ & ? & _ & _ & _ & ?). lia.
Qed.

Lemma block_step_wf s b h prev fees s' : state_wf s → block_step s b h prev fees s' → state_wf s'.
Proof.
  intros Hw (_ & cb & ts & s1 & _ & _ & Hs & Hshape & _ & _ & Hc).
  destruct (tx_steps_params _ _ _ _ Hs) as [_ E]. rewrite <- E in Hshape. eauto using state_wf_commits, tx_steps_wf.
Qed.

Lemma block_step_params s b h prev fees s' : block_step s b h prev fees s' →
  block_subsidy s' = block_subsidy s ∧ max_money s' = max_money s.
Proof.
  intros (_ & cb & ts & s1 & _ & _ & Hs & _ & _ & _ & Hc).
  destruct (tx_steps_params _ _ _ _ Hs) as [<- <-]. by apply commits_params in Hc as [-> ->].
Qed.

Lemma block_step_total s b h prev fees s' cb ts : transactions b = cb :: ts →
  block_step s b h prev fees s' →
  utxo_total (utxos s') = utxo_total (utxos s) + output_total cb - fees.
Proof.
  intros Et (_ & cb' & ts' & s1 & Et' & Hts & Hs & (_ & Ho & _) & Hc & _ & Hcm). rewrite Et in Et'. simplify_eq.
  rewrite (commits_coinbase_total _ _ _ (coinbase_shape_is_coinbase _ Hc) Ho Hcm).
  pose proof (tx_steps_total _ _ _ _ Hts Hs). lia.
Qed.
End processor_lemmas.

(** ** Lemmas: chains *)

(** The hash the next block has to name. *)
Definition chain_tip (prev : str) (bs : list ConsensusBlock) : result str :=
  match last bs with None => Ok prev | Some b => block_hash b end.

Lemma chain_tip_cons prev b hash bs : block_hash b = Ok hash → chain_tip prev (b :: bs) = chain_tip hash bs.
Proof.
  intros Hh. unfold chain_tip. destruct bs as [|b2 bs]; [done|]. rewrite last_cons_cons.
  destruct (last (b2 :: bs)) eqn:E; [done|]. by apply last_None in E.
Qed.

Section chain_lemmas.
Context `{ED : Ed25519}.

Lemma apply_blocks_app h prev bs1 bs2 s :
  apply_blocks h prev (bs1 ++ bs2) s =
    (apply_blocks h prev bs1;;
     p ← sm_lift (chain_tip prev bs1);
     apply_blocks (h + zlen bs1) p bs2) s.
Proof.
  revert h prev s. induction bs1 as [|b bs1 IH]; intros h prev s.
  - unfold zlen. cbn [length app]. by rewrite Z.add_0_r.
  - cbn [app apply_blocks]. unfold mbind, SM_bind, sm_lift in *.
    destruct (apply_block b h prev s) as [s1 [f|e]]; [|done].
    destruct (block_hash b) as [hash|e] eqn:Hh; [|done]. rewrite IH, zlen_cons, Z.add_assoc.
    destruct (apply_blocks (h + 1) hash bs1 s1) as [s2 [u|e]]; [|done].
    by rewrite (chain_tip_cons _ _ _ _ Hh).
Qed.

Lemma header_ok_hash b h prev : header_ok b h prev → ∃ hash, block_hash b = Ok hash.
Proof. intros (_ & _ & _ & _ & (hash & ? & _) & _). eauto. Qed.

Lemma apply_blocks_snoc h prev bs b s s1 p :
  apply_blocks h prev bs s = (s1, Ok tt) → chain_tip prev bs = Ok p →
  apply_blocks h prev (bs ++ [b]) s =
    match apply_block b (h + zlen bs) p s1 with
    | (s2, Ok _) => (s2, Ok tt)
    | (s2, Err e) => (s2, Err e)
    end.
Proof.
  intros E Hp. rewrite apply_blocks_app. unfold mbind, SM_bind. rewrite E, Hp. unfold sm_lift. cbn [apply_blocks].
  unfold mbind, SM_bind. destruct (apply_block b (h + zlen bs) p s1) as [s2 [fees|e]] eqn:Eb; [|done].
  rewrite apply_block_unfold in Eb. destruct (validate_block s1 b (h + zlen bs) p) as [f|e] eqn:Ev; [|done].
  apply validate_block_run in Ev as ([Hh _]%check_block_Ok & _). by apply header_ok_hash in Hh as [hash ->].
Qed.

Lemma apply_blocks_Ok h prev bs s s' u : 0 ≤ block_subsidy s → 0 < max_money s →
  apply_blocks h prev bs s = (s', Ok u) ↔ chain_steps s h prev bs s'.
Proof.
  destruct u. revert h prev s. induction bs as [|b bs IH]; intros h prev s Hs Hm; cbn [apply_blocks].
  - split; [intros [= <-]; constructor|]. by inversion 1.
  - split.
    + intros E. apply SM_bind_Ok in E as (fees & s1 & (_ & _ & Hb)%apply_block_Ok & E).
      apply SM_bind_Ok in E as (hash & s1' & [-> Hh]%sm_lift_Ok & E).
      destruct (block_step_params _ _ _ _ _ _ Hb) as [E1 E2].
      econstructor; [done..|]. apply IH; by rewrite ?E1, ?E2.
    + intros Hc. inversion Hc as [|? ? ? ? fees s1 hash ? ? Hb Hh Hc']; subst.
      destruct (block_step_params _ _ _ _ _ _ Hb) as [E1 E2].
      apply SM_bind_Ok. exists fees, s1. split; [by apply apply_block_Ok|].
      apply SM_bind_Ok. exists hash, s1. split; [by apply sm_lift_Ok|]. apply IH; by rewrite ?E1, ?E2.
Qed.

Lemma rebuild_Ok bs subsidy max s :
  rebuild_state_from_blocks bs subsidy max = Ok s ↔
  0 ≤ subsidy ∧ 0 < max ∧ chain_steps (mkState ∅ subsidy max) 0 ZERO_HASH bs s.
Proof.
  unfold rebuild_state_from_blocks, state_init. split.
  - intros E. apply bind_Ok in E as (s0 & Hi & E). inv_ok Hi. bool_prop. subst s0.
    split; [done|]. split; [done|]. apply (apply_blocks_Ok _ _ _ (mkState ∅ subsidy max) _ tt); [done..|].
    cbn [default] in E. destruct (apply_blocks _ _ _ _) as [s1 r]. simpl in E.
    apply bind_unit_Ok in E as [-> E]. by inv_ok E; subst.
  - intros (Hs & Hm & Hc). apply (apply_blocks_Ok _ _ _ (mkState ∅ subsidy max) _ tt) in Hc; [|done..].
    rewrite (proj2 (Z.ltb_ge subsidy 0) Hs), (proj2 (Z.leb_gt max 0) Hm). csimpl. by rewrite Hc.
Qed.

Lemma rebuild_snoc bs b subsidy max s prev :
  rebuild_state_from_blocks bs subsidy max = Ok s → chain_tip ZERO_HASH bs = Ok prev →
  rebuild_state_from_blocks (bs ++ [b]) subsidy max =
    run_state (apply_block b (zlen bs) prev s).
Proof.
  unfold rebuild_state_from_blocks. intros E Hp. apply bind_Ok in E as (s0 & -> & E). csimpl.
  destruct (apply_blocks 0 ZERO_HASH bs s0) as [s1 r] eqn:Er. simpl in E. apply bind_unit_Ok in E as [-> E].
  inv_ok E. subst. rewrite (apply_blocks_snoc _ _ _ _ _ _ _ Er Hp), Z.add_0_l.
  by destruct (apply_block b (zlen bs) prev s) as [s2 [fees|e]].
Qed.

Lemma chain_steps_wf s h prev bs s' : state_wf s → chain_steps s h prev bs s' → state_wf s'.
Proof. intros Hw. induction 1; eauto using block_step_wf. Qed.

Lemma empty_state_wf subsidy max : 0 ≤ subsidy → 0 < max → state_wf (mkState ∅ subsidy max).
Proof.
  intros Hs Hm. split_and!; simpl; [done..| |apply map_Forall_empty]. rewrite utxo_total_empty. lia.
Qed.

(** Each block above the genesis mints at most the subsidy. *)
Lemma block_step_growth s b h prev fees s' : 0 < h → block_step s b h prev fees s' →
  utxo_total (utxos s') ≤ utxo_total (utxos s) + block_subsidy s.
Proof.
  intros Hh Hb. pose proof Hb as [Hhd (cb & ts & s1 & Et & _ & _ & _ & _ & Hg & _)].
  rewrite (block_step_total _ _ _ _ _ _ _ _ Et Hb).
  destruct Hg as [_ Hg]; [|lia]. unfold is_genesis. destruct Hhd as (_ & -> & _).
  apply andb_false_iff. left. apply Z.eqb_neq. lia.
Qed.

Lemma chain_steps_growth s h prev bs s' : 0 < h → chain_steps s h prev bs s' →
  utxo_total (utxos s') ≤ utxo_total (utxos s) + block_subsidy s * zlen bs.
Proof.
  intros Hh. induction 1 as [|s h prev b fees s1 hash bs s2 Hb _ _ IH]; [unfold zlen; simpl; lia|].
  pose proof (block_step_growth _ _ _ _ _ _ Hh Hb). destruct (block_step_params _ _ _ _ _ _ Hb) as [E _].
  rewrite E in IH. rewrite zlen_cons. specialize (IH ltac:(lia)). lia.
Qed.

Lemma chain_steps_linked s h prev bs s' k b : chain_steps s h prev bs s' → bs !! k = Some b →
  ∃ p, chain_tip prev (take k bs) = Ok p ∧ header_ok b (h + Z.of_nat k) p.
Proof.
  intros Hc. revert k. induction Hc as [|s h prev b' fees s1 hash bs s2 [Hb _] Hh _ IH]; intros k Hk; [done|].
  destruct k as [|k]; simplify_eq/=.
  - exists prev. split; [done|]. by rewrite Z.add_0_r.
  - destruct (IH k Hk) as (p & Hp & Hok). exists p. rewrite (chain_tip_cons _ _ _ _ Hh).
    split; [done|]. by replace (h + Z.of_nat (S k)) with (h + 1 + Z.of_nat k) by lia.
Qed.
End chain_lemmas.

(** ** Lemmas: proof of work *)

Lemma hex_digit_zero d : 0 ≤ d → hex_digit d = 48 → d = 0.
Proof. unfold hex_digit. destruct (Z.ltb_spec d 10); lia. Qed.

(** A prefix of zero digits bounds the number the digits spell. *)
Lemma zeros_bound b : ∀ d : nat, replicate d 48 `prefix_of` bytes_hex b →
  be_val b * 16 ^ Z.of_nat d < 256 ^ Z.of_nat (length b).
Proof.
  induction b as [|x b IH]; intros d Hd.
  - destruct d; [by cbn|]. by apply prefix_nil_inv in Hd.
  - pose proof (be_val_range b). pose proof (byte_val_range x). pose proof (pow256_pos (length b)).
    rewrite be_val_cons. cbn [length bytes_hex] in *. rewrite Nat2Z.inj_succ, Z.pow_succ_r by lia.
    assert (byte_val x = 16 * (byte_val x / 16) + byte_val x mod 16) by (apply Z.div_mod; lia).
    pose proof (Z.mod_pos_bound (byte_val x) 16). assert (0 ≤ byte_val x / 16) by (apply Z.div_pos; lia).
    destruct d as [|[|d]]; [rewrite Z.mul_1_r; nia|..];
      apply prefix_cons_inv_1 in Hd as E1; apply prefix_cons_inv_2 in Hd;
      symmetry in E1; apply hex_digit_zero in E1; [|done| |done]; [rewrite Z.pow_1_r; nia|].
    apply prefix_cons_inv_1 in Hd as E2. apply prefix_cons_inv_2 in Hd.
    symmetry in E2. apply hex_digit_zero in E2; [|lia]. apply IH in Hd.
    rewrite !Nat2Z.inj_succ, !Z.pow_succ_r by lia. assert (byte_val x = 0) as -> by lia. nia.
Qed.

Lemma tx_steps_app `{Ed25519} s ts1 ts2 f s' : tx_steps s (ts1 ++ ts2) f s' →
  ∃ f1 s1 f2, tx_steps s ts1 f1 s1 ∧ tx_steps s1 ts2 f2 s'.
Proof.
  revert s f. induction ts1 as [|t ts1 IH]; intros s f Hs; [exists 0, s, f; by split; [constructor|]|].
  inversion Hs; subst. edestruct IH as (f1 & s2 & f2 & ? & ?); [done|]. eexists _, s2, f2. split; [by econstructor|done].
Qed.

(** ** Lemmas: exceptions *)

Lemma block_bytes_parts b x : block_to_bytes b = Ok x →
  is_ok (header_bytes b) = true ∧ Forall (λ t, ∃ y, tx_to_bytes true t = Ok y) (transactions b).
Proof.
  unfold block_to_bytes. intros E. inv_oks. split; [by rewrite Hx|].
  apply mapR_Ok in Hx1. clear -Hx1. induction Hx1 as [|t y ts ys Ht _ IH]; constructor; [|done].
  inv_ok Ht. eauto.
Qed.

Lemma txids_ok ts : Forall (λ t, ∃ y, tx_to_bytes true t = Ok y) ts → ∃ l, mapR txid_bytes ts = Ok l.
Proof.
  induction 1 as [|t ts [y Hy] _ [l IH]]; [by exists []|]. exists (sha256 y :: l). cbn [mapR].
  rewrite (proj2 (txid_bytes_spec t (sha256 y))) by eauto. csimpl. by rewrite IH.
Qed.

Section block_exceptions.
Context `{ED : Ed25519}.

Lemma check_block_raises b h prev x :
  block_to_bytes b = Ok x → raises_only (exn_is ConsensusError) (check_block b h prev).
Proof.
  intros [Hh Ht]%block_bytes_parts. apply txids_ok in Ht as [l Hl].
  destruct (root_total _ _ Hl) as (r & Hr & _). unfold check_block, block_hash.
  destruct (header_bytes b) as [y|]; [|done]. rewrite Hr.
  do 4 (apply raises_only_bind; [auto with bcc|intros _ _]). csimpl.
  do 2 (apply raises_only_bind; [auto with bcc|intros _ _]; csimpl).
  destruct (transactions b); auto with bcc.
Qed.

Lemma apply_transactions_raises fees ts :
  Forall (λ t, ∃ y, tx_to_bytes true t = Ok y) ts → sm_raises (exn_is ConsensusError) (apply_transactions fees ts).
Proof.
  intros Ht. revert fees. induction Ht as [|t ts [y Hy] _ IH]; intros fees; cbn [apply_transactions]; [auto with bcc|].
  apply sm_raises_bind; [by eapply apply_transaction_raises|]. intros ? ? ? _. apply IH.
Qed.

Lemma run_block_raises b x : block_to_bytes b = Ok x → transactions b ≠ [] →
  sm_raises (exn_is ConsensusError) (run_block b).
Proof.
  intros [_ Ht]%block_bytes_parts Hne. unfold run_block, apply_reward, block_coinbase, block_rest.
  destruct (transactions b) as [|cb ts]; [done|]. cbn [tail].
  apply Forall_cons in Ht as [[y Hy] Ht]. assert (Hh : txid cb = Ok (sha256_hex y)) by (unfold txid; by rewrite Hy).
  apply sm_raises_bind; [by apply apply_transactions_raises|]. intros ? ? fees _.
  apply sm_raises_bind; [|auto with bcc]. apply sm_raises_bind; [auto with bcc|].
  intros ? ? ? [_ [= <-]]%sm_lift_Ok.
  destruct (is_genesis b); [by eapply apply_genesis_coinbase_raises|by eapply apply_block_coinbase_raises].
Qed.

Lemma validate_block_raises s b h prev x :
  block_to_bytes b = Ok x → raises_only (exn_is ConsensusError) (validate_block s b h prev).
Proof.
  intros Hx. rewrite validate_block_unfold. apply raises_only_bind; [by eapply check_block_raises|].
  intros u (_ & cb & ts & Et & _)%check_block_Ok. do 2 (apply raises_only_bind; [auto with bcc|intros _ _]).
  eapply run_block_raises; [done|]. by rewrite Et.
Qed.

(** A transaction cannot follow itself. *)
Lemma tx_steps_twice s ts t f s' :
  is_coinbase t = false → (∀ o, o ∈ spent_outpoints t → txid t ≠ Ok (op_txid o)) →
  ¬ tx_steps s (ts ++ [t; t]) f s'.
Proof.
  intros Hc Hself (f1 & s1 & f2 & _ & Hs)%tx_steps_app.
  inversion Hs as [|? ? fee ? ? fees ? [_ Hv] Hcm Hs2]; subst. inversion Hs2 as [|? ? fee2 ? ? fees2 ? [_ Hv2] _ _]; subst.
  rewrite Hc in Hv, Hv2. destruct Hv as (Hne & _). destruct Hv2 as (_ & _ & prevs & Hp & _).
  destruct (inputs t) as [|i ins] eqn:Ei; [done|].
  assert (Ho : previous_output i ∈ spent_outpoints t) by (unfold spent_outpoints; rewrite Hc, Ei; by left).
  specialize (Hself _ Ho). csimpl in Hp. inv_ok Hp. apply utxo_get_Ok in Hx.
  destruct Hcm as (h & Hh & _ & _ & ->). simpl in Hx.
  apply tx_effect_lookup in Hx as [(E & _)%created_index|[_ ?]]; [congruence|done].
Qed.
End block_exceptions.

(** ** Samples: a chain of two blocks, mined at difficulty 1 *)

Definition sample_timestamp : Z := 4741671816366391296.

Definition with_nonce (b : ConsensusBlock) (n : Z) : ConsensusBlock :=
  mkBlock (height b) (previous_hash b) (transactions b) (difficulty b) (timestamp b) n
    (transaction_root b) (block_version b).

Definition sample_coinbase (h : Z) (a : Z) (who : string) : ConsensusTransaction :=
  mkTx [mkTxInput (mkOutPoint COINBASE_PREV_TXID (- (h + 1))) None None] [mkTxOutput a (toy_address who)] 1.

Definition sample_mined (h : Z) (prev : str) (ts : list ConsensusTransaction) (n : Z) : ConsensusBlock :=
  ok_or empty_block (make_block h prev ts 1 sample_timestamp n [] 1).

Definition hash_or (r : result str) : str := ok_or [] r.

Definition sample_genesis : ConsensusBlock := Eval vm_compute in sample_mined 0 ZERO_HASH [sample_coinbase 0 1000 "alice"] 9.

Definition sample_transfer : ConsensusTransaction := Eval vm_compute in
  let o := mkOutPoint (hash_or (txid (sample_coinbase 0 1000 "alice"))) 0 in
  let t := mkTx [mkTxInput o None None] [mkTxOutput 600 (toy_address "bob"); mkTxOutput 390 (toy_address "alice")] 1 in
  ok_or t (@sign_input toy_ed25519 t 0 (toy_wallet "alice")).

Definition sample_second : ConsensusBlock := Eval vm_compute in
  sample_mined 1 (hash_or (block_hash sample_genesis)) [sample_coinbase 1 60 "carol"; sample_transfer] 3.

(** The states the sample chain goes through, and a block of three
    transactions that is valid after the genesis block. *)
Definition sample_start : ConsensusState := mkState ∅ 50 MAX_MONEY.
Definition sample_state1 : ConsensusState := (@apply_block toy_ed25519 sample_genesis 0 ZERO_HASH sample_start).1.
Definition sample_prev : str := Eval vm_compute in hash_or (block_hash sample_genesis).
Definition sample_state2 : ConsensusState := (@apply_block toy_ed25519 sample_second 1 sample_prev sample_state1).1.

Definition sample_transfer2 : ConsensusTransaction := Eval vm_compute in
  let o := mkOutPoint (hash_or (txid sample_transfer)) 0 in
  let t := mkTx [mkTxInput o None None] [mkTxOutput 595 (toy_address "carol")] 1 in
  ok_or t (@sign_input toy_ed25519 t 0 (toy_wallet "bob")).

Definition sample_third : ConsensusBlock := Eval vm_compute in
  ok_or empty_block (make_block 1 sample_prev [sample_coinbase 1 65 "carol"; sample_transfer; sample_transfer2]
    0 sample_timestamp 0 [] 1).

Lemma sample_genesis_applies :
  @apply_block toy_ed25519 sample_genesis 0 ZERO_HASH sample_start = (sample_state1, Ok 0).
Proof.
  unfold sample_state1. refine (run_Ok (@apply_block toy_ed25519 sample_genesis 0 ZERO_HASH) sample_start 0 _).
  vm_compute. reflexivity.
Qed.

Lemma sample_second_applies :
  @apply_block toy_ed25519 sample_second 1 sample_prev sample_state1 = (sample_state2, Ok 10).
Proof.
  unfold sample_state2. refine (run_Ok (@apply_block toy_ed25519 sample_second 1 sample_prev) sample_state1 10 _).
  vm_compute. reflexivity.
Qed.

(** ** Lemmas: a body with the same root *)

(** The block with its last transaction repeated and the header untouched. *)
Definition repeat_last (b : ConsensusBlock) : ConsensusBlock :=
  mkBlock (height b) (previous_hash b)
    (transactions b ++ match last (transactions b) with Some t => [t] | None => [] end)
    (difficulty b) (timestamp b) (nonce b) (transaction_root b) (block_version b).

(** The header does not pin the body.  From a valid block with an odd number
    of transactions, at least three, repeating the last one gives a different
    block with the same hash that passes every check on the header, the
    transaction root included, and is invalid, since the repeated transaction
    spends what is gone. *)
Lemma repeat_last_valid `{Ed25519} s b h prev fees ts t :
  validate_block s b h prev = Ok fees → transactions b = ts ++ [t] →
  Nat.odd (length (transactions b)) = true → (3 ≤ length (transactions b))%nat →
  (∀ o, o ∈ spent_outpoints t → txid t ≠ Ok (op_txid o)) →
  block_hash (repeat_last b) = block_hash b ∧ check_block (repeat_last b) h prev = Ok tt ∧
  ∃ e, validate_block s (repeat_last b) h prev = Err e.
Proof.
  intros Hv Et Hodd Hlen Hself. apply validate_block_run in Hv as (Hck & Hs & Hm & Hr).
  apply check_block_Ok in Hck as [Hh (cb & ts' & Et' & Hcb & Hts)].
  assert (Er : transactions (repeat_last b) = ts ++ [t; t]).
  { unfold repeat_last. simpl. rewrite Et, last_snoc, <- app_assoc. done. }
  assert (Hroot : calculate_transaction_root (transactions (repeat_last b)) = calculate_transaction_root (transactions b)).
  { rewrite Er, Et. rewrite Et in Hodd, Hlen. apply root_duplicate; [done|lia|].
    destruct Hh as (_ & _ & _ & _ & _ & Hroot). rewrite Et in Hroot.
    unfold is_ok. rewrite root_unfold in Hroot by (by destruct ts). by apply bind_Ok in Hroot as (l & -> & _). }
  destruct ts as [|cb2 ts2]; [rewrite Et in Hlen; simpl in Hlen; lia|].
  rewrite Et in Et'. simpl in Et'. simplify_eq.
  assert (Ht : is_coinbase t = false) by (rewrite Forall_app, Forall_singleton in Hts; apply Hts).
  split; [done|].
  assert (Hck : check_block (repeat_last b) h prev = Ok tt).
  { apply check_block_Ok. split.
    - destruct Hh as (? & ? & ? & ? & ? & ?). split_and!; try done. rewrite Hroot. done.
    - exists cb, (ts2 ++ [t; t]). split; [done|]. split; [done|].
      rewrite Forall_app, Forall_singleton in Hts. rewrite Forall_app. destruct Hts. by repeat constructor. }
  split; [done|]. destruct (validate_block s (repeat_last b) h prev) as [f|e] eqn:E; [|eauto]. exfalso.
  apply validate_block_run in E as (_ & _ & _ & E). apply run_Ok, run_block_Ok in E.
  - destruct E as [_ (cb' & ts' & s1 & E' & _ & Hst & _)]. rewrite Er in E'. simpl in E'. simplify_eq.
    by eapply tx_steps_twice.
  - destruct Hh as (? & ? & ? & ? & ? & ?). split_and!; try done. by rewrite Hroot.
  - exists cb, (ts2 ++ [t; t]). split; [done|].
    rewrite Forall_app, Forall_singleton in Hts. rewrite Forall_app. destruct Hts. by repeat constructor.
Qed.

(** ** Properties *)

(** C1: [apply_block] succeeds exactly on the blocks the rules allow at that
    place of the chain, with the state and the fees they determine; it agrees
    with [validate_block], fees and exceptions alike; and it is atomic: although
    it mutates the state transaction by transaction, a block that fails leaves
    the state as it was. *)
Theorem apply_block_refines `{Ed25519} s b h prev :
  (∀ s' fees, apply_block b h prev s = (s', Ok fees) ↔
     0 ≤ block_subsidy s ∧ 0 < max_money s ∧ block_step s b h prev fees s') ∧
  (∀ s' e, apply_block b h prev s = (s', Err e) → s' = s) ∧
  (apply_block b h prev s).2 = validate_block s b h prev.
Proof.
  split; [intros; apply apply_block_Ok|]. split; [intros ? ?; apply apply_block_err|apply apply_block_validate].
Qed.

(** The money supply: a block takes a well-formed ledger to a well-formed
    one, the supply grows by exactly what the coinbase pays minus the fees it
    collects, and above the genesis block by no more than the subsidy. *)
Theorem apply_block_supply `{Ed25519} s s' b h prev fees cb ts :
  state_wf s → apply_block b h prev s = (s', Ok fees) → transactions b = cb :: ts →
  state_wf s' ∧ utxo_total (utxos s') = utxo_total (utxos s) + output_total cb - fees ∧
  (0 < h → utxo_total (utxos s') ≤ utxo_total (utxos s) + block_subsidy s).
Proof.
  intros Hw (_ & _ & Hb)%apply_block_Ok Et.
  split_and!; eauto using block_step_wf, block_step_total, block_step_growth.
Qed.

Lemma sample_state1_wf : state_wf sample_state1.
Proof. apply (bool_decide_unpack (state_wf sample_state1)). vm_compute. exact I. Qed.

Lemma apply_block_supply_witness :
  state_wf sample_state2 ∧ utxo_total (utxos sample_state2) = utxo_total (utxos sample_state1) + 60 - 10 ∧
  (0 < 1 → utxo_total (utxos sample_state2) ≤ utxo_total (utxos sample_state1) + 50).
Proof.
  apply (@apply_block_supply toy_ed25519 sample_state1 sample_state2 sample_second 1 sample_prev 10
    (sample_coinbase 1 60 "carol") [sample_transfer]).
  - apply sample_state1_wf.
  - apply sample_second_applies.
  - vm_compute. reflexivity.
Defined.

(** [rebuild_state_from_blocks] accepts exactly the chains in which every
    block is allowed in its place, starting from the empty ledger at height 0
    on the zero hash, and returns the ledger they lead to. *)
Theorem rebuild_refines `{Ed25519} bs subsidy max s :
  rebuild_state_from_blocks bs subsidy max = Ok s ↔
  0 ≤ subsidy ∧ 0 < max ∧ chain_steps (mkState ∅ subsidy max) 0 ZERO_HASH bs s.
Proof. apply rebuild_Ok. Qed.

(** Replaying a chain from scratch and applying its blocks one at a time are
    the same: the state of a longer chain is the last block applied, at the
    height and on the hash the shorter chain gives, to the state rebuilt from
    the shorter one. *)
Theorem rebuild_incremental `{Ed25519} bs b subsidy max s prev :
  rebuild_state_from_blocks bs subsidy max = Ok s → chain_tip ZERO_HASH bs = Ok prev →
  rebuild_state_from_blocks (bs ++ [b]) subsidy max =
    run_state (apply_block b (zlen bs) prev s).
Proof. apply rebuild_snoc. Qed.

Lemma rebuild_sample1 : @rebuild_state_from_blocks toy_ed25519 [sample_genesis] 50 MAX_MONEY = Ok sample_state1.
Proof.
  apply rebuild_Ok. split; [done|]. split; [done|].
  apply (chain_steps_cons _ _ _ _ 0 sample_state1 sample_prev).
  - by apply apply_block_Ok, sample_genesis_applies.
  - vm_compute. reflexivity.
  - apply chain_steps_nil.
Qed.

Lemma rebuild_incremental_witness :
  @rebuild_state_from_blocks toy_ed25519 ([sample_genesis] ++ [sample_second]) 50 MAX_MONEY =
    run_state (@apply_block toy_ed25519 sample_second (zlen [sample_genesis]) sample_prev sample_state1).
Proof.
  apply (@rebuild_incremental toy_ed25519 [sample_genesis] sample_second 50 MAX_MONEY sample_state1 sample_prev).
  - apply rebuild_sample1.
  - vm_compute. reflexivity.
Defined.

(** C11: The emission schedule: after a chain of [1 + n] blocks the supply is at
    most what the genesis coinbase allocated plus [n] subsidies, never more
    than the maximum, and every output is positive and well addressed. *)
Theorem rebuild_supply `{Ed25519} g bs subsidy max s cb ts :
  rebuild_state_from_blocks (g :: bs) subsidy max = Ok s → transactions g = cb :: ts →
  state_wf s ∧ max_money s = max ∧ utxo_total (utxos s) ≤ output_total cb + subsidy * zlen bs.
Proof.
  intros (Hs & Hm & Hc)%rebuild_Ok Et. pose proof (chain_steps_wf _ _ _ _ _ (empty_state_wf _ _ Hs Hm) Hc) as Hw.
  inversion Hc as [|? ? ? ? fees s1 hash ? ? Hb Hh Hc']; subst.
  assert (Hmax : ∀ s h p bs s', chain_steps s h p bs s' → max_money s' = max_money s).
  { clear. induction 1 as [|s h prev b fees s1 hash bs s2 Hb _ _ IH]; [done|].
    destruct (block_step_params _ _ _ _ _ _ Hb) as [_ E]. congruence. }
  split; [done|]. split; [by apply Hmax in Hc|].
  apply chain_steps_growth in Hc'; [|lia]. destruct (block_step_params _ _ _ _ _ _ Hb) as [E _].
  pose proof (block_step_total _ _ _ _ _ _ _ _ Et Hb) as Ht. simpl in Ht. rewrite utxo_total_empty in Ht.
  destruct Hb as (_ & cb' & ts' & s2 & Et' & Hts & Hst & _). apply (tx_steps_fees _ _ _ _ Hts) in Hst.
  rewrite E in Hc'. simpl in Hc'. lia.
Qed.

Lemma rebuild_supply_witness :
  state_wf sample_state1 ∧ max_money sample_state1 = MAX_MONEY ∧ utxo_total (utxos sample_state1) ≤ 1000 + 50 * zlen (@nil ConsensusBlock).
Proof.
  apply (@rebuild_supply toy_ed25519 sample_genesis [] 50 MAX_MONEY sample_state1 (sample_coinbase 0 1000 "alice") []).
  - apply rebuild_sample1.
  - vm_compute. reflexivity.
Defined.

(** A rebuilt chain is linked: block [k] has height [k], names the hash of
    block [k - 1] (the zero hash for the first), carries its proof of work and
    commits to its transactions. *)
Theorem rebuild_linked `{Ed25519} bs subsidy max s k b :
  rebuild_state_from_blocks bs subsidy max = Ok s → bs !! k = Some b →
  ∃ prev, chain_tip ZERO_HASH (take k bs) = Ok prev ∧ header_ok b (Z.of_nat k) prev.
Proof. intros (_ & _ & Hc)%rebuild_Ok Hk. apply (chain_steps_linked _ _ _ _ _ _ _ Hc Hk). Qed.

Lemma rebuild_linked_witness :
  ∃ prev, chain_tip ZERO_HASH (take 0 [sample_genesis]) = Ok prev ∧ header_ok sample_genesis (Z.of_nat 0) prev.
Proof.
  apply (@rebuild_linked toy_ed25519 [sample_genesis] 50 MAX_MONEY sample_state1 0 sample_genesis); [apply rebuild_sample1|done].
Defined.

(** The transactions of a block in the order in which they are applied: the
    coinbase is last. *)
Definition applied_order (b : ConsensusBlock) : list ConsensusTransaction :=
  match transactions b with [] => [] | cb :: ts => ts ++ [cb] end.

Lemma tx_steps_run `{Ed25519} s ts f s' : tx_steps s ts f s' → ledger_run s ts s'.
Proof.
  induction 1 as [|s t fee s1 ts fees s2 Hv Hc _ IH]; [constructor|]. econstructor; [|exact IH].
  apply step_transaction with fee. by apply apply_transaction_Ok.
Qed.

Lemma block_step_run `{Ed25519} s b h prev fees s' : block_step s b h prev fees s' → ledger_run s (applied_order b) s'.
Proof.
  intros (_ & cb & ts & s1 & Et & _ & Hts & Hsh & Hcb & Hf & Hc). unfold applied_order. rewrite Et.
  destruct (tx_steps_params _ _ _ _ Hts) as [Es Em]. apply tx_steps_run in Hts. eapply ledger_run_app; [exact Hts|].
  econstructor; [|constructor]. destruct (is_genesis b).
  - apply step_genesis. apply apply_genesis_coinbase_Ok. by rewrite Em.
  - destruct Hf as [H0 Hle]; [done|]. apply step_reward with fees. apply apply_block_coinbase_Ok. by rewrite Em, Es.
Qed.

Lemma chain_steps_run `{Ed25519} s h prev bs s' : chain_steps s h prev bs s' → ledger_run s (concat (applied_order <$> bs)) s'.
Proof.
  induction 1 as [|s h prev b fees s1 hash bs s2 Hb _ _ IH]; [constructor|]. cbn. eapply ledger_run_app; [by eapply block_step_run|exact IH].
Qed.

(** In a chain that replays, two transactions that spend the same outpoint have
    one between them that creates it, the first of the two included. *)
Theorem chain_spends_once `{Ed25519} bs subsidy max s i j t t2 o :
  rebuild_state_from_blocks bs subsidy max = Ok s → (i < j)%nat →
  concat (applied_order <$> bs) !! i = Some t → concat (applied_order <$> bs) !! j = Some t2 →
  (∀ k t', (i ≤ k < j)%nat → concat (applied_order <$> bs) !! k = Some t' → ¬ creates t' o) →
  o ∈ spent_outpoints t → o ∉ spent_outpoints t2.
Proof.
  intros (_ & _ & Hr%chain_steps_run)%rebuild_Ok Hij Hi Hj Hnew Ho Ho2. set (ts := concat _) in *. clearbody ts.
  assert (Hsplit : ∃ s1 s2, ledger_run (mkState ∅ subsidy max) (take j ts) s1 ∧ ledger_step t2 s1 s2).
  { clear -Hr Hj. revert j Hj. induction Hr as [|t s s1 ts s2 Hs Hr IH]; intros j Hj; [done|]. destruct j as [|j].
    - injection Hj as ->. exists s, s1. split; [constructor|done].
    - destruct (IH j Hj) as (s3 & s4 & H1 & H2). exists s3, s4. split; [|done]. cbn. by econstructor. }
  destruct Hsplit as (s1 & s2 & Hr1 & Hs2).
  assert (Hl : utxos s1 !! o = None).
  { assert (Hi' : take j ts !! i = Some t) by (by rewrite lookup_take_lt).
    destruct (ledger_run_split _ _ _ _ _ Hr1 Hi') as (s3 & s4 & Hs & Hr2). refine (stays_spent _ _ _ o Hr2 _ _).
    - apply (step_spends _ _ _ o Hs Ho). apply (Hnew i); [lia|done].
    - intros t' [k Hk]%list_elem_of_lookup. rewrite lookup_drop in Hk. pose proof (lookup_lt_Some _ _ _ Hk) as Hlt.
      rewrite length_take in Hlt. rewrite lookup_take_lt in Hk by lia. apply (Hnew (S i + k)%nat); [lia|done]. }
  destruct Hs2 as [fee [Hv _]%apply_transaction_Ok|fees (_ & Hc & _)%apply_block_coinbase_Ok|(_ & Hc & _)%apply_genesis_coinbase_Ok].
  - by apply (missing_refused s1 t2 o fee Hl Ho2), validate_transaction_Ok.
  - apply coinbase_shape_is_coinbase in Hc. unfold spent_outpoints in Ho2. rewrite Hc in Ho2. by apply not_elem_of_nil in Ho2.
  - apply coinbase_shape_is_coinbase in Hc. unfold spent_outpoints in Ho2. rewrite Hc in Ho2. by apply not_elem_of_nil in Ho2.
Qed.

(** What the proof-of-work check means: the SHA-256 digest of the header,
    read as a 256-bit number and multiplied by [16 ^ difficulty], is below
    [2 ^ 256]; the difficulty counts hexadecimal digits, so each unit makes a
    block sixteen times harder to find. *)
Theorem proof_of_work_bound b h prev :
  check_block b h prev = Ok tt →
  ∃ x, header_bytes b = Ok x ∧ 0 ≤ difficulty b ∧ be_val (sha256 x) * 16 ^ difficulty b < 2 ^ 256.
Proof.
  intros [(_ & _ & _ & Hd & (hash & Hh & Hp) & _) _]%check_block_Ok.
  unfold block_hash in Hh. inv_ok Hh. subst. exists x. split_and!; [done..|].
  apply zeros_bound in Hp. rewrite sha256_length, Z2Nat.id in Hp by lia. exact Hp.
Qed.

Lemma proof_of_work_bound_witness :
  ∃ x, header_bytes sample_second = Ok x ∧ 0 ≤ difficulty sample_second ∧
    be_val (sha256 x) * 16 ^ difficulty sample_second < 2 ^ 256.
Proof. apply (proof_of_work_bound sample_second 1 sample_prev). vm_compute. reflexivity. Defined.

(** A block that can be encoded, such as every decoded one, makes
    [validate_block] return the fees or raise [ConsensusError]; no other
    exception escapes. *)
Theorem validate_block_errors `{Ed25519} s b h prev x :
  block_to_bytes b = Ok x →
  (∃ fees, validate_block s b h prev = Ok fees) ∨
  (∃ msg, validate_block s b h prev = Err (Exn ConsensusError msg)).
Proof.
  intros Hx. pose proof (validate_block_raises s b h prev x Hx) as Hr.
  destruct (validate_block s b h prev) as [fees|[c msg]]; [by eauto|]. right. exists msg.
  specialize (Hr _ eq_refl). unfold exn_is in Hr. bool_prop. by simpl in Hr; subst.
Qed.

Lemma validate_block_errors_witness :
  (∃ fees, @validate_block toy_ed25519 sample_start sample_third 0 ZERO_HASH = Ok fees) ∨
  (∃ msg, @validate_block toy_ed25519 sample_start sample_third 0 ZERO_HASH = Err (Exn ConsensusError msg)).
Proof.
  apply (@validate_block_errors toy_ed25519 sample_start sample_third 0 ZERO_HASH (ok_or [] (block_to_bytes sample_third))).
  vm_compute. reflexivity.
Defined.
