(* ===== verification/ForkStore.v ===== *)
(** * The fork-aware block store (storage.py, [SQLiteForkStore])

    The table [fork_blocks] is a finite map from the primary key [hash] to the
    other columns; [data] is the hexadecimal text of the encoded block and is
    decoded again by every read.  An [INSERT] converts its integers, which
    raises [OverflowError] outside 64 bits, and runs in a transaction, so a
    failed method leaves the tables alone.  The row [chain_parameters] of the
    metadata table, canonical JSON in the database, is kept decoded.

    Rows are only read through [ORDER BY] clauses, which become stable sorts of
    the map's entries.  [store_wf] is the invariant of the block table: every
    row describes the block it holds and, above height 0, its parent is a row
    too. *)

From S2P Require Import Prelude PyBytes PyText Sha256 Json Crypto ByteReader Transaction Block State BlockProcessor.
Local Open Scope Z_scope.

(** ** Chain parameters *)

Record ChainParameters := mkParams { cp_difficulty : Z; cp_block_subsidy : Z; cp_max_money : Z }.

#[global] Instance ChainParameters_eq_dec : EqDecision ChainParameters.
Proof. solve_decision. Defined.

(** [ChainParameters.to_dict] *)
Definition parameters_json (p : ChainParameters) : json :=
  JObj [(py "block_subsidy", JInt (cp_block_subsidy p));
        (py "difficulty", JInt (cp_difficulty p));
        (py "max_money", JInt (cp_max_money p))].

(** [ChainParameters.chain_id] *)
Definition chain_id (p : ChainParameters) : result str := sha256_hex_str (canonical_json (parameters_json p)).

(** ** Tables *)

Record BlockRow := mkRow {
  row_height : Z;
  row_previous_hash : str;
  row_difficulty : Z;
  row_cumulative_work : Z;
  row_data : str;
}.

Record ForkStore := mkStore {
  fs_parameters : option ChainParameters;
  fs_chain_id : option str;
  fs_blocks : gmap str BlockRow;
}.

Definition empty_store : ForkStore := mkStore None None ∅.

(** [StoredConsensusBlock] *)
Record StoredBlock := mkStored { sb_block : ConsensusBlock; cumulative_work : Z }.

#[global] Instance BlockRow_eq_dec : EqDecision BlockRow.
Proof. solve_decision. Defined.
#[global] Instance StoredBlock_eq_dec : EqDecision StoredBlock.
Proof. solve_decision. Defined.

(** Binding a Python integer to an [INTEGER] column. *)
Definition sqlite_int (z : Z) : result unit :=
  raise_if ((z <? - 2 ^ 63) || (2 ^ 63 <=? z)) OverflowError "Python int too large to convert to SQLite INTEGER".

(** [_encode_consensus_block], [_decode_consensus_block] *)
Definition encode_consensus_block (b : ConsensusBlock) : result str := x ← block_to_bytes b; Ok (bytes_hex x).
Definition decode_consensus_block (payload : str) : result ConsensusBlock :=
  x ← fromhex payload; block_from_bytes x.

(** [_work_for]; a negative difficulty, which every caller has ruled out, is not
    modelled (Python's [2 ** -1] is the float 0.5). *)
Definition work_for (b : ConsensusBlock) : Z := 2 ^ difficulty b.

Definition has_block (st : ForkStore) (h : str) : bool := bool_decide (is_Some (fs_blocks st !! h)).

Definition get_block (st : ForkStore) (h : str) : result StoredBlock :=
  match fs_blocks st !! h with
  | None => Err (Exn StorageError (py "unknown block: " ++ h))
  | Some r => b ← decode_consensus_block (row_data r); Ok (mkStored b (row_cumulative_work r))
  end.

(** The height and work checks of [put_block]. *)
Definition block_work (st : ForkStore) (b : ConsensusBlock) : result Z :=
  if height b =? 0 then
    raise_if (bool_decide (previous_hash b ≠ ZERO_HASH)) StorageError "genesis block previous hash is invalid";;
    Ok (work_for b)
  else
    parent ← get_block st (previous_hash b);
    raise_if (negb (height b =? height (sb_block parent) + 1)) StorageError "block height does not extend parent";;
    Ok (cumulative_work parent + work_for b).

(** [put_block] *)
Definition put_block (b : ConsensusBlock) : SM ForkStore StoredBlock :=
  st ← sm_get;
  h ← sm_lift (block_hash b);
  if has_block st h then sm_lift (get_block st h)
  else
    work ← sm_lift (block_work st b);
    payload ← sm_lift (encode_consensus_block b);
    sm_lift (sqlite_int (height b);; sqlite_int (difficulty b);; sqlite_int work);;
    sm_put (mkStore (fs_parameters st) (fs_chain_id st)
              (<[h := mkRow (height b) (previous_hash b) (difficulty b) work payload]> (fs_blocks st)));;
    mret (mkStored b work).

(** [ORDER BY cumulative_work DESC, height DESC, hash ASC] *)
Definition best_first (x y : str * BlockRow) : bool :=
  match Z.compare (row_cumulative_work y.2) (row_cumulative_work x.2) with
  | Lt => true
  | Gt => false
  | Eq =>
      match Z.compare (row_height y.2) (row_height x.2) with
      | Lt => true
      | Gt => false
      | Eq => str_leb x.1 y.1
      end
  end.

(** [best_tip] *)
Definition best_tip (st : ForkStore) : result (option StoredBlock) :=
  match sort_by best_first (map_to_list (fs_blocks st)) with
  | [] => Ok None
  | (h, _) :: _ => b ← get_block st h; Ok (Some b)
  end.

(** [children_of] *)
Definition children_of (st : ForkStore) (h : str) : result (list StoredBlock) :=
  mapR (λ x, get_block st x.1)
    (sort_by (λ x y, str_leb x.1 y.1)
       (filter (λ x, row_previous_hash x.2 = h) (map_to_list (fs_blocks st)))).

(** The loop of [chain_to_tip]: append, stop at height 0, else go to the
    parent; the list is reversed at the end. *)
Fixpoint chain_loop (fuel : nat) (st : ForkStore) (chain : list StoredBlock) (current : StoredBlock) :
    result (list StoredBlock) :=
  let chain' := chain ++ [current] in
  if height (sb_block current) =? 0 then Ok (reverse chain')
  else
    match fuel with
    | O => raise OutOfFuel "chain_to_tip"
    | S fuel' =>
        current' ← get_block st (previous_hash (sb_block current));
        chain_loop fuel' st chain' current'
    end.

(** [chain_to_tip]; in a well-formed store the height falls by one at each turn,
    so the height of the tip is fuel enough. *)
Definition chain_to_tip (st : ForkStore) (tip_hash : str) : result (list StoredBlock) :=
  current ← get_block st tip_hash; chain_loop (Z.to_nat (height (sb_block current))) st [] current.

(** [active_chain] *)
Definition active_chain (st : ForkStore) : result (list StoredBlock) :=
  tip ← best_tip st;
  match tip with
  | None => Ok []
  | Some t => h ← block_hash (sb_block t); chain_to_tip st h
  end.

(** [ORDER BY height ASC, hash ASC] *)
Definition height_first (x y : str * BlockRow) : bool :=
  match Z.compare (row_height x.2) (row_height y.2) with
  | Lt => true
  | Gt => false
  | Eq => str_leb x.1 y.1
  end.

(** [iter_blocks]: the hashes it reads the blocks of, in order. *)
Definition iter_hashes (st : ForkStore) : list str :=
  fst <$> sort_by height_first (map_to_list (fs_blocks st)).

Definition save_chain_parameters (p : ChainParameters) : SM ForkStore unit :=
  st ← sm_get;
  cid ← sm_lift (chain_id p);
  sm_put (mkStore (Some p) (Some cid) (fs_blocks st)).

Definition load_chain_parameters (st : ForkStore) : option ChainParameters := fs_parameters st.

(** [require_chain_parameters] *)
Definition require_chain_parameters (expected : ChainParameters) : SM ForkStore unit :=
  st ← sm_get;
  match load_chain_parameters st with
  | None =>
      tip ← sm_lift (best_tip st);
      match tip with
      | None => save_chain_parameters expected
      | Some _ => sm_raise StorageError "chain parameters are missing"
      end
  | Some stored =>
      sm_lift (raise_if (bool_decide (stored ≠ expected)) StorageError "chain parameters do not match stored chain")
  end.

(** ** The invariant *)

(** The parent of a block above height 0 is stored one level down. *)
Definition parent_ok (st : ForkStore) (b : ConsensusBlock) (work : Z) : Prop :=
  if height b =? 0 then previous_hash b = ZERO_HASH ∧ work = work_for b
  else match fs_blocks st !! previous_hash b with
       | Some p => row_height p = height b - 1 ∧ work = row_cumulative_work p + work_for b
       | None => False
       end.

#[global] Instance parent_ok_dec st b w : Decision (parent_ok st b w).
Proof. unfold parent_ok. destruct (height b =? 0); [apply _|]. destruct (fs_blocks st !! _); apply _. Defined.

Definition row_ok (st : ForkStore) (h : str) (r : BlockRow) : Prop :=
  match decode_consensus_block (row_data r) with
  | Ok b =>
      block_hash b = Ok h ∧ row_height r = height b ∧ row_previous_hash r = previous_hash b ∧
      row_difficulty r = difficulty b ∧ 0 ≤ difficulty b ∧ 0 ≤ height b ∧
      parent_ok st b (row_cumulative_work r)
  | Err _ => False
  end.

#[global] Instance row_ok_dec st h r : Decision (row_ok st h r).
Proof. unfold row_ok. destruct (decode_consensus_block (row_data r)); apply _. Defined.

Definition store_wf (st : ForkStore) : Prop := map_Forall (row_ok st) (fs_blocks st).

#[global] Instance store_wf_dec st : Decision (store_wf st).
Proof. unfold store_wf. apply _. Defined.

(** A stored branch from the genesis block to [h], with the work summed up. *)
Inductive branch (st : ForkStore) : str → list StoredBlock → Prop :=
  | branch_genesis h sb :
      get_block st h = Ok sb → block_hash (sb_block sb) = Ok h → height (sb_block sb) = 0 →
      previous_hash (sb_block sb) = ZERO_HASH → cumulative_work sb = work_for (sb_block sb) →
      branch st h [sb]
  | branch_child h sb l p :
      branch st (previous_hash (sb_block sb)) (l ++ [p]) →
      get_block st h = Ok sb → block_hash (sb_block sb) = Ok h →
      height (sb_block sb) = height (sb_block p) + 1 →
      cumulative_work sb = cumulative_work p + work_for (sb_block sb) →
      branch st h (l ++ [p; sb]).

(** ** Lemmas: rows *)

Lemma decode_encode_block b p : canonical_block b → encode_consensus_block b = Ok p → decode_consensus_block p = Ok b.
Proof.
  unfold encode_consensus_block, decode_consensus_block. intros Hc E. inv_ok E. subst.
  rewrite fromhex_hex. by apply block_from_to_bytes.
Qed.

Lemma decoded_block_canonical p b : decode_consensus_block p = Ok b → canonical_block b.
Proof. unfold decode_consensus_block. intros E. inv_ok E. by apply block_to_from_bytes in E as [_ ?]. Qed.

Lemma get_block_Ok st h sb : get_block st h = Ok sb ↔
  ∃ r, fs_blocks st !! h = Some r ∧ decode_consensus_block (row_data r) = Ok (sb_block sb) ∧
    cumulative_work sb = row_cumulative_work r.
Proof.
  unfold get_block. destruct (fs_blocks st !! h) as [r|]; [|naive_solver]. rewrite bind_Ok. split.
  - intros (b & Hb & [= <-]). eauto.
  - intros (r' & [= <-] & Hb & Hw). exists (sb_block sb). split; [done|]. destruct sb. simpl in *. by subst.
Qed.

Lemma get_block_row st h r : store_wf st → fs_blocks st !! h = Some r → ∃ b,
  get_block st h = Ok (mkStored b (row_cumulative_work r)) ∧ block_hash b = Ok h ∧ canonical_block b ∧
  row_height r = height b ∧ row_previous_hash r = previous_hash b ∧ 0 ≤ difficulty b ∧ 0 ≤ height b ∧
  parent_ok st b (row_cumulative_work r).
Proof.
  intros Hwf Hr. specialize (Hwf h r Hr). unfold row_ok in Hwf. unfold get_block. rewrite Hr.
  destruct (decode_consensus_block (row_data r)) as [b|] eqn:E; [|done]. exists b.
  apply decoded_block_canonical in E. naive_solver.
Qed.

Lemma get_block_wf st h sb : store_wf st → get_block st h = Ok sb →
  block_hash (sb_block sb) = Ok h ∧ canonical_block (sb_block sb) ∧ 0 ≤ difficulty (sb_block sb) ∧
  0 ≤ height (sb_block sb) ∧ parent_ok st (sb_block sb) (cumulative_work sb).
Proof.
  intros Hwf Hg. pose proof Hg as (r & Hr & _)%get_block_Ok. pose proof (get_block_row st h r Hwf Hr) as (b & Hb & ?).
  rewrite Hb in Hg. simplify_eq. simpl. naive_solver.
Qed.

Lemma has_block_spec st h : has_block st h = true ↔ is_Some (fs_blocks st !! h).
Proof. unfold has_block. by rewrite bool_decide_eq_true. Qed.

Lemma sqlite_int_Ok z u : sqlite_int z = Ok u ↔ - 2 ^ 63 ≤ z < 2 ^ 63.
Proof. unfold sqlite_int. rewrite raise_if_Ok, orb_false_iff, Z.ltb_ge, Z.leb_gt. lia. Qed.

(** ** Lemmas: put_block *)

Lemma put_block_Ok b st st' sb : put_block b st = (st', Ok sb) →
  ∃ h, block_hash b = Ok h ∧
    (is_Some (fs_blocks st !! h) ∧ st' = st ∧ get_block st h = Ok sb ∨
     fs_blocks st !! h = None ∧ ∃ work payload,
       block_work st b = Ok work ∧ encode_consensus_block b = Ok payload ∧ sb = mkStored b work ∧
       - 2 ^ 63 ≤ work < 2 ^ 63 ∧
       st' = mkStore (fs_parameters st) (fs_chain_id st)
               (<[h := mkRow (height b) (previous_hash b) (difficulty b) work payload]> (fs_blocks st))).
Proof.
  unfold put_block. intros E. apply SM_bind_Ok in E as (s0 & s1 & Hg & E). injection Hg as <- <-.
  apply SM_bind_Ok in E as (h & s1 & [-> Hh]%sm_lift_Ok & E). exists h. split; [done|].
  destruct (has_block st h) eqn:Eb.
  - left. apply has_block_spec in Eb. apply sm_lift_Ok in E as [-> E]. done.
  - right. assert (fs_blocks st !! h = None) by (apply eq_None_not_Some; intros Hs%has_block_spec; congruence).
    split; [done|]. inv_sm E. apply bind_unit_Ok in Hx1 as [_ Hx1]. apply bind_unit_Ok in Hx1 as [_ Hx1].
    apply sqlite_int_Ok in Hx1. eauto 10.
Qed.

Lemma put_block_err b st st' e : put_block b st = (st', Err e) → st' = st.
Proof.
  unfold put_block, sm_get, sm_lift, sm_put, mret, SM_ret, mbind, SM_bind. intros E.
  repeat (case_match; simplify_eq; try done).
Qed.

Lemma parent_ok_mono st st' b w : fs_blocks st ⊆ fs_blocks st' → parent_ok st b w → parent_ok st' b w.
Proof.
  intros Hsub. unfold parent_ok. destruct (height b =? 0); [done|].
  destruct (fs_blocks st !! previous_hash b) as [p|] eqn:E; [|done].
  by rewrite (lookup_weaken _ _ _ _ E Hsub).
Qed.

Lemma row_ok_mono st st' h r : fs_blocks st ⊆ fs_blocks st' → row_ok st h r → row_ok st' h r.
Proof. intros Hsub. unfold row_ok. case_match; [|done]. naive_solver eauto using parent_ok_mono. Qed.

Lemma block_work_parent st b work : store_wf st → block_work st b = Ok work →
  parent_ok st b work ∧ 0 ≤ height b.
Proof.
  unfold block_work, parent_ok. intros Hwf E. destruct (Z.eqb_spec (height b) 0) as [Hh|Hh].
  - inv_ok E. bool_prop. subst. split; [|lia]. split; [by apply dec_stable|done].
  - inv_ok E. bool_prop. subst. pose proof Hx as (r & Hr & _)%get_block_Ok. rewrite Hr.
    destruct (get_block_row _ _ _ Hwf Hr) as (pb & Hpb & _ & _ & Hrh & _ & _ & Hp0 & _).
    rewrite Hpb in Hx. simplify_eq. simpl in *. split; [|lia]. split; [lia|done].
Qed.

Lemma put_block_wf b st st' r : store_wf st → canonical_block b → 0 ≤ difficulty b →
  put_block b st = (st', r) → store_wf st' ∧ fs_blocks st ⊆ fs_blocks st'.
Proof.
  intros Hwf Hc Hd E. destruct r as [sb|e]; [|by apply put_block_err in E as ->].
  apply put_block_Ok in E as (h & Hh & [(_ & -> & _)|(Hn & work & payload & Hw & Hp & -> & _ & ->)]); [done|].
  simpl. assert (Hsub : fs_blocks st ⊆ <[h:=mkRow (height b) (previous_hash b) (difficulty b) work payload]> (fs_blocks st))
    by by apply insert_subseteq.
  split; [|done]. intros h' r' Hr'. cbn [fs_blocks] in Hr'. apply lookup_insert_Some in Hr' as [[<- <-]|[_ Hr']].
  - unfold row_ok. simpl. rewrite (decode_encode_block _ _ Hc Hp).
    apply block_work_parent in Hw as [Hpar ?]; [|done]. split_and!; try done. by eapply parent_ok_mono.
  - eapply row_ok_mono; [|by apply Hwf]. done.
Qed.

(** ** Lemmas: branches *)

Lemma branch_last st h l : branch st h l → ∃ l' sb, l = l' ++ [sb] ∧ get_block st h = Ok sb ∧ block_hash (sb_block sb) = Ok h.
Proof.
  destruct 1 as [h sb ? ?|h sb l p]; [by exists [], sb|]. exists (l ++ [p]), sb. by rewrite <- app_assoc.
Qed.

Lemma branch_heights st h l : branch st h l → ∀ k sb, l !! k = Some sb → height (sb_block sb) = Z.of_nat k.
Proof.
  induction 1 as [h sb _ _ Hh _ _|h sb l p _ IH _ _ Hh _]; intros k x Hk.
  - by destruct k; simplify_eq/=.
  - change [p; sb] with ([p] ++ [sb]) in Hk. rewrite app_assoc in Hk.
    apply lookup_snoc_Some in Hk as [[_ Hk]|[-> ->]]; [by apply IH|].
    rewrite Hh, (IH (length l) p); [rewrite length_app; simpl; lia|]. by apply lookup_snoc_Some; right.
Qed.

(** The cumulative work of a stored block is the sum of the work of the blocks
    on its branch. *)
Lemma branch_work st h l : branch st h l → ∀ l' sb, l = l' ++ [sb] →
  cumulative_work sb = sumZ ((λ s, work_for (sb_block s)) <$> l).
Proof.
  induction 1 as [h sb _ _ _ _ Hw|h sb l p _ IH _ _ _ Hw]; intros l' x E.
  - assert (x = sb) as -> by (by apply (app_inj_tail [] l') in E as [_ ->]).
    rewrite Hw. csimpl. rewrite sumZ_cons, sumZ_nil. lia.
  - change [p; sb] with ([p] ++ [sb]) in *. rewrite app_assoc in *.
    apply app_inj_tail in E as [_ <-]. rewrite fmap_app, sumZ_app, <- (IH l p eq_refl). csimpl.
    rewrite sumZ_cons, sumZ_nil. lia.
Qed.

Lemma branch_exists st h sb : store_wf st → get_block st h = Ok sb → ∃ l, branch st h l.
Proof.
  intros Hwf. remember (Z.to_nat (height (sb_block sb))) as n eqn:En. revert h sb En.
  induction n as [|n IH]; intros h sb En Hg;
    destruct (get_block_wf _ _ _ Hwf Hg) as (Hh & Hc & Hd & H0 & Hp); unfold parent_ok in Hp;
    destruct (Z.eqb_spec (height (sb_block sb)) 0) as [E|E]; try lia.
  - destruct Hp. exists [sb]. by constructor.
  - destruct (fs_blocks st !! previous_hash (sb_block sb)) as [r|] eqn:Er; [|done].
    destruct (get_block_row _ _ _ Hwf Er) as (pb & Hpb & _ & _ & Hrh & _). destruct Hp as [Hp Hw].
    destruct (IH (previous_hash (sb_block sb)) (mkStored pb (row_cumulative_work r)) ltac:(simpl; lia) Hpb) as [l Hb].
    destruct (branch_last _ _ _ Hb) as (l' & p & -> & Hgp & _). rewrite Hpb in Hgp. simplify_eq.
    exists (l' ++ [mkStored pb (row_cumulative_work r); sb]). apply branch_child; [done..|simpl; lia|done].
Qed.

Lemma chain_loop_branch st h l : branch st h l → ∀ l' sb fuel chain, l = l' ++ [sb] →
  (Z.to_nat (height (sb_block sb)) ≤ fuel)%nat →
  chain_loop fuel st chain sb = Ok (l ++ reverse chain).
Proof.
  induction 1 as [h sb _ _ H0 _ _|h sb l p Hb IH _ _ Hh _]; intros l' x fuel chain E Hf.
  - assert (x = sb) as -> by (by apply (app_inj_tail [] l') in E as [_ ->]).
    destruct fuel; simpl; rewrite H0; simpl; by rewrite reverse_app.
  - change [p; sb] with ([p] ++ [sb]) in *. rewrite app_assoc in *. apply app_inj_tail in E as [_ <-].
    assert (Hp : height (sb_block p) = Z.of_nat (length l)).
    { apply (branch_heights _ _ _ Hb). by apply lookup_snoc_Some; right. }
    destruct fuel as [|fuel]; [lia|]. cbn [chain_loop].
    destruct (Z.eqb_spec (height (sb_block sb)) 0) as [?|_]; [lia|].
    destruct (branch_last _ _ _ Hb) as (l2 & p2 & E2 & Hg & _). apply app_inj_tail in E2 as [_ <-].
    rewrite Hg. csimpl. rewrite (IH l p); [|done|lia]. by rewrite reverse_app, app_assoc.
Qed.

Lemma chain_to_tip_branch st h l : store_wf st → chain_to_tip st h = Ok l ↔ branch st h l.
Proof.
  intros Hwf. assert (Hb : ∀ l, branch st h l → chain_to_tip st h = Ok l).
  { intros l0 Hb. destruct (branch_last _ _ _ Hb) as (l' & sb & -> & Hg & _). unfold chain_to_tip. rewrite Hg. csimpl.
    rewrite (chain_loop_branch _ _ _ Hb l' sb); [|done..]. by rewrite app_nil_r. }
  split; [|by auto]. intros E. pose proof E as E'. unfold chain_to_tip in E'. inv_ok E'.
  destruct (branch_exists _ _ _ Hwf Hx) as [l2 Hb2]. pose proof (Hb _ Hb2). assert (l = l2) as -> by congruence. done.
Qed.

Lemma chain_to_tip_known st h : store_wf st → is_Some (fs_blocks st !! h) → ∃ l, chain_to_tip st h = Ok l ∧ branch st h l.
Proof.
  intros Hwf [r Hr]. destruct (get_block_row _ _ _ Hwf Hr) as (b & Hg & _).
  destruct (branch_exists _ _ _ Hwf Hg) as [l Hb]. exists l. split; [by apply chain_to_tip_branch|done].
Qed.

Lemma chain_to_tip_unknown st h : fs_blocks st !! h = None →
  chain_to_tip st h = Err (Exn StorageError (py "unknown block: " ++ h)).
Proof. intros Hn. unfold chain_to_tip, get_block. by rewrite Hn. Qed.

(** A larger store has the same branches. *)
Lemma get_block_mono st st' h sb : fs_blocks st ⊆ fs_blocks st' → get_block st h = Ok sb → get_block st' h = Ok sb.
Proof.
  intros Hsub (r & Hr & ?)%get_block_Ok. apply get_block_Ok. exists r. split; [|done]. by eapply lookup_weaken.
Qed.

Lemma branch_mono st st' h l : fs_blocks st ⊆ fs_blocks st' → branch st h l → branch st' h l.
Proof. intros Hsub. induction 1; econstructor; eauto using get_block_mono. Qed.

(** ** Lemmas: the best tip *)

Lemma best_first_total x y : best_first x y = true ∨ best_first y x = true.
Proof.
  unfold best_first. rewrite (Z.compare_antisym (row_cumulative_work y.2)), (Z.compare_antisym (row_height y.2)).
  destruct (row_cumulative_work y.2 ?= row_cumulative_work x.2); simpl; auto.
  destruct (row_height y.2 ?= row_height x.2); simpl; auto using str_leb_total.
Qed.

Lemma best_first_spec x y : best_first x y = true ↔
  row_cumulative_work y.2 < row_cumulative_work x.2 ∨
  row_cumulative_work y.2 = row_cumulative_work x.2 ∧
    (row_height y.2 < row_height x.2 ∨ row_height y.2 = row_height x.2 ∧ str_leb x.1 y.1 = true).
Proof.
  unfold best_first. destruct (Z.compare_spec (row_cumulative_work y.2) (row_cumulative_work x.2));
    [destruct (Z.compare_spec (row_height y.2) (row_height x.2))|..]; split; intros; try done; try lia;
    destruct (str_leb x.1 y.1); try done; try lia; auto.
Qed.

Lemma best_first_trans x y z : best_first x y = true → best_first y z = true → best_first x z = true.
Proof.
  rewrite !best_first_spec. intros [?|[? [?|[? H1]]]] [?|[? [?|[? H2]]]]; try (left; lia); right; split; try lia;
    try (left; lia). right. split; [lia|]. by eapply str_leb_trans.
Qed.

(** The best tip is a stored block that no row precedes. *)
Lemma best_tip_Some st sb : store_wf st → best_tip st = Ok (Some sb) → ∃ h r,
  fs_blocks st !! h = Some r ∧ get_block st h = Ok sb ∧ block_hash (sb_block sb) = Ok h ∧
  ∀ h' r', fs_blocks st !! h' = Some r' → best_first (h, r) (h', r') = true.
Proof.
  intros Hwf E. unfold best_tip in E.
  pose proof (sort_by_sorted best_first best_first_total best_first_trans (map_to_list (fs_blocks st))) as Hs.
  pose proof (sort_by_perm best_first (map_to_list (fs_blocks st))) as Hp.
  destruct (sort_by best_first _) as [|[h r] l]; [done|]. inv_ok E. simplify_eq.
  assert (Hr : fs_blocks st !! h = Some r) by (apply elem_of_map_to_list; rewrite <- Hp; left).
  exists h, r. split_and!; [done..| |].
  - by apply get_block_wf in Hx as [? _].
  - intros h' r' Hr'. apply elem_of_map_to_list in Hr'. rewrite <- Hp in Hr'.
    apply elem_of_cons in Hr' as [->|Hr']; [by destruct (best_first_total (h, r) (h, r))|].
    apply StronglySorted_inv in Hs as [_ Hs]. rewrite Forall_forall in Hs. by apply Hs.
Qed.

Lemma best_tip_None st : best_tip st = Ok None ↔ fs_blocks st = ∅.
Proof.
  unfold best_tip. pose proof (sort_by_perm best_first (map_to_list (fs_blocks st))) as Hp.
  destruct (sort_by best_first _) as [|[h r] l].
  - apply Permutation_nil in Hp. apply map_to_list_empty_iff in Hp. done.
  - split; [intros E; by inv_ok E|]. intros E. rewrite E, map_to_list_empty in Hp. by apply symmetry, Permutation_nil in Hp.
Qed.

Lemma best_tip_total st : store_wf st → ∃ t, best_tip st = Ok t.
Proof.
  intros Hwf. unfold best_tip. pose proof (sort_by_perm best_first (map_to_list (fs_blocks st))) as Hp.
  destruct (sort_by best_first _) as [|[h r] l]; [by eauto|].
  assert (Hr : fs_blocks st !! h = Some r) by (apply elem_of_map_to_list; rewrite <- Hp; left).
  destruct (get_block_row _ _ _ Hwf Hr) as (b & -> & _). csimpl. eauto.
Qed.

Lemma active_chain_branch st l : store_wf st → active_chain st = Ok l →
  l = [] ∧ best_tip st = Ok None ∨
  ∃ t h, best_tip st = Ok (Some t) ∧ block_hash (sb_block t) = Ok h ∧ branch st h l ∧ get_block st h = Ok t.
Proof.
  intros Hwf E. unfold active_chain in E. apply bind_Ok in E as (tip & Ht & E). destruct tip as [t|].
  - right. inv_ok E. exists t, x. pose proof (best_tip_Some _ _ Hwf Ht) as (h & r & _ & Hg & Hh & _).
    simplify_eq. split_and!; [done..|by apply chain_to_tip_branch|]. congruence.
  - left. inv_ok E. by simplify_eq.
Qed.

Lemma active_chain_total st : store_wf st → ∃ l, active_chain st = Ok l.
Proof.
  intros Hwf. unfold active_chain. destruct (best_tip_total st Hwf) as [[t|] Ht]; rewrite Ht; csimpl; [|by eauto].
  destruct (best_tip_Some _ _ Hwf Ht) as (h & r & Hr & _ & Hh & _). rewrite Hh. csimpl.
  destruct (chain_to_tip_known st h Hwf) as (l & Hl & _); eauto.
Qed.

Lemma branch_linked st h l : branch st h l → ∀ k x y, l !! k = Some x → l !! S k = Some y →
  block_hash (sb_block x) = Ok (previous_hash (sb_block y)).
Proof.
  induction 1 as [h sb _ _ _ _ _|h sb l p Hb IH _ _ _ _]; intros k x y Hx Hy; [by destruct k|].
  change [p; sb] with ([p] ++ [sb]) in *. rewrite app_assoc in *.
  apply lookup_snoc_Some in Hy as [[Hk Hy]|[Hk ->]].
  - rewrite lookup_app_l in Hx by lia. eauto.
  - rewrite lookup_app_l in Hx by lia. assert (k = length l) as -> by (rewrite length_app in Hk; simpl in Hk; lia).
    assert (x = p) as -> by (rewrite list_lookup_middle in Hx; congruence).
    destruct (branch_last _ _ _ Hb) as (l2 & p2 & E2 & _ & ?). by apply app_inj_tail in E2 as [_ <-].
Qed.

Lemma branch_tip st h l : branch st h l → chain_tip ZERO_HASH (sb_block <$> l) = Ok h.
Proof.
  intros Hb. destruct (branch_last _ _ _ Hb) as (l' & sb & -> & _ & Hh). unfold chain_tip.
  rewrite fmap_app. csimpl. by rewrite last_snoc.
Qed.

Lemma best_first_antisym x y : best_first x y = true → best_first y x = true → x.1 = y.1.
Proof.
  rewrite !best_first_spec. intros [?|[? [?|[? H1]]]] [?|[? [?|[? H2]]]]; try lia. by apply str_leb_antisym.
Qed.

Lemma best_tip_unique st h r sb : store_wf st → fs_blocks st !! h = Some r → get_block st h = Ok sb →
  (∀ h' r', fs_blocks st !! h' = Some r' → best_first (h, r) (h', r') = true) → best_tip st = Ok (Some sb).
Proof.
  intros Hwf Hr Hg Hbest. destruct (best_tip_total st Hwf) as [[t|] Ht].
  - destruct (best_tip_Some _ _ Hwf Ht) as (h' & r' & Hr' & Hg' & _ & Hbest').
    assert (h = h') as <- by (apply (best_first_antisym (h, r) (h', r')); auto). congruence.
  - apply best_tip_None in Ht. by rewrite Ht, lookup_empty in Hr.
Qed.

(** [sb] is preferred to [t]: more work, then greater height, then the smaller
    hash. *)
Definition better (sb : StoredBlock) (h : str) (t : StoredBlock) (ht : str) : Prop :=
  cumulative_work t < cumulative_work sb ∨
  cumulative_work t = cumulative_work sb ∧
    (height (sb_block t) < height (sb_block sb) ∨ height (sb_block t) = height (sb_block sb) ∧ str_leb h ht = true).

Lemma better_rows st h r sb ht rt t : store_wf st → fs_blocks st !! h = Some r → get_block st h = Ok sb →
  fs_blocks st !! ht = Some rt → get_block st ht = Ok t → best_first (h, r) (ht, rt) = true ↔ better sb h t ht.
Proof.
  intros Hwf Hr Hg Hrt Hgt. destruct (get_block_row _ _ _ Hwf Hr) as (b & Hb & _ & _ & Hh & _).
  destruct (get_block_row _ _ _ Hwf Hrt) as (bt & Hbt & _ & _ & Hht & _). rewrite Hb in Hg. rewrite Hbt in Hgt. injection Hg as <-. injection Hgt as <-.
  rewrite best_first_spec. unfold better. simpl. by rewrite Hh, Hht.
Qed.

(** The best tip after a new block: the block itself, or the old one. *)
Lemma put_new_best st st' b sb h : store_wf st → store_wf st' → fs_blocks st ⊆ fs_blocks st' →
  put_block b st = (st', Ok sb) → block_hash b = Ok h → fs_blocks st !! h = None →
  canonical_block b →
  sb_block sb = b ∧ get_block st' h = Ok sb ∧
  (best_tip st = Ok None → best_tip st' = Ok (Some sb)) ∧
  (∀ t ht, best_tip st = Ok (Some t) → block_hash (sb_block t) = Ok ht →
     (better sb h t ht → best_tip st' = Ok (Some sb)) ∧ (¬ better sb h t ht → best_tip st' = Ok (Some t))).
Proof.
  intros Hwf Hwf' Hsub E Hh Hn Hc.
  apply put_block_Ok in E as (h' & Hh' & [(Hs & _)|(_ & w & p & _ & Hp & -> & _ & Est)]); assert (h' = h) as -> by congruence.
  { rewrite Hn in Hs. by destruct Hs. }
  set (r := mkRow (height b) (previous_hash b) (difficulty b) w p) in *.
  assert (Hr : fs_blocks st' !! h = Some r) by (subst st'; simpl; apply lookup_insert_eq).
  assert (Hg : get_block st' h = Ok (mkStored b w)).
  { apply get_block_Ok. exists r. split; [done|]. split; [by apply decode_encode_block|done]. }
  assert (Hrefl : best_first (h, r) (h, r) = true) by (by destruct (best_first_total (h, r) (h, r))).
  assert (Hrows : ∀ h' r', fs_blocks st' !! h' = Some r' → (h', r') = (h, r) ∨ fs_blocks st !! h' = Some r').
  { intros h' r' Hr'. subst st'. simpl in Hr'. apply lookup_insert_Some in Hr' as [[<- <-]|[_ ?]]; auto. }
  split; [done|]. split; [done|]. split.
  - intros Ht. apply best_tip_None in Ht. apply (best_tip_unique st' h r); [done..|]. intros h' r' [[= -> ->]|Hr']%Hrows; [done|].
    by rewrite Ht, lookup_empty in Hr'.
  - intros t ht Ht Hht. destruct (best_tip_Some _ _ Hwf Ht) as (h2 & rt & Hrt & Hgt & Hht2 & Hbest).
    assert (h2 = ht) as -> by congruence. pose proof (lookup_weaken _ _ _ _ Hrt Hsub) as Hrt'.
    pose proof (get_block_mono _ _ _ _ Hsub Hgt) as Hgt'. pose proof (better_rows _ _ _ _ _ _ _ Hwf' Hr Hg Hrt' Hgt') as Hb.
    split; intros Hbet.
    + apply Hb in Hbet. apply (best_tip_unique st' h r); [done..|]. intros h' r' [[= -> ->]|Hr']%Hrows; [done|].
      eapply best_first_trans; [done|by apply Hbest].
    + rewrite <- Hb in Hbet. apply (best_tip_unique st' ht rt); [done..|]. intros h' r' [[= -> ->]|Hr']%Hrows; [|by apply Hbest].
      by destruct (best_first_total (ht, rt) (h, r)).
Qed.

Lemma put_block_best st st' b r t t' : store_wf st → store_wf st' → fs_blocks st ⊆ fs_blocks st' →
  put_block b st = (st', r) → best_tip st = Ok (Some t) → best_tip st' = Ok (Some t') →
  cumulative_work t ≤ cumulative_work t'.
Proof.
  intros Hwf Hwf' Hsub _ Ht Ht'. destruct (best_tip_Some _ _ Hwf Ht) as (h & x & Hx & Hg & _).
  destruct (best_tip_Some _ _ Hwf' Ht') as (h' & x' & Hx' & Hg' & _ & Hmax).
  apply get_block_Ok in Hg as (? & ? & _ & ->), Hg' as (? & ? & _ & ->). simplify_eq.
  specialize (Hmax h x ltac:(by eapply lookup_weaken)). apply best_first_spec in Hmax. simpl in Hmax. lia.
Qed.

(** ** Properties *)

Definition sample_store : ForkStore :=
  (put_block sample_second (put_block sample_genesis empty_store).1).1.

Lemma sample_store_wf : store_wf sample_store.
Proof. apply (bool_decide_unpack (store_wf sample_store)). vm_compute. exact I. Qed.

(** What a caller of [put_block] sees. *)
Definition put_outcome (st st' : ForkStore) (b : ConsensusBlock) (r : result StoredBlock) : Prop :=
  match r with
  | Ok sb => ∃ h, block_hash b = Ok h ∧ get_block st' h = Ok sb
  | Err _ => st' = st
  end.

Definition is_tip (r : result (option StoredBlock)) : bool := match r with Ok (Some _) => true | _ => false end.

(** [put_block] keeps the store well formed, never drops or changes a block,
    and leaves the tables alone when it raises; a block it returns can be read
    back under its hash with its cumulative work. *)
Theorem put_block_preserves st b st' r :
  store_wf st → canonical_block b → 0 ≤ difficulty b → put_block b st = (st', r) →
  store_wf st' ∧ (∀ h sb, get_block st h = Ok sb → get_block st' h = Ok sb) ∧
  put_outcome st st' b r.
Proof.
  intros Hwf Hc Hd E. destruct (put_block_wf _ _ _ _ Hwf Hc Hd E) as [Hwf' Hsub].
  split; [done|]. split; [intros; by eapply get_block_mono|]. destruct r as [sb|e]; [|by apply put_block_err in E].
  apply put_block_Ok in E as (h & Hh & [(_ & -> & Hg)|(_ & w & p & _ & Hp & -> & _ & ->)]); exists h; [done|].
  split; [done|]. apply get_block_Ok. simpl. rewrite lookup_insert_eq. eexists. split; [done|]. simpl.
  split; [|done]. by apply decode_encode_block.
Qed.

Definition sample_put : SM ForkStore StoredBlock := put_block sample_second.

Lemma put_block_preserves_witness :
  store_wf (sample_put sample_store).1 ∧
  (∀ h sb, get_block sample_store h = Ok sb → get_block (sample_put sample_store).1 h = Ok sb) ∧
  put_outcome sample_store (sample_put sample_store).1 sample_second (sample_put sample_store).2.
Proof.
  apply (put_block_preserves sample_store sample_second).
  - apply sample_store_wf.
  - apply (bool_decide_unpack (canonical_block sample_second)). vm_compute. exact I.
  - vm_compute. discriminate.
  - apply surjective_pairing.
Defined.

(** C24: The walk to the parents terminates: in a well-formed store every stored
    block has a chain, which starts at height 0 on the zero hash, rises by one
    and links hash to previous hash at every step, ends at the block, and whose
    work adds up to the cumulative work stored with it. *)
Theorem chain_to_tip_complete st h :
  store_wf st → is_Some (fs_blocks st !! h) →
  ∃ l sb, chain_to_tip st h = Ok (l ++ [sb]) ∧ get_block st h = Ok sb ∧
    (∀ k x, (l ++ [sb]) !! k = Some x → height (sb_block x) = Z.of_nat k) ∧
    (∀ k x y, (l ++ [sb]) !! k = Some x → (l ++ [sb]) !! S k = Some y →
       block_hash (sb_block x) = Ok (previous_hash (sb_block y))) ∧
    cumulative_work sb = sumZ ((λ x, work_for (sb_block x)) <$> l ++ [sb]).
Proof.
  intros Hwf Hh. destruct (chain_to_tip_known _ _ Hwf Hh) as (l & Hl & Hb).
  destruct (branch_last _ _ _ Hb) as (l' & sb & -> & Hg & _). exists l', sb.
  split_and!; [done..|by eapply branch_heights|by eapply branch_linked|by eapply branch_work].
Qed.

Definition sample_second_hash : str := Eval vm_compute in hash_or (block_hash sample_second).

Lemma chain_to_tip_complete_witness :
  ∃ l sb, chain_to_tip sample_store sample_second_hash = Ok (l ++ [sb]) ∧
    get_block sample_store sample_second_hash = Ok sb ∧
    (∀ k x, (l ++ [sb]) !! k = Some x → height (sb_block x) = Z.of_nat k) ∧
    (∀ k x y, (l ++ [sb]) !! k = Some x → (l ++ [sb]) !! S k = Some y →
       block_hash (sb_block x) = Ok (previous_hash (sb_block y))) ∧
    cumulative_work sb = sumZ ((λ x, work_for (sb_block x)) <$> l ++ [sb]).
Proof.
  apply (chain_to_tip_complete sample_store sample_second_hash); [apply sample_store_wf|].
  apply (bool_decide_unpack (is_Some (fs_blocks sample_store !! sample_second_hash))). vm_compute. exact I.
Defined.

(** [best_tip] finds a block exactly when one is stored, and it is the one
    with the most cumulative work, then the greatest height, then the least
    hash; storing a block never lowers the work of the best tip. *)
Theorem best_tip_heaviest st :
  store_wf st →
  (best_tip st = Ok None ∧ fs_blocks st = ∅ ∨
   ∃ t h r, best_tip st = Ok (Some t) ∧ get_block st h = Ok t ∧ fs_blocks st !! h = Some r ∧
     ∀ h' r', fs_blocks st !! h' = Some r' →
       row_cumulative_work r' < row_cumulative_work r ∨
       row_cumulative_work r' = row_cumulative_work r ∧
         (row_height r' < row_height r ∨ row_height r' = row_height r ∧ str_leb h h' = true)) ∧
  (∀ b st' r t t', canonical_block b → 0 ≤ difficulty b → put_block b st = (st', r) →
     best_tip st = Ok (Some t) → best_tip st' = Ok (Some t') → cumulative_work t ≤ cumulative_work t').
Proof.
  intros Hwf. split.
  - destruct (best_tip_total st Hwf) as [[t|] Ht]; [right|left; split; [done|by apply best_tip_None]].
    destruct (best_tip_Some _ _ Hwf Ht) as (h & r & Hr & Hg & _ & Hmax). exists t, h, r. split_and!; [done..|].
    intros h' r' Hr'. apply Hmax, best_first_spec in Hr'. done.
  - intros b st' r t t' Hc Hd E. destruct (put_block_wf _ _ _ _ Hwf Hc Hd E) as [Hwf' Hsub].
    by eapply put_block_best.
Qed.

Lemma sample_store_tip : is_tip (best_tip sample_store) = true.
Proof. vm_compute. reflexivity. Qed.

Lemma best_tip_heaviest_witness :
  ∃ t, best_tip sample_store = Ok (Some t) ∧
  ∀ b st' r t', canonical_block b → 0 ≤ difficulty b → put_block b sample_store = (st', r) →
     best_tip st' = Ok (Some t') → cumulative_work t ≤ cumulative_work t'.
Proof.
  destruct (best_tip_heaviest sample_store sample_store_wf) as [[[E _]|(t & h & r & Ht & _)] Hmono].
  - pose proof sample_store_tip as Hn. rewrite E in Hn. discriminate Hn.
  - exists t. split; [exact Ht|]. intros b st' r' t' Hc Hd E Ht'. exact (Hmono b st' r' t t' Hc Hd E Ht Ht').
Defined.
