(* ===== verification/ForkChoice.v ===== *)
(** * Fork choice (fork_choice.py)

    [ForkChoice] selects the best stored tip and replays its branch through the
    consensus rules.  The object shares the fork store with the node, so the
    store is an argument of its methods.  [store_valid] says that every stored
    branch replays; it is what a node needs to keep true, and a block that the
    processor accepts on its parent's branch keeps it. *)

From S2P Require Import Prelude PyBytes PyText Sha256 Crypto ByteReader Transaction Block Utxo State BlockProcessor ForkStore.
Local Open Scope Z_scope.

Record ForkChoice := mkForkChoice { fc_block_subsidy : Z; fc_max_money : Z }.

(** [ActiveChain] *)
Record ActiveChain := mkActive { ac_blocks : list ConsensusBlock; ac_state : ConsensusState; ac_work : Z }.

(** [ActiveChain.tip] *)
Definition ac_tip (a : ActiveChain) : option ConsensusBlock := last (ac_blocks a).

(** [except c as exc: raise d(msg) from exc] *)
Definition reraise {A} (c d : exn_class) (msg : string) (m : result A) : result A :=
  try_catch m (λ e, if exn_is c e then raise d msg else Err e).

Section fork_choice.
Context `{Ed25519}.

(** [_validate_stored_chain] *)
Definition validate_stored_chain (fc : ForkChoice) (l : list StoredBlock) : result ActiveChain :=
  s ← reraise ConsensusError ForkChoiceError "stored branch failed consensus validation"
        (rebuild_state_from_blocks (sb_block <$> l) (fc_block_subsidy fc) (fc_max_money fc));
  match last l with
  | None => raise KeyError "list index out of range"
  | Some sb => Ok (mkActive (sb_block <$> l) s (cumulative_work sb))
  end.

(** [ForkChoice.active_chain] *)
Definition fc_active_chain (fc : ForkChoice) (st : ForkStore) : result ActiveChain :=
  l ← reraise StorageError ForkChoiceError "active branch is disconnected" (active_chain st);
  match l with
  | [] => s ← state_init None (fc_block_subsidy fc) (fc_max_money fc); Ok (mkActive [] s 0)
  | _ => validate_stored_chain fc l
  end.

(** [ForkChoice.chain_to_tip] *)
Definition fc_chain_to_tip (fc : ForkChoice) (st : ForkStore) (tip_hash : str) : result ActiveChain :=
  l ← chain_to_tip st tip_hash; validate_stored_chain fc l.

(** [ForkChoice.add_block] *)
Definition fc_add_block (fc : ForkChoice) (b : ConsensusBlock) : SM ForkStore ActiveChain :=
  put_block b;;
  st ← sm_get;
  sm_lift (fc_active_chain fc st).

(** The body of the loop of [validate_all_known_branches]. *)
Definition validate_branch (fc : ForkChoice) (st : ForkStore) (h : str) : result unit :=
  stored ← get_block st h;
  tip ← block_hash (sb_block stored);
  reraise StorageError ForkChoiceError "stored branch is disconnected"
    (fc_chain_to_tip fc st tip;; Ok tt).

(** [validate_all_known_branches] *)
Definition validate_all_known_branches (fc : ForkChoice) (st : ForkStore) : result unit :=
  foldR (λ _ h, validate_branch fc st h) tt (iter_hashes st).

End fork_choice.

(** ** The invariant *)

(** [a] is the branch that ends in [h], replayed. *)
Definition branch_state `{Ed25519} (fc : ForkChoice) (st : ForkStore) (h : str) (a : ActiveChain) : Prop :=
  ∃ l sb, branch st h (l ++ [sb]) ∧ ac_blocks a = sb_block <$> l ++ [sb] ∧
    rebuild_state_from_blocks (ac_blocks a) (fc_block_subsidy fc) (fc_max_money fc) = Ok (ac_state a) ∧
    ac_work a = cumulative_work sb.

Definition store_valid `{Ed25519} (fc : ForkChoice) (st : ForkStore) : Prop :=
  store_wf st ∧ ∀ h, is_Some (fs_blocks st !! h) → is_ok (fc_chain_to_tip fc st h) = true.

(** ** Lemmas *)

Lemma reraise_Ok {A} c d msg (m : result A) x : reraise c d msg m = Ok x ↔ m = Ok x.
Proof. unfold reraise, try_catch. destruct m as [a|e]; [done|]. split; [|done]. by case_match. Qed.

Lemma is_ok_spec {A} (m : result A) : is_ok m = true ↔ ∃ x, m = Ok x.
Proof. destruct m; naive_solver. Qed.

Section fork_choice_lemmas.
Context `{ED : Ed25519}.

Lemma validate_stored_chain_Ok fc l sb a :
  validate_stored_chain fc (l ++ [sb]) = Ok a ↔
  ac_blocks a = sb_block <$> l ++ [sb] ∧
  rebuild_state_from_blocks (ac_blocks a) (fc_block_subsidy fc) (fc_max_money fc) = Ok (ac_state a) ∧
  ac_work a = cumulative_work sb.
Proof.
  unfold validate_stored_chain. rewrite bind_Ok, last_snoc. split.
  - intros (s & Hs%reraise_Ok & [= <-]). done.
  - intros (Hb & Hs & Hw). destruct a as [bs s w]. simpl in *. subst. exists s. split; [by apply reraise_Ok|done].
Qed.

Lemma fc_chain_to_tip_Ok fc st h a : store_wf st → fc_chain_to_tip fc st h = Ok a ↔ branch_state fc st h a.
Proof.
  intros Hwf. unfold fc_chain_to_tip, branch_state. rewrite bind_Ok. split.
  - intros (l & Hl & Ha). apply (chain_to_tip_branch _ _ _ Hwf) in Hl.
    destruct (branch_last _ _ _ Hl) as (l' & sb & -> & _). apply validate_stored_chain_Ok in Ha. eauto.
  - intros (l & sb & Hb & Ha). exists (l ++ [sb]). split; [by apply chain_to_tip_branch|].
    by apply validate_stored_chain_Ok.
Qed.

Lemma branch_state_mono fc st st' h a : fs_blocks st ⊆ fs_blocks st' → branch_state fc st h a → branch_state fc st' h a.
Proof. intros Hsub (l & sb & Hb & Ha). exists l, sb. split; [by eapply branch_mono|done]. Qed.

Lemma fc_active_chain_None fc st a : best_tip st = Ok None → 0 ≤ fc_block_subsidy fc → 0 < fc_max_money fc →
  fc_active_chain fc st = Ok a ↔ a = mkActive [] (mkState ∅ (fc_block_subsidy fc) (fc_max_money fc)) 0.
Proof.
  intros Ht Hs Hm. unfold fc_active_chain, active_chain. rewrite Ht. csimpl. unfold state_init.
  rewrite (proj2 (Z.ltb_ge _ _) Hs), (proj2 (Z.leb_gt _ _) Hm). csimpl. naive_solver.
Qed.

Lemma fc_active_chain_Some fc st t h : store_wf st → best_tip st = Ok (Some t) → block_hash (sb_block t) = Ok h →
  fc_active_chain fc st = fc_chain_to_tip fc st h.
Proof.
  intros Hwf Ht Hh. unfold fc_active_chain, fc_chain_to_tip, active_chain. rewrite Ht. csimpl. rewrite Hh. csimpl.
  destruct (best_tip_Some _ _ Hwf Ht) as (h' & r & Hr & _ & Hh' & _). assert (h' = h) as -> by congruence.
  destruct (chain_to_tip_known st h Hwf) as (l & Hl & Hb); [by eexists|]. rewrite Hl. csimpl.
  destruct (branch_last _ _ _ Hb) as (l' & sb & -> & _). by destruct l'.
Qed.

(** A block the processor accepts on its parent's branch extends that branch. *)
Lemma extend_branch fc st st' b sb h a s' fees :
  store_wf st → store_wf st' → fs_blocks st ⊆ fs_blocks st' →
  branch_state fc st (previous_hash b) a →
  get_block st' h = Ok sb → sb_block sb = b → height b ≠ 0 →
  apply_block b (height b) (previous_hash b) (ac_state a) = (s', Ok fees) →
  branch_state fc st' h (mkActive (ac_blocks a ++ [b]) s' (cumulative_work sb)).
Proof.
  intros Hwf Hwf' Hsub (l & p & Hb & Hbs & Hr & Hw) Hg <- Hh Ha.
  apply (branch_mono _ _ _ _ Hsub) in Hb as Hb'.
  destruct (get_block_wf _ _ _ Hwf' Hg) as (Hhash & _ & _ & H0 & Hpar).
  destruct (branch_last _ _ _ Hb') as (l2 & p2 & E & Hgp & Hhp). apply app_inj_tail in E as [<- <-].
  unfold parent_ok in Hpar. destruct (Z.eqb_spec (height (sb_block sb)) 0) as [|_]; [done|].
  pose proof Hgp as (r & Hrow & Hd & Hwk)%get_block_Ok. rewrite Hrow in Hpar. destruct Hpar as [Hrh Hwork].
  destruct (get_block_row _ _ _ Hwf' Hrow) as (pb & Hpb & _ & _ & Hrh2 & _). rewrite Hpb in Hgp. simplify_eq. simpl in *.
  assert (Hbr : branch st' h (l ++ [mkStored pb (row_cumulative_work r); sb])).
  { apply branch_child; simpl; [done|done|done|lia|done]. }
  exists (l ++ [mkStored pb (row_cumulative_work r)]), sb. rewrite <- app_assoc. split; [done|]. simpl.
  rewrite Hbs, (fmap_app _ l), fmap_app, <- app_assoc. split; [done|]. split; [|done].
  change (sb_block <$> [_; sb]) with ([pb] ++ [sb_block sb]). rewrite app_assoc.
  rewrite Hbs in Hr. rewrite fmap_app in Hr.
  pose proof (branch_heights _ _ _ Hb' (length l) (mkStored pb (row_cumulative_work r))) as Hph.
  rewrite (rebuild_snoc _ _ _ _ _ (previous_hash (sb_block sb)) Hr).
  - replace (zlen ((sb_block <$> l) ++ [pb])) with (height (sb_block sb)); [by rewrite Ha|].
    unfold zlen. rewrite length_app, length_fmap. simpl.
    rewrite lookup_snoc_Some in Hph. specialize (Hph (or_intror (conj eq_refl eq_refl))). simpl in Hph. lia.
  - unfold chain_tip. csimpl. by rewrite last_snoc.
Qed.

(** The genesis block is a branch of its own. *)
Lemma genesis_branch fc st b sb h s' fees :
  store_wf st → get_block st h = Ok sb → sb_block sb = b → height b = 0 →
  apply_block b 0 ZERO_HASH (mkState ∅ (fc_block_subsidy fc) (fc_max_money fc)) = (s', Ok fees) →
  branch_state fc st h (mkActive [b] s' (cumulative_work sb)).
Proof.
  intros Hwf Hg <- Hh Ha. destruct (get_block_wf _ _ _ Hwf Hg) as (Hhash & _ & _ & _ & Hpar).
  unfold parent_ok in Hpar. rewrite Hh in Hpar. simpl in Hpar. destruct Hpar as [Hp Hw].
  exists [], sb. split; [by constructor|]. split; [done|]. split; [|done]. simpl.
  apply rebuild_Ok. pose proof Ha as (Hs & Hm & Hstep)%apply_block_Ok. split; [done|]. split; [done|].
  econstructor; [exact Hstep|exact Hhash|constructor].
Qed.

Lemma store_valid_put fc st st' h a r0 : store_valid fc st → store_wf st' →
  fs_blocks st' = <[h := r0]> (fs_blocks st) → fs_blocks st ⊆ fs_blocks st' →
  branch_state fc st' h a → store_valid fc st'.
Proof.
  intros [Hwf Hv] Hwf' E Hsub Ha. split; [done|]. intros h' [r Hr].
  rewrite E in Hr. apply lookup_insert_Some in Hr as [[<- _]|[_ Hr]].
  - apply is_ok_spec. exists a. by apply fc_chain_to_tip_Ok.
  - destruct (proj1 (is_ok_spec _) (Hv h' (ex_intro _ r Hr))) as [a' Ha'].
    apply is_ok_spec. exists a'. apply fc_chain_to_tip_Ok; [done|].
    eapply branch_state_mono; [done|]. by apply fc_chain_to_tip_Ok.
Qed.

Lemma iter_hashes_spec st h : h ∈ iter_hashes st ↔ is_Some (fs_blocks st !! h).
Proof.
  unfold iter_hashes. rewrite list_elem_of_fmap. setoid_rewrite sort_by_perm. split.
  - intros ([h' r] & -> & Hr%elem_of_map_to_list). by eexists.
  - intros [r Hr]. exists (h, r). split; [done|]. by apply elem_of_map_to_list.
Qed.

Lemma validate_branch_Ok fc st h u : store_wf st →
  validate_branch fc st h = Ok u ↔ is_Some (fs_blocks st !! h) ∧ is_ok (fc_chain_to_tip fc st h) = true.
Proof.
  intros Hwf. unfold validate_branch. destruct u. rewrite is_ok_spec. split.
  - intros E. inv_ok E. pose proof Hx as (r & Hr & _)%get_block_Ok.
    apply get_block_wf in Hx as [Hh _]; [|done]. assert (x0 = h) as -> by congruence.
    apply reraise_Ok in E. inv_ok E. split; eauto.
  - intros [[r Hr] [a Ha]]. destruct (get_block_row _ _ _ Hwf Hr) as (b & Hg & Hh & _).
    rewrite Hg. csimpl. rewrite Hh. csimpl. apply reraise_Ok. by rewrite Ha.
Qed.

(** Storing a block that was accepted on its parent's branch, or as genesis,
    keeps the store valid, and the block's branch is the one just computed. *)
Lemma put_accepted fc st st' b sb a s' fees :
  store_valid fc st → canonical_block b → 0 ≤ difficulty b → put_block b st = (st', Ok sb) →
  (height b ≠ 0 ∧ branch_state fc st (previous_hash b) a ∧
     apply_block b (height b) (previous_hash b) (ac_state a) = (s', Ok fees) ∨
   height b = 0 ∧ a = mkActive [] (mkState ∅ (fc_block_subsidy fc) (fc_max_money fc)) 0 ∧
     apply_block b 0 ZERO_HASH (ac_state a) = (s', Ok fees)) →
  store_valid fc st' ∧ ∃ h, block_hash b = Ok h ∧
    (fs_blocks st !! h = None → branch_state fc st' h (mkActive (ac_blocks a ++ [b]) s' (cumulative_work sb))).
Proof.
  intros Hv Hc Hd E Ha. pose proof Hv as [Hwf _]. destruct (put_block_wf _ _ _ _ Hwf Hc Hd E) as [Hwf' Hsub].
  apply put_block_Ok in E as (h & Hh & [(Hs & -> & Hg)|(Hn & w & p & Hw & Hp & -> & _ & Est)]).
  - split; [done|]. exists h. split; [done|]. intros Hn. rewrite Hn in Hs. by destruct Hs.
  - assert (Hg : get_block st' h = Ok (mkStored b w)).
    { apply get_block_Ok. subst. simpl. rewrite lookup_insert_eq. eexists. split; [done|].
      split; [by apply decode_encode_block|done]. }
    assert (Hbr : branch_state fc st' h (mkActive (ac_blocks a ++ [b]) s' w)).
    { destruct Ha as [(H0 & Ha & Happ)|(H0 & -> & Happ)].
      - exact (extend_branch fc st st' b _ h a s' fees Hwf Hwf' Hsub Ha Hg eq_refl H0 Happ).
      - exact (genesis_branch fc st' b _ h s' fees Hwf' Hg eq_refl H0 Happ). }
    split; [|by exists h]. eapply store_valid_put; [done..| |done|done]. by rewrite Est.
Qed.

Lemma validate_all_Ok fc st : store_wf st → validate_all_known_branches fc st = Ok tt ↔ store_valid fc st.
Proof.
  intros Hwf. unfold validate_all_known_branches. rewrite foldR_unit, Forall_forall. split.
  - intros Hall. split; [done|]. intros h Hh%iter_hashes_spec. apply Hall, validate_branch_Ok in Hh; [|done]. by destruct Hh.
  - intros [_ Hv] h Hh%iter_hashes_spec. apply validate_branch_Ok; [done|]. auto.
Qed.

(** The active chain of a valid store. *)
Lemma fc_active_chain_valid fc st : store_valid fc st → 0 ≤ fc_block_subsidy fc → 0 < fc_max_money fc →
  ∃ a, fc_active_chain fc st = Ok a ∧
    rebuild_state_from_blocks (ac_blocks a) (fc_block_subsidy fc) (fc_max_money fc) = Ok (ac_state a) ∧
    (best_tip st = Ok None ∧ ac_blocks a = [] ∧ ac_state a = mkState ∅ (fc_block_subsidy fc) (fc_max_money fc) ∨
     ∃ t h, best_tip st = Ok (Some t) ∧ block_hash (sb_block t) = Ok h ∧ ac_tip a = Some (sb_block t) ∧
       branch_state fc st h a).
Proof.
  intros [Hwf Hv] Hs Hm. destruct (best_tip_total st Hwf) as [[t|] Ht].
  - destruct (best_tip_Some _ _ Hwf Ht) as (h & r & Hr & Hg & Hh & _).
    destruct (proj1 (is_ok_spec _) (Hv h (ex_intro _ r Hr))) as [a Ha].
    rewrite (fc_active_chain_Some _ _ _ _ Hwf Ht Hh). exists a. split; [done|].
    apply fc_chain_to_tip_Ok in Ha; [|done]. pose proof Ha as (l & sb & Hb & Hbs & Hr' & _).
    split; [done|]. right. exists t, h. split_and!; [done..| |done].
    destruct (branch_last _ _ _ Hb) as (l2 & p2 & E & Hg2 & _). apply app_inj_tail in E as [<- <-].
    unfold ac_tip. rewrite Hbs, fmap_app. csimpl. rewrite last_snoc. do 2 f_equal. congruence.
  - eexists. split; [by apply fc_active_chain_None|]. simpl. split; [|by left].
    apply rebuild_Ok. split; [done|]. split; [done|]. constructor.
Qed.

End fork_choice_lemmas.

(** ** Properties *)

Definition sample_fc : ForkChoice := mkForkChoice 50 MAX_MONEY.

Lemma sample_store_valid : @store_valid toy_ed25519 sample_fc sample_store.
Proof. apply validate_all_Ok; [apply sample_store_wf|]. vm_compute. reflexivity. Qed.

(** On a valid store the active chain exists and is the branch of the best
    tip: its blocks replay to its state, and it is empty exactly when nothing is
    stored.  No exception can escape. *)
Theorem active_chain_correct `{Ed25519} fc st :
  store_valid fc st → 0 ≤ fc_block_subsidy fc → 0 < fc_max_money fc →
  ∃ a, fc_active_chain fc st = Ok a ∧
    rebuild_state_from_blocks (ac_blocks a) (fc_block_subsidy fc) (fc_max_money fc) = Ok (ac_state a) ∧
    (best_tip st = Ok None ∧ ac_blocks a = [] ∨
     ∃ t h, best_tip st = Ok (Some t) ∧ block_hash (sb_block t) = Ok h ∧ ac_tip a = Some (sb_block t) ∧
       branch_state fc st h a).
Proof.
  intros Hv Hs Hm. destruct (fc_active_chain_valid fc st Hv Hs Hm) as (a & ? & ? & [(? & ? & _)|?]); exists a; eauto 10.
Qed.

Lemma active_chain_correct_witness :
  ∃ a, @fc_active_chain toy_ed25519 sample_fc sample_store = Ok a ∧
    @rebuild_state_from_blocks toy_ed25519 (ac_blocks a) 50 MAX_MONEY = Ok (ac_state a) ∧
    (best_tip sample_store = Ok None ∧ ac_blocks a = [] ∨
     ∃ t h, best_tip sample_store = Ok (Some t) ∧ block_hash (sb_block t) = Ok h ∧ ac_tip a = Some (sb_block t) ∧
       @branch_state toy_ed25519 sample_fc sample_store h a).
Proof. apply (@active_chain_correct toy_ed25519 sample_fc sample_store); [apply sample_store_valid|done|done]. Defined.

(** [validate_all_known_branches] is a decision procedure: on a well-formed
    store it returns exactly when every stored branch, side branches included,
    replays through the consensus rules from the genesis block. *)
Theorem validate_all_decides `{Ed25519} fc st :
  store_wf st →
  (validate_all_known_branches fc st = Ok tt ↔
   ∀ h, is_Some (fs_blocks st !! h) → ∃ a, branch_state fc st h a).
Proof.
  intros Hwf. rewrite validate_all_Ok by done. split.
  - intros [_ Hv] h Hh. apply Hv, is_ok_spec in Hh as [a Ha]. exists a. by apply fc_chain_to_tip_Ok.
  - intros Hall. split; [done|]. intros h Hh. apply Hall in Hh as [a Ha]. apply is_ok_spec. exists a.
    by apply fc_chain_to_tip_Ok.
Qed.

Lemma validate_all_decides_witness :
  @validate_all_known_branches toy_ed25519 sample_fc sample_store = Ok tt ↔
  ∀ h, is_Some (fs_blocks sample_store !! h) → ∃ a, @branch_state toy_ed25519 sample_fc sample_store h a.
Proof. apply (@validate_all_decides toy_ed25519 sample_fc sample_store). apply sample_store_wf. Defined.
