(* ===== verification/Stores.v ===== *)
(** * The auxiliary stores (storage.py)

    [SQLiteUTXOIndex], [SQLiteMempoolStore], [SQLiteInvalidBlockCache] and
    [SQLitePeerSyncStore].  A table is a finite map from its primary key to the
    other columns; an [INSERT] of a key that exists raises [IntegrityError], of
    an integer that needs more than 64 bits [OverflowError], and either rolls the
    surrounding transaction back. *)

From S2P Require Import Prelude PyBytes PyText Sha256 Crypto ByteReader Transaction Block Utxo State BlockProcessor ForkStore.
Local Open Scope Z_scope.

(** [executemany("INSERT INTO ...", rows)]: [check] binds the row's integers. *)
Definition insert_row {K V} `{Countable K} (check : K → V → result unit) (m : gmap K V) (row : K * V) :
    result (gmap K V) :=
  check row.1 row.2;;
  raise_if (bool_decide (is_Some (m !! row.1))) IntegrityError "UNIQUE constraint failed";;
  Ok (<[row.1 := row.2]> m).

Definition insert_rows {K V} `{Countable K} (check : K → V → result unit) (m : gmap K V) (rows : list (K * V)) :
    result (gmap K V) :=
  foldR (insert_row check) m rows.

(** ** SQLiteUTXOIndex *)

Record UTXOIndex := mkIndex {
  ui_active_tip : option str;
  ui_utxos : gmap OutPoint TxOutput;
  ui_snapshots : gmap (str * OutPoint) TxOutput;
  ui_spent : gmap (str * OutPoint) (str * Z);
}.

Definition empty_index : UTXOIndex := mkIndex None ∅ ∅ ∅.

(** [IndexedSpend] *)
Record IndexedSpend := mkSpend { sp_outpoint : OutPoint; sp_txid : str; sp_input_index : Z }.

Definition bind_utxo (o : OutPoint) (x : TxOutput) : result unit := sqlite_int (op_index o);; sqlite_int (amount x).
Definition bind_snapshot (k : str * OutPoint) (x : TxOutput) : result unit := bind_utxo k.2 x.
Definition bind_spend (k : str * OutPoint) (v : str * Z) : result unit :=
  sqlite_int (op_index k.2);; sqlite_int v.2.

(** [DELETE FROM ... WHERE tip_hash = ?] *)
Definition delete_tip {V} (tip : str) (m : gmap (str * OutPoint) V) : gmap (str * OutPoint) V :=
  filter (λ e, e.1.1 ≠ tip) m.

(** [_save_tip_snapshot] *)
Definition tip_snapshot_rows (i : UTXOIndex) (tip : str) (m : UTXOSet) : result UTXOIndex :=
  rows ← insert_rows bind_snapshot (delete_tip tip (ui_snapshots i))
           ((λ e, ((tip, e.1), e.2)) <$> utxo_entries m);
  Ok (mkIndex (ui_active_tip i) (ui_utxos i) rows (ui_spent i)).

(** [save_tip_snapshot] *)
Definition save_tip_snapshot (tip : str) (m : UTXOSet) : SM UTXOIndex unit :=
  sm_atomic (i ← sm_get; i' ← sm_lift (tip_snapshot_rows i tip m); sm_put i').

(** [save_snapshot] *)
Definition save_snapshot (tip : str) (m : UTXOSet) : SM UTXOIndex unit :=
  sm_atomic (
    i ← sm_get;
    i' ← sm_lift (tip_snapshot_rows (mkIndex (Some tip) ∅ (ui_snapshots i) (ui_spent i)) tip m);
    rows ← sm_lift (insert_rows bind_utxo (ui_utxos i') (utxo_entries m));
    sm_put (mkIndex (ui_active_tip i') rows (ui_snapshots i') (ui_spent i'))).

(** The spends of one transaction and of a chain. *)
Definition tx_spends (t : ConsensusTransaction) : result (list IndexedSpend) :=
  if is_coinbase t then Ok []
  else mapR (λ e, h ← txid t; Ok (mkSpend (previous_output e.2) h e.1)) (enumerate 0 (inputs t)).

Definition chain_spends (bs : list ConsensusBlock) : result (list IndexedSpend) :=
  l ← mapR tx_spends (concat (transactions <$> bs)); Ok (concat l).

(** [save_tip_spends] *)
Definition save_tip_spends (tip : str) (bs : list ConsensusBlock) : SM UTXOIndex unit :=
  spends ← sm_lift (chain_spends bs);
  sm_atomic (
    i ← sm_get;
    rows ← sm_lift (insert_rows bind_spend (delete_tip tip (ui_spent i))
             ((λ s, ((tip, sp_outpoint s), (sp_txid s, sp_input_index s))) <$> spends));
    sm_put (mkIndex (ui_active_tip i) (ui_utxos i) (ui_snapshots i) rows)).

(** [WHERE tip_hash = ? ORDER BY txid ASC, output_index ASC] *)
Definition tip_rows {V} (tip : str) (m : gmap (str * OutPoint) V) : list (OutPoint * V) :=
  sort_by (λ x y, outpoint_leb x.1 y.1)
    ((λ e, (e.1.2, e.2)) <$> filter (λ e, e.1.1 = tip) (map_to_list m)).

(** [load_tip_snapshot] *)
Definition load_tip_snapshot (i : UTXOIndex) (tip : str) : result (option UTXOSet) :=
  match tip_rows tip (ui_snapshots i) with
  | [] => Ok None
  | rows => m ← utxo_init rows; Ok (Some m)
  end.

(** [load_snapshot] *)
Definition load_snapshot (i : UTXOIndex) (expected_tip : str) : result (option UTXOSet) :=
  indexed ← load_tip_snapshot i expected_tip;
  match indexed with
  | Some m => Ok (Some m)
  | None =>
      if bool_decide (ui_active_tip i = Some expected_tip) then
        m ← utxo_init (sort_by (λ x y, outpoint_leb x.1 y.1) (map_to_list (ui_utxos i))); Ok (Some m)
      else Ok None
  end.

Definition active_tip (i : UTXOIndex) : option str := ui_active_tip i.
Definition index_count (i : UTXOIndex) : Z := Z.of_nat (size (ui_utxos i)).
Definition tip_count (i : UTXOIndex) (tip : str) : Z := zlen (tip_rows tip (ui_snapshots i)).
Definition spent_count (i : UTXOIndex) (tip : str) : Z := zlen (tip_rows tip (ui_spent i)).

(** [load_tip_spends] *)
Definition load_tip_spends (i : UTXOIndex) (tip : str) : list IndexedSpend :=
  (λ e, mkSpend e.1 e.2.1 e.2.2) <$> tip_rows tip (ui_spent i).

(** [spent_by_tip] *)
Definition spent_by_tip (i : UTXOIndex) (tip : str) (o : OutPoint) : option IndexedSpend :=
  (λ v, mkSpend o v.1 v.2) <$> ui_spent i !! (tip, o).

Definition is_spent_at_tip (i : UTXOIndex) (tip : str) (o : OutPoint) : bool :=
  match spent_by_tip i tip o with Some _ => true | None => false end.

(** [utxos_for_address_at_tip] *)
Definition utxos_for_address_at_tip (i : UTXOIndex) (tip address : str) : list UTXO :=
  filter (λ e, out_address e.2 = address) (tip_rows tip (ui_snapshots i)).

(** [indexed_tips] *)
Definition indexed_tips (i : UTXOIndex) : list str :=
  sort_by str_leb (remove_dups ((λ e, e.1.1) <$> map_to_list (ui_snapshots i))).

(** ** SQLiteMempoolStore *)

Notation MempoolStore := (gmap str str).

Definition mempool_encode (t : ConsensusTransaction) : result str := x ← tx_to_bytes true t; Ok (bytes_hex x).
Definition mempool_decode (payload : str) : result ConsensusTransaction := x ← fromhex payload; tx_from_bytes true x.

(** [add_transaction]: [INSERT OR IGNORE] *)
Definition add_transaction (t : ConsensusTransaction) : SM MempoolStore unit :=
  m ← sm_get;
  h ← sm_lift (txid t);
  data ← sm_lift (mempool_encode t);
  sm_put (if bool_decide (is_Some (m !! h)) then m else <[h := data]> m).

Definition mempool_row (t : ConsensusTransaction) : result (str * str) :=
  h ← txid t; data ← mempool_encode t; Ok (h, data).

(** [replace_all] *)
Definition replace_all (ts : list ConsensusTransaction) : SM MempoolStore unit :=
  sm_atomic (
    rows ← sm_lift (mapR mempool_row ts);
    m' ← sm_lift (insert_rows (λ _ _, Ok tt) ∅ rows);
    sm_put m').

(** [SELECT ... ORDER BY txid ASC] *)
Definition by_key {V} (m : gmap str V) : list (str * V) := sort_by (λ x y, str_leb x.1 y.1) (map_to_list m).

(** [transactions] *)
Definition mempool_transactions (m : MempoolStore) : result (list ConsensusTransaction) :=
  mapR (λ e, mempool_decode e.2) (by_key m).

Definition mempool_count (m : MempoolStore) : Z := Z.of_nat (size m).

(** ** SQLiteInvalidBlockCache *)

Notation InvalidBlockCache := (gmap str str).

Definition mark_invalid (h reason : str) (c : InvalidBlockCache) : InvalidBlockCache := <[h := reason]> c.
Definition is_invalid (c : InvalidBlockCache) (h : str) : bool := bool_decide (is_Some (c !! h)).
Definition invalid_reason (c : InvalidBlockCache) (h : str) : option str := c !! h.
Definition invalid_count (c : InvalidBlockCache) : Z := Z.of_nat (size c).

(** ** SQLitePeerSyncStore *)

Record PeerSyncProgress := mkProgress {
  requested_blocks : Z; completed_blocks : Z; timed_out_blocks : Z; failed_blocks : Z;
}.

Notation PeerSyncStore := (gmap str PeerSyncProgress).

Definition bind_progress (p : PeerSyncProgress) : result unit :=
  sqlite_int (requested_blocks p);; sqlite_int (completed_blocks p);;
  sqlite_int (timed_out_blocks p);; sqlite_int (failed_blocks p).

Definition save_progress (address : str) (p : PeerSyncProgress) : SM PeerSyncStore unit :=
  sm_lift (bind_progress p);;
  m ← sm_get;
  sm_put (<[address := p]> m).

Definition load_progress (m : PeerSyncStore) (address : str) : option PeerSyncProgress := m !! address.
Definition all_progress (m : PeerSyncStore) : list (str * PeerSyncProgress) := by_key m.

(** ** Lemmas: rows *)

Lemma insert_rows_Ok {K V} `{Countable K} (check : K → V → result unit) m rows m' :
  insert_rows check m rows = Ok m' ↔
  NoDup rows.*1 ∧ (∀ k, k ∈ rows.*1 → m !! k = None) ∧ Forall (λ r, check r.1 r.2 = Ok tt) rows ∧
  m' = list_to_map rows ∪ m.
Proof.
  unfold insert_rows. revert m. induction rows as [|[k v] rows IH]; intros m; cbn [foldR].
  - split.
    + intros [= <-]. split_and!; [constructor|by intros k ?%elem_of_nil|constructor|].
      symmetry. apply map_empty_union.
    + intros (_ & _ & _ & ->). f_equal. symmetry. apply map_empty_union.
  - rewrite bind_Ok. setoid_rewrite IH. clear IH. unfold insert_row. csimpl.
    rewrite NoDup_cons, Forall_cons. split.
    + intros (m1 & E & Hn & Hf & Hc & ->). apply bind_unit_Ok in E as [Hk E]. apply raise_if_bind in E as [Hm [= <-]].
      apply bool_decide_eq_false, eq_None_not_Some in Hm.
      assert (Hkr : k ∉ rows.*1) by (intros Hin%Hf; by rewrite lookup_insert_eq in Hin).
      split_and!; [done..| | |done|].
      * intros j [->|Hj]%elem_of_cons; [done|]. apply Hf in Hj. by apply lookup_insert_None in Hj as [? _].
      * done.
      * rewrite <- insert_union_r by (by apply not_elem_of_list_to_map). by rewrite insert_union_l.
    + intros ([Hk Hn] & Hf & [Hc Hcs] & ->). exists (<[k:=v]> m).
      cbn [fst snd] in *. rewrite Hc, bool_decide_false by (rewrite Hf by left; by intros []). split; [done|]. split_and!; [done| |done|].
      * intros j Hj. rewrite lookup_insert_ne by (by intros ->). apply Hf. by right.
      * rewrite <- insert_union_r by (by apply not_elem_of_list_to_map). by rewrite insert_union_l.
Qed.

Lemma utxo_init_NoDup l : NoDup l.*1 → utxo_init l = Ok (list_to_map l).
Proof.
  intros Hn. destruct (add_entries_ok l ∅ Hn) as [m E]; [intros; apply lookup_empty|].
  unfold utxo_init. rewrite E. apply add_entries_Ok in E as (_ & -> & _); [|done]. by rewrite map_union_empty.
Qed.

(** ** Lemmas: the rows of one tip *)

Lemma tip_rows_perm {V} (tip : str) (m : gmap (str * OutPoint) V) :
  tip_rows tip m ≡ₚ (λ e, (e.1.2, e.2)) <$> filter (λ e, e.1.1 = tip) (map_to_list m).
Proof. unfold tip_rows. apply sort_by_perm. Qed.

Lemma elem_of_tip_rows {V} (tip : str) (m : gmap (str * OutPoint) V) o v : (o, v) ∈ tip_rows tip m ↔ m !! (tip, o) = Some v.
Proof.
  rewrite tip_rows_perm, list_elem_of_fmap. setoid_rewrite list_elem_of_filter. split.
  - intros ([[t p] w] & [= -> ->] & [= ->] & Hin%elem_of_map_to_list). done.
  - intros Hm%elem_of_map_to_list. by exists ((tip, o), v).
Qed.

Lemma NoDup_tip_rows {V} (tip : str) (m : gmap (str * OutPoint) V) : NoDup (tip_rows tip m).*1.
Proof.
  rewrite tip_rows_perm, <- list_fmap_compose. pose proof (NoDup_fst_map_to_list m) as Hn.
  induction (map_to_list m) as [|[[t o] v] l IH]; csimpl in *; [constructor|].
  apply NoDup_cons in Hn as [Hn Hnd]. rewrite filter_cons. case_decide; [|by apply IH]. csimpl. constructor; [|by apply IH].
  intros Hin. apply Hn. apply list_elem_of_fmap in Hin as ([[t' o'] v'] & E & [Ht Hin]%list_elem_of_filter).
  simpl in *. subst. apply list_elem_of_fmap. by exists ((tip, o'), v').
Qed.

Lemma lookup_tip_map {V} (tip : str) (m : gmap (str * OutPoint) V) o :
  (list_to_map (tip_rows tip m) : gmap OutPoint V) !! o = m !! (tip, o).
Proof.
  apply option_eq. intros v. rewrite <- (elem_of_list_to_map _ _ _ (NoDup_tip_rows tip m)). apply elem_of_tip_rows.
Qed.

Lemma load_tip_snapshot_Ok i tip :
  load_tip_snapshot i tip =
    Ok (if bool_decide (tip_rows tip (ui_snapshots i) = []) then None
        else Some (list_to_map (tip_rows tip (ui_snapshots i)))).
Proof.
  unfold load_tip_snapshot. pose proof (utxo_init_NoDup _ (NoDup_tip_rows tip (ui_snapshots i))) as Hi.
  destruct (tip_rows tip (ui_snapshots i)); [done|]. by rewrite Hi.
Qed.

Lemma snapshot_rows_NoDup (tip : str) (m : UTXOSet) : NoDup ((λ e : UTXO, ((tip, e.1), e.2)) <$> utxo_entries m).*1.
Proof.
  rewrite <- list_fmap_compose. change (NoDup ((λ o : OutPoint, (tip, o)) ∘ fst <$> utxo_entries m)).
  rewrite list_fmap_compose. apply NoDup_fmap_2; [by intros ? ? [= ->]|].
  unfold utxo_entries. rewrite sort_by_perm. apply NoDup_fst_map_to_list.
Qed.

Lemma tip_snapshot_rows_Ok i tip m i' :
  tip_snapshot_rows i tip m = Ok i' →
  ui_active_tip i' = ui_active_tip i ∧ ui_utxos i' = ui_utxos i ∧ ui_spent i' = ui_spent i ∧
  ∀ t o, ui_snapshots i' !! (t, o) = if decide (t = tip) then m !! o else ui_snapshots i !! (t, o).
Proof.
  unfold tip_snapshot_rows. intros E. inv_ok E. subst. apply insert_rows_Ok in Hx as (Hn & Hf & _ & ->).
  split_and!; [done..|]. intros t o. cbn [ui_snapshots]. apply option_eq. intros x. case_decide as Ht; [subst t|].
  - rewrite lookup_union_Some_raw, <- (elem_of_list_to_map _ _ _ Hn), list_elem_of_fmap.
    setoid_rewrite map_lookup_filter_Some. split.
    + intros [([p y] & [= <- <-] & Hp)|[_ [_ []]]]; [by apply elem_of_utxo_entries|done].
    + intros Hx. left. exists (o, x). split; [done|]. by apply elem_of_utxo_entries.
  - rewrite lookup_union_r.
    + unfold delete_tip. rewrite map_lookup_filter_Some. naive_solver.
    + apply not_elem_of_list_to_map. rewrite <- list_fmap_compose.
      intros ([p y] & E & _)%list_elem_of_fmap. by simplify_eq/=.
Qed.

Lemma tip_snapshot_rows_ok i tip m :
  map_Forall (λ o x, bind_utxo o x = Ok tt) m → ∃ i', tip_snapshot_rows i tip m = Ok i'.
Proof.
  intros Hb. unfold tip_snapshot_rows.
  assert (∃ r, insert_rows bind_snapshot (delete_tip tip (ui_snapshots i))
           ((λ e, ((tip, e.1), e.2)) <$> utxo_entries m) = Ok r) as [r ->]; [|csimpl; eauto].
  eexists. apply insert_rows_Ok. split_and!; [apply snapshot_rows_NoDup| | |done].
  - intros k. rewrite <- list_fmap_compose. intros ([p y] & -> & _)%list_elem_of_fmap. simpl.
    unfold delete_tip. apply map_lookup_filter_None. right. intros x _ Hx. by apply Hx.
  - apply Forall_fmap, Forall_forall. intros [o x] Hx%elem_of_utxo_entries. by apply Hb.
Qed.

Lemma bind_utxo_Ok o x : bind_utxo o x = Ok tt ↔ - 2 ^ 63 ≤ op_index o < 2 ^ 63 ∧ - 2 ^ 63 ≤ amount x < 2 ^ 63.
Proof. unfold bind_utxo. by rewrite bind_unit_Ok, !sqlite_int_Ok. Qed.

Lemma list_to_map_nonempty {V} (tip : str) (i : gmap (str * OutPoint) V) o v : i !! (tip, o) = Some v → tip_rows tip i ≠ [].
Proof. intros Hi%elem_of_tip_rows E. rewrite E in Hi. by apply elem_of_nil in Hi. Qed.

(** Loading after saving. *)
Lemma load_saved i i' tip m : tip_snapshot_rows i tip m = Ok i' → m ≠ ∅ → load_tip_snapshot i' tip = Ok (Some m).
Proof.
  intros E Hne. apply tip_snapshot_rows_Ok in E as (_ & _ & _ & Hl). rewrite load_tip_snapshot_Ok.
  destruct (map_choose m Hne) as (o & x & Hx).
  rewrite bool_decide_false.
  - do 2 f_equal. apply map_eq. intros p. rewrite lookup_tip_map, Hl. by rewrite decide_True.
  - apply (list_to_map_nonempty tip _ o x). by rewrite Hl, decide_True.
Qed.

Lemma load_other i i' tip tip' m : tip_snapshot_rows i tip m = Ok i' → tip' ≠ tip →
  load_tip_snapshot i' tip' = load_tip_snapshot i tip'.
Proof.
  intros E Hne. apply tip_snapshot_rows_Ok in E as (_ & _ & _ & Hl). rewrite !load_tip_snapshot_Ok.
  assert (tip_rows tip' (ui_snapshots i') ≡ₚ tip_rows tip' (ui_snapshots i)) as Hp.
  { apply NoDup_Permutation; [eapply NoDup_fmap_1, NoDup_tip_rows..|]. intros [o x].
    rewrite !elem_of_tip_rows, Hl. by rewrite decide_False. }
  assert (list_to_map (tip_rows tip' (ui_snapshots i')) = (list_to_map (tip_rows tip' (ui_snapshots i)) : UTXOSet)) as ->.
  { apply list_to_map_proper; [apply NoDup_tip_rows|done]. }
  assert (bool_decide (tip_rows tip' (ui_snapshots i') = []) = bool_decide (tip_rows tip' (ui_snapshots i) = [])) as ->;
    [|done].
  apply bool_decide_ext. split; intros E; rewrite E in Hp; [by apply Permutation_nil in Hp|].
  by apply symmetry, Permutation_nil in Hp.
Qed.

(** ** Lemmas: spends *)

Lemma chain_spends_nil : chain_spends [] = Ok [].
Proof. done. Qed.

(** Saving the spends of a chain succeeds only if no outpoint occurs twice. *)
Lemma save_tip_spends_Ok tip bs i i' u : save_tip_spends tip bs i = (i', Ok u) →
  ∃ spends, chain_spends bs = Ok spends ∧ NoDup (sp_outpoint <$> spends) ∧
    ui_active_tip i' = ui_active_tip i ∧ ui_utxos i' = ui_utxos i ∧ ui_snapshots i' = ui_snapshots i ∧
    (∀ o sp, spent_by_tip i' tip o = Some sp ↔ sp ∈ spends ∧ sp_outpoint sp = o) ∧
    (∀ tip' o, tip' ≠ tip → spent_by_tip i' tip' o = spent_by_tip i tip' o).
Proof.
  unfold save_tip_spends. intros E. apply SM_bind_Ok in E as (spends & s1 & [-> Hs]%sm_lift_Ok & E).
  rewrite sm_atomic_Ok in E. apply SM_bind_Ok in E as (i0 & s1 & Hg & E). injection Hg as <- <-.
  apply SM_bind_Ok in E as (rows & s1 & [-> Hr]%sm_lift_Ok & E). injection E as <- _.
  apply insert_rows_Ok in Hr as (Hn & Hf & _ & ->). exists spends. split; [done|].
  rewrite <- list_fmap_compose in Hn.
  split. { change (NoDup ((λ o : OutPoint, (tip, o)) ∘ sp_outpoint <$> spends)) in Hn.
    rewrite list_fmap_compose in Hn. by apply NoDup_fmap_1 in Hn. }
  split_and!; [done..| |].
  - intros o sp. unfold spent_by_tip. cbn [ui_spent]. rewrite fmap_Some.
    setoid_rewrite lookup_union_Some_raw. setoid_rewrite <- (elem_of_list_to_map _ _ _).
    2: by rewrite <- list_fmap_compose. setoid_rewrite list_elem_of_fmap. split.
    + intros ([h k] & [(x & [= -> -> ->] & Hx)|[_ Hd]] & ->).
      * simpl. by destruct x.
      * unfold delete_tip in Hd. apply map_lookup_filter_Some in Hd as [_ []]. done.
    + intros [Hsp <-]. exists (sp_txid sp, sp_input_index sp). split; [|by destruct sp]. left. eauto.
  - intros tip' o Hne. unfold spent_by_tip. cbn [ui_spent]. f_equal. rewrite lookup_union_r.
    + unfold delete_tip. apply option_eq. intros v. rewrite map_lookup_filter_Some. naive_solver.
    + apply not_elem_of_list_to_map. rewrite <- list_fmap_compose.
      intros (x & E & _)%list_elem_of_fmap. by simplify_eq/=.
Qed.

(** ** Lemmas: the mempool store *)

Lemma mempool_decode_encode t p : canonical_tx t → mempool_encode t = Ok p → mempool_decode p = Ok t.
Proof.
  unfold mempool_encode, mempool_decode. intros Hc E. inv_ok E. subst. rewrite fromhex_hex. by apply tx_from_to_bytes.
Qed.

Lemma replace_all_Ok ts m m' u : replace_all ts m = (m', Ok u) →
  ∃ rows, mapR mempool_row ts = Ok rows ∧ NoDup rows.*1 ∧ m' = list_to_map rows.
Proof.
  unfold replace_all. intros E. rewrite sm_atomic_Ok in E. apply SM_bind_Ok in E as (rows & s1 & [-> Hr]%sm_lift_Ok & E).
  apply SM_bind_Ok in E as (m1 & s1 & [-> Hm]%sm_lift_Ok & E). injection E as <- _.
  apply insert_rows_Ok in Hm as (Hn & _ & _ & ->). exists rows. split_and!; [done..|].
  by rewrite (right_id_L ∅ (∪)).
Qed.

Lemma mempool_rows_decode ts rows : Forall canonical_tx ts → mapR mempool_row ts = Ok rows →
  mapR (λ r, mempool_decode r.2) rows = Ok ts ∧
  Forall (λ r, ∃ t, mempool_decode r.2 = Ok t ∧ txid t = Ok r.1) rows.
Proof.
  intros Hc. revert rows. induction Hc as [|t ts Ht _ IH]; intros rows E; simpl in E; [by inv_ok E; subst|].
  apply bind_Ok in E as (r & Hr & E). apply bind_Ok in E as (rows' & Hrows & [= <-]).
  destruct (IH _ Hrows) as [Hd Hf]. unfold mempool_row in Hr. inv_ok Hr. subst r.
  pose proof (mempool_decode_encode _ _ Ht Hx0) as Hdec. split.
  - simpl. rewrite Hdec. csimpl. by rewrite Hd.
  - constructor; [|done]. by exists t.
Qed.

Lemma rows_txids (rows : list (str * str)) : Forall (λ r, ∃ t, mempool_decode r.2 = Ok t ∧ txid t = Ok r.1) rows →
  ∃ ts, mapR (λ r, mempool_decode r.2) rows = Ok ts ∧ mapR txid ts = Ok rows.*1.
Proof.
  induction 1 as [|[h p] rows (t & Hd & Hh) _ (ts & Hts & Hids)]; [by exists []|]. exists (t :: ts). simpl in *.
  rewrite Hd. csimpl. rewrite Hts. split; [done|]. rewrite Hh. csimpl. by rewrite Hids.
Qed.

Lemma sorted_keys {V} (l : list (str * V)) : StronglySorted (λ x y, str_leb x.1 y.1 = true) l →
  StronglySorted (λ x y, str_leb x y = true) l.*1.
Proof. induction 1 as [|x l _ IH Hx]; csimpl; constructor; [done|]. by apply Forall_fmap. Qed.

Lemma row_keys ts rows : mapR mempool_row ts = Ok rows → mapR txid ts = Ok rows.*1.
Proof.
  revert rows. induction ts as [|t ts IH]; intros rows E; [by injection E as <-|].
  apply mapR_cons_Ok in E as (r & rs & -> & Hr & Hrs). simpl. unfold mempool_row in Hr. inv_ok Hr. subst r.
  rewrite Hx. csimpl. by rewrite (IH _ Hrs).
Qed.

(** What a saved table is read back as. *)
Lemma saved_mempool_reads ts rows : Forall canonical_tx ts → mapR mempool_row ts = Ok rows → NoDup rows.*1 →
  ∃ ts' ids, mempool_transactions (list_to_map rows) = Ok ts' ∧ ts' ≡ₚ ts ∧ mapR txid ts' = Ok ids ∧
    StronglySorted (λ x y, str_leb x y = true) ids.
Proof.
  intros Hc Hr Hn.
  destruct (mempool_rows_decode _ _ Hc Hr) as [Hdec Hids].
  assert (Hp : rows ≡ₚ by_key (list_to_map rows)).
  { unfold by_key. rewrite sort_by_perm. symmetry. by apply map_to_list_to_map. }
  destruct (mapR_perm _ _ _ _ Hp Hdec) as (ts' & Hts' & Hperm).
  rewrite Hp in Hids. apply rows_txids in Hids as (ts2 & Hts2 & Hid2). rewrite Hts' in Hts2. simplify_eq.
  exists ts2, (by_key (list_to_map rows : MempoolStore)).*1. split_and!; [done..|].
  apply sorted_keys, sort_by_sorted; eauto using str_leb_trans. intros [k1 ?] [k2 ?]. apply str_leb_total.
Qed.

(** ** Properties *)

(** A valid chain of five blocks in which the same coinbase occurs at heights 1
    and 3, each time spent in the next block. *)
Definition chain_block (h : Z) (prev : ConsensusBlock) (ts : list ConsensusTransaction) : ConsensusBlock :=
  ok_or empty_block (make_block h (hash_or (block_hash prev)) ts 0 sample_timestamp 0 [] 1).

Definition recurring_coinbase : ConsensusTransaction := Eval vm_compute in sample_coinbase 9 50 "bob".

Definition spend_recurring (who : string) : ConsensusTransaction :=
  let t := mkTx [mkTxInput (mkOutPoint (hash_or (txid recurring_coinbase)) 0) None None]
             [mkTxOutput 50 (toy_address who)] 1 in
  ok_or t (@sign_input toy_ed25519 t 0 (toy_wallet "bob")).

Definition respend_chain : list ConsensusBlock := Eval vm_compute in
  let b0 := ok_or empty_block (make_block 0 ZERO_HASH [sample_coinbase 0 1000 "alice"] 0 sample_timestamp 0 [] 1) in
  let b1 := chain_block 1 b0 [recurring_coinbase] in
  let b2 := chain_block 2 b1 [sample_coinbase 2 50 "carol"; spend_recurring "carol"] in
  let b3 := chain_block 3 b2 [recurring_coinbase] in
  let b4 := chain_block 4 b3 [sample_coinbase 4 50 "carol"; spend_recurring "alice"] in
  [b0; b1; b2; b3; b4].

(** The snapshot index is faithful: a non-empty set whose integers fit the
    columns is saved, loading it under the same tip gives it back, and what is
    stored under other tips is untouched. *)
Theorem utxo_snapshot_roundtrip i tip m :
  m ≠ ∅ → map_Forall (λ o x, - 2 ^ 63 ≤ op_index o < 2 ^ 63 ∧ - 2 ^ 63 ≤ amount x < 2 ^ 63) m →
  ∃ i', save_tip_snapshot tip m i = (i', Ok tt) ∧ load_tip_snapshot i' tip = Ok (Some m) ∧
    ∀ tip', tip' ≠ tip → load_tip_snapshot i' tip' = load_tip_snapshot i tip'.
Proof.
  intros Hne Hb. destruct (tip_snapshot_rows_ok i tip m) as [i' E].
  { intros o x Hx. apply bind_utxo_Ok. by apply Hb. }
  exists i'. split_and!.
  - unfold save_tip_snapshot. rewrite sm_atomic_Ok. unfold sm_get, sm_lift, sm_put, mbind, SM_bind. by rewrite E.
  - by apply load_saved with i.
  - intros tip' Ht. by apply load_other with tip m.
Qed.

Lemma utxo_snapshot_roundtrip_witness :
  ∃ i', save_tip_snapshot sample_second_hash (utxos sample_state2) empty_index = (i', Ok tt) ∧
    load_tip_snapshot i' sample_second_hash = Ok (Some (utxos sample_state2)) ∧
    ∀ tip', tip' ≠ sample_second_hash → load_tip_snapshot i' tip' = load_tip_snapshot empty_index tip'.
Proof.
  apply utxo_snapshot_roundtrip.
  - apply (bool_decide_unpack (utxos sample_state2 ≠ ∅)). vm_compute. exact I.
  - apply (bool_decide_unpack (map_Forall (λ o x, - 2 ^ 63 ≤ op_index o < 2 ^ 63 ∧ - 2 ^ 63 ≤ amount x < 2 ^ 63)
      (utxos sample_state2))). vm_compute. exact I.
Defined.

(** The spend index is exact: after [save_tip_spends] an outpoint is recorded
    as spent at the tip by a transaction and input if and only if the chain's
    non-coinbase transactions spend it there, and the other tips are untouched.
    A chain that spends an outpoint twice is refused and changes nothing. *)
Theorem spend_index_exact tip bs i i' r :
  save_tip_spends tip bs i = (i', r) →
  match r with
  | Ok _ => ∃ spends, chain_spends bs = Ok spends ∧ NoDup (sp_outpoint <$> spends) ∧
      (∀ o sp, spent_by_tip i' tip o = Some sp ↔ sp ∈ spends ∧ sp_outpoint sp = o) ∧
      (∀ tip' o, tip' ≠ tip → spent_by_tip i' tip' o = spent_by_tip i tip' o)
  | Err _ => i' = i
  end.
Proof.
  destruct r as [u|e]; intros E.
  - apply save_tip_spends_Ok in E as (spends & ? & ? & _ & _ & _ & ? & ?). by exists spends.
  - unfold save_tip_spends in E. unfold mbind, SM_bind, sm_lift in E. destruct (chain_spends bs); [|by simplify_eq].
    by apply sm_atomic_err in E.
Qed.

Definition sample_index : UTXOIndex := (save_tip_spends sample_second_hash [sample_genesis; sample_second] empty_index).1.

Lemma sample_index_saved :
  save_tip_spends sample_second_hash [sample_genesis; sample_second] empty_index = (sample_index, Ok tt).
Proof.
  unfold sample_index.
  refine (run_Ok (save_tip_spends sample_second_hash [sample_genesis; sample_second]) empty_index tt _).
  vm_compute. reflexivity.
Qed.

Lemma spend_index_exact_witness :
  ∃ spends, chain_spends [sample_genesis; sample_second] = Ok spends ∧ NoDup (sp_outpoint <$> spends) ∧
    (∀ o sp, spent_by_tip sample_index sample_second_hash o = Some sp ↔ sp ∈ spends ∧ sp_outpoint sp = o) ∧
    (∀ tip' o, tip' ≠ sample_second_hash → spent_by_tip sample_index tip' o = spent_by_tip empty_index tip' o).
Proof. exact (spend_index_exact _ _ _ _ _ sample_index_saved). Defined.

(** Consensus lets an outpoint be spent twice in one chain.  Nothing ties a
    coinbase to its height, so once a coinbase is spent the same bytes may occur
    again and recreate the outpoint; the chain replays, but the spend index
    cannot be written for it. *)
Theorem respend_breaks_index :
  is_ok (@rebuild_state_from_blocks toy_ed25519 respend_chain 50 MAX_MONEY) = true ∧
  err_class (save_tip_spends sample_second_hash respend_chain empty_index).2 = Some IntegrityError.
Proof. split; vm_compute; reflexivity. Qed.

(** The mempool store keeps the transactions but not their order: what
    [replace_all] wrote is read back as the same transactions sorted by
    identifier, a child possibly before its parent. *)
Theorem mempool_store_sorted ts m m' :
  Forall canonical_tx ts → replace_all ts m = (m', Ok tt) →
  ∃ ts' ids, mempool_transactions m' = Ok ts' ∧ ts' ≡ₚ ts ∧ mapR txid ts' = Ok ids ∧
    StronglySorted (λ x y, str_leb x y = true) ids.
Proof.
  intros Hc (rows & Hr & Hn & ->)%replace_all_Ok. by apply saved_mempool_reads.
Qed.

Lemma mempool_store_sorted_witness :
  ∃ ts' ids, mempool_transactions ((replace_all [sample_transfer; sample_transfer2] ∅).1) = Ok ts' ∧
    ts' ≡ₚ [sample_transfer; sample_transfer2] ∧ mapR txid ts' = Ok ids ∧
    StronglySorted (λ x y, str_leb x y = true) ids.
Proof.
  apply (mempool_store_sorted [sample_transfer; sample_transfer2] ∅).
  - apply (bool_decide_unpack (Forall canonical_tx [sample_transfer; sample_transfer2])). vm_compute. exact I.
  - refine (run_Ok (replace_all [sample_transfer; sample_transfer2]) ∅ tt _). vm_compute. reflexivity.
Defined.
