(* ===== verification/Policy.v ===== *)
(** * Mempool policy (utxo_node.py, [MempoolPolicy])

    The local limits on relayed transactions and the integer fee arithmetic. *)

From S2P Require Import Prelude PyBytes PyText Sha256 Crypto ByteReader Transaction.
Local Open Scope Z_scope.

Record MempoolPolicy := mkPolicy {
  max_transactions : Z;
  max_transaction_bytes : Z;
  max_inputs : Z;
  max_outputs : Z;
  min_relay_fee : Z;
  min_relay_fee_rate : Z;
  dynamic_fee_rate_step : Z;
  allow_replacement : bool;
  replacement_fee_bump : Z;
  allow_eviction : bool;
  eviction_fee_rate_bump : Z;
}.

(** The dataclass defaults. *)
Definition default_policy : MempoolPolicy := mkPolicy 5000 100000 128 128 0 0 0 true 1 true 1.

(** [__post_init__]; a policy it rejects is never built. *)
Definition policy_check (p : MempoolPolicy) : result unit :=
  raise_if (max_transactions p <=? 0) MempoolPolicyError "max mempool transactions must be positive";;
  raise_if (max_transaction_bytes p <=? 0) MempoolPolicyError "max transaction bytes must be positive";;
  raise_if (max_inputs p <=? 0) MempoolPolicyError "max transaction inputs must be positive";;
  raise_if (max_outputs p <=? 0) MempoolPolicyError "max transaction outputs must be positive";;
  raise_if (min_relay_fee p <? 0) MempoolPolicyError "minimum relay fee cannot be negative";;
  raise_if (min_relay_fee_rate p <? 0) MempoolPolicyError "minimum relay fee rate cannot be negative";;
  raise_if (dynamic_fee_rate_step p <? 0) MempoolPolicyError "dynamic fee rate step cannot be negative";;
  raise_if (replacement_fee_bump p <? 0) MempoolPolicyError "replacement fee bump cannot be negative";;
  raise_if (eviction_fee_rate_bump p <? 0) MempoolPolicyError "eviction fee rate bump cannot be negative".

(** [serialized_size] *)
Definition serialized_size (t : ConsensusTransaction) : result Z := x ← tx_to_bytes true t; Ok (zlen x).

Definition effective_min_relay_fee_rate (p : MempoolPolicy) (current_count : Z) : result Z :=
  raise_if (current_count <? 0) MempoolPolicyError "mempool transaction count cannot be negative";;
  Ok (min_relay_fee_rate p + current_count * dynamic_fee_rate_step p).

Definition minimum_fee (p : MempoolPolicy) (transaction_bytes current_count : Z) : result Z :=
  raise_if (transaction_bytes <? 0) MempoolPolicyError "transaction byte size cannot be negative";;
  fee_rate ← effective_min_relay_fee_rate p current_count;
  Ok (Z.max (min_relay_fee p) ((transaction_bytes * fee_rate + 999) / 1000)).

Definition fee_rate (fee transaction_bytes : Z) : result Z :=
  raise_if (fee <? 0) MempoolPolicyError "transaction fee cannot be negative";;
  raise_if (transaction_bytes <=? 0) MempoolPolicyError "transaction byte size must be positive";;
  Ok (fee * 1000 / transaction_bytes).

(** [validate] *)
Definition policy_validate (p : MempoolPolicy) (t : ConsensusTransaction) (fee current_count : Z) : result unit :=
  raise_if (max_transactions p <=? current_count) MempoolPolicyError "mempool transaction limit reached";;
  raise_if (max_inputs p <? zlen (inputs t)) MempoolPolicyError "transaction has too many inputs for mempool policy";;
  raise_if (max_outputs p <? zlen (outputs t)) MempoolPolicyError "transaction has too many outputs for mempool policy";;
  size ← serialized_size t;
  raise_if (max_transaction_bytes p <? size) MempoolPolicyError "transaction exceeds mempool size policy";;
  minimum ← minimum_fee p size current_count;
  raise_if (fee <? minimum) MempoolPolicyError "transaction fee is below mempool relay minimum".

(** ** Lemmas *)

(** The policies [__post_init__] lets through. *)
Definition policy_wf (p : MempoolPolicy) : Prop :=
  0 < max_transactions p ∧ 0 < max_transaction_bytes p ∧ 0 < max_inputs p ∧ 0 < max_outputs p ∧
  0 ≤ min_relay_fee p ∧ 0 ≤ min_relay_fee_rate p ∧ 0 ≤ dynamic_fee_rate_step p ∧
  0 ≤ replacement_fee_bump p ∧ 0 ≤ eviction_fee_rate_bump p.

Lemma policy_check_Ok p u : policy_check p = Ok u ↔ policy_wf p.
Proof.
  unfold policy_check, policy_wf. rewrite !raise_if_bind, raise_if_Ok, !Z.leb_gt, !Z.ltb_ge. tauto.
Qed.

Lemma ceil_le a n : (a + 999) / 1000 ≤ n ↔ a ≤ n * 1000.
Proof.
  pose proof (Z.div_mod (a + 999) 1000 ltac:(lia)). pose proof (Z.mod_pos_bound (a + 999) 1000 ltac:(lia)). lia.
Qed.

Lemma floor_ge f s r : 0 < s → r ≤ f * 1000 / s ↔ r * s ≤ f * 1000.
Proof.
  intros Hs. split; intros E.
  - pose proof (Z.mul_div_le (f * 1000) s Hs). nia.
  - apply Z.div_le_lower_bound; lia.
Qed.

Lemma serialized_size_pos t n : serialized_size t = Ok n → 0 < n.
Proof.
  unfold serialized_size, tx_to_bytes. intros E. inv_oks. subst. rewrite zlen_app.
  match goal with |- 0 < _ + zlen ?l => pose proof (zlen_nonneg l) end. unfold zlen at 1. simpl. lia.
Qed.

Lemma policy_validate_Ok p t fee count u : 0 ≤ count →
  policy_validate p t fee count = Ok u ↔
  count < max_transactions p ∧ zlen (inputs t) ≤ max_inputs p ∧ zlen (outputs t) ≤ max_outputs p ∧
  ∃ size, serialized_size t = Ok size ∧ size ≤ max_transaction_bytes p ∧ min_relay_fee p ≤ fee ∧
    size * (min_relay_fee_rate p + count * dynamic_fee_rate_step p) ≤ fee * 1000.
Proof.
  intros Hc. unfold policy_validate. rewrite !raise_if_bind, Z.leb_gt, !Z.ltb_ge.
  do 3 (apply and_iff_compat_l). rewrite bind_Ok. split.
  - intros (size & Hs & E). exists size. pose proof (serialized_size_pos _ _ Hs).
    unfold minimum_fee, effective_min_relay_fee_rate in E. inv_ok E. inv_ok Hx. inv_ok Hx0. bool_prop. subst.
    split; [done|]. split; [done|]. rewrite <- ceil_le. lia.
  - intros (size & Hs & Hm & Hf & Hr). exists size. split; [done|]. pose proof (serialized_size_pos _ _ Hs).
    unfold minimum_fee, effective_min_relay_fee_rate. rewrite <- ceil_le in Hr.
    rewrite (proj2 (Z.ltb_ge _ _) Hm), (proj2 (Z.ltb_ge size 0)), (proj2 (Z.ltb_ge count 0)) by lia. csimpl.
    apply raise_if_Ok, Z.ltb_ge. lia.
Qed.

Lemma minimum_fee_raises p n c : raises_only (exn_is MempoolPolicyError) (minimum_fee p n c).
Proof. unfold minimum_fee, effective_min_relay_fee_rate. auto 6 with bcc. Qed.

(** ** Properties *)

(** What the policy admits.  The rounded-up minimum fee and the rounded-down
    fee rate agree: a transaction passes exactly when the mempool has room, its
    counts and size are within the limits, it pays the absolute minimum, and the
    fee rate computed for it is at least the minimum rate adjusted to the
    occupancy. *)
Theorem policy_validate_exact p t fee count size :
  0 ≤ count → 0 ≤ fee → serialized_size t = Ok size →
  (policy_validate p t fee count = Ok tt ↔
   count < max_transactions p ∧ zlen (inputs t) ≤ max_inputs p ∧ zlen (outputs t) ≤ max_outputs p ∧
   size ≤ max_transaction_bytes p ∧ min_relay_fee p ≤ fee ∧
   ∃ rate, fee_rate fee size = Ok rate ∧ min_relay_fee_rate p + count * dynamic_fee_rate_step p ≤ rate).
Proof.
  intros Hc Hf Hs. rewrite policy_validate_Ok by done. pose proof (serialized_size_pos _ _ Hs) as Hpos.
  assert (Hr : fee_rate fee size = Ok (fee * 1000 / size)).
  { unfold fee_rate. by rewrite (proj2 (Z.ltb_ge fee 0) Hf), (proj2 (Z.leb_gt size 0) Hpos). }
  rewrite Hs, Hr. do 3 (apply and_iff_compat_l). split.
  - intros (n & [= <-] & Hb & Hm & Hrate). split_and!; [done..|]. eexists. split; [done|]. apply floor_ge; lia.
  - intros (Hb & Hm & rate & [= <-] & Hrate). exists size. split_and!; [done..|]. apply floor_ge in Hrate; lia.
Qed.

Lemma policy_validate_exact_witness :
  policy_validate default_policy sample_tx 0 0 = Ok tt ↔
  0 < max_transactions default_policy ∧ zlen (inputs sample_tx) ≤ max_inputs default_policy ∧
  zlen (outputs sample_tx) ≤ max_outputs default_policy ∧
  zlen sample_tx_bytes ≤ max_transaction_bytes default_policy ∧ min_relay_fee default_policy ≤ 0 ∧
  ∃ rate, fee_rate 0 (zlen sample_tx_bytes) = Ok rate ∧
    min_relay_fee_rate default_policy + 0 * dynamic_fee_rate_step default_policy ≤ rate.
Proof. apply (policy_validate_exact default_policy sample_tx 0 0); [lia|lia|vm_compute; reflexivity]. Defined.
