(* ===== verification/Mempool.v ===== *)
(** * The node's state and its mempool (utxo_node.py, [ConsensusNode])

    [Node] is a [ConsensusNode] as [create] and [open] build it, with all four
    stores present.  This file has the operations on the mempool: submission
    with replacement and eviction, pruning, clearing and reloading.  [except
    Exception] catches every exception of the model.

    [mempool_wf] is the invariant: the transactions apply to the node's state in
    their order.  The lemmas on [admission] give the admission rules. *)

From S2P Require Import Prelude PyBytes PyText Sha256 Crypto ByteReader Transaction Block Utxo State BlockProcessor ForkStore ForkChoice Stores Policy.
Local Open Scope Z_scope.

(** [ReorgEvent] *)
Record ReorgEvent := mkReorg { re_old_tip : str; re_new_tip : str; re_old_height : Z; re_new_height : Z }.

(** The databases of a node. *)
Record Disk := mkDisk {
  d_store : ForkStore;
  d_mempool : MempoolStore;
  d_index : UTXOIndex;
  d_invalid : InvalidBlockCache;
}.

Record Node := mkNode {
  n_disk : Disk;
  n_state : ConsensusState;
  n_difficulty : Z;
  n_fork_choice : ForkChoice;
  n_policy : MempoolPolicy;
  n_last_reorg : option ReorgEvent;
  n_mempool : list ConsensusTransaction;
}.

Definition n_store (n : Node) : ForkStore := d_store (n_disk n).

Definition with_store (st : ForkStore) (d : Disk) : Disk := mkDisk st (d_mempool d) (d_index d) (d_invalid d).
Definition with_mempool_store (m : MempoolStore) (d : Disk) : Disk := mkDisk (d_store d) m (d_index d) (d_invalid d).
Definition with_index (i : UTXOIndex) (d : Disk) : Disk := mkDisk (d_store d) (d_mempool d) i (d_invalid d).
Definition with_invalid (c : InvalidBlockCache) (d : Disk) : Disk := mkDisk (d_store d) (d_mempool d) (d_index d) c.

Definition with_disk (d : Disk) (n : Node) : Node :=
  mkNode d (n_state n) (n_difficulty n) (n_fork_choice n) (n_policy n) (n_last_reorg n) (n_mempool n).
Definition with_mempool (l : list ConsensusTransaction) (n : Node) : Node :=
  mkNode (n_disk n) (n_state n) (n_difficulty n) (n_fork_choice n) (n_policy n) (n_last_reorg n) l.

(** Calls on the stores. *)
Definition on_store {A} (m : SM ForkStore A) : SM Node A :=
  sm_zoom n_disk with_disk (sm_zoom d_store with_store m).
Definition on_mempool_store {A} (m : SM MempoolStore A) : SM Node A :=
  sm_zoom n_disk with_disk (sm_zoom d_mempool with_mempool_store m).
Definition on_index {A} (m : SM UTXOIndex A) : SM Node A :=
  sm_zoom n_disk with_disk (sm_zoom d_index with_index m).

(** [_input_outpoints], and whether two transactions share one. *)
Definition input_outpoints (t : ConsensusTransaction) : list OutPoint := previous_output <$> inputs t.

Definition conflicts (t existing : ConsensusTransaction) : bool :=
  existsb (λ o, bool_decide (o ∈ input_outpoints existing)) (input_outpoints t).

(** [any(existing.txid == txid for existing in ...)] *)
Fixpoint any_txid (h : str) (ts : list ConsensusTransaction) : result bool :=
  match ts with
  | [] => Ok false
  | t :: ts' => h' ← txid t; if bool_decide (h' = h) then Ok true else any_txid h ts'
  end.

(** [[t for t in ts if t.txid not in hs]] *)
Fixpoint without_txids (hs : list str) (ts : list ConsensusTransaction) : result (list ConsensusTransaction) :=
  match ts with
  | [] => Ok []
  | t :: ts' =>
      h ← txid t; rest ← without_txids hs ts';
      Ok (if bool_decide (h ∈ hs) then rest else t :: rest)
  end.

(** [_ReplacementContext] *)
Record ReplacementContext := mkReplacement {
  rc_remaining : list ConsensusTransaction;
  rc_replaced : list ConsensusTransaction;
  rc_replaced_fee : Z;
}.

(** [(fee_rate, fee, txid)], and the order of such tuples. *)
Definition score : Type := Z * Z * str.

Definition score_ltb (x y : score) : bool :=
  match Z.compare x.1.1 y.1.1 with
  | Lt => true
  | Gt => false
  | Eq => match Z.compare x.1.2 y.1.2 with
          | Lt => true
          | Gt => false
          | Eq => str_ltb x.2 y.2
          end
  end.

(** [_transaction_policy_score] *)
Definition transaction_policy_score (t : ConsensusTransaction) (fee : Z) : result score :=
  size ← serialized_size t;
  rate ← fee_rate fee size;
  h ← txid t;
  Ok (rate, fee, h).

(** [_validate_replacement_fee] *)
Definition validate_replacement_fee (p : MempoolPolicy) (fee replaced_fee : Z) : result unit :=
  raise_if (fee <? replaced_fee + replacement_fee_bump p)
    MempoolPolicyError "replacement fee is below mempool replacement minimum".

Section mempool.
Context `{Ed25519}.

(** [ConsensusState(utxos=self.state.utxos.copy(), ...)] *)
Definition copy_state (s : ConsensusState) : result ConsensusState :=
  m ← utxo_copy (utxos s); state_init (Some m) (block_subsidy s) (max_money s).

(** [_candidate_after] *)
Definition candidate_after (s : ConsensusState) (ts : list ConsensusTransaction) : result ConsensusState :=
  c ← copy_state s; run_state (apply_transactions 0 ts c).

(** [_replacement_context] *)
Definition replacement_context (n : Node) (t : ConsensusTransaction) : result ReplacementContext :=
  match filter (λ existing, conflicts t existing = true) (n_mempool n) with
  | [] => Ok (mkReplacement (n_mempool n) [] 0)
  | replaced =>
      raise_if (negb (allow_replacement (n_policy n))) MempoolPolicyError
        "transaction conflicts with mempool policy";;
      hs ← mapR txid replaced;
      remaining ← without_txids hs (n_mempool n);
      c ← candidate_after (n_state n) remaining;
      fee ← (apply_transactions 0 replaced c).2;
      Ok (mkReplacement remaining replaced fee)
  end.

(** [_transaction_fees] *)
Fixpoint transaction_fees (c : ConsensusState) (ts : list ConsensusTransaction) : result (gmap str Z) :=
  match ts with
  | [] => Ok ∅
  | t :: ts' =>
      match apply_transaction t c with
      | (c', Ok fee) => h ← txid t; fees ← transaction_fees c' ts'; Ok (if decide (is_Some (fees !! h)) then fees else <[h := fee]> fees)
      | (_, Err e) => Err e
      end
  end.

(** The best entry to evict so far: what remains without it, the fee of the new
    transaction then, and the entry's score. *)
Definition eviction : Type := list ConsensusTransaction * Z * score.

(** The body of the loop of [_evict_for_policy]. *)
Definition evict_step (s : ConsensusState) (t : ConsensusTransaction) (fees : gmap str Z)
    (remaining : list ConsensusTransaction) (best : option eviction) (e : Z * ConsensusTransaction) :
    result (option eviction) :=
  h ← txid e.2;
  existing_fee ← match fees !! h with Some f => Ok f | None => Err (Exn KeyError h) end;
  existing_score ← transaction_policy_score e.2 existing_fee;
  let candidate_remaining := take (Z.to_nat e.1) remaining ++ drop (S (Z.to_nat e.1)) remaining in
  match (c ← candidate_after s candidate_remaining; (apply_transaction t c).2) with
  | Err _ => Ok best
  | Ok candidate_fee =>
      let chosen := Some (candidate_remaining, candidate_fee, existing_score) in
      Ok (match best with
          | None => chosen
          | Some b => if score_ltb existing_score b.2 then chosen else best
          end)
  end.

(** [_evict_for_policy] *)
Definition evict_for_policy (n : Node) (t : ConsensusTransaction) (remaining : list ConsensusTransaction) (fee : Z) :
    result (list ConsensusTransaction * Z) :=
  if zlen remaining <? max_transactions (n_policy n) then Ok (remaining, fee)
  else if negb (allow_eviction (n_policy n)) then Ok (remaining, fee)
  else
    new_score ← transaction_policy_score t fee;
    c ← copy_state (n_state n);
    fees ← transaction_fees c remaining;
    best ← foldR (evict_step (n_state n) t fees remaining) None (enumerate 0 remaining);
    match best with
    | None => Ok (remaining, fee)
    | Some (best_remaining, best_fee, best_score) =>
        raise_if (new_score.1.1 <? best_score.1.1 + eviction_fee_rate_bump (n_policy n)) MempoolPolicyError
          "transaction fee rate is below mempool eviction minimum";;
        Ok (best_remaining, best_fee)
    end.

(** The checks of [submit_transaction]: the mempool without what the new
    transaction pushes out, and its fee. *)
Definition admission (n : Node) (t : ConsensusTransaction) : result (list ConsensusTransaction) :=
  h ← txid t;
  raise_if (is_coinbase t) MempoolPolicyError "coinbase transactions cannot enter the mempool";;
  known ← any_txid h (n_mempool n);
  raise_if known MempoolPolicyError "transaction already in mempool";;
  replacement ← replacement_context n t;
  c ← candidate_after (n_state n) (rc_remaining replacement);
  fee ← (apply_transaction t c).2;
  (if bool_decide (rc_replaced replacement = []) then Ok tt
   else validate_replacement_fee (n_policy n) fee (rc_replaced_fee replacement));;
  kept ← (if bool_decide (rc_replaced replacement = []) then evict_for_policy n t (rc_remaining replacement) fee
          else Ok (rc_remaining replacement, fee));
  policy_validate (n_policy n) t kept.2 (zlen kept.1);;
  Ok kept.1.

(** [submit_transaction] *)
Definition submit_transaction (t : ConsensusTransaction) : SM Node str :=
  n ← sm_get;
  remaining ← sm_lift (admission n t);
  let mempool := remaining ++ [t] in
  sm_put (with_mempool mempool n);;
  on_mempool_store (replace_all mempool);;
  sm_lift (txid t).

(** The loop of [_prune_invalid_mempool] and [_load_mempool]: a transaction is
    applied to the candidate before the policy is asked. *)
Fixpoint keep_valid (p : MempoolPolicy) (c : ConsensusState) (valid ts : list ConsensusTransaction) :
    list ConsensusTransaction :=
  match ts with
  | [] => valid
  | t :: ts' =>
      let r := apply_transaction t c in
      match (fee ← r.2; policy_validate p t fee (zlen valid)) with
      | Ok _ => keep_valid p r.1 (valid ++ [t]) ts'
      | Err _ => keep_valid p r.1 valid ts'
      end
  end.

(** [_prune_invalid_mempool] *)
Definition prune_invalid_mempool : SM Node unit :=
  n ← sm_get;
  c ← sm_lift (copy_state (n_state n));
  sm_put (with_mempool (keep_valid (n_policy n) c [] (n_mempool n)) n).

(** [prune_mempool] *)
Definition prune_mempool : SM Node Z :=
  before ← sm_get;
  prune_invalid_mempool;;
  after ← sm_get;
  on_mempool_store (replace_all (n_mempool after));;
  mret (zlen (n_mempool before) - zlen (n_mempool after)).

(** [clear_mempool] *)
Definition clear_mempool : SM Node Z :=
  n ← sm_get;
  sm_put (with_mempool [] n);;
  on_mempool_store (replace_all []);;
  mret (zlen (n_mempool n)).

(** [_load_mempool] *)
Definition load_mempool (s : ConsensusState) (p : MempoolPolicy) : SM MempoolStore (list ConsensusTransaction) :=
  c ← sm_lift (copy_state s);
  m ← sm_get;
  ts ← sm_lift (mempool_transactions m);
  let valid := keep_valid p c [] ts in
  (if zlen valid =? mempool_count m then mret tt else replace_all valid);;
  mret valid.

End mempool.

(** ** The invariant *)

Definition spends (ts : list ConsensusTransaction) : Prop := Forall (λ t, is_coinbase t = false) ts.

Definition distinct (ts : list ConsensusTransaction) : Prop := ∃ ids, mapR txid ts = Ok ids ∧ NoDup ids.

Definition applicable `{Ed25519} (s : ConsensusState) (ts : list ConsensusTransaction) : Prop :=
  ∃ fees s', tx_steps s ts fees s'.

Definition mempool_wf `{Ed25519} (n : Node) : Prop :=
  spends (n_mempool n) ∧ distinct (n_mempool n) ∧ applicable (n_state n) (n_mempool n).

(** Transaction [t] follows [ts] with fee [fee]. *)
Definition follows `{Ed25519} (s : ConsensusState) (ts : list ConsensusTransaction) (t : ConsensusTransaction) (fee : Z) :
    Prop := ∃ f c s', tx_steps s ts f c ∧ apply_transaction t c = (s', Ok fee).

(** The score of entry [i] of [ts], at the fee it pays in its place. *)
Definition entry_score `{Ed25519} (s : ConsensusState) (ts : list ConsensusTransaction) (i : nat) (sc : score) : Prop :=
  ∃ e fee, ts !! i = Some e ∧ follows s (take i ts) e fee ∧ transaction_policy_score e fee = Ok sc.

(** The mempool table holds the mempool. *)
Definition mempool_saved (n : Node) : Prop :=
  ∃ rows, mapR mempool_row (n_mempool n) = Ok rows ∧ d_mempool (n_disk n) = list_to_map rows.

(** Without entry [i], the others still apply in order, and [t] after them. *)
Definition without {A} (i : nat) (l : list A) : list A := take i l ++ drop (S i) l.

Definition removable `{Ed25519} (s : ConsensusState) (ts : list ConsensusTransaction) (t : ConsensusTransaction) (i : nat) :
    Prop := ∃ fee, follows s (without i ts) t fee.

(** The choice of [_evict_for_policy] among the first [k] entries. *)
Definition best_eviction `{Ed25519} (s : ConsensusState) (ts : list ConsensusTransaction) (t : ConsensusTransaction)
    (k : nat) (best : option eviction) : Prop :=
  match best with
  | None => ∀ i, (i < k)%nat → ¬ removable s ts t i
  | Some (kept, fee, sc) =>
      ∃ i, entry_score s ts i sc ∧ kept = without i ts ∧ follows s kept t fee ∧
        ∀ j sc', (j < k)%nat → removable s ts t j → entry_score s ts j sc' → score_ltb sc' sc = false
  end.

(** The candidate after each transaction of [ts] was tried on it, and the rule of
    the prune loop: [kept] holds a transaction of [ts] exactly when it applies in
    its turn and passes the policy at the number kept before it. *)
Definition tried `{Ed25519} (c : ConsensusState) (ts : list ConsensusTransaction) : ConsensusState :=
  foldl (λ c t, (apply_transaction t c).1) c ts.

Definition kept_before (kept pre : list ConsensusTransaction) : Z := zlen (filter (λ x, x ∈ kept) pre).

Definition prunes_to `{Ed25519} (p : MempoolPolicy) (s : ConsensusState) (ts kept : list ConsensusTransaction) : Prop :=
  kept `sublist_of` ts ∧
  ∀ pre t post, ts = pre ++ t :: post →
    (t ∈ kept ↔ ∃ fee, (apply_transaction t (tried s pre)).2 = Ok fee ∧ policy_validate p t fee (kept_before kept pre) = Ok tt).

(** The policy refuses no transaction that applies in its turn. *)
Definition policy_passes `{Ed25519} (p : MempoolPolicy) (s : ConsensusState) (ts kept : list ConsensusTransaction) : Prop :=
  ∀ pre t post fee, ts = pre ++ t :: post → (apply_transaction t (tried s pre)).2 = Ok fee →
    policy_validate p t fee (kept_before kept pre) = Ok tt.

(** A policy without a minimum fee, such as the default; and the transactions
    within the limits of a policy. *)
Definition flat (p : MempoolPolicy) : Prop :=
  min_relay_fee p ≤ 0 ∧ min_relay_fee_rate p = 0 ∧ dynamic_fee_rate_step p = 0.

Definition within (p : MempoolPolicy) (t : ConsensusTransaction) : Prop :=
  zlen (inputs t) ≤ max_inputs p ∧ zlen (outputs t) ≤ max_outputs p ∧
  ∃ size, serialized_size t = Ok size ∧ size ≤ max_transaction_bytes p.

Lemma flat_accepts p t fee count : flat p → within p t → 0 ≤ fee → 0 ≤ count < max_transactions p →
  policy_validate p t fee count = Ok tt.
Proof.
  intros (Hm & Hr & Hd) (Hi & Ho & size & Hs & Hb) Hf Hc. apply policy_validate_Ok; [lia|].
  split_and!; [lia|done|done|]. exists size. split_and!; [done|done|lia|]. rewrite Hr, Hd. lia.
Qed.

(** ** Lemmas: identifiers *)

Lemma any_txid_Ok h ts r : any_txid h ts = Ok r →
  r = false → ∃ ids, mapR txid ts = Ok ids ∧ h ∉ ids.
Proof.
  revert r. induction ts as [|t ts IH]; intros r E ->; simpl in E.
  - exists []. split; [done|]. apply not_elem_of_nil.
  - apply bind_Ok in E as (h' & Hh & E). case_bool_decide; [done|]. destruct (IH _ E eq_refl) as (ids & Hids & Hn).
    exists (h' :: ids). simpl. rewrite Hh. csimpl. rewrite Hids. split; [done|]. by apply not_elem_of_cons.
Qed.

Lemma without_txids_sublist hs ts r : without_txids hs ts = Ok r → r `sublist_of` ts.
Proof.
  revert r. induction ts as [|t ts IH]; intros r E; simpl in E; [by simplify_eq|].
  inv_ok E. subst. apply IH in Hx0. case_bool_decide; by constructor.
Qed.

Lemma without_txids_filter hs ts ids r : mapR txid ts = Ok ids → without_txids hs ts = Ok r →
  ∀ t h, t ∈ ts → txid t = Ok h → (t ∈ r → h ∉ hs).
Proof.
  intros _. revert r. induction ts as [|x ts IH]; intros r E t h Ht Hh Hr; simpl in E; [by apply elem_of_nil in Ht|].
  inv_ok E. subst. assert (Hin : ∀ t h, t ∈ x1 → txid t = Ok h → h ∉ hs).
  { intros t' h' Ht' Hh'. eapply IH; [done| |done|done]. eapply elem_of_sublist; [done|by eapply without_txids_sublist]. }
  case_bool_decide; [by eapply Hin|]. apply elem_of_cons in Hr as [->|Hr]; [congruence|by eapply Hin].
Qed.

Lemma without_txids_elem hs ts ids r : mapR txid ts = Ok ids → without_txids hs ts = Ok r →
  ∀ t h, t ∈ ts → txid t = Ok h → (t ∈ r ↔ h ∉ hs).
Proof.
  intros Hids E t h Ht Hh. split; [by eapply without_txids_filter|]. clear Hids. revert r E.
  induction ts as [|x ts IH]; intros r E Hn; simpl in E; [by apply elem_of_nil in Ht|]. inv_ok E. subst.
  apply elem_of_cons in Ht as [<-|Ht].
  - assert (x0 = h) as -> by congruence. case_bool_decide; [done|]. left.
  - pose proof (IH Ht _ Hx0 Hn). case_bool_decide; [done|]. by right.
Qed.

Lemma distinct_app_inv ts t ids h : mapR txid ts = Ok ids → NoDup ids → txid t = Ok h → h ∉ ids → distinct (ts ++ [t]).
Proof.
  intros Hids Hn Hh Hnot. exists (ids ++ [h]). rewrite mapR_app, Hids. simpl. rewrite Hh. split; [done|].
  apply NoDup_app. split; [done|]. split; [|apply NoDup_singleton]. by intros y Hy ->%list_elem_of_singleton.
Qed.

Lemma mapR_sublist {A B} (f : A → result B) l k ys : k `sublist_of` l → mapR f l = Ok ys →
  ∃ zs, mapR f k = Ok zs ∧ zs `sublist_of` ys.
Proof.
  intros Hs. revert ys. induction Hs as [|x k l _ IH|x k l _ IH]; intros ys E; simpl in E.
  - exists []. split; [done|]. apply sublist_nil_l.
  - inv_ok E. subst. destruct (IH _ Hx0) as (zs & Hz & Hs). exists (x0 :: zs). simpl. rewrite Hx. csimpl. rewrite Hz.
    split; [done|by constructor].
  - inv_ok E. subst. destruct (IH _ Hx0) as (zs & Hz & Hs). exists zs. split; [done|by constructor].
Qed.

Lemma distinct_sublist ts ts' : ts' `sublist_of` ts → distinct ts → distinct ts'.
Proof.
  intros Hs (ids & Hids & Hn). destruct (mapR_sublist _ _ _ _ Hs Hids) as (zs & Hz & Hsub). exists zs.
  split; [done|]. by eapply sublist_NoDup.
Qed.

Lemma conflicts_spec t e : conflicts t e = true ↔ ∃ o, o ∈ input_outpoints t ∧ o ∈ input_outpoints e.
Proof.
  unfold conflicts. rewrite existsb_exists. setoid_rewrite bool_decide_eq_true. by setoid_rewrite list_elem_of_In.
Qed.

(** ** Lemmas: the order on scores *)

Lemma str_ltb_trans x y z : str_ltb x y = true → str_ltb y z = true → str_ltb x z = true.
Proof.
  unfold str_ltb. destruct (str_compare x y) eqn:E1; try done. destruct (str_compare y z) eqn:E2; try done.
  by rewrite (str_compare_trans _ _ _ E1 E2).
Qed.

Lemma score_ltb_trans x y z : score_ltb x y = true → score_ltb y z = true → score_ltb x z = true.
Proof.
  unfold score_ltb. destruct x as [[a b] c], y as [[a' b'] c'], z as [[a2 b2] c2]. simpl.
  destruct (Z.compare_spec a a'), (Z.compare_spec a' a2), (Z.compare_spec a a2); try done; try lia;
    destruct (Z.compare_spec b b'), (Z.compare_spec b' b2), (Z.compare_spec b b2); try done; try lia.
  apply str_ltb_trans.
Qed.

Section mempool_lemmas.
Context `{ED : Ed25519}.

(** ** Lemmas: candidates *)

Lemma copy_state_Ok s r : copy_state s = Ok r ↔ 0 ≤ block_subsidy s ∧ 0 < max_money s ∧ r = s.
Proof. unfold copy_state. rewrite utxo_copy_id. csimpl. apply state_init_copy. Qed.

Lemma run_transactions_Ok s ts f r : apply_transactions 0 ts s = (r, Ok f) ↔ tx_steps s ts f r.
Proof. rewrite apply_transactions_Ok. split; [by intros (? & -> & ?)|eauto]. Qed.

Lemma candidate_after_Ok s ts c :
  candidate_after s ts = Ok c ↔ 0 ≤ block_subsidy s ∧ 0 < max_money s ∧ ∃ f, tx_steps s ts f c.
Proof.
  unfold candidate_after. rewrite bind_Ok. setoid_rewrite copy_state_Ok. setoid_rewrite run_state_Ok.
  setoid_rewrite run_transactions_Ok. naive_solver.
Qed.

Lemma candidate_follows s ts c t fee :
  candidate_after s ts = Ok c → (apply_transaction t c).2 = Ok fee → follows s ts t fee.
Proof.
  rewrite candidate_after_Ok. intros (_ & _ & f & Hs) E. apply run_Ok in E. eexists f, c, _. split; [exact Hs|exact E].
Qed.

Lemma tx_steps_det s ts f1 s1 f2 s2 : tx_steps s ts f1 s1 → tx_steps s ts f2 s2 → f1 = f2 ∧ s1 = s2.
Proof. intros E1%run_transactions_Ok E2%run_transactions_Ok. split; congruence. Qed.

Lemma tx_steps_snoc s ts f c t fee s' :
  tx_steps s ts f c → apply_transaction t c = (s', Ok fee) → tx_steps s (ts ++ [t]) (f + fee) s'.
Proof.
  intros Hs [Hv Hc]%apply_transaction_Ok. induction Hs as [s|s x fx s1 ts fs s2 Hvx Hcx _ IH]; simpl.
  - replace (0 + fee) with (fee + 0) by lia. econstructor; [done..|constructor].
  - rewrite <- Z.add_assoc. econstructor; [done..|]. by apply IH.
Qed.

Lemma tx_steps_app_mk s ts1 f1 s1 ts2 f2 s2 :
  tx_steps s ts1 f1 s1 → tx_steps s1 ts2 f2 s2 → tx_steps s (ts1 ++ ts2) (f1 + f2) s2.
Proof.
  induction 1 as [s|s x fx sx ts fs s1 Hv Hc _ IH]; intros H2; simpl; [by replace (0 + f2) with f2 by lia|].
  rewrite <- Z.add_assoc. econstructor; [done..|]. by apply IH.
Qed.

Lemma follows_applicable s ts t fee : follows s ts t fee → applicable s (ts ++ [t]).
Proof. intros (f & c & s' & Hs & Ha). eexists _, _. by eapply tx_steps_snoc. Qed.

Lemma follows_det s ts t fee fee' : follows s ts t fee → follows s ts t fee' → fee = fee'.
Proof.
  intros (f & c & s' & Hs & Ha) (f2 & c2 & s2 & Hs2 & Ha2). destruct (tx_steps_det _ _ _ _ _ _ Hs Hs2) as [_ <-].
  congruence.
Qed.

(** ** Lemmas: the fees of the mempool's entries *)

Lemma transaction_fees_dom c ts fees ids h f :
  transaction_fees c ts = Ok fees → mapR txid ts = Ok ids → fees !! h = Some f → h ∈ ids.
Proof.
  revert c fees ids f. induction ts as [|t ts IH]; intros c fees ids f E Hids Hf; cbn [transaction_fees] in E.
  - inv_ok E. subst. by rewrite lookup_empty in Hf.
  - destruct (apply_transaction t c) as [c' [fee|]]; [|done]. simpl in Hids.
    apply bind_Ok in Hids as (ht & Ht & Hids). apply bind_Ok in Hids as (ids' & Hids & [= <-]). rewrite Ht in E.
    apply bind_Ok in E as (? & [= <-] & E). apply bind_Ok in E as (fees' & E & [= <-]).
    assert (Hd : ∀ f', fees' !! h = Some f' → h ∈ ht :: ids') by (intros f' Hf'; right; by eapply IH).
    case_decide; [by eapply Hd|]. apply lookup_insert_Some in Hf as [[<- _]|[_ Hf]]; [by left|by eapply Hd].
Qed.

Lemma transaction_fees_follows c ts fees ids i e h :
  transaction_fees c ts = Ok fees → mapR txid ts = Ok ids → NoDup ids → ts !! i = Some e → txid e = Ok h →
  ∃ fee, fees !! h = Some fee ∧ follows c (take i ts) e fee.
Proof.
  revert c fees ids i. induction ts as [|t ts IH]; intros c fees ids i E Hids Hn Hi Hh; [done|].
  cbn [transaction_fees] in E. destruct (apply_transaction t c) as [c' [fee|]] eqn:Et; [|done]. simpl in Hids.
  apply bind_Ok in Hids as (ht & Ht & Hids). apply bind_Ok in Hids as (ids' & Hids & [= <-]). rewrite Ht in E.
  apply bind_Ok in E as (? & [= <-] & E). apply bind_Ok in E as (fees' & E & [= <-]). apply NoDup_cons in Hn as [Hx Hn].
  rewrite decide_False.
  2: { intros [f Hf]. apply Hx. by eapply transaction_fees_dom. }
  destruct i as [|i]; simpl in Hi |- *.
  - simplify_eq. assert (h = ht) as -> by congruence. exists fee. split; [by rewrite lookup_insert_eq|]. exists 0, c, c'. split; [constructor|done].
  - destruct (IH _ _ _ _ E Hids Hn Hi Hh) as (f & Hf & f0 & c0 & s' & Hs & Ha). exists f. split.
    + rewrite lookup_insert_ne; [done|]. intros <-. apply Hx. by eapply transaction_fees_dom.
    + apply apply_transaction_Ok in Et as [Hv Hc]. eexists _, c0, s'. split; [by econstructor|done].
Qed.

(** ** Lemmas: replacement *)

Lemma replacement_context_Ok n t r : distinct (n_mempool n) → replacement_context n t = Ok r →
  (Forall (λ e, conflicts t e = false) (n_mempool n) ∧ r = mkReplacement (n_mempool n) [] 0) ∨
  (rc_replaced r = filter (λ e, conflicts t e = true) (n_mempool n) ∧ rc_replaced r ≠ [] ∧
   allow_replacement (n_policy n) = true ∧ rc_remaining r `sublist_of` n_mempool n ∧
   Forall (λ e, conflicts t e = false) (rc_remaining r) ∧
   ∃ f c s', tx_steps (n_state n) (rc_remaining r) f c ∧ tx_steps c (rc_replaced r) (rc_replaced_fee r) s').
Proof.
  unfold replacement_context. intros (ids & Hids & _) E.
  destruct (filter (λ e, conflicts t e = true) (n_mempool n)) as [|e0 es] eqn:Ef.
  - left. inv_ok E. split; [|done]. apply Forall_forall. intros e He. destruct (conflicts t e) eqn:Ec; [|done].
    assert (Hin : e ∈ []) by (rewrite <- Ef; by apply list_elem_of_filter). by apply elem_of_nil in Hin.
  - right. rewrite <- Ef in E |- *. assert (Hne : filter (λ e, conflicts t e = true) (n_mempool n) ≠ []) by (by rewrite Ef).
    clear Ef e0 es. inv_ok E. apply negb_false_iff in Hc. subst r. simpl. split_and!; try done.
    + by eapply without_txids_sublist.
    + apply Forall_forall. intros e He. destruct (conflicts t e) eqn:Ec; [|done]. exfalso.
      assert (Hin : e ∈ n_mempool n) by (eapply elem_of_sublist; [done|by eapply without_txids_sublist]).
      assert (Hr : e ∈ filter (λ e, conflicts t e = true) (n_mempool n)) by (by apply list_elem_of_filter).
      apply list_elem_of_lookup in Hr as [k Hk]. apply mapR_Ok in Hx.
      destruct (Forall2_lookup_l _ _ _ _ _ Hx Hk) as (h & Hh & Hth).
      eapply without_txids_filter; [done|done|exact Hin|done|done|]. by eapply list_elem_of_lookup_2.
    + apply candidate_after_Ok in Hx1 as (_ & _ & f & Hs). apply run_Ok, run_transactions_Ok in Hx2. eauto.
Qed.

(** ** Lemmas: eviction *)

Lemma entry_score_det s ts i sc sc' : entry_score s ts i sc → entry_score s ts i sc' → sc = sc'.
Proof.
  intros (e & f & He & Hf & Hs) (e' & f' & He' & Hf' & Hs'). simplify_eq.
  rewrite (follows_det _ _ _ _ _ Hf Hf') in Hs. congruence.
Qed.

Lemma score_ltb_irrefl x : score_ltb x x = false.
Proof. unfold score_ltb, str_ltb. by rewrite !Z.compare_refl, str_compare_refl. Qed.

Lemma evict_step_Ok s t fees ids ts k e best best' :
  transaction_fees s ts = Ok fees → mapR txid ts = Ok ids → NoDup ids → ts !! k = Some e →
  0 ≤ block_subsidy s → 0 < max_money s →
  best_eviction s ts t k best → evict_step s t fees ts best (Z.of_nat k, e) = Ok best' →
  best_eviction s ts t (S k) best'.
Proof.
  intros Hfees Hids Hn Hk Hs Hm Hbest E. unfold evict_step in E. cbn [fst snd] in E. rewrite Nat2Z.id in E.
  apply bind_Ok in E as (h & Hh & E).
  destruct (transaction_fees_follows _ _ _ _ _ _ _ Hfees Hids Hn Hk Hh) as (f & Hf & Hfol). rewrite Hf in E.
  apply bind_Ok in E as (? & [= <-] & E). apply bind_Ok in E as (sc & Hsc & E).
  assert (Hes : entry_score s ts k sc) by (exists e, f; done). fold (without k ts) in E.
  destruct (candidate_after s (without k ts) ≫= λ c, (apply_transaction t c).2) as [fee|x] eqn:Ec.
  - apply bind_Ok in Ec as (c & Hc & Ha). pose proof (candidate_follows _ _ _ _ _ Hc Ha) as Hw.
    assert (Hnew : (∀ j sc', (j < k)%nat → removable s ts t j → entry_score s ts j sc' → score_ltb sc' sc = false) →
      best_eviction s ts t (S k) (Some (without k ts, fee, sc))).
    { intros Hmin. exists k. split_and!; [done..|]. intros j sc' Hj Hr Hj'.
      destruct (decide (j = k)) as [->|]; [|apply (Hmin j); [lia|done..]].
      rewrite (entry_score_det _ _ _ _ _ Hj' Hes). apply score_ltb_irrefl. }
    destruct best as [[[r f0] sc0]|]; [destruct (score_ltb sc sc0) eqn:El|];
      cbn [snd] in E; rewrite ?El in E; injection E as <-; simpl in Hbest.
    + apply Hnew. destruct Hbest as (i & _ & _ & _ & Hmin). intros j sc' Hj Hr Hj'.
      destruct (score_ltb sc' sc) eqn:El'; [|done]. rewrite <- (Hmin j sc'); [|done..]. symmetry.
      by eapply score_ltb_trans.
    + destruct Hbest as (i & Hi & Hr & Hf0 & Hmin). exists i. split_and!; [done..|]. intros j sc' Hj Hrj Hj'.
      destruct (decide (j = k)) as [->|]; [|apply (Hmin j); [lia|done..]].
      by rewrite (entry_score_det _ _ _ _ _ Hj' Hes).
    + apply Hnew. intros j sc' Hj Hr. by destruct (Hbest j Hj).
  - assert (Hnr : ¬ removable s ts t k).
    { intros (fee & f1 & c & s' & Hst & Ha). rewrite (proj2 (candidate_after_Ok s _ c)) in Ec by eauto.
      simpl in Ec. rewrite Ha in Ec. done. }
    simplify_eq. assert (Hlt : ∀ j, (j < S k)%nat → removable s ts t j → (j < k)%nat).
    { intros j Hj Hr. destruct (decide (j = k)) as [->|]; [done|lia]. }
    destruct best' as [[[r f0] sc0]|]; simpl in *.
    + destruct Hbest as (i & ? & ? & ? & Hmin). exists i. split_and!; [done..|]. eauto.
    + intros j Hj Hr. by eapply Hbest; [eapply Hlt|].
Qed.

Lemma evict_fold_Ok s t fees ids ts best :
  transaction_fees s ts = Ok fees → mapR txid ts = Ok ids → NoDup ids →
  0 ≤ block_subsidy s → 0 < max_money s →
  foldR (evict_step s t fees ts) None (enumerate 0 ts) = Ok best → best_eviction s ts t (length ts) best.
Proof.
  intros Hfees Hids Hn Hs Hm.
  assert (Hgen : ∀ l k b b', drop k ts = l → (k ≤ length ts)%nat → best_eviction s ts t k b →
    foldR (evict_step s t fees ts) b (enumerate (Z.of_nat k) l) = Ok b' → best_eviction s ts t (length ts) b').
  { induction l as [|e l IH]; intros k b b' Hd Hk Hb E; cbn [enumerate foldR] in E.
    - injection E as <-. assert (length ts - k = 0)%nat by (by rewrite <- length_drop, Hd).
      by replace (length ts) with k by lia.
    - apply bind_Ok in E as (b1 & E1 & E). assert (Hek : ts !! k = Some e).
      { rewrite <- (Nat.add_0_r k), <- lookup_drop, Hd. done. }
      apply (IH (S k) b1 b').
      + rewrite <- Nat.add_1_r, <- drop_drop, Hd. done.
      + apply lookup_lt_Some in Hek. lia.
      + by eapply evict_step_Ok.
      + by replace (Z.of_nat (S k)) with (Z.of_nat k + 1) by lia. }
  intros E. apply (Hgen ts 0%nat None best); [done|lia| |done]. simpl. intros i Hi. lia.
Qed.

Lemma evict_for_policy_Ok n t remaining fee r : distinct remaining → follows (n_state n) remaining t fee →
  evict_for_policy n t remaining fee = Ok r →
  (r = (remaining, fee) ∧
     (max_transactions (n_policy n) ≤ zlen remaining → allow_eviction (n_policy n) = true →
      ∀ i, (i < length remaining)%nat → ¬ removable (n_state n) remaining t i)) ∨
  (max_transactions (n_policy n) ≤ zlen remaining ∧ allow_eviction (n_policy n) = true ∧
   ∃ sc new_sc, best_eviction (n_state n) remaining t (length remaining) (Some (r.1, r.2, sc)) ∧
     transaction_policy_score t fee = Ok new_sc ∧ sc.1.1 + eviction_fee_rate_bump (n_policy n) ≤ new_sc.1.1).
Proof.
  intros (ids & Hids & Hn) Hf. unfold evict_for_policy. destruct (Z.ltb_spec (zlen remaining) (max_transactions (n_policy n))).
  { intros [= <-]. left. split; [done|lia]. }
  destruct (allow_eviction (n_policy n)) eqn:Ea; simpl; [|intros [= <-]; by left].
  intros E. apply bind_Ok in E as (new_sc & Hnew & E). apply bind_Ok in E as (c & (Hs & Hm & ->)%copy_state_Ok & E).
  apply bind_Ok in E as (fees & Hfees & E). apply bind_Ok in E as (best & Hb & E).
  apply (evict_fold_Ok _ _ _ ids) in Hb; [|done..].
  destruct best as [[[br bf] bs]|].
  - right. split; [done|]. split; [done|]. apply raise_if_bind in E as [Hc [= <-]]. bool_prop. exists bs, new_sc. done.
  - left. injection E as <-. done.
Qed.

(** ** Lemmas: submission *)

Lemma txid_encodes t h : txid t = Ok h → ∃ p, mempool_row t = Ok (h, p).
Proof. unfold mempool_row, mempool_encode, txid. intros (x & -> & ->)%result_fmap_Ok. csimpl. eauto. Qed.

Lemma replace_all_ok ts m : distinct ts →
  ∃ rows, mapR mempool_row ts = Ok rows ∧ replace_all ts m = (list_to_map rows, Ok tt).
Proof.
  intros (ids & Hids & Hn).
  assert (∃ rows, mapR mempool_row ts = Ok rows ∧ rows.*1 = ids) as (rows & Hr & Hk).
  { clear Hn. revert ids Hids. induction ts as [|t ts IH]; intros ids Hids; simpl in Hids.
    - injection Hids as <-. by exists [].
    - inv_ok Hids. subst. destruct (IH _ Hx0) as (rows & Hr & <-). destruct (txid_encodes _ _ Hx) as [p Hp].
      exists ((x, p) :: rows). simpl. rewrite Hp. csimpl. by rewrite Hr. }
  exists rows. split; [done|].
  unfold replace_all, sm_atomic, sm_lift, sm_put, mbind, SM_bind. rewrite Hr.
  rewrite (proj2 (insert_rows_Ok (λ _ _, Ok tt) ∅ rows (list_to_map rows))); [done|].
  split_and!; [by subst|done|by apply Forall_true|by rewrite (right_id_L ∅ (∪))].
Qed.

Lemma without_sublist {A} i (l : list A) : without i l `sublist_of` l.
Proof.
  unfold without. rewrite <- (take_drop i l) at 3. apply sublist_app; [done|].
  rewrite <- Nat.add_1_r, <- drop_drop. apply sublist_drop.
Qed.

(** What the checks of a submission establish. *)
Lemma admission_Ok n t kept : distinct (n_mempool n) → admission n t = Ok kept → ∃ h fee,
  txid t = Ok h ∧ is_coinbase t = false ∧ kept `sublist_of` n_mempool n ∧ distinct (kept ++ [t]) ∧
  follows (n_state n) kept t fee ∧ policy_validate (n_policy n) t fee (zlen kept) = Ok tt ∧
  (Forall (λ e, conflicts t e = false) (n_mempool n) ∧
     (∃ fee0, follows (n_state n) (n_mempool n) t fee0 ∧
        evict_for_policy n t (n_mempool n) fee0 = Ok (kept, fee)) ∨
   (∃ e, e ∈ n_mempool n ∧ conflicts t e = true) ∧ allow_replacement (n_policy n) = true ∧
     Forall (λ e, conflicts t e = false) kept ∧ ∃ f c replaced_fee s',
     tx_steps (n_state n) kept f c ∧
     tx_steps c (filter (λ e, conflicts t e = true) (n_mempool n)) replaced_fee s' ∧
     replaced_fee + replacement_fee_bump (n_policy n) ≤ fee).
Proof.
  intros Hd E. unfold admission in E. apply bind_Ok in E as (h & Hh & E). apply raise_if_bind in E as [Hcb E].
  apply bind_Ok in E as (known & Hk & E). apply raise_if_bind in E as [-> E].
  apply bind_Ok in E as (r & Hr & E). apply bind_Ok in E as (c & Hc & E). apply bind_Ok in E as (fee & Ha & E).
  destruct (any_txid_Ok _ _ _ Hk eq_refl) as (ids & Hids & Hnot).
  assert (Hn : NoDup ids) by (destruct Hd as (ids' & ? & ?); congruence).
  assert (Hdis : ∀ ts, ts `sublist_of` n_mempool n → distinct (ts ++ [t])).
  { intros ts Hs. destruct (mapR_sublist _ _ _ _ Hs Hids) as (zs & Hz & Hsub).
    eapply distinct_app_inv; [done|by eapply sublist_NoDup|done|]. intros Hin. apply Hnot. by eapply elem_of_sublist. }
  pose proof (candidate_follows _ _ _ _ _ Hc Ha) as Hf. exists h.
  destruct (replacement_context_Ok _ _ _ Hd Hr) as [[Hno ->]|(Hrep & Hne & Hall & Hsub & Hno & f & c' & s' & Hs & Hs')].
  - cbn [rc_replaced rc_remaining rc_replaced_fee] in E. rewrite bool_decide_true in E by done. apply bind_Ok in E as (? & _ & E).
    apply bind_Ok in E as ([kept' fee'] & He & E). apply bind_unit_Ok in E as [Hp [= <-]]. simpl in Hp |- *.
    simpl in Hf. assert (Hres : kept' `sublist_of` n_mempool n ∧ follows (n_state n) kept' t fee').
    { destruct (evict_for_policy_Ok _ _ _ _ _ Hd Hf He) as [[[= -> ->] _]|(_ & _ & sc & _ & Hb & _)].
      { by split. }
      simpl in Hb. destruct Hb as (i & _ & -> & Hf' & _). split; [apply without_sublist|done]. }
    destruct Hres as [Hsub Hf']. exists fee'. split_and!; [done..|by apply Hdis|done|done|]. left. eauto.
  - rewrite bool_decide_false in E by done. apply bind_unit_Ok in E as [Hfee E].
    apply bind_Ok in E as (? & [= <-] & E). apply bind_unit_Ok in E as [Hp [= <-]]. simpl in Hp |- *.
    apply raise_if_Ok in Hfee. bool_prop. exists fee. split_and!; [done..|by apply Hdis|done|done|]. right.
    split_and!; [|done|done|].
    + destruct (filter (λ e, conflicts t e = true) (n_mempool n)) as [|e l] eqn:Ef; [by rewrite Hrep in Hne|].
      exists e. assert (He : e ∈ e :: l) by left. rewrite <- Ef in He. by apply list_elem_of_filter in He as [].
    + rewrite Hrep in Hs'. eauto 10.
Qed.

(** Submission either fails and changes nothing, or admits the transaction. *)
Lemma submit_cases n t : distinct (n_mempool n) →
  (∃ e, admission n t = Err e ∧ submit_transaction t n = (n, Err e)) ∨
  (∃ kept h rows, admission n t = Ok kept ∧ txid t = Ok h ∧ mapR mempool_row (kept ++ [t]) = Ok rows ∧
     submit_transaction t n =
       (with_disk (with_mempool_store (list_to_map rows) (n_disk n)) (with_mempool (kept ++ [t]) n), Ok h)).
Proof.
  intros Hd. unfold submit_transaction, sm_get, sm_lift, sm_put, mbind, SM_bind. destruct (admission n t) as [kept|e] eqn:E.
  - right. destruct (admission_Ok _ _ _ Hd E) as (h & _ & Hh & _ & _ & Hk & _).
    unfold on_mempool_store, sm_zoom. cbn [n_disk with_mempool].
    destruct (replace_all_ok (kept ++ [t]) (d_mempool (n_disk n)) Hk) as (rows & Hr & ->). cbn [fst snd].
    rewrite Hh. eauto 10.
  - left. eauto.
Qed.

(** ** Lemmas: pruning *)

Lemma keep_valid_sublist p c valid ts : ∃ kept, keep_valid p c valid ts = valid ++ kept ∧ kept `sublist_of` ts.
Proof.
  revert c valid. induction ts as [|t ts IH]; intros c valid; cbn [keep_valid].
  - exists []. by rewrite app_nil_r.
  - destruct (fee ← (apply_transaction t c).2; policy_validate p t fee (zlen valid)) as [u|e].
    + destruct (IH (apply_transaction t c).1 (valid ++ [t])) as (kept & -> & Hs). exists (t :: kept).
      rewrite <- app_assoc. split; [done|by constructor].
    + destruct (IH (apply_transaction t c).1 valid) as (kept & -> & Hs). exists kept. split; [done|by constructor].
Qed.

Lemma tried_app c ts ts' : tried c (ts ++ ts') = tried (tried c ts) ts'.
Proof. apply foldl_app. Qed.

Lemma keep_valid_app p c valid ts ts' :
  keep_valid p c valid (ts ++ ts') = keep_valid p (tried c ts) (keep_valid p c valid ts) ts'.
Proof.
  revert c valid. induction ts as [|t ts IH]; intros c valid; [done|]. cbn [app keep_valid]. unfold tried. cbn [foldl].
  destruct (fee ← (apply_transaction t c).2; policy_validate p t fee (zlen valid)); apply IH.
Qed.

Lemma distinct_NoDup ts : distinct ts → NoDup ts.
Proof.
  intros (ids & Hids & Hn). revert ids Hids Hn. induction ts as [|t ts IH]; intros ids Hids Hn; [constructor|].
  simpl in Hids. inv_ok Hids. subst. apply NoDup_cons in Hn as [Hnew Hn]. constructor; [|by eapply IH].
  intros Hin. apply Hnew. apply list_elem_of_lookup in Hin as [k Hk]. apply mapR_Ok in Hx0.
  destruct (Forall2_lookup_l _ _ _ _ _ Hx0 Hk) as (h & Hh & E). assert (h = x) as -> by congruence.
  by eapply list_elem_of_lookup_2.
Qed.

Lemma filter_of_sublist {A} `{EqDecision A} (k l : list A) : NoDup l → k `sublist_of` l → filter (λ x, x ∈ k) l = k.
Proof.
  intros Hn Hs. induction Hs as [|x k l Hs IH|x k l Hs IH]; [done| |]; apply NoDup_cons in Hn as [Hx Hn].
  - rewrite filter_cons_True by left. f_equal. etransitivity; [|by apply IH]. apply filter_ext_in. intros y Hy. rewrite elem_of_cons. split; [|by auto]. intros [->|]; done.
  - rewrite filter_cons_False; [by apply IH|]. intros Hin. apply Hx. by eapply elem_of_sublist.
Qed.

(** Where the policy passes every entry that applies in its turn, the entries kept
    apply in order. *)
Lemma keep_valid_applicable s p c valid ts f : tx_steps s valid f c →
  (∀ pre t post fee, ts = pre ++ t :: post → (apply_transaction t (tried c pre)).2 = Ok fee →
     policy_validate p t fee (zlen (keep_valid p c valid pre)) = Ok tt) →
  applicable s (keep_valid p c valid ts).
Proof.
  revert c valid f. induction ts as [|t ts IH]; intros c valid f Hv Hp; cbn [keep_valid]; [by eexists _, _|].
  assert (Hnext : ∀ v, keep_valid p c valid [t] = v → ∀ f', tx_steps s v f' (apply_transaction t c).1 →
    applicable s (keep_valid p (apply_transaction t c).1 v ts)).
  { intros v <- f' Hv'. eapply IH; [exact Hv'|]. intros pre t' post fee -> E.
    change ((apply_transaction t c).1) with (tried c [t]). rewrite <- (keep_valid_app p c valid [t] pre). exact (Hp (t :: pre) t' post fee eq_refl E). }
  destruct (apply_transaction t c) as [c' [fee|e]] eqn:E; cbn [fst snd] in *; csimpl.
  - pose proof (Hp [] t ts fee eq_refl) as Ht. unfold tried in Ht. cbn [foldl] in Ht. rewrite E in Ht.
    specialize (Ht eq_refl). cbn [keep_valid] in Ht. rewrite Ht. eapply (Hnext (valid ++ [t])); [|by eapply tx_steps_snoc].
    cbn [keep_valid]. rewrite E. cbn [snd]. csimpl. by rewrite Ht.
  - pose proof (apply_transaction_err _ _ _ _ E) as ->. eapply (Hnext valid); [|exact Hv].
    cbn [keep_valid]. rewrite E. by csimpl.
Qed.

Lemma keep_valid_elem p c valid ts x : x ∉ ts → x ∈ keep_valid p c valid ts ↔ x ∈ valid.
Proof.
  intros Hx. destruct (keep_valid_sublist p c valid ts) as (k & -> & Hk). rewrite elem_of_app.
  split; [|by left]. intros [|Hin]; [done|]. by eapply elem_of_sublist in Hk.
Qed.

Lemma kept_before_valid p s pre ts : NoDup (pre ++ ts) →
  kept_before (keep_valid p s [] (pre ++ ts)) pre = zlen (keep_valid p s [] pre).
Proof.
  intros (Hpre & Hdis & _)%NoDup_app. destruct (keep_valid_sublist p s [] pre) as (kpre & E & Hs). simpl in E.
  rewrite keep_valid_app, E. unfold kept_before. f_equal. etransitivity; [|by apply (filter_of_sublist kpre pre)].
  apply filter_ext_in. intros x Hx. apply keep_valid_elem. by apply Hdis.
Qed.

Lemma keep_valid_prunes p s ts : NoDup ts → prunes_to p s ts (keep_valid p s [] ts).
Proof.
  intros Hn. destruct (keep_valid_sublist p s [] ts) as (kept & E & Hsub). simpl in E. split; [by rewrite E|].
  intros pre t post ->. rewrite kept_before_valid by done. clear kept E Hsub. apply NoDup_app in Hn as (Hpre & Hdis & [Ht _]%NoDup_cons).
  destruct (keep_valid_sublist p s [] pre) as (kpre & Epre & Hspre). simpl in Epre. rewrite keep_valid_app, Epre. cbn [keep_valid].
  assert (Htk : t ∉ kpre).
  { intros Hin. apply (Hdis t); [by eapply elem_of_sublist|left]. }
  destruct (apply_transaction t (tried s pre)) as [c r]. cbn [fst snd] in *.
  destruct r as [fee|e]; csimpl; [|rewrite keep_valid_elem by done; naive_solver].
  destruct (policy_validate p t fee (zlen kpre)) as [[]|e] eqn:Ep; rewrite keep_valid_elem by done.
  - rewrite elem_of_app, list_elem_of_singleton. naive_solver.
  - split; [done|]. intros (fee' & [= <-] & E'). congruence.
Qed.

Lemma flat_passes p s ts kept : flat p → spends ts → Forall (within p) ts → zlen ts ≤ max_transactions p →
  policy_passes p s ts kept.
Proof.
  intros Hf Hs Hw Hlen pre t post fee -> E. apply Forall_app in Hs as [_ [Ht _]%Forall_cons]. apply Forall_app in Hw as [_ [Hwt _]%Forall_cons].
  apply flat_accepts; [done|done| |].
  - destruct (apply_transaction t (tried s pre)) as [c r] eqn:Ea. cbn [snd] in E. subst r. by eapply apply_fee_nonneg.
  - unfold kept_before. rewrite zlen_app, zlen_cons in Hlen. pose proof (zlen_nonneg post).
    pose proof (length_filter (λ x, x ∈ kept) pre). unfold zlen in *. lia.
Qed.

Lemma prune_invalid_Ok n : 0 ≤ block_subsidy (n_state n) → 0 < max_money (n_state n) →
  prune_invalid_mempool n = (with_mempool (keep_valid (n_policy n) (n_state n) [] (n_mempool n)) n, Ok tt).
Proof.
  intros Hs Hm. unfold prune_invalid_mempool, sm_get, sm_lift, sm_put, mbind, SM_bind.
  by rewrite (proj2 (copy_state_Ok (n_state n) (n_state n))).
Qed.

End mempool_lemmas.

(** ** Sample mempools *)

Definition sample_pay (o : OutPoint) (payer : string) (a : Z) (payee : string) : ConsensusTransaction :=
  let t := mkTx [mkTxInput o None None] [mkTxOutput a (toy_address payee)] 1 in
  ok_or t (@sign_input toy_ed25519 t 0 (toy_wallet payer)).

Definition pool_outpoint (i : Z) : OutPoint := mkOutPoint (replicate 64 49) i.

(** 1000 for alice and 500 for bob. *)
Definition pool_state : ConsensusState :=
  mkState (<[pool_outpoint 0 := mkTxOutput 1000 (toy_address "alice")]>
             {[pool_outpoint 1 := mkTxOutput 500 (toy_address "bob")]}) 50 MAX_MONEY.

(** Alice pays carol, fee 10; carol spends that, fee 5; alice pays dave
    instead, fee 100; bob pays dave, fee 100. *)
Definition pool_cheap : ConsensusTransaction := Eval vm_compute in sample_pay (pool_outpoint 0) "alice" 990 "carol".
Definition pool_child : ConsensusTransaction := Eval vm_compute in sample_pay (mkOutPoint (hash_or (txid pool_cheap)) 0) "carol" 985 "erin".
Definition pool_dear : ConsensusTransaction := Eval vm_compute in sample_pay (pool_outpoint 0) "alice" 900 "dave".
Definition pool_other : ConsensusTransaction := Eval vm_compute in sample_pay (pool_outpoint 1) "bob" 400 "dave".

Definition small_policy (n : Z) : MempoolPolicy := mkPolicy n 100000 128 128 0 0 0 true 1 true 1.

Definition pool_node (limit : Z) (ts : list ConsensusTransaction) : Node :=
  mkNode (mkDisk empty_store ∅ empty_index ∅) pool_state 1 sample_fc (small_policy limit) None ts.

(** Carol spends alice's payment, fee 100. *)
Definition pool_rich : ConsensusTransaction := Eval vm_compute in sample_pay (mkOutPoint (hash_or (txid pool_cheap)) 0) "carol" 890 "erin".

Definition strict_policy : MempoolPolicy := mkPolicy 9 100000 128 128 50 0 0 true 1 true 1.

(** A transaction the policy refuses stays applied to the candidate, so its child
    is kept without it. *)
Example refused_parent_kept_child :
  @keep_valid toy_ed25519 strict_policy pool_state [] [pool_cheap; pool_rich] = [pool_rich] ∧
  (@apply_transactions toy_ed25519 0 [pool_cheap; pool_rich] pool_state).2 = Ok 110 ∧
  is_ok (@apply_transaction toy_ed25519 pool_rich pool_state).2 = false.
Proof. split_and!; vm_compute; reflexivity. Qed.

Lemma steps_by_run `{Ed25519} s ts f : (apply_transactions 0 ts s).2 = Ok f → applicable s ts.
Proof. intros E%run_Ok. eexists _, _. by apply run_transactions_Ok. Qed.

Definition distinctb (ts : list ConsensusTransaction) : bool :=
  match mapR txid ts with Ok ids => bool_decide (NoDup ids) | Err _ => false end.

Lemma distinctb_spec ts : distinctb ts = true → distinct ts.
Proof. unfold distinctb. destruct (mapR txid ts) as [ids|] eqn:E; [|done]. intros Hn%bool_decide_eq_true. by exists ids. Qed.

Lemma pool_wf limit : @mempool_wf toy_ed25519 (pool_node limit [pool_cheap]).
Proof.
  split; [|split].
  - apply Forall_singleton. vm_compute. reflexivity.
  - apply distinctb_spec. vm_compute. reflexivity.
  - apply (@steps_by_run toy_ed25519 _ _ 10). vm_compute. reflexivity.
Qed.

(** ** Properties *)

(** C12: Submission keeps the mempool minable.  On a node whose mempool applies
    in order to its state, [submit_transaction] either raises and leaves the
    node as it was, table included, or appends the transaction to a part of the
    mempool so that the whole again applies in order, has distinct identifiers,
    no coinbase and at most [max_transactions] entries, and is what the table
    holds. *)
Theorem submit_preserves_mempool `{Ed25519} n t :
  mempool_wf n →
  (∃ e, submit_transaction t n = (n, Err e)) ∨
  (∃ n' h kept, submit_transaction t n = (n', Ok h) ∧ txid t = Ok h ∧
     n_mempool n' = kept ++ [t] ∧ kept `sublist_of` n_mempool n ∧ mempool_wf n' ∧ mempool_saved n' ∧
     zlen (n_mempool n') ≤ max_transactions (n_policy n) ∧
     n_state n' = n_state n ∧ n_store n' = n_store n ∧ n_policy n' = n_policy n).
Proof.
  intros (Hs & Hd & _). destruct (submit_cases n t Hd) as [(e & _ & E)|(kept & h & rows & Ha & Hh & Hr & E)]; [by eauto|].
  right. destruct (admission_Ok _ _ _ Hd Ha) as (h' & fee & _ & Hcb & Hsub & Hdis & Hf & Hp & _).
  eexists _, h, kept. split; [exact E|]. split_and!; try done.
  - split; [|split; [done|by eapply follows_applicable]]. apply Forall_app. split; [|by apply Forall_singleton].
    by eapply Forall_sublist.
  - by exists rows.
  - apply policy_validate_Ok in Hp as [Hc _]; [|apply zlen_nonneg]. simpl. rewrite zlen_app. unfold zlen at 2. simpl. lia.
Qed.

Lemma submit_preserves_mempool_witness :
  (∃ e, @submit_transaction toy_ed25519 pool_child (pool_node 9 [pool_cheap]) = (pool_node 9 [pool_cheap], Err e)) ∨
  (∃ n' h kept, @submit_transaction toy_ed25519 pool_child (pool_node 9 [pool_cheap]) = (n', Ok h) ∧
     txid pool_child = Ok h ∧ n_mempool n' = kept ++ [pool_child] ∧ kept `sublist_of` [pool_cheap] ∧
     @mempool_wf toy_ed25519 n' ∧ mempool_saved n' ∧ zlen (n_mempool n') ≤ 9 ∧
     n_state n' = pool_state ∧ n_store n' = empty_store ∧ n_policy n' = small_policy 9).
Proof. apply (@submit_preserves_mempool toy_ed25519 (pool_node 9 [pool_cheap]) pool_child). apply pool_wf. Defined.

(** Replacement pays for what it removes.  A transaction that spends an
    input of a mempool entry is admitted only if the policy allows it, every
    entry it conflicts with leaves the mempool, and its fee is at least the sum
    of their fees plus the policy's bump. *)
Theorem submit_replacement `{Ed25519} n n' t h e :
  mempool_wf n → submit_transaction t n = (n', Ok h) → e ∈ n_mempool n → conflicts t e = true →
  allow_replacement (n_policy n) = true ∧
  ∃ kept fee f c replaced_fee s', n_mempool n' = kept ++ [t] ∧ Forall (λ x, conflicts t x = false) kept ∧
    follows (n_state n) kept t fee ∧ tx_steps (n_state n) kept f c ∧
    tx_steps c (filter (λ x, conflicts t x = true) (n_mempool n)) replaced_fee s' ∧
    replaced_fee + replacement_fee_bump (n_policy n) ≤ fee.
Proof.
  intros (_ & Hd & _) E He Hc. destruct (submit_cases n t Hd) as [(x & _ & E')|(kept & h' & rows & Ha & _ & _ & E')];
    rewrite E' in E; [done|].
  injection E as <- _. destruct (admission_Ok _ _ _ Hd Ha) as (_ & fee & _ & _ & _ & _ & Hf & _ & [[Hno _]|Hrep]).
  - rewrite Forall_forall in Hno. by rewrite (Hno e He) in Hc.
  - destruct Hrep as (_ & Hall & Hno & f & c & rf & s' & Hs & Hs' & Hle). split; [done|].
    exists kept, fee, f, c, rf, s'. done.
Qed.

Lemma submit_replacement_witness :
  let n := pool_node 9 [pool_cheap] in
  allow_replacement (n_policy n) = true ∧
  ∃ kept fee f c replaced_fee s', n_mempool (@submit_transaction toy_ed25519 pool_dear n).1 = kept ++ [pool_dear] ∧
    Forall (λ x, conflicts pool_dear x = false) kept ∧
    @follows toy_ed25519 pool_state kept pool_dear fee ∧ @tx_steps toy_ed25519 pool_state kept f c ∧
    @tx_steps toy_ed25519 c (filter (λ x, conflicts pool_dear x = true) (n_mempool n)) replaced_fee s' ∧
    replaced_fee + replacement_fee_bump (n_policy n) ≤ fee.
Proof.
  apply (@submit_replacement toy_ed25519 (pool_node 9 [pool_cheap]) _ pool_dear (hash_or (txid pool_dear)) pool_cheap).
  - apply pool_wf.
  - refine (run_Ok (@submit_transaction toy_ed25519 pool_dear) (pool_node 9 [pool_cheap]) _ _). vm_compute. reflexivity.
  - left.
  - vm_compute. reflexivity.
Defined.

(** Eviction removes the cheapest entry it can.  When the mempool is full, a
    transaction that conflicts with nothing is admitted only in place of one
    entry: the policy allows eviction, the other entries still apply without
    it, no other entry of which that is true has a lower score, and the new
    transaction's fee rate is at least the evicted one's plus the policy's
    bump. *)
Theorem submit_eviction `{Ed25519} n n' t h :
  mempool_wf n → submit_transaction t n = (n', Ok h) → Forall (λ e, conflicts t e = false) (n_mempool n) →
  max_transactions (n_policy n) ≤ zlen (n_mempool n) →
  allow_eviction (n_policy n) = true ∧
  ∃ i sc fee0 new_sc, n_mempool n' = without i (n_mempool n) ++ [t] ∧
    entry_score (n_state n) (n_mempool n) i sc ∧
    follows (n_state n) (n_mempool n) t fee0 ∧ transaction_policy_score t fee0 = Ok new_sc ∧
    sc.1.1 + eviction_fee_rate_bump (n_policy n) ≤ new_sc.1.1 ∧
    (∀ j sc', (j < length (n_mempool n))%nat → removable (n_state n) (n_mempool n) t j →
       entry_score (n_state n) (n_mempool n) j sc' → score_ltb sc' sc = false).
Proof.
  intros (_ & Hd & _) E Hno Hfull. destruct (submit_cases n t Hd) as [(x & _ & E')|(kept & h' & rows & Ha & _ & _ & E')];
    rewrite E' in E; [done|].
  injection E as <- _. destruct (admission_Ok _ _ _ Hd Ha) as (_ & fee & _ & _ & _ & _ & _ & Hp & [[_ Hev]|Hrep]).
  - destruct Hev as (fee0 & Hf0 & Hev).
    apply policy_validate_Ok in Hp as [Hc _]; [|apply zlen_nonneg].
    destruct (evict_for_policy_Ok _ _ _ _ _ Hd Hf0 Hev) as [[[= -> ->] _]|(_ & Hall & sc & new_sc & Hb & Hnew & Hle)]; [lia|].
    split; [done|]. simpl in Hb. destruct Hb as (i & Hi & -> & _ & Hmin). exists i, sc, fee0, new_sc. done.
  - destruct Hrep as ((e & He & Hce) & _). rewrite Forall_forall in Hno. by rewrite (Hno e He) in Hce.
Qed.

Lemma submit_eviction_witness :
  let n := pool_node 1 [pool_cheap] in
  allow_eviction (n_policy n) = true ∧
  ∃ i sc fee0 new_sc, n_mempool (@submit_transaction toy_ed25519 pool_other n).1 = without i (n_mempool n) ++ [pool_other] ∧
    @entry_score toy_ed25519 (n_state n) (n_mempool n) i sc ∧
    @follows toy_ed25519 (n_state n) (n_mempool n) pool_other fee0 ∧
    transaction_policy_score pool_other fee0 = Ok new_sc ∧ sc.1.1 + eviction_fee_rate_bump (n_policy n) ≤ new_sc.1.1 ∧
    (∀ j sc', (j < length (n_mempool n))%nat → @removable toy_ed25519 (n_state n) (n_mempool n) pool_other j →
       @entry_score toy_ed25519 (n_state n) (n_mempool n) j sc' → score_ltb sc' sc = false).
Proof.
  apply (@submit_eviction toy_ed25519 (pool_node 1 [pool_cheap]) _ pool_other (hash_or (txid pool_other))).
  - apply pool_wf.
  - refine (run_Ok (@submit_transaction toy_ed25519 pool_other) (pool_node 1 [pool_cheap]) _ _). vm_compute. reflexivity.
  - apply Forall_singleton. vm_compute. reflexivity.
  - apply (bool_decide_unpack (1 ≤ 1)). reflexivity.
Defined.
