(* ===== verification/Selection.v ===== *)
(** * Choosing the transactions of a block (utxo_node.py)

    [_prioritized_mempool_transactions]: in each round the pending transaction
    with the greatest score among those that apply to the candidate is taken.
    The length of the mempool is fuel enough, since a round removes one
    transaction.  [greedy] is the rule, and the exchange argument of
    [steps_without] shows that the rule never gets stuck: a transaction that
    applies now can be moved to the front of an order in which all apply. *)

From S2P Require Import Prelude PyBytes PyText Sha256 Crypto ByteReader Transaction Block Utxo State BlockProcessor ForkStore ForkChoice Stores Policy Mempool.
Local Open Scope Z_scope.

Section selection.
Context `{Ed25519}.


(** The best candidate of a round: its index and score. *)
Definition pick : Type := Z * score.

(** The inner loop: the pending transaction with the greatest score among
    those that apply to the candidate. *)
Definition pick_step (c : ConsensusState) (best : option pick) (e : Z * ConsensusTransaction) : result (option pick) :=
  trial ← copy_state c;
  match (apply_transaction e.2 trial).2 with
  | Err _ => Ok best
  | Ok fee =>
      sc ← transaction_policy_score e.2 fee;
      Ok (match best with
          | None => Some (e.1, sc)
          | Some b => if score_ltb b.2 sc then Some (e.1, sc) else best
          end)
  end.

(** [while pending: ...]; each turn removes one transaction. *)
Fixpoint select_transactions (fuel : nat) (pending selected : list ConsensusTransaction) (fees : Z) :
    SM ConsensusState (list ConsensusTransaction * Z) :=
  match pending with
  | [] => mret (selected, fees)
  | _ =>
      match fuel with
      | O => sm_raise OutOfFuel "select_transactions"
      | S fuel' =>
          c ← sm_get;
          best ← sm_lift (foldR (pick_step c) None (enumerate 0 pending));
          match best with
          | None => sm_raise ConsensusNodeError "mempool contains transactions that cannot be mined"
          | Some (i, _) =>
              match pending !! Z.to_nat i with
              | None => sm_raise KeyError "pop index out of range"
              | Some t =>
                  fee ← apply_transaction t;
                  select_transactions fuel' (take (Z.to_nat i) pending ++ drop (S (Z.to_nat i)) pending)
                    (selected ++ [t]) (fees + fee)
              end
          end
      end
  end.

(** [_prioritized_mempool_transactions] *)
Definition prioritized_mempool_transactions (n : Node) : SM ConsensusState (list ConsensusTransaction * Z) :=
  select_transactions (length (n_mempool n)) (n_mempool n) [] 0.

End selection.

(** ** The rule *)

(** [x] applies to [c] with score [sc]. *)
Definition scored `{Ed25519} (c : ConsensusState) (x : ConsensusTransaction) (sc : score) : Prop :=
  ∃ c' fee, apply_transaction x c = (c', Ok fee) ∧ transaction_policy_score x fee = Ok sc.

(** [greedy c pending selected fees c']: starting from [c], the best scored
    entry of [pending] is taken until none is left. *)
Inductive greedy `{Ed25519} : ConsensusState → list ConsensusTransaction → list ConsensusTransaction → Z →
    ConsensusState → Prop :=
  | greedy_done c : greedy c [] [] 0 c
  | greedy_take c pending i x sc c1 fee selected fees c' :
      pending !! i = Some x → apply_transaction x c = (c1, Ok fee) → transaction_policy_score x fee = Ok sc →
      (∀ j y sc', pending !! j = Some y → scored c y sc' → score_ltb sc sc' = false) →
      greedy c1 (without i pending) selected fees c' →
      greedy c pending (x :: selected) (fee + fees) c'.

(** No output of the transactions [ts] is in the set already. *)
Definition fresh_for (m : UTXOSet) (h : str) : Prop := ∀ o x, m !! o = Some x → op_txid o ≠ h.

Definition fresh (m : UTXOSet) (ts : list ConsensusTransaction) : Prop :=
  ∀ t h, t ∈ ts → txid t = Ok h → fresh_for m h.

(** ** Lemmas: transactions at other states *)

Lemma created_key h i outs o x : (list_to_map (created h i outs) : UTXOSet) !! o = Some x → op_txid o = h.
Proof. intros E%elem_of_list_to_map_2. by apply created_index in E as [? _]. Qed.

Lemma lookup_effect h t m o : tx_effect h t m !! o =
  match (list_to_map (created h 0 (outputs t)) : UTXOSet) !! o with
  | Some x => Some x
  | None => if decide (o ∈ spent_outpoints t) then None else m !! o
  end.
Proof.
  unfold tx_effect. rewrite lookup_union, map_lookup_filter.
  destruct ((list_to_map (created h 0 (outputs t)) : UTXOSet) !! o) as [x|]; simpl.
  - apply union_Some_l.
  - rewrite left_id by apply _. destruct (m !! o); simpl; repeat case_guard; repeat case_decide; naive_solver.
Qed.

Lemma lookup_effect_old h t m o : op_txid o ≠ h →
  tx_effect h t m !! o = if decide (o ∈ spent_outpoints t) then None else m !! o.
Proof.
  intros Ho. rewrite lookup_effect. destruct (_ !! o) as [x|] eqn:E; [|done]. by apply created_key in E.
Qed.

Lemma fresh_effect h h' t m : fresh_for m h → h' ≠ h → fresh_for (tx_effect h' t m) h.
Proof.
  intros Hf Hne o x. rewrite lookup_effect. destruct (_ !! o) as [y|] eqn:E.
  - intros _. by apply created_key in E as ->.
  - case_decide; [done|]. apply Hf.
Qed.

(** Transactions whose inputs are in the set and whose outputs are not yet do
    not depend on each other's order. *)
Lemma effects_commute ha hx a x m : ha ≠ hx → fresh_for m ha → fresh_for m hx →
  (∀ o, o ∈ spent_outpoints a → is_Some (m !! o)) → (∀ o, o ∈ spent_outpoints x → is_Some (m !! o)) →
  tx_effect ha a (tx_effect hx x m) = tx_effect hx x (tx_effect ha a m).
Proof.
  intros Hne Hfa Hfx Ha Hx. apply map_eq. intros o. destruct (decide (op_txid o = ha)) as [Ea|Ea].
  - assert (Hnx : o ∉ spent_outpoints x) by (intros [y Hy]%Hx; by eapply Hfa).
    assert (Hna : o ∉ spent_outpoints a) by (intros [y Hy]%Ha; by eapply Hfa).
    rewrite (lookup_effect_old hx x (tx_effect ha a m)) by congruence. rewrite !(lookup_effect ha).
    rewrite (lookup_effect_old hx) by congruence. by rewrite !decide_False.
  - rewrite (lookup_effect_old ha) by done. destruct (decide (op_txid o = hx)) as [Ex|Ex].
    + assert (Hna : o ∉ spent_outpoints a) by (intros [y Hy]%Ha; by eapply Hfx).
      rewrite !(lookup_effect hx). rewrite (lookup_effect_old ha) by done. by rewrite !(decide_False (P := o ∈ spent_outpoints a)).
    + rewrite !(lookup_effect_old hx), (lookup_effect_old ha) by done. by repeat case_decide.
Qed.

Section selection_lemmas.
Context `{ED : Ed25519}.

Lemma tx_valid_inputs s t fee o : is_coinbase t = false → tx_valid s t fee → o ∈ spent_outpoints t → is_Some (utxos s !! o).
Proof.
  unfold tx_valid, spent_outpoints. intros Hc [_ Hv] Ho. rewrite Hc in Hv, Ho. destruct Hv as (_ & _ & prevs & Hp & _).
  apply list_elem_of_lookup in Ho as [k Hk]. apply mapR_Ok in Hp.
  destruct (Forall2_lookup_l _ _ _ _ _ Hp Hk) as (y & _ & Hy%utxo_get_Ok). by eexists.
Qed.

Lemma tx_valid_local s s' t fee : is_coinbase t = false → max_money s' = max_money s →
  (∀ o, o ∈ spent_outpoints t → utxos s' !! o = utxos s !! o) → tx_valid s t fee → tx_valid s' t fee.
Proof.
  unfold tx_valid, spent_outpoints. intros Hc Hm Hl [Hsh Hv]. rewrite Hm. split; [done|]. rewrite Hc in *.
  destruct Hv as (Hne & Hn & prevs & Hp & Hv). split; [done|]. split; [done|]. exists prevs. split; [|done].
  rewrite <- Hp. apply mapR_ext. intros o Ho. unfold utxo_get. by rewrite Hl.
Qed.

Lemma effect_total s t fee h : is_coinbase t = false → tx_valid s t fee → fresh_for (utxos s) h →
  utxo_total (tx_effect h t (utxos s)) = utxo_total (utxos s) - fee.
Proof.
  intros Hc Hv Hf. pose proof Hv as [_ Hsp]. rewrite Hc in Hsp. destruct Hsp as (_ & Hn & prevs & Hp & _ & Hsum & _).
  destruct (spend_all_ok (utxos s) (previous_output <$> inputs t)) as [m' E]; [done| |].
  { intros o Ho. apply (tx_valid_inputs s t fee); [done..|]. unfold spent_outpoints. by rewrite Hc. }
  pose proof (spend_all_total _ _ _ _ E Hp) as Ht. apply spend_all_filter in E as ->.
  unfold tx_effect, spent_outpoints. rewrite Hc.
  set (m' := filter (λ e, e.1 ∉ previous_output <$> inputs t) (utxos s)) in *.
  destruct (add_entries_ok (created h 0 (outputs t)) m' (created_NoDup _ _ _)) as [m2 E2].
  { intros o ([p x] & -> & Hin)%list_elem_of_fmap. apply created_index in Hin as [Ho _]. simpl.
    apply map_lookup_filter_None. left. destruct (utxos s !! p) eqn:El; [|done]. by apply Hf in El. }
  apply add_entries_Ok in E2 as (_ & -> & Ht2); [|apply created_NoDup]. rewrite created_amounts, output_total_spec in Ht2. lia.
Qed.

Lemma apply_fresh s t fee h : is_coinbase t = false → tx_valid s t fee → txid t = Ok h → fresh_for (utxos s) h →
  utxo_total (utxos s) ≤ max_money s →
  apply_transaction t s = (with_utxos s (tx_effect h t (utxos s)), Ok fee).
Proof.
  intros Hc Hv Hh Hf Ht. apply apply_transaction_Ok. split; [done|]. exists h. split; [done|]. split_and!.
  - intros o ([p x] & -> & Hin)%list_elem_of_fmap _. apply created_index in Hin as [Ho _]. simpl.
    destruct (utxos s !! p) eqn:El; [|done]. by apply Hf in El.
  - rewrite (effect_total _ _ fee) by done. pose proof Hv as [_ Hsp]. rewrite Hc in Hsp.
    destruct Hsp as (_ & _ & ? & _ & _ & _ & ?). lia.
  - done.
Qed.

(** An outpoint that is absent and that no transaction creates is never spent. *)
Lemma steps_absent s ts f s' o : tx_steps s ts f s' → spends ts → utxos s !! o = None →
  (∀ t h, t ∈ ts → txid t = Ok h → op_txid o ≠ h) → ∀ t, t ∈ ts → o ∉ spent_outpoints t.
Proof.
  induction 1 as [s|s t fee s1 ts fees s2 Hv (h & Hh & _ & _ & ->) _ IH]; intros Hsp Ho Hid x Hx; [by apply elem_of_nil in Hx|].
  apply Forall_cons in Hsp as [Hc Hsp]. apply elem_of_cons in Hx as [->|Hx].
  - intros Hin. destruct (tx_valid_inputs _ _ _ _ Hc Hv Hin). congruence.
  - apply IH; [done| |by intros y hy Hy; apply Hid; right|done]. simpl. rewrite lookup_effect_old by (eapply Hid; [left|done]).
    by case_decide.
Qed.

Lemma distinct_cons t ts : distinct (t :: ts) → ∃ h, txid t = Ok h ∧ distinct ts ∧
  ∀ t' h', t' ∈ ts → txid t' = Ok h' → h' ≠ h.
Proof.
  intros (ids & Hids & Hn). simpl in Hids. apply bind_Ok in Hids as (h & Hh & Hids).
  apply bind_Ok in Hids as (ids' & Hids & [= <-]). apply NoDup_cons in Hn as [Hnot Hn]. exists h.
  split; [done|]. split; [by exists ids'|]. intros t' h' Ht' Hh' ->. apply Hnot.
  apply list_elem_of_lookup in Ht' as [k Hk]. apply mapR_Ok in Hids.
  destruct (Forall2_lookup_l _ _ _ _ _ Hids Hk) as (h2 & Hk2 & Hh2). assert (h2 = h) as -> by congruence.
  by eapply list_elem_of_lookup_2.
Qed.

Lemma distinct_perm ts ts' : ts ≡ₚ ts' → distinct ts → distinct ts'.
Proof.
  intros Hp (ids & Hids & Hn). destruct (mapR_perm _ _ _ _ Hp Hids) as (ids' & Hids' & Hpi). exists ids'.
  split; [done|]. by rewrite Hpi.
Qed.

Lemma distinct_txid ts t : distinct ts → t ∈ ts → ∃ h, txid t = Ok h.
Proof.
  intros (ids & Hids%mapR_Ok & _) [k Hk]%list_elem_of_lookup.
  destruct (Forall2_lookup_l _ _ _ _ _ Hids Hk) as (h & _ & ?). eauto.
Qed.

Lemma fresh_cons m t ts h : fresh m (t :: ts) → txid t = Ok h → distinct (t :: ts) →
  fresh_for m h ∧ fresh (tx_effect h t m) ts.
Proof.
  intros Hf Hh Hd. destruct (distinct_cons _ _ Hd) as (h' & Hh' & _ & Hne). assert (h' = h) as -> by congruence.
  split; [by eapply Hf; [left|]|]. intros x hx Hx Hhx. apply fresh_effect; [eapply Hf; [by right|done]|].
  intros ->. by eapply Hne.
Qed.

(** ** The exchange argument *)

(** If [a] comes before [x] in an order that applies, and [x] applies now, then
    [x] does not spend what [a] spends. *)
Lemma not_spent_twice s a x ha ts fees s' o fee : is_coinbase x = false → spends ts → fresh (utxos s) (a :: ts) →
  distinct (a :: ts) → txid a = Ok ha → tx_valid s x fee → x ∈ ts →
  tx_steps (with_utxos s (tx_effect ha a (utxos s))) ts fees s' → o ∈ spent_outpoints x → o ∉ spent_outpoints a.
Proof.
  intros Hc Hsp Hf Hd Ha Hv Hx Hst Ho Hoa. destruct (tx_valid_inputs _ _ _ _ Hc Hv Ho) as [y Hy].
  assert (Hid : ∀ t h, t ∈ a :: ts → txid t = Ok h → op_txid o ≠ h) by (intros t h Ht Hh; by eapply Hf).
  eapply (steps_absent _ _ _ _ o Hst Hsp); [|by intros t h Ht; apply Hid; right|exact Hx|exact Ho].
  simpl. rewrite lookup_effect_old by (eapply Hid; [left|done]). by case_decide.
Qed.

Lemma steps_without l1 l2 x s f s' sx fee :
  spends (l1 ++ x :: l2) → distinct (l1 ++ x :: l2) → fresh (utxos s) (l1 ++ x :: l2) →
  utxo_total (utxos s) ≤ max_money s → tx_steps s (l1 ++ x :: l2) f s' → apply_transaction x s = (sx, Ok fee) →
  ∃ f', tx_steps sx (l1 ++ l2) f' s' ∧ f = fee + f'.
Proof.
  revert s f sx fee. induction l1 as [|a l1 IH]; intros s f sx fee Hsp Hd Hf Ht Hst Hx; simpl in *.
  - inversion Hst as [|? ? fee2 s2 ? f2 ? Hv2 Hc2 Hst2]; subst.
    assert (E2 : apply_transaction x s = (s2, Ok fee2)) by (by apply apply_transaction_Ok).
    assert (fee2 = fee ∧ s2 = sx) as [-> ->] by (split; congruence). eauto.
  - inversion Hst as [|? ? fa sa ? f2 ? Hva Hca Hst2]; subst.
    destruct Hca as (ha & Hha & _ & Hta & ->). pose proof Hsp as [Hca Hsp2]%Forall_cons.
    assert (Hxin : x ∈ l1 ++ x :: l2) by (apply elem_of_app; right; left).
    assert (Hcx : is_coinbase x = false) by (unfold spends in Hsp2; rewrite Forall_forall in Hsp2; by apply Hsp2).
    pose proof Hx as [Hvx (hx & Hhx & _)]%apply_transaction_Ok.
    destruct (fresh_cons _ _ _ _ Hf Hha Hd) as [Hfa Hf2]. destruct (distinct_cons _ _ Hd) as (ha' & Hha' & Hd2 & Hne).
    assert (ha' = ha) as -> by congruence. assert (hx ≠ ha) by (by eapply Hne).
    assert (Hfx : fresh_for (utxos s) hx) by (eapply Hf; [by right|done]).
    assert (Hdis : ∀ o, o ∈ spent_outpoints x → o ∉ spent_outpoints a).
    { intros o Ho. eapply not_spent_twice; [exact Hcx|exact Hsp2|done..|exact Hst2|done]. }
    rewrite (apply_fresh s x fee hx) in Hx by done. injection Hx as <-.
    assert (Hinx : ∀ o, o ∈ spent_outpoints x → is_Some (utxos s !! o)) by (intros; by eapply tx_valid_inputs).
    assert (Hina : ∀ o, o ∈ spent_outpoints a → is_Some (utxos s !! o)) by (intros o Ho; exact (tx_valid_inputs _ _ _ _ Hca Hva Ho)).
    set (sa := with_utxos s (tx_effect ha a (utxos s))) in *.
    assert (Hvx2 : tx_valid sa x fee).
    { eapply (tx_valid_local s); [done|done| |done]. intros o Ho. simpl. destruct (Hinx o Ho) as [y Hy].
      rewrite lookup_effect_old by (by eapply Hfa). rewrite decide_False; [done|by apply Hdis]. }
    assert (Hsa : apply_transaction x sa = (with_utxos sa (tx_effect hx x (utxos sa)), Ok fee)).
    { apply apply_fresh; [done|done|done|by apply fresh_effect|done]. }
    destruct (IH sa f2 _ fee Hsp2 Hd2 Hf2 Hta Hst2 Hsa) as (f' & Hst' & ->).
    exists (fa + f'). split; [|lia]. set (sx := with_utxos s (tx_effect hx x (utxos s))).
    assert (Hva2 : tx_valid sx a fa).
    { eapply (tx_valid_local s); [done|done| |done]. intros o Ho. simpl. destruct (Hina o Ho) as [y Hy].
      rewrite lookup_effect_old by (by eapply Hfx). rewrite decide_False; [done|]. intros Hox. by apply (Hdis o). }
    assert (Htx : utxo_total (utxos sx) ≤ max_money sx).
    { simpl. rewrite (effect_total s x fee) by done. pose proof (apply_fee_nonneg _ _ _ _ Hcx Hsa). lia. }
    assert (Hsax : apply_transaction a sx = (with_utxos sx (tx_effect ha a (utxos sx)), Ok fa)).
    { apply apply_fresh; [done|done|done|by apply fresh_effect|done]. }
    apply apply_transaction_Ok in Hsax as [Hv3 Hc3]. eapply tx_steps_cons; [exact Hv3|exact Hc3|].
    simpl. rewrite (effects_commute ha hx) by done. exact Hst'.
Qed.

(** ** The loops *)

(** The choice among the first [k] entries. *)
Definition pick_ok (c : ConsensusState) (pending : list ConsensusTransaction) (k : nat) (best : option pick) : Prop :=
  match best with
  | None => ∀ j y sc, (j < k)%nat → pending !! j = Some y → ¬ scored c y sc
  | Some (i, sc) => ∃ i' x, i = Z.of_nat i' ∧ pending !! i' = Some x ∧ scored c x sc ∧
      ∀ j y sc', (j < k)%nat → pending !! j = Some y → scored c y sc' → score_ltb sc sc' = false
  end.

Lemma score_total t fee h : txid t = Ok h → 0 ≤ fee → ∃ sc, transaction_policy_score t fee = Ok sc.
Proof.
  intros Hh Hf. pose proof Hh as (x & Hx & _)%result_fmap_Ok.
  assert (Hs : serialized_size t = Ok (zlen x)) by (unfold serialized_size; by rewrite Hx).
  unfold transaction_policy_score, fee_rate. rewrite Hs. csimpl. pose proof (serialized_size_pos _ _ Hs).
  rewrite (proj2 (Z.ltb_ge fee 0)), (proj2 (Z.leb_gt (zlen x) 0)) by done. csimpl. rewrite Hh. csimpl. eauto.
Qed.

Lemma scored_det c x sc sc' : scored c x sc → scored c x sc' → sc = sc'.
Proof. intros (c1 & f1 & E1 & S1) (c2 & f2 & E2 & S2). assert (f1 = f2) as -> by congruence. congruence. Qed.

Lemma pick_step_ok c pending k e best : 0 ≤ block_subsidy c → 0 < max_money c →
  spends pending → distinct pending → pending !! k = Some e → pick_ok c pending k best →
  ∃ best', pick_step c best (Z.of_nat k, e) = Ok best' ∧ pick_ok c pending (S k) best'.
Proof.
  intros Hs Hm Hsp Hd Hk Hb. unfold pick_step. rewrite (proj2 (copy_state_Ok c c)) by done. csimpl.
  destruct (apply_transaction e c) as [c' [fee|err]] eqn:E; cbn [snd].
  - assert (Hin : e ∈ pending) by (by eapply list_elem_of_lookup_2). destruct (distinct_txid _ _ Hd Hin) as [h Hh].
    assert (Hc : is_coinbase e = false) by (unfold spends in Hsp; rewrite Forall_forall in Hsp; by apply Hsp).
    destruct (score_total e fee h Hh (apply_fee_nonneg _ _ _ _ Hc E)) as [sc Hsc]. rewrite Hsc. csimpl.
    assert (Hes : scored c e sc) by (by exists c', fee).
    assert (Hnew : (∀ j y sc', (j < k)%nat → pending !! j = Some y → scored c y sc' → score_ltb sc sc' = false) →
      pick_ok c pending (S k) (Some (Z.of_nat k, sc))).
    { intros Hmin. exists k, e. split_and!; [done..|]. intros j y sc' Hj Hy Hy'.
      destruct (decide (j = k)) as [->|]; [|apply (Hmin j y); [lia|done..]].
      simplify_eq. rewrite (scored_det _ _ _ _ Hy' Hes). apply score_ltb_irrefl. }
    destruct best as [[i sc0]|]; simpl in Hb; [destruct (score_ltb sc0 sc) eqn:El|];
      (eexists; split; [cbn [snd]; rewrite ?El; done|]).
    + apply Hnew. destruct Hb as (_ & _ & _ & _ & _ & Hmin). intros j y sc' Hj Hy Hy'.
      destruct (score_ltb sc sc') eqn:El'; [|done]. rewrite <- (Hmin j y sc'); [|done..]. symmetry.
      by eapply score_ltb_trans.
    + destruct Hb as (i' & x & Hi & Hx & Hxs & Hmin). exists i', x. split_and!; [done..|]. intros j y sc' Hj Hy Hy'.
      destruct (decide (j = k)) as [->|]; [|apply (Hmin j y); [lia|done..]].
      simplify_eq. by rewrite (scored_det _ _ _ _ Hy' Hes).
    + apply Hnew. intros j y sc' Hj Hy Hy'. by destruct (Hb j y sc').
  - exists best. split; [done|]. assert (Hlt : ∀ j y sc, (j < S k)%nat → pending !! j = Some y → scored c y sc → (j < k)%nat).
    { intros j y sc Hj Hy (c1 & f1 & E1 & _). destruct (decide (j = k)) as [->|]; [|lia]. simplify_eq. congruence. }
    destruct best as [[i sc0]|]; simpl in *.
    + destruct Hb as (i' & x & Hi & Hx & Hxs & Hmin). exists i', x. split_and!; [done..|]. eauto.
    + intros j y sc Hj Hy Hy'. by eapply Hb; [by eapply Hlt|..].
Qed.

Lemma pick_fold_ok c pending : 0 ≤ block_subsidy c → 0 < max_money c → spends pending → distinct pending →
  ∃ best, foldR (pick_step c) None (enumerate 0 pending) = Ok best ∧ pick_ok c pending (length pending) best.
Proof.
  intros Hs Hm Hsp Hd.
  assert (Hgen : ∀ l k b, drop k pending = l → (k ≤ length pending)%nat → pick_ok c pending k b →
    ∃ b', foldR (pick_step c) b (enumerate (Z.of_nat k) l) = Ok b' ∧ pick_ok c pending (length pending) b').
  { induction l as [|e l IH]; intros k b Hdr Hk Hb; cbn [enumerate foldR].
    - assert (length pending - k = 0)%nat by (by rewrite <- length_drop, Hdr).
      exists b. split; [done|]. by replace (length pending) with k by lia.
    - assert (Hek : pending !! k = Some e) by (rewrite <- (Nat.add_0_r k), <- lookup_drop, Hdr; done).
      destruct (pick_step_ok c pending k e b) as (b1 & -> & Hb1); [done..|]. csimpl.
      replace (Z.of_nat k + 1) with (Z.of_nat (S k)) by lia. apply IH; [|by apply lookup_lt_Some in Hek; lia|done].
      rewrite <- Nat.add_1_r, <- drop_drop, Hdr. done. }
  apply (Hgen pending 0%nat None); [done|lia|]. simpl. intros. lia.
Qed.

Lemma without_perm {A} i (l : list A) x : l !! i = Some x → l ≡ₚ x :: without i l.
Proof. intros Hi. unfold without. rewrite <- (take_drop_middle l i x Hi) at 1. by rewrite Permutation_middle. Qed.

(** An order that applies can be changed to start with any entry that applies. *)
Lemma steps_reorder c ts l f c' i x c1 fee : spends ts → distinct ts → fresh (utxos c) ts →
  utxo_total (utxos c) ≤ max_money c → l ≡ₚ ts → tx_steps c l f c' → ts !! i = Some x →
  apply_transaction x c = (c1, Ok fee) → ∃ l' f', l' ≡ₚ without i ts ∧ tx_steps c1 l' f' c' ∧ f = fee + f'.
Proof.
  intros Hsp Hd Hf Ht Hp Hst Hi Hx. assert (Hin : x ∈ l) by (rewrite Hp; by eapply list_elem_of_lookup_2).
  apply list_elem_of_split in Hin as (l1 & l2 & ->).
  destruct (steps_without l1 l2 x c f c' c1 fee) as (f' & Hst' & ->); [|by eapply distinct_perm| |done|done|done|].
  - unfold spends. by rewrite Hp.
  - intros t h Htin. apply Hf. by rewrite <- Hp.
  - exists (l1 ++ l2), f'. split; [|done]. rewrite (without_perm _ _ _ Hi) in Hp.
    rewrite <- Permutation_middle in Hp. by apply Permutation_cons_inv in Hp.
Qed.

Lemma select_complete fuel pending selected fees c l f c' :
  (length pending ≤ fuel)%nat → 0 ≤ block_subsidy c → 0 < max_money c → utxo_total (utxos c) ≤ max_money c →
  spends pending → distinct pending → fresh (utxos c) pending → l ≡ₚ pending → tx_steps c l f c' →
  ∃ chosen, select_transactions fuel pending selected fees c = (c', Ok (selected ++ chosen, fees + f)) ∧
    greedy c pending chosen f c'.
Proof.
  revert pending selected fees c l f. induction fuel as [|fuel IH]; intros pending selected fees c l f Hlen Hs Hm Ht Hsp Hd Hf Hp Hst.
  all: destruct pending as [|t0 pending0] eqn:Epend; [|try (simpl in Hlen; lia)].
  1, 2: apply symmetry, Permutation_nil in Hp as ->; inversion Hst; subst; exists []; rewrite app_nil_r, Z.add_0_r; split; [done|constructor].
  cbn [select_transactions]. rewrite <- Epend in *. unfold sm_get, sm_lift, mbind, SM_bind.
  destruct (pick_fold_ok c pending Hs Hm Hsp Hd) as ([[i sc]|] & -> & Hb).
  - destruct Hb as (i' & x & -> & Hi & (c1 & fee & Hx & Hsc) & Hmin). rewrite Nat2Z.id, Hi, Hx. fold (without i' pending).
    destruct (steps_reorder c pending l f c' i' x c1 fee Hsp Hd Hf Ht Hp Hst Hi Hx) as (l' & f' & Hp' & Hst' & ->).
    pose proof (without_perm _ _ _ Hi) as Hperm. assert (Hsp' : spends (x :: without i' pending)) by (unfold spends; by rewrite <- Hperm).
    apply Forall_cons in Hsp' as [Hcx Hsp']. apply (distinct_perm _ _ Hperm) in Hd as Hd'.
    destruct (distinct_cons _ _ Hd') as (hx & Hhx & Hd2 & _).
    pose proof Hx as [_ Hcm]%apply_transaction_Ok. pose proof (commits_params _ _ _ Hcm) as [Hsub Hmax].
    destruct (IH (without i' pending) (selected ++ [x]) (fees + fee) c1 l' f') as (chosen & E & Hg); try done.
    + apply Permutation_length in Hperm. simpl in Hperm. lia.
    + by rewrite Hsub.
    + by rewrite Hmax.
    + rewrite Hmax. destruct Hcm as (h' & _ & _ & Hle & ->). done.
    + destruct Hcm as (h' & Hh' & _ & _ & ->). simpl. apply (fresh_cons _ x); [|done|done].
      intros y hy Hy. apply Hf. by rewrite Hperm.
    + exists (x :: chosen). rewrite E, <- app_assoc, <- Z.add_assoc. split; [done|].
      econstructor; [done|done|done| |done]. intros j y sc' Hy. apply (Hmin j y); [by eapply lookup_lt_Some|done].
  - exfalso. destruct l as [|x l]; [apply Permutation_nil in Hp; by rewrite Hp in Epend|].
    inversion Hst as [|? ? fee c1 ? f2 ? Hv Hc Hst2]; subst.
    assert (Hx : apply_transaction x c = (c1, Ok fee)) by (by apply apply_transaction_Ok).
    assert (Hin : x ∈ t0 :: pending0) by (rewrite <- Hp; left). destruct (distinct_txid _ _ Hd Hin) as [h Hh].
    assert (Hcx : is_coinbase x = false) by (unfold spends in Hsp; rewrite Forall_forall in Hsp; by apply Hsp).
    destruct (score_total x fee h Hh (apply_fee_nonneg _ _ _ _ Hcx Hx)) as [sc Hsc].
    apply list_elem_of_lookup in Hin as [j Hj]. apply (Hb j x sc); [by eapply lookup_lt_Some|done|by exists c1, fee].
Qed.

Lemma greedy_spec c pending chosen f c' : greedy c pending chosen f c' → chosen ≡ₚ pending ∧ tx_steps c chosen f c'.
Proof.
  induction 1 as [c|c pending i x sc c1 fee chosen f c' Hi Hx _ _ _ [Hp Hst]]; [by split; constructor|].
  split; [by rewrite (without_perm _ _ _ Hi), Hp|]. apply apply_transaction_Ok in Hx as [Hv Hc]. by econstructor.
Qed.

End selection_lemmas.

(** ** Properties *)

(** C13: The mempool can always be mined.  If the mempool applies to the state in
    some order and none of its outputs is in the state already,
    [_prioritized_mempool_transactions] returns, with one round for each
    transaction: it takes all of them, in the order of the greedy rule, in which
    they apply one after the other, and reports the sum of their fees.  The
    resulting state and the fees do not depend on the order: they are those of
    the mempool's own order. *)
Theorem selection_complete `{Ed25519} n f s' :
  spends (n_mempool n) → distinct (n_mempool n) → fresh (utxos (n_state n)) (n_mempool n) →
  state_wf (n_state n) → tx_steps (n_state n) (n_mempool n) f s' →
  ∃ chosen, prioritized_mempool_transactions n (n_state n) = (s', Ok (chosen, f)) ∧
    chosen ≡ₚ n_mempool n ∧ greedy (n_state n) (n_mempool n) chosen f s' ∧ tx_steps (n_state n) chosen f s'.
Proof.
  intros Hsp Hd Hf (Hs & Hm & Ht & _) Hst. unfold prioritized_mempool_transactions.
  destruct (select_complete (length (n_mempool n)) (n_mempool n) [] 0 (n_state n) (n_mempool n) f s') as (chosen & E & Hg);
    try done.
  exists chosen. rewrite E. destruct (greedy_spec _ _ _ _ _ Hg). done.
Qed.

Definition pool_pair : list ConsensusTransaction := [pool_cheap; pool_child; pool_other].

Definition pool_pair_state : ConsensusState := (@apply_transactions toy_ed25519 0 pool_pair pool_state).1.

Lemma pool_state_wf : state_wf pool_state.
Proof. apply (bool_decide_unpack (state_wf pool_state)). vm_compute. exact I. Qed.

Definition freshb (m : UTXOSet) (ts : list ConsensusTransaction) : bool :=
  forallb (λ t, match txid t with
                | Ok h => forallb (λ e, negb (bool_decide (op_txid e.1 = h))) (map_to_list m)
                | Err _ => true end) ts.

Lemma freshb_spec m ts : freshb m ts = true → fresh m ts.
Proof.
  unfold freshb, fresh, fresh_for. rewrite forallb_forall. intros Ha t h Ht Hh o x Ho E.
  apply list_elem_of_In, Ha in Ht. rewrite Hh, forallb_forall in Ht.
  specialize (Ht (o, x)). simpl in Ht. apply negb_true_iff, bool_decide_eq_false in Ht; [done|].
  by apply list_elem_of_In, elem_of_map_to_list.
Qed.

Lemma selection_complete_witness :
  ∃ chosen, @prioritized_mempool_transactions toy_ed25519 (pool_node 9 pool_pair) pool_state =
      (pool_pair_state, Ok (chosen, 115)) ∧
    chosen ≡ₚ pool_pair ∧ @greedy toy_ed25519 pool_state pool_pair chosen 115 pool_pair_state ∧
    @tx_steps toy_ed25519 pool_state chosen 115 pool_pair_state.
Proof.
  apply (@selection_complete toy_ed25519 (pool_node 9 pool_pair) 115 pool_pair_state).
  - repeat (constructor; [vm_compute; reflexivity|]). constructor.
  - apply distinctb_spec. vm_compute. reflexivity.
  - apply freshb_spec. vm_compute. reflexivity.
  - apply pool_state_wf.
  - apply run_transactions_Ok. refine (run_Ok (@apply_transactions toy_ed25519 0 pool_pair) pool_state 115 _). vm_compute. reflexivity.
Defined.
