(* ===== verification/Mining.v ===== *)
(** * Building transactions and blocks (utxo_node.py)

    [create_transaction] selects a wallet's outputs and signs a spend;
    [build_candidate_block] assembles a block from the mempool;
    [_build_genesis_block] makes the first block; [_mine] searches a nonce.  The
    clock reading that a block is stamped with is an argument, and the loop of
    [_mine], which is not bounded in the code, takes fuel: it returns once the
    fuel reaches the first nonce that meets the target ([mine_finds]). *)

From S2P Require Import Prelude PyBytes PyText Sha256 Json Crypto ByteReader Transaction Block Utxo State BlockProcessor ForkStore ForkChoice Stores Policy Mempool Selection.
Local Open Scope Z_scope.

(** ** Tips *)

(** [tip_hash], [height] *)
Definition tip_hash (n : Node) : result str :=
  tip ← best_tip (n_store n);
  match tip with Some t => block_hash (sb_block t) | None => Ok ZERO_HASH end.

Definition node_height (n : Node) : result Z :=
  tip ← best_tip (n_store n);
  Ok (match tip with Some t => height (sb_block t) | None => -1 end).

(** ** Spendable outputs *)

(** [spendable_outputs] *)
Definition spendable_outputs (n : Node) (a : str) : list UTXO := entries_for_address (utxos (n_state n)) a.

(** The dictionary of [spendable_summary]. *)
Record SpendableSummary := mkSpendable { ss_address : str; ss_balance : Z; ss_count : Z; ss_utxos : list UTXO }.

Definition spendable_summary (n : Node) (a : str) : result SpendableSummary :=
  raise_if (negb (is_valid_address a)) ConsensusNodeError "address is invalid";;
  let entries := spendable_outputs n a in
  Ok (mkSpendable a (sumZ ((λ e, amount e.2) <$> entries)) (zlen entries) entries).

(** The loop of [create_transaction] over the wallet's outputs, which stops when
    the total is enough. *)
Fixpoint select_coins (needed : Z) (us : list UTXO) (selected : list UTXO) (total : Z) : list UTXO * Z :=
  match us with
  | [] => (selected, total)
  | u :: us' =>
      let total' := total + amount u.2 in
      if needed <=? total' then (selected ++ [u], total') else select_coins needed us' (selected ++ [u]) total'
  end.

(** [if change: outputs.append(...)] *)
Definition payment_outputs (amount change : Z) (recipient from : str) : list TxOutput :=
  mkTxOutput amount recipient :: (if change =? 0 then [] else [mkTxOutput change from]).

Section mining.
Context `{Ed25519}.

(** [for index in range(len(transaction.inputs)): transaction = transaction.sign_input(index, wallet)] *)
Definition sign_all (w : Wallet) (t : ConsensusTransaction) : result ConsensusTransaction :=
  foldR (λ t' e, sign_input t' e.1 w) t (enumerate 0 (inputs t)).

(** [create_transaction] *)
Definition create_transaction (n : Node) (w : Wallet) (recipient : str) (amount fee : Z) : result ConsensusTransaction :=
  raise_if (amount <=? 0) ConsensusNodeError "amount must be positive";;
  raise_if (fee <? 0) ConsensusNodeError "fee cannot be negative";;
  raise_if (negb (is_valid_address recipient)) ConsensusNodeError "recipient address is invalid";;
  let needed := amount + fee in
  from ← wallet_address w;
  let r := select_coins needed (spendable_outputs n from) [] 0 in
  raise_if (r.2 <? needed) ConsensusNodeError "insufficient funds";;
  sign_all w (mkTx ((λ u, mkTxInput u.1 None None) <$> r.1)
                (payment_outputs amount (r.2 - needed) recipient from) 1).

(** [build_candidate_block] *)
Definition build_candidate_block (n : Node) (miner_address : str) (now : Z) : result ConsensusBlock :=
  raise_if (negb (is_valid_address miner_address)) ConsensusNodeError "invalid miner address";;
  c ← copy_state (n_state n);
  let r := prioritized_mempool_transactions n c in
  chosen ← r.2;
  h ← node_height n;
  coinbase ← create_coinbase r.1 miner_address chosen.2 (h + 1);
  tip ← tip_hash n;
  make_block (h + 1) tip (coinbase :: chosen.1) (n_difficulty n) now 0 [] 1.

End mining.

(** The loop of [_mine]: [mined] is [b] with another nonce. *)
Fixpoint mine_loop (fuel : nat) (b mined : ConsensusBlock) (nonce : Z) : result ConsensusBlock :=
  h ← block_hash mined;
  if startswith h (zeros (difficulty b)) then Ok mined
  else
    match fuel with
    | O => raise OutOfFuel "mine"
    | S fuel' =>
        mined' ← make_block (height b) (previous_hash b) (transactions b) (difficulty b) (timestamp b)
                   (nonce + 1) [] (block_version b);
        mine_loop fuel' b mined' (nonce + 1)
    end.

(** [_mine] *)
Definition mine (fuel : nat) (b : ConsensusBlock) : result ConsensusBlock := mine_loop fuel b b (nonce b).

(** The loop of [_build_genesis_block] over [allocations.items()]. *)
Definition add_allocation (acc : list TxOutput * Z) (e : str * Z) : result (list TxOutput * Z) :=
  (if is_valid_address e.1 then Ok tt
   else Err (Exn ConsensusNodeError (py "invalid genesis address: " ++ e.1)));;
  raise_if (e.2 <=? 0) ConsensusNodeError "genesis allocations must be positive";;
  Ok (acc.1 ++ [mkTxOutput e.2 e.1], acc.2 + e.2).

(** [_build_genesis_block]; the allocations are the items of a dictionary. *)
Definition build_genesis_block (fuel : nat) (allocations : list (str * Z)) (difficulty now : Z) : result ConsensusBlock :=
  raise_if (difficulty <? 0) ConsensusNodeError "difficulty cannot be negative";;
  raise_if (bool_decide (allocations = [])) ConsensusNodeError "genesis allocations are required";;
  acc ← foldR add_allocation ([], 0) allocations;
  raise_if (MAX_MONEY <? acc.2) ConsensusNodeError "genesis allocations exceed maximum supply";;
  let coinbase := mkTx [mkTxInput (mkOutPoint ZERO_HASH (-1)) None None] acc.1 1 in
  b ← make_block 0 ZERO_HASH [coinbase] difficulty now 0 [] 1;
  mine fuel b.

(** ** Lemmas: coins and signatures *)

Lemma sumZ_sublist (f : UTXO → Z) l k : l `sublist_of` k → Forall (λ x, 0 ≤ f x) k → sumZ (f <$> l) ≤ sumZ (f <$> k).
Proof.
  induction 1 as [|x l k _ IH|x l k _ IH]; intros Hk; [lia|..]; apply Forall_cons in Hk as [Hx Hk];
    csimpl; rewrite ?sumZ_cons; specialize (IH Hk); lia.
Qed.

Lemma select_coins_spec needed us selected total r : select_coins needed us selected total = r →
  ∃ taken rest, us = taken ++ rest ∧ r.1 = selected ++ taken ∧
    r.2 = total + sumZ ((λ e, amount e.2) <$> taken) ∧ (r.2 < needed → rest = []).
Proof.
  revert selected total. induction us as [|u us IH]; intros selected total E; cbn [select_coins] in E.
  - subst. exists [], []. split_and!; [done|by rewrite app_nil_r|rewrite fmap_nil, sumZ_nil; simpl; lia|done].
  - destruct (Z.leb_spec needed (total + amount u.2)).
    + subst. exists [u], us. csimpl. rewrite sumZ_cons, sumZ_nil. cbn [fst snd]. split_and!; [done|done|lia|lia].
    + destruct (IH _ _ E) as (taken & rest & -> & Hr & Ht & Hrest). exists (u :: taken), rest.
      rewrite Hr, Ht, <- app_assoc, fmap_cons, sumZ_cons. rewrite Ht in Hrest. split_and!; [done|done|lia|].
      intros. apply Hrest. lia.
Qed.

(** What an address owns. *)
Definition balance (s : ConsensusState) (a : str) : Z := sumZ ((λ e, amount e.2) <$> entries_for_address (utxos s) a).

Lemma entries_for_address_spec m a o x : (o, x) ∈ entries_for_address m a ↔ m !! o = Some x ∧ out_address x = a.
Proof. unfold entries_for_address. rewrite list_elem_of_filter, elem_of_utxo_entries. simpl. tauto. Qed.

Lemma entries_sublist m a : entries_for_address m a `sublist_of` utxo_entries m.
Proof. apply sublist_filter. Qed.

Lemma utxo_entries_NoDup m : NoDup (utxo_entries m).*1.
Proof. unfold utxo_entries. rewrite sort_by_perm. apply NoDup_fst_map_to_list. Qed.

Lemma sublist_fmap_fst {A B} (l k : list (A * B)) : l `sublist_of` k → l.*1 `sublist_of` k.*1.
Proof. induction 1; csimpl; by constructor. Qed.

(** The coins taken from an address. *)
Lemma taken_coins s a taken rest : state_wf s → entries_for_address (utxos s) a = taken ++ rest →
  NoDup taken.*1 ∧ (∀ o x, (o, x) ∈ taken → utxos s !! o = Some x ∧ out_address x = a) ∧
  sumZ ((λ e, amount e.2) <$> taken) ≤ max_money s.
Proof.
  intros Hwf E. assert (Hs : taken `sublist_of` utxo_entries (utxos s)).
  { etransitivity; [|apply (entries_sublist _ a)]. rewrite E. apply sublist_inserts_r. done. }
  split_and!.
  - eapply sublist_NoDup; [apply utxo_entries_NoDup|by apply sublist_fmap_fst].
  - intros o x Hin. apply entries_for_address_spec. rewrite E. apply elem_of_app. by left.
  - etransitivity; [apply (sumZ_sublist _ _ _ Hs)|].
    + apply Forall_forall. intros [o x] Hx%elem_of_utxo_entries. by eapply state_wf_amounts in Hx.
    + rewrite utxo_entries_total. by destruct Hwf as (_ & _ & ? & _).
Qed.

Section signing_lemmas.
Context `{ED : Ed25519}.

(** Signing a range of inputs. *)
Lemma sign_range w l i t t' :
  foldR (λ t e, sign_input t e.1 w) t (enumerate (Z.of_nat i) (l : list TxInput)) = Ok t' →
  map previous_output (inputs t') = map previous_output (inputs t) ∧ outputs t' = outputs t ∧ tx_version t' = tx_version t ∧
  (∀ k, (k < i)%nat → inputs t' !! k = inputs t !! k) ∧
  ∀ k x, inputs t' !! k = Some x → (i ≤ k < i + length l)%nat →
    ∃ s, wallet_sign w (signing_message t (Z.of_nat k)) = Ok s ∧ in_signature x = Some s ∧
      in_public_key x = Some (pk_to_dict (w_public_key w)).
Proof.
  revert i t. induction l as [|y l IH]; intros i t E; cbn [enumerate foldR] in E.
  - injection E as <-. split_and!; [done..|]. simpl. intros. lia.
  - apply bind_Ok in E as (t1 & E1 & E). replace (Z.of_nat i + 1) with (Z.of_nat (S i)) in E by lia.
    cbn [fst] in E1. pose proof (sign_input_outpoints _ _ _ _ E1) as Ho.
    assert (Hm : ∀ k, signing_message t1 k = signing_message t k) by (intros k; by apply (sign_input_messages _ _ _ _ k E1)).
    apply sign_input_spec in E1 as (x0 & s0 & _ & Hx0 & Hs0 & ->). rewrite Nat2Z.id in *.
    destruct (IH _ _ E) as (Ho' & Hout & Hver & Hlow & Hsig). clear IH. rewrite Ho', Hout, Hver.
    split_and!; [done..| |].
    + intros k Hk. rewrite Hlow by lia. simpl. by rewrite list_lookup_insert_ne by lia.
    + intros k x Hx Hk. simpl in Hk. destruct (decide (k = i)) as [->|].
      * rewrite Hlow in Hx by lia. simpl in Hx.
        rewrite list_lookup_insert_eq in Hx by (by eapply lookup_lt_Some). simplify_eq. by exists s0.
      * rewrite <- Hm. apply Hsig; [done|lia].
Qed.

Lemma sign_range_total w l i t : (∀ m, Forall (λ c, 0 ≤ c < 128) m → ∃ s, wallet_sign w m = Ok s ∧ s ≠ []) →
  (i + length l ≤ length (inputs t))%nat →
  ∃ t', foldR (λ t e, sign_input t e.1 w) t (enumerate (Z.of_nat i) (l : list TxInput)) = Ok t'.
Proof.
  intros Hw. revert i t. induction l as [|y l IH]; intros i t Hlen; cbn [enumerate foldR]; [by eexists|]. simpl in Hlen.
  assert (∃ t1, sign_input t (Z.of_nat i) w = Ok t1 ∧ length (inputs t1) = length (inputs t)) as (t1 & E1 & Hl1).
  { unfold sign_input. rewrite raise_if_false.
    - csimpl. rewrite Nat2Z.id. destruct (inputs t !! i) as [x|] eqn:E; [|apply lookup_ge_None in E; lia].
      destruct (Hw (signing_message t (Z.of_nat i)) (canonical_json_ascii _)) as (s & -> & _). csimpl.
      eexists. split; [done|]. simpl. by rewrite length_insert.
    - apply orb_false_iff. rewrite Z.ltb_ge, Z.leb_gt. unfold zlen. lia. }
  cbn [fst]. rewrite E1. csimpl. replace (Z.of_nat i + 1) with (Z.of_nat (S i)) by lia. apply IH. lia.
Qed.

(** A transaction that spends coins of one address, signed by its key. *)
Lemma signed_payment_valid s a taken rest outs t w fee :
  state_wf s → entries_for_address (utxos s) a = taken ++ rest → taken ≠ [] →
  outs ≠ [] → Forall (output_ok (max_money s)) outs → 0 ≤ fee →
  sumZ ((λ e, amount e.2) <$> taken) = sumZ (amount <$> outs) + fee →
  map previous_output (inputs t) = taken.*1 → outputs t = outs → tx_version t = 1 → wallet_address w = Ok a →
  (∀ k x, inputs t !! k = Some x → ∃ sig, in_signature x = Some sig ∧ sig ≠ [] ∧
     in_public_key x = Some (pk_to_dict (w_public_key w)) ∧
     verify_signature (w_public_key w) (signing_message t (Z.of_nat k)) sig = Ok true) →
  is_coinbase t = false ∧ tx_valid s t fee.
Proof.
  intros Hwf Htk Hne Hon Hout Hfee Hsum Hin Ho Hv Ha Hsig. destruct (taken_coins _ _ _ _ Hwf Htk) as (Hnd & Hown & _).
  assert (Hc : is_coinbase t = false).
  { destruct (is_coinbase t) eqn:E; [|done]. apply is_coinbase_inputs in E as (i & Ei & _ & Hneg). exfalso.
    rewrite Ei in Hin. destruct taken as [|[o x] [|]]; simplify_eq/=. destruct (Hown (previous_output i) x) as [Hl _]; [left|].
    destruct Hwf as (_ & _ & _ & Hwf). destruct (Hwf _ _ Hl). lia. }
  split; [done|]. split; [by rewrite <- Ho in Hon, Hout|]. rewrite Hc. split_and!.
  - intros E. rewrite E in Hin. by destruct taken.
  - change (NoDup (map previous_output (inputs t))). by rewrite Hin.
  - exists taken.*2. change (previous_output <$> inputs t) with (map previous_output (inputs t)). rewrite Hin. split_and!.
    + apply mapR_Ok, Forall2_fmap, Forall_Forall2_diag, Forall_forall. intros [o x] Hx. apply utxo_get_Ok. by apply Hown.
    + intros k i prev Hk Hp. rewrite list_lookup_fmap in Hp. destruct (taken !! k) as [[o x]|] eqn:E; simplify_eq/=.
      destruct (Hsig k i Hk) as (sig & Hs & Hsne & Hpk & Hver). unfold authorizes.
      exists (pk_to_dict (w_public_key w)), (w_public_key w), sig. split_and!; [done..|apply pk_from_to_dict| |done].
      destruct (Hown o prev) as [_ ->]; [by eapply list_elem_of_lookup_2|done].
    + rewrite <- list_fmap_compose. change ((amount ∘ snd) <$> taken) with ((λ e : UTXO, amount e.2) <$> taken).
      by rewrite <- (output_total_spec t), Ho.
    + done.
Qed.

End signing_lemmas.

(** ** Properties: payments *)

(** C23: A wallet can spend exactly what it owns.  On a well-formed ledger,
    [create_transaction] with a positive amount, a fee that is not negative and
    a valid recipient returns, if the wallet's outputs cover amount and fee, a
    transaction that consensus accepts with exactly that fee, that pays the
    amount to the recipient and the change to the wallet; otherwise it raises
    "insufficient funds". *)
Theorem payment_correct `{Ed25519Ok} n bits raw w from recipient amount fee :
  state_wf (n_state n) → ed_private_ok raw = true → wallet_create bits raw = Ok w → wallet_address w = Ok from →
  0 < amount → 0 ≤ fee → is_valid_address recipient = true →
  if decide (amount + fee ≤ balance (n_state n) from) then
    ∃ t change, create_transaction n w recipient amount fee = Ok t ∧ is_coinbase t = false ∧
      tx_valid (n_state n) t fee ∧ 0 ≤ change ∧ outputs t = payment_outputs amount change recipient from
  else create_transaction n w recipient amount fee = raise ConsensusNodeError "insufficient funds".
Proof.
  intros Hwf Hraw Hw Ha Hamt Hfee Hrec. unfold create_transaction.
  rewrite !raise_if_false by (rewrite ?Hrec; bool_lia). csimpl. rewrite Ha. csimpl. unfold spendable_outputs.
  destruct (select_coins_spec (amount + fee) (entries_for_address (utxos (n_state n)) from) [] 0 _ eq_refl)
    as (taken & rest & Htk & Hr1 & Hr2 & Hrest).
  set (r := select_coins _ _ _ _) in *. simpl in Hr1. rewrite Z.add_0_l in Hr2.
  destruct (taken_coins _ _ _ _ Hwf Htk) as (_ & Hown & Hmax). case_decide as Hb.
  - assert (Hge : amount + fee ≤ r.2).
    { destruct (Z.lt_ge_cases r.2 (amount + fee)) as [Hlt|]; [|done]. rewrite (Hrest Hlt), app_nil_r in Htk.
      unfold balance in Hb. rewrite Htk in Hb. lia. }
    rewrite raise_if_false by bool_lia. csimpl.
    set (u := mkTx _ _ _). set (change := r.2 - (amount + fee)) in *. unfold sign_all.
    destruct (sign_range_total w (inputs u) 0 u) as [t Ht]; [|lia|].
    { intros m Hm. by eapply wallet_sign_total. }
    change (Z.of_nat 0) with 0 in Ht. rewrite Ht. exists t, change. change 0 with (Z.of_nat 0) in Ht.
    apply sign_range in Ht as (Hin & Hout & Hver & _ & Hsig). split; [done|].
    assert (Hv : is_coinbase t = false ∧ tx_valid (n_state n) t fee); [|by destruct Hv; split_and!; [..|lia|]].
    apply (signed_payment_valid _ from taken rest (payment_outputs amount change recipient from) t w); try done.
    + intros ->. rewrite fmap_nil, sumZ_nil in Hr2. lia.
    + unfold payment_outputs. constructor; [split; [simpl; lia|done]|]. destruct (Z.eqb_spec change 0); constructor; [|done].
      split; [simpl; lia|]. simpl. by eapply address_valid.
    + unfold payment_outputs. rewrite <- Hr2. destruct (Z.eqb_spec change 0); csimpl; rewrite ?sumZ_cons, sumZ_nil; lia.
    + rewrite Hin. subst u. simpl. rewrite Hr1. clear. induction taken as [|[o x] l IH]; csimpl; [done|]. by f_equal.
    + intros k x Hx. destruct (Hsig k x Hx) as (sig & Hs & Hsx & Hpk).
      { apply lookup_lt_Some in Hx. rewrite <- (length_map previous_output), Hin, length_map in Hx. lia. }
      exists sig. rewrite (signing_message_witness t u) by done.
      destruct (wallet_sign_total bits raw w (signing_message u (Z.of_nat k)) Hraw Hw) as (s2 & Hs2 & Hne).
      { apply canonical_json_ascii. }
      assert (s2 = sig) as -> by congruence. split_and!; [done..|]. by eapply wallet_sign_verifies.
  - assert (Hlt : r.2 < amount + fee).
    { assert (Hbal : r.2 ≤ balance (n_state n) from); [|lia]. rewrite Hr2. unfold balance. rewrite Htk.
      apply sumZ_sublist; [apply sublist_inserts_r; done|]. rewrite <- Htk. apply Forall_forall.
      intros [o x] [Hx _]%entries_for_address_spec. by eapply state_wf_amounts in Hx. }
    unfold raise_if. by rewrite (proj2 (Z.ltb_lt _ _) Hlt).
Qed.

Lemma payment_correct_witness :
  if decide (700 + 5 ≤ balance pool_state (toy_address "alice")) then
    ∃ t change, @create_transaction toy_ed25519 (pool_node 9 []) (toy_wallet "alice") (toy_address "bob") 700 5 = Ok t ∧
      is_coinbase t = false ∧ @tx_valid toy_ed25519 pool_state t 5 ∧ 0 ≤ change ∧
      outputs t = payment_outputs 700 change (toy_address "bob") (toy_address "alice")
  else @create_transaction toy_ed25519 (pool_node 9 []) (toy_wallet "alice") (toy_address "bob") 700 5 =
         raise ConsensusNodeError "insufficient funds".
Proof.
  apply (@payment_correct toy_ed25519 toy_ed25519_ok (pool_node 9 []) None (toy_key "alice") (toy_wallet "alice")
           (toy_address "alice") (toy_address "bob") 700 5).
  - apply pool_state_wf.
  - vm_compute. reflexivity.
  - reflexivity.
  - vm_compute. reflexivity.
  - lia.
  - lia.
  - vm_compute. reflexivity.
Defined.

(** ** Lemmas: mining *)

(** The block with nonce [k] meets its target. *)
Definition meets (b : ConsensusBlock) (k : Z) : Prop :=
  ∃ h, block_hash (with_nonce b k) = Ok h ∧ zeros (difficulty b) `prefix_of` h.

Lemma with_nonce_id b : with_nonce b (nonce b) = b.
Proof. by destruct b. Qed.

Lemma with_nonce_hash b k : is_ok (block_hash b) = true → - 2 ^ 63 ≤ k < 2 ^ 63 →
  ∃ h, block_hash (with_nonce b k) = Ok h.
Proof.
  intros [h E]%is_ok_spec Hk. unfold block_hash in *. apply result_fmap_Ok in E as (x & E & _).
  unfold header_bytes in *. apply bind_Ok in E as (cv & Hcv & E). apply bind_Ok in E as (v & Hv & E).
  apply bind_Ok in E as (hh & Hh & E). apply bind_Ok in E as (p & Hp & E). apply bind_Ok in E as (r & Hr & E).
  apply bind_Ok in E as (d & Hd & _). cbn [with_nonce block_version height previous_hash transaction_root difficulty nonce timestamp].
  rewrite Hcv, Hv, Hh, Hp, Hr, Hd. csimpl. unfold encode_int, pack_q.
  assert ((- 2 ^ 63 <=? k) && (k <? 2 ^ 63) = true) as -> by bool_lia. csimpl. eauto.
Qed.

Lemma remake_block b k : calculate_transaction_root (transactions b) = Ok (transaction_root b) →
  make_block (height b) (previous_hash b) (transactions b) (difficulty b) (timestamp b) k [] (block_version b) =
    Ok (with_nonce b k).
Proof. intros Hr. unfold make_block. by rewrite Hr. Qed.

(** The loop, from any nonce. *)
Lemma mine_loop_Ok fuel b i b' : calculate_transaction_root (transactions b) = Ok (transaction_root b) →
  mine_loop fuel b (with_nonce b i) i = Ok b' →
  ∃ m, i ≤ m ∧ b' = with_nonce b m ∧ meets b m ∧ ∀ j, i ≤ j < m → ¬ meets b j.
Proof.
  intros Hr. revert i. induction fuel as [|fuel IH]; intros i E; cbn [mine_loop] in E; apply bind_Ok in E as (h & Hh & E);
    destruct (startswith h (zeros (difficulty b))) eqn:Es.
  1, 3: injection E as <-; apply startswith_spec in Es; exists i; split_and!; [done|done|by exists h|lia].
  - done.
  - rewrite remake_block in E by done. apply bind_Ok in E as (? & [= <-] & E).
    destruct (IH _ E) as (m & Hm & -> & Hmeet & Hmin). exists m. split_and!; [lia|done|done|]. intros j Hj.
    destruct (decide (j = i)) as [->|]; [|apply Hmin; lia]. intros (h' & Hh' & Hp). assert (h' = h) as -> by congruence.
    apply startswith_spec in Hp. congruence.
Qed.

Lemma mine_loop_total fuel b i k : calculate_transaction_root (transactions b) = Ok (transaction_root b) →
  is_ok (block_hash b) = true → - 2 ^ 63 ≤ i → i ≤ k < 2 ^ 63 → meets b k → (Z.to_nat (k - i) ≤ fuel)%nat →
  ∃ b', mine_loop fuel b (with_nonce b i) i = Ok b'.
Proof.
  intros Hr Hb Hi Hk Hmeet. revert i Hi Hk. induction fuel as [|fuel IH]; intros i Hi Hk Hf; cbn [mine_loop];
    (destruct (with_nonce_hash b i Hb) as [h Hh]; [lia|]); rewrite Hh; csimpl;
    (destruct (startswith h (zeros (difficulty b))) eqn:Es; [by eexists|]).
  - assert (k = i) as -> by lia. destruct Hmeet as (h' & Hh' & Hp). assert (h' = h) as -> by congruence.
    apply startswith_spec in Hp. congruence.
  - rewrite remake_block by done. csimpl. destruct (decide (k = i)) as [->|].
    + destruct Hmeet as (h' & Hh' & Hp). assert (h' = h) as -> by congruence. apply startswith_spec in Hp. congruence.
    + apply IH; lia.
Qed.

Lemma mine_Ok fuel b b' : calculate_transaction_root (transactions b) = Ok (transaction_root b) →
  mine fuel b = Ok b' → ∃ m, nonce b ≤ m ∧ b' = with_nonce b m ∧ meets b m ∧ ∀ j, nonce b ≤ j < m → ¬ meets b j.
Proof. unfold mine. intros Hr E. rewrite <- (with_nonce_id b) in E at 2. by apply mine_loop_Ok in E. Qed.

(** ** Properties: mining *)

(** Mining finds the first nonce that meets the target.  If some nonce from
    the block's own up to 2^63 - 1 meets it, the loop of [_mine] returns once its
    fuel is the distance to that nonce; the result is the block with the least
    nonce that meets the target, its root recomputed and nothing else changed. *)
Theorem mine_finds_first b k :
  calculate_transaction_root (transactions b) = Ok (transaction_root b) → is_ok (block_hash b) = true →
  - 2 ^ 63 ≤ nonce b → nonce b ≤ k < 2 ^ 63 → meets b k →
  ∃ m, nonce b ≤ m ≤ k ∧ meets b m ∧ (∀ j, nonce b ≤ j < m → ¬ meets b j) ∧
    ∀ fuel, (Z.to_nat (k - nonce b) ≤ fuel)%nat → mine fuel b = Ok (with_nonce b m).
Proof.
  intros Hr Hb Hn Hk Hmeet.
  assert (Hall : ∀ fuel, (Z.to_nat (k - nonce b) ≤ fuel)%nat → ∃ b', mine fuel b = Ok b').
  { intros fuel Hf. destruct (mine_loop_total fuel b (nonce b) k) as [b' E]; [done..|].
    exists b'. unfold mine. by rewrite <- (with_nonce_id b) at 2. }
  destruct (Hall _ (le_n _)) as [b0 E0]. destruct (mine_Ok _ _ _ Hr E0) as (m & Hm & -> & Hmm & Hmin). exists m.
  assert (Hle : m ≤ k) by (destruct (Z.le_gt_cases m k); [done|]; exfalso; by apply (Hmin k); [lia|]).
  split_and!; [lia|lia|done|done|]. intros fuel Hf. destruct (Hall _ Hf) as [b2 E2]. rewrite E2.
  destruct (mine_Ok _ _ _ Hr E2) as (m2 & Hm2 & -> & Hmm2 & Hmin2).
  destruct (Z.lt_trichotomy m m2) as [Hlt|[->|Hlt]]; [|done|].
  - exfalso. by apply (Hmin2 m); [lia|].
  - exfalso. by apply (Hmin m2); [lia|].
Qed.

Lemma mine_finds_first_witness :
  ∃ m, nonce (with_nonce sample_second 0) ≤ m ≤ 3 ∧ meets (with_nonce sample_second 0) m ∧
    (∀ j, nonce (with_nonce sample_second 0) ≤ j < m → ¬ meets (with_nonce sample_second 0) j) ∧
    ∀ fuel, (Z.to_nat (3 - nonce (with_nonce sample_second 0)) ≤ fuel)%nat →
      mine fuel (with_nonce sample_second 0) = Ok (with_nonce (with_nonce sample_second 0) m).
Proof.
  apply (mine_finds_first (with_nonce sample_second 0) 3).
  - vm_compute. reflexivity.
  - vm_compute. reflexivity.
  - vm_compute. discriminate.
  - split; vm_compute; [discriminate|reflexivity].
  - exists sample_second_hash. split; [vm_compute; reflexivity|]. apply startswith_spec. vm_compute. reflexivity.
Defined.

(** ** Lemmas: candidate blocks *)

Lemma root_txid t ts r : calculate_transaction_root (t :: ts) = Ok r → ∃ h, txid t = Ok h.
Proof.
  rewrite root_unfold by done. intros E. apply bind_Ok in E as (l & E & _). simpl in E.
  apply bind_Ok in E as (b & Hb & _). unfold txid_bytes in Hb. apply bind_Ok in Hb as (h & Hh & _). eauto.
Qed.

Lemma create_coinbase_Ok s miner fees h cb : create_coinbase s miner fees h = Ok cb →
  is_valid_address miner = true ∧ 0 ≤ fees ∧ 0 ≤ h ∧ utxo_total (utxos s) + block_subsidy s ≤ max_money s ∧
  cb = mkTx [mkTxInput (mkOutPoint COINBASE_PREV_TXID (- (h + 1))) None None]
         [mkTxOutput (block_subsidy s + fees) miner] 1.
Proof. unfold create_coinbase. intros E. inv_ok E. bool_prop. subst. done. Qed.

Lemma commit_coinbase s t h : is_coinbase t = true → txid t = Ok h →
  (∀ o, o ∈ (created h 0 (outputs t)).*1 → utxos s !! o = None) →
  utxo_total (utxos s) + output_total t ≤ max_money s →
  tx_commits s t (with_utxos s (tx_effect h t (utxos s))).
Proof.
  intros Hc Hh Hnew Ht. exists h. rewrite tx_effect_coinbase by done.
  destruct (add_entries_ok (created h 0 (outputs t)) (utxos s) (created_NoDup _ _ _) Hnew) as [m2 E2].
  apply add_entries_Ok in E2 as (_ & -> & Htot); [|apply created_NoDup]. rewrite created_amounts, output_total_spec in Htot.
  split_and!; [done| |lia|done]. auto.
Qed.

(** What a reward with one output needs to be applied. *)
Lemma reward_commits s cb a who hc : coinbase_shape cb → outputs cb = [mkTxOutput a who] → txid cb = Ok hc →
  (∃ s', tx_commits s cb s') ↔ utxo_total (utxos s) + a ≤ max_money s ∧ utxos s !! mkOutPoint hc 0 = None.
Proof.
  intros Hc%coinbase_shape_is_coinbase Ho Hh. assert (Ht : output_total cb = a).
  { unfold output_total. rewrite Ho. csimpl. rewrite sumZ_cons, sumZ_nil. lia. }
  assert (Hk : (created hc 0 (outputs cb)).*1 = [mkOutPoint hc 0]) by (by rewrite Ho). split.
  - intros [s' Hcm]. pose proof (commits_coinbase_total _ _ _ Hc ltac:(by rewrite Ho) Hcm) as Htot. rewrite Ht in Htot.
    destruct Hcm as (h & Hh' & Hnew & Hmax & ->). assert (h = hc) as -> by congruence. cbn [utxos with_utxos] in Htot. split; [lia|].
    apply Hnew; [rewrite Hk; left|]. rewrite spent_outpoints_coinbase by done. apply not_elem_of_nil.
  - intros [Hmax Hnew]. eexists. apply commit_coinbase; [done..| |lia]. rewrite Hk. by intros o ->%list_elem_of_singleton.
Qed.

(** The block [build_candidate_block] makes. *)
Lemma build_candidate_Ok `{Ed25519} n miner now b f s1 :
  spends (n_mempool n) → distinct (n_mempool n) → fresh (utxos (n_state n)) (n_mempool n) →
  state_wf (n_state n) → tx_steps (n_state n) (n_mempool n) f s1 → build_candidate_block n miner now = Ok b →
  ∃ h tip cb chosen, node_height n = Ok h ∧ tip_hash n = Ok tip ∧ create_coinbase s1 miner f (h + 1) = Ok cb ∧
    chosen ≡ₚ n_mempool n ∧ tx_steps (n_state n) chosen f s1 ∧
    calculate_transaction_root (cb :: chosen) = Ok (transaction_root b) ∧
    b = mkBlock (h + 1) tip (cb :: chosen) (n_difficulty n) now 0 (transaction_root b) 1.
Proof.
  intros Hsp Hd Hf (Hs & Hm & Ht & _) Hst E. unfold build_candidate_block in E.
  apply raise_if_bind in E as [_ E]. apply bind_Ok in E as (c & (_ & _ & ->)%copy_state_Ok & E).
  unfold prioritized_mempool_transactions in E.
  destruct (select_complete (length (n_mempool n)) (n_mempool n) [] 0 (n_state n) (n_mempool n) f s1) as (chosen & Es & Hg);
    try done.
  rewrite Es in E. cbn [fst snd] in E. apply bind_Ok in E as (? & [= <-] & E).
  apply bind_Ok in E as (h & Hh & E). apply bind_Ok in E as (cb & Hcb & E). apply bind_Ok in E as (tip & Htip & E).
  cbn [fst snd] in *. unfold make_block in E. apply bind_Ok in E as (root & Hroot & [= <-]).
  destruct (greedy_spec _ _ _ _ _ Hg) as [Hp Hst']. exists h, tip, cb, chosen. rewrite app_nil_l in *. done.
Qed.

Section candidates.
Context `{Ed25519}.
Variables (s s1 : ConsensusState) (b : ConsensusBlock) (cb : ConsensusTransaction) (chosen : list ConsensusTransaction).
Variables (h k f : Z) (prev who : str).
Hypothesis body : transactions b = cb :: chosen.
Hypothesis plain : spends chosen.
Hypothesis wf : state_wf s.
Hypothesis steps : tx_steps s chosen f s1.
Hypothesis reward : create_coinbase s1 who f k = Ok cb.

(** What accepting a block made of [create_coinbase] and chosen transactions comes to. *)
Lemma candidate_step s' fees : apply_block b h prev s = (s', Ok fees) ↔
  header_ok b h prev ∧ fees = f ∧ 0 < block_subsidy s + f ≤ max_money s ∧ tx_commits s1 cb s'.
Proof using All.
  destruct (tx_steps_params _ _ _ _ steps) as [Esub Emax]. apply create_coinbase_Ok in reward as (Hwho & Hf & Hk & _ & Ecb).
  assert (Hcb : coinbase_shape cb) by (subst cb; exists (k + 1); split; [lia|done]).
  assert (Hsh : tx_shape (max_money s) cb ↔ 0 < block_subsidy s + f ≤ max_money s).
  { subst cb. unfold tx_shape, output_ok. cbn. rewrite Forall_singleton, Esub. cbn. naive_solver. }
  assert (Htot : output_total cb = block_subsidy s + f).
  { subst cb. unfold output_total. csimpl. rewrite sumZ_cons, sumZ_nil, Esub. lia. }
  rewrite apply_block_Ok, <- Hsh. split.
  - intros (_ & _ & Hh & cb' & ts & s2 & Eb & _ & Hst & Hsh' & _ & _ & Hcm). rewrite body in Eb. injection Eb as <- <-.
    destruct (tx_steps_det _ _ _ _ _ _ steps Hst) as [<- <-]. done.
  - intros (Hh & -> & Hsh' & Hcm). destruct wf as (Hs & Hm & _ & _). split; [done|]. split; [done|]. split; [done|].
    exists cb, chosen, s1. split_and!; try done. intros _. rewrite Htot. split; [done|lia].
Qed.

Lemma candidate_effect s' fees : apply_block b h prev s = (s', Ok fees) →
  fees = f ∧ utxo_total (utxos s') = utxo_total (utxos s) + block_subsidy s.
Proof using All.
  intros (_ & -> & _ & Hcm)%candidate_step. split; [done|]. destruct (tx_steps_params _ _ _ _ steps) as [Esub _].
  apply create_coinbase_Ok in reward as (_ & _ & Hk & _ & Ecb).
  rewrite (commits_coinbase_total cb s1 s'); [|by apply coinbase_shape_is_coinbase; subst cb; exists (k + 1); split; [lia|]|by subst cb|done].
  pose proof (tx_steps_total _ _ _ _ plain steps). subst cb. unfold output_total. csimpl. rewrite sumZ_cons, sumZ_nil, Esub. lia.
Qed.

Lemma candidate_accepted hc : header_ok b h prev → txid cb = Ok hc →
  (∃ s' fees, apply_block b h prev s = (s', Ok fees)) ↔
  0 < block_subsidy s + f ∧ utxo_total (utxos s) + block_subsidy s ≤ max_money s ∧ utxos s1 !! mkOutPoint hc 0 = None.
Proof using All.
  intros Hh Hhc. setoid_rewrite candidate_step. destruct (tx_steps_params _ _ _ _ steps) as [Esub Emax].
  pose proof (tx_steps_total _ _ _ _ plain steps) as Htot.
  pose proof (utxo_total_nonneg _ (state_wf_amounts _ (tx_steps_wf _ _ _ _ wf steps))) as Hpos.
  assert (Hr := reward). apply create_coinbase_Ok in Hr as (_ & _ & Hk & _ & Ecb).
  assert (Hcm := reward_commits s1 cb (block_subsidy s + f) who hc).
  rewrite Emax in Hcm. assert (Hiff := Hcm ltac:(by subst cb; exists (k + 1); split; [lia|]) ltac:(by subst cb; rewrite Esub) Hhc). clear Hcm.
  split.
  - intros (s' & fees & _ & _ & Hr & Hc). destruct (proj1 Hiff (ex_intro _ s' Hc)) as [Hle Hnew]. split_and!; [lia|lia|done].
  - intros (Hr & Hle & Hnew). destruct (proj2 Hiff) as [s' Hc]; [split; [lia|done]|]. exists s', f. split_and!; [done|done|lia|lia|done].
Qed.

End candidates.

(** ** Properties: candidate blocks *)

(** C8: When the block a node mines is accepted.  If the mempool applies to a
    well-formed state, with identifiers that are not in the set of unspent
    outputs yet, the block that [build_candidate_block] makes and [_mine]
    completes extends the tip and includes the whole mempool.  [apply_block] on
    the node's state accepts it exactly when the reward is positive, the supply
    before the block has room for the subsidy and the coinbase's outpoint is not
    there yet; it then returns the mempool's fees and raises the supply by the
    subsidy.  [build_candidate_block] checks none of the three
    ([over_cap_mined], [empty_reward_mined]). *)
Theorem mined_block_valid `{Ed25519} n miner now fuel b b' f s1 :
  spends (n_mempool n) → distinct (n_mempool n) → fresh (utxos (n_state n)) (n_mempool n) → state_wf (n_state n) →
  tx_steps (n_state n) (n_mempool n) f s1 → 0 ≤ n_difficulty n →
  build_candidate_block n miner now = Ok b → mine fuel b = Ok b' →
  ∃ h tip cb hc, node_height n = Ok h ∧ tip_hash n = Ok tip ∧ transactions b' !! 0%nat = Some cb ∧ txid cb = Ok hc ∧
    tail (transactions b') ≡ₚ n_mempool n ∧
    ((∃ s' fees, apply_block b' (h + 1) tip (n_state n) = (s', Ok fees)) ↔
       0 < block_subsidy (n_state n) + f ∧
       utxo_total (utxos (n_state n)) + block_subsidy (n_state n) ≤ max_money (n_state n) ∧
       utxos s1 !! mkOutPoint hc 0 = None) ∧
    (∀ s' fees, apply_block b' (h + 1) tip (n_state n) = (s', Ok fees) →
       fees = f ∧ utxo_total (utxos s') = utxo_total (utxos (n_state n)) + block_subsidy (n_state n)).
Proof.
  intros Hsp Hd Hf Hwf Hst Hdiff Hb Hmine.
  destruct (build_candidate_Ok _ _ _ _ _ _ Hsp Hd Hf Hwf Hst Hb) as (h & tip & cb & chosen & Hh & Htip & Hcb & Hp & Hst' & Hroot & Eb).
  rewrite Eb in Hmine. apply mine_Ok in Hmine as (m & _ & -> & (hash & Hhash & Hpre) & _); [|done].
  destruct (root_txid _ _ _ Hroot) as (hc & Hhc). exists h, tip, cb, hc.
  assert (Hsp' : spends chosen) by (unfold spends in *; by rewrite Hp).
  split_and!; [done|done|done|done|done| |].
  - apply (candidate_accepted (n_state n) s1 _ cb chosen (h + 1) (h + 1) f tip miner); try done. split_and!; [done..|by exists hash|done].
  - intros s' fees E. by apply (candidate_effect (n_state n) s1 _ cb chosen (h + 1) (h + 1) f tip miner) in E.
Qed.

(** A node on the sample chain, and the block it mines. *)
Definition chain_node (ts : list ConsensusTransaction) : Node :=
  mkNode (mkDisk sample_store ∅ empty_index ∅) sample_state2 1 sample_fc default_policy None ts.

Definition chain_candidate : ConsensusBlock := Eval vm_compute in
  ok_or empty_block (@build_candidate_block toy_ed25519 (chain_node [sample_transfer2]) (toy_address "dave") sample_timestamp).

Lemma chain_candidate_built :
  @build_candidate_block toy_ed25519 (chain_node [sample_transfer2]) (toy_address "dave") sample_timestamp = Ok chain_candidate.
Proof. vm_compute. reflexivity. Qed.

Definition chain_mined : ConsensusBlock := Eval vm_compute in ok_or empty_block (mine 100 chain_candidate).

Lemma chain_mined_found : mine 100 chain_candidate = Ok chain_mined.
Proof. vm_compute. reflexivity. Qed.

Definition pool_transfer_state : ConsensusState := (@apply_transactions toy_ed25519 0 [sample_transfer2] sample_state2).1.

Lemma sample_state2_wf : state_wf sample_state2.
Proof. apply (bool_decide_unpack (state_wf sample_state2)). vm_compute. exact I. Qed.

Lemma pool_transfer_steps : @tx_steps toy_ed25519 sample_state2 [sample_transfer2] 5 pool_transfer_state.
Proof.
  apply run_transactions_Ok. refine (run_Ok (@apply_transactions toy_ed25519 0 [sample_transfer2]) sample_state2 5 _).
  vm_compute. reflexivity.
Qed.

Lemma mined_block_valid_witness :
  let n := chain_node [sample_transfer2] in
  ∃ h tip cb hc, node_height n = Ok h ∧ tip_hash n = Ok tip ∧ transactions chain_mined !! 0%nat = Some cb ∧ txid cb = Ok hc ∧
    tail (transactions chain_mined) ≡ₚ [sample_transfer2] ∧
    ((∃ s' fees, @apply_block toy_ed25519 chain_mined (h + 1) tip sample_state2 = (s', Ok fees)) ↔
       0 < block_subsidy sample_state2 + 5 ∧
       utxo_total (utxos sample_state2) + block_subsidy sample_state2 ≤ max_money sample_state2 ∧
       utxos pool_transfer_state !! mkOutPoint hc 0 = None) ∧
    (∀ s' fees, @apply_block toy_ed25519 chain_mined (h + 1) tip sample_state2 = (s', Ok fees) →
       fees = 5 ∧ utxo_total (utxos s') = utxo_total (utxos sample_state2) + block_subsidy sample_state2).
Proof.
  apply (@mined_block_valid toy_ed25519 (chain_node [sample_transfer2]) (toy_address "dave") sample_timestamp 100
           chain_candidate chain_mined 5 pool_transfer_state).
  - apply Forall_singleton. vm_compute. reflexivity.
  - apply distinctb_spec. vm_compute. reflexivity.
  - apply freshb_spec. vm_compute. reflexivity.
  - apply sample_state2_wf.
  - apply pool_transfer_steps.
  - apply (bool_decide_unpack (0 ≤ 1)). reflexivity.
  - apply chain_candidate_built.
  - apply chain_mined_found.
Defined.

(** The three conditions hold of it. *)
Example chain_mined_accepted :
  match node_height (chain_node [sample_transfer2]), tip_hash (chain_node [sample_transfer2]) with
  | Ok h, Ok tip => is_ok (@apply_block toy_ed25519 chain_mined (h + 1) tip sample_state2).2 = true
  | _, _ => False
  end.
Proof. vm_compute. reflexivity. Qed.

(** What comes of the block a node mines: its transactions and the verdict of
    [apply_block] on the state the node has. *)
Definition mined_verdict (n : Node) : result nat * option (result Z) :=
  match @build_candidate_block toy_ed25519 n (toy_address "dave") sample_timestamp, node_height n, tip_hash n with
  | Ok b, Ok h, Ok tip =>
      match mine 100 b with
      | Ok b' => (Ok (length (transactions b')), Some (@apply_block toy_ed25519 b' (h + 1) tip (n_state n)).2)
      | Err e => (Err e, None)
      end
  | Err e, _, _ => (Err e, None)
  | _, _, _ => (Ok 0%nat, None)
  end.

Definition with_params (subsidy max : Z) (n : Node) : Node :=
  mkNode (n_disk n) (mkState (utxos (n_state n)) subsidy max) (n_difficulty n) (n_fork_choice n) (n_policy n) (n_last_reorg n) (n_mempool n).

(** A supply with room for the subsidy but one: the fees of the mempool hide it
    from [create_coinbase], which looks at the state after the mempool.  Without
    the mempool it raises. *)
Example over_cap_mined :
  let max := utxo_total (utxos sample_state2) + 50 - 1 in
  mined_verdict (with_params 50 max (chain_node [sample_transfer2])) =
    (Ok 2%nat, Some (raise ConsensusError "utxo set exceeds maximum supply")) ∧
  mined_verdict (with_params 50 max (chain_node [])) = (raise ConsensusError "coinbase would exceed maximum supply", None).
Proof. vm_compute. split; reflexivity. Qed.

(** With no subsidy and no fees the reward is an output of amount 0. *)
Example empty_reward_mined :
  mined_verdict (with_params 0 MAX_MONEY (chain_node [])) =
    (Ok 1%nat, Some (raise ConsensusError "output amount must be positive")).
Proof. vm_compute. reflexivity. Qed.
