(* ===== verification/Node.v ===== *)
(** * The node (utxo_node.py, [ConsensusNode])

    Importing blocks, creating a node and opening one.  [import_block] is the
    only operation that changes the active chain; [node_wf] is what it keeps on
    every outcome, exceptions included: each stored branch replays and the state
    is the one of the best tip. *)

From S2P Require Import Prelude PyBytes PyText Sha256 Json Crypto ByteReader Transaction Block Utxo State BlockProcessor ForkStore ForkChoice Stores Policy Mempool Selection Mining.
Local Open Scope Z_scope.

Definition on_invalid (h reason : str) : SM Node unit := λ n,
  (with_disk (with_invalid (mark_invalid h reason (d_invalid (n_disk n))) (n_disk n)) n, Ok tt).

(** [self.state = active.state], [self.last_reorg = ...] *)
Definition with_state (s : ConsensusState) (n : Node) : Node :=
  mkNode (n_disk n) s (n_difficulty n) (n_fork_choice n) (n_policy n) (n_last_reorg n) (n_mempool n).
Definition with_reorg (r : option ReorgEvent) (n : Node) : Node :=
  mkNode (n_disk n) (n_state n) (n_difficulty n) (n_fork_choice n) (n_policy n) r (n_mempool n).

(** [_detect_reorg] *)
Definition detect_reorg (old_tip new_tip : option ConsensusBlock) : result (option ReorgEvent) :=
  match old_tip, new_tip with
  | Some o, Some t =>
      ho ← block_hash o;
      ht ← block_hash t;
      if bool_decide (ho = ht) then Ok None
      else if bool_decide (previous_hash t = ho) && (height t =? height o + 1) then Ok None
      else Ok (Some (mkReorg ho ht (height o) (height t)))
  | _, _ => Ok None
  end.

Section node.
Context `{Ed25519}.

(** [_validate_import_candidate] *)
Definition validate_import_candidate (n : Node) (b : ConsensusBlock) : result unit :=
  if height b =? 0 then
    tip ← best_tip (n_store n);
    raise_if (bool_decide (is_Some tip)) ConsensusNodeError "genesis block already exists";;
    s ← state_init None (block_subsidy (n_state n)) (max_money (n_state n));
    (apply_block b 0 ZERO_HASH s).2;;
    Ok tt
  else
    parent ← reraise StorageError ConsensusNodeError "block parent is unknown"
               (fc_chain_to_tip (n_fork_choice n) (n_store n) (previous_hash b));
    (apply_block b (height b) (previous_hash b) (ac_state parent)).2;;
    Ok tt.

(** [reason or "previously rejected block"] *)
Definition cached_reason (n : Node) (h : str) : str :=
  match invalid_reason (d_invalid (n_disk n)) h with
  | None | Some [] => py "previously rejected block"
  | Some r => r
  end.

(** The guarded part of [import_block]: validate and store, or remember the
    block as invalid. *)
Definition store_candidate (b : ConsensusBlock) (h : str) : SM Node StoredBlock :=
  sm_try (n ← sm_get; sm_lift (validate_import_candidate n b);; on_store (put_block b))
    (λ e, on_invalid h (exn_msg e);; sm_lift (Err e)).

(** [self.state] follows the best tip. *)
Definition activate (old_tip : option ConsensusBlock) : SM Node ActiveChain :=
  n ← sm_get;
  active ← sm_lift (fc_active_chain (n_fork_choice n) (n_store n));
  sm_put (with_state (ac_state active) n);;
  reorg ← sm_lift (detect_reorg old_tip (ac_tip active));
  sm_put (with_reorg reorg (with_state (ac_state active) n));;
  mret active.

(** The index updates of [import_block]. *)
Definition index_import (stored : StoredBlock) (active : ActiveChain) : SM Node unit :=
  n ← sm_get;
  h ← sm_lift (block_hash (sb_block stored));
  imported ← sm_lift (fc_chain_to_tip (n_fork_choice n) (n_store n) h);
  on_index (save_tip_snapshot h (utxos (ac_state imported)));;
  on_index (save_tip_spends h (ac_blocks imported));;
  match ac_tip active with
  | None => sm_raise AssertionError ""
  | Some t =>
      ht ← sm_lift (block_hash t);
      on_index (save_snapshot ht (utxos (n_state n)));;
      on_index (save_tip_spends ht (ac_blocks active))
  end.

(** The mempool after a block: its transactions leave, then what no longer
    applies. *)
Definition settle_mempool (b : ConsensusBlock) : SM Node unit :=
  n ← sm_get;
  included ← sm_lift (mapR txid (transactions b));
  kept ← sm_lift (without_txids included (n_mempool n));
  sm_put (with_mempool kept n);;
  prune_invalid_mempool;;
  n' ← sm_get;
  on_mempool_store (replace_all (n_mempool n')).

(** [import_block] *)
Definition import_block (b : ConsensusBlock) : SM Node StoredBlock :=
  n ← sm_get;
  old_tip ← sm_lift (best_tip (n_store n));
  h ← sm_lift (try_catch (block_hash b) (λ _, raise ConsensusNodeError "block header is invalid"));
  if is_invalid (d_invalid (n_disk n)) h then
    sm_lift (Err (Exn ConsensusNodeError (py "block is cached as invalid: " ++ cached_reason n h)))
  else
    stored ← store_candidate b h;
    active ← activate (sb_block <$> old_tip);
    index_import stored active;;
    settle_mempool b;;
    mret stored.

(** [mine_block] *)
Definition mine_block (fuel : nat) (miner_address : str) (now : Z) : SM Node StoredBlock :=
  n ← sm_get;
  b ← sm_lift (build_candidate_block n miner_address now);
  mined ← sm_lift (mine fuel b);
  import_block mined.

(** ** Opening and creating *)

Definition disk_store {A} (m : SM ForkStore A) : SM Disk A := sm_zoom d_store with_store m.
Definition disk_mempool {A} (m : SM MempoolStore A) : SM Disk A := sm_zoom d_mempool with_mempool_store m.
Definition disk_index {A} (m : SM UTXOIndex A) : SM Disk A := sm_zoom d_index with_index m.

(** [ConsensusNode.__init__], as [create] and [open] call it. *)
Definition node_init (s : ConsensusState) (difficulty : Z) (fc : ForkChoice) : SM Disk Node :=
  sm_lift (raise_if (difficulty <? 0) ConsensusNodeError "difficulty cannot be negative");;
  mempool ← disk_mempool (load_mempool s default_policy);
  d ← sm_get;
  mret (mkNode d s difficulty fc default_policy None mempool).

(** The guarded part of [create]; [fuel] bounds the search for the genesis
    nonce. *)
Definition create_chain (fuel : nat) (allocations : list (str * Z)) (difficulty subsidy max now : Z) : SM Disk unit :=
  d ← sm_get;
  tip ← sm_lift (best_tip (d_store d));
  sm_lift (raise_if (bool_decide (is_Some tip)) ConsensusNodeError "node database already has a chain");;
  disk_store (save_chain_parameters (mkParams difficulty subsidy max));;
  s ← sm_lift (state_init None subsidy max);
  genesis ← sm_lift (build_genesis_block fuel allocations difficulty now);
  s' ← sm_lift (run_state (apply_block genesis 0 ZERO_HASH s));
  disk_store (put_block genesis);;
  disk_mempool (replace_all []);;
  h ← sm_lift (block_hash genesis);
  disk_index (save_snapshot h (utxos s')).

(** What [create] does after it. *)
Definition create_node (difficulty subsidy max : Z) : SM Disk Node :=
  d ← sm_get;
  let fc := mkForkChoice subsidy max in
  active ← sm_lift (fc_active_chain fc (d_store d));
  node_init (ac_state active) difficulty fc.

(** [create] *)
Definition node_create (fuel : nat) (allocations : list (str * Z)) (difficulty subsidy max now : Z) : SM Disk Node :=
  create_chain fuel allocations difficulty subsidy max now;; create_node difficulty subsidy max.

(** The indexed set of the tip, when it agrees with the replayed state. *)
Definition open_state (fc : ForkChoice) (active : ActiveChain) : SM Disk ConsensusState :=
  d ← sm_get;
  match ac_tip active with
  | None => mret (ac_state active)
  | Some t =>
      h ← sm_lift (block_hash t);
      indexed ← sm_lift (load_snapshot (d_index d) h);
      match indexed with
      | Some m =>
          if bool_decide (utxo_entries m = utxo_entries (utxos (ac_state active))) then
            sm_lift (state_init (Some m) (fc_block_subsidy fc) (fc_max_money fc))
          else disk_index (save_snapshot h (utxos (ac_state active)));; mret (ac_state active)
      | None => disk_index (save_snapshot h (utxos (ac_state active)));; mret (ac_state active)
      end
  end.

(** The guarded part of [open] *)
Definition open_chain (difficulty subsidy max : Z) : SM Disk ConsensusState :=
  let fc := mkForkChoice subsidy max in
  disk_store (require_chain_parameters (mkParams difficulty subsidy max));;
  d ← sm_get;
  active ← sm_lift (fc_active_chain fc (d_store d));
  sm_lift (validate_all_known_branches fc (d_store d));;
  open_state fc active.

(** [open] *)
Definition node_open (difficulty subsidy max : Z) : SM Disk Node :=
  s ← sm_try (open_chain difficulty subsidy max)
        (λ _, sm_raise ConsensusNodeError "stored consensus chain failed validation");
  node_init s difficulty (mkForkChoice subsidy max).

End node.

(** ** The invariant *)

Definition node_wf `{Ed25519} (n : Node) : Prop :=
  store_valid (n_fork_choice n) (n_store n) ∧
  0 ≤ fc_block_subsidy (n_fork_choice n) ∧ 0 < fc_max_money (n_fork_choice n) ∧
  ∃ a, fc_active_chain (n_fork_choice n) (n_store n) = Ok a ∧ n_state n = ac_state a.

(** [m] does not touch what [node_wf] is about. *)
Definition same_chain (n n' : Node) : Prop :=
  n_store n' = n_store n ∧ n_fork_choice n' = n_fork_choice n ∧ n_state n' = n_state n ∧
  n_difficulty n' = n_difficulty n ∧ n_policy n' = n_policy n.

(** [m] does not touch the mempool. *)
Definition same_pool (n n' : Node) : Prop := n_mempool n' = n_mempool n ∧ n_policy n' = n_policy n.

#[global] Instance same_chain_preorder : PreOrder same_chain.
Proof.
  split; [by intros n|]. unfold same_chain. intros n1 n2 n3 (-> & -> & -> & -> & ->) (-> & -> & -> & -> & ->). done.
Qed.

#[global] Instance same_pool_preorder : PreOrder same_pool.
Proof. split; [by intros n|]. unfold same_pool. intros n1 n2 n3 [-> ->] [-> ->]. done. Qed.

(** ** Lemmas: frames *)

Lemma keeps_index {A} (m : SM UTXOIndex A) : keeps same_chain (on_index m).
Proof. intros n. unfold on_index, sm_zoom. by split_and!. Qed.

Lemma keeps_index_pool {A} (m : SM UTXOIndex A) : keeps same_pool (on_index m).
Proof. intros n. unfold on_index, sm_zoom. by split. Qed.

Lemma keeps_mempool {A} (m : SM MempoolStore A) : keeps same_chain (on_mempool_store m).
Proof. intros n. unfold on_mempool_store, sm_zoom. by split_and!. Qed.

#[export] Hint Resolve keeps_index keeps_index_pool keeps_mempool : bcc.
#[export] Hint Extern 1 (Reflexive _) => apply _ : bcc.
#[export] Hint Extern 1 (Transitive _) => apply _ : bcc.

Section node_lemmas.
Context `{ED : Ed25519}.

Lemma node_wf_same n n' : same_chain n n' → node_wf n → node_wf n'.
Proof. unfold node_wf. intros (-> & -> & -> & _ & _). done. Qed.

Lemma keeps_index_import stored active : keeps same_chain (index_import stored active).
Proof. unfold index_import. apply keeps_bind; [apply _|auto with bcc|]. intros n. destruct (ac_tip active); auto 20 with bcc. Qed.

Lemma keeps_index_import_pool stored active : keeps same_pool (index_import stored active).
Proof. unfold index_import. apply keeps_bind; [apply _|auto with bcc|]. intros n. destruct (ac_tip active); auto 20 with bcc. Qed.

Lemma keeps_prune : keeps same_chain prune_invalid_mempool.
Proof.
  intros n. unfold prune_invalid_mempool, sm_get, sm_lift, mbind, SM_bind. destruct (copy_state (n_state n)); by split_and!.
Qed.

Lemma keeps_settle b : keeps same_chain (settle_mempool b).
Proof.
  intros n. unfold settle_mempool, sm_get, sm_lift, sm_put. unfold mbind, SM_bind.
  destruct (mapR txid (transactions b)) as [ids|]; [|done]. destruct (without_txids ids (n_mempool n)) as [kept|]; [|done].
  pose proof (keeps_prune (with_mempool kept n)) as Hp. destruct (prune_invalid_mempool (with_mempool kept n)) as [n1 [u|]]; [|done].
  etransitivity; [exact Hp|]. apply keeps_mempool.
Qed.

(** ** Lemmas: parameters of replayed states *)

Lemma chain_steps_params s h prev bs s' : chain_steps s h prev bs s' →
  block_subsidy s' = block_subsidy s ∧ max_money s' = max_money s.
Proof. induction 1 as [|s h prev b fees s1 hash bs s2 Hb _ _ IH]; [done|]. apply block_step_params in Hb as [<- <-]. done. Qed.

Lemma rebuild_params bs subsidy max s : rebuild_state_from_blocks bs subsidy max = Ok s →
  block_subsidy s = subsidy ∧ max_money s = max ∧ state_wf s.
Proof.
  intros (Hs & Hm & Hc)%rebuild_Ok. destruct (chain_steps_params _ _ _ _ _ Hc) as [-> ->]. split_and!; [done..|].
  eapply chain_steps_wf; [|exact Hc]. by apply empty_state_wf.
Qed.

Lemma node_state_params n : node_wf n → state_wf (n_state n) ∧
  block_subsidy (n_state n) = fc_block_subsidy (n_fork_choice n) ∧ max_money (n_state n) = fc_max_money (n_fork_choice n).
Proof.
  intros (Hv & Hs & Hm & a & Ha & ->). destruct (fc_active_chain_valid _ _ Hv Hs Hm) as (a' & Ha' & Hr & _).
  assert (a' = a) as -> by congruence. apply rebuild_params in Hr as (? & ? & ?). done.
Qed.

(** ** Lemmas: the candidate *)

(** Consensus accepts [b] on [a], the branch it extends. *)
Definition accepted (fc : ForkChoice) (st : ForkStore) (b : ConsensusBlock) (a : ActiveChain) (s' : ConsensusState) (fees : Z) : Prop :=
  (height b ≠ 0 ∧ branch_state fc st (previous_hash b) a ∧
     apply_block b (height b) (previous_hash b) (ac_state a) = (s', Ok fees)) ∨
  (height b = 0 ∧ a = mkActive [] (mkState ∅ (fc_block_subsidy fc) (fc_max_money fc)) 0 ∧
     apply_block b 0 ZERO_HASH (ac_state a) = (s', Ok fees)).

Lemma validate_candidate_Ok n b u : node_wf n → validate_import_candidate n b = Ok u →
  ∃ a s' fees, accepted (n_fork_choice n) (n_store n) b a s' fees ∧ (height b = 0 → best_tip (n_store n) = Ok None).
Proof.
  intros Hn E. destruct (node_state_params _ Hn) as (_ & Hs & Hm). destruct Hn as ([Hwf _] & Hs0 & Hm0 & _).
  unfold validate_import_candidate in E. destruct (Z.eqb_spec (height b) 0) as [H0|H0].
  - apply bind_Ok in E as (tip & Htip & E). apply raise_if_bind in E as [Ht E]. apply bind_Ok in E as (s & Hst & E).
    apply bind_Ok in E as (fees & Ha%run_Ok & _). destruct tip; [by case_bool_decide; [|destruct H]|].
    unfold state_init in Hst. rewrite Hs, Hm in Hst. inv_ok Hst. subst s.
    eexists _, _, fees. split; [|done]. right. split; [done|]. split; [reflexivity|exact Ha].
  - apply bind_Ok in E as (a & Ha%reraise_Ok & E). apply bind_Ok in E as (fees & Hap%run_Ok & _).
    apply fc_chain_to_tip_Ok in Ha; [|done]. eexists a, _, fees. split; [|done]. left. split; [done|]. split; [done|exact Hap].
Qed.

Lemma accepted_header fc st b a s' fees : accepted fc st b a s' fees → 0 ≤ difficulty b ∧ ∃ h, block_hash b = Ok h.
Proof.
  intros [(_ & _ & (_ & _ & Hst)%apply_block_Ok)|(_ & _ & (_ & _ & Hst)%apply_block_Ok)];
    destruct Hst as [(_ & _ & _ & Hd & (h & Hh & _) & _) _]; eauto.
Qed.

Lemma store_candidate_cases b h n : 
  (∃ e, store_candidate b h n = (with_disk (with_invalid (mark_invalid h (exn_msg e) (d_invalid (n_disk n))) (n_disk n)) n, Err e) ∧
     (validate_import_candidate n b = Err e ∨ (put_block b (n_store n)).2 = Err e)) ∨
  (∃ st sb, validate_import_candidate n b = Ok tt ∧ put_block b (n_store n) = (st, Ok sb) ∧
     store_candidate b h n = (with_disk (with_store st (n_disk n)) n, Ok sb)).
Proof.
  unfold store_candidate, sm_try, sm_get, sm_lift, on_invalid, on_store, sm_zoom, mbind, SM_bind.
  destruct (validate_import_candidate n b) as [[]|e]; [|by left; exists e; eauto].
  fold (n_store n). destruct (put_block b (n_store n)) as [st [sb|e]] eqn:E; cbn [fst snd]; [by right; eauto 10|].
  left. exists e. apply put_block_err in E as ->. split; [|by right]. by destruct n as [[] ? ? ? ? ? ?].
Qed.

(** ** Lemmas: import *)

(** Storing an accepted block. *)
Lemma stored_accepted n b st sb : node_wf n → canonical_block b → validate_import_candidate n b = Ok tt →
  put_block b (n_store n) = (st, Ok sb) →
  store_valid (n_fork_choice n) st ∧ fs_blocks (n_store n) ⊆ fs_blocks st.
Proof.
  intros Hn Hc Hv Hp. destruct (validate_candidate_Ok _ _ _ Hn Hv) as (a & s' & fees & Ha & _).
  destruct (accepted_header _ _ _ _ _ _ Ha) as [Hd _]. destruct Hn as (Hvalid & _). split.
  - by destruct (put_accepted _ _ _ _ _ _ _ _ Hvalid Hc Hd Hp Ha) as [? _].
  - destruct Hvalid as [Hwf _]. by destruct (put_block_wf _ _ _ _ Hwf Hc Hd Hp).
Qed.

Lemma activate_cases n old a : fc_active_chain (n_fork_choice n) (n_store n) = Ok a →
  (∃ e, detect_reorg old (ac_tip a) = Err e ∧ activate old n = (with_state (ac_state a) n, Err e)) ∨
  (∃ r, detect_reorg old (ac_tip a) = Ok r ∧ activate old n = (with_reorg r (with_state (ac_state a) n), Ok a)).
Proof.
  intros Ha. unfold activate, sm_get, sm_lift, sm_put, mret, SM_ret, mbind, SM_bind. rewrite Ha.
  destruct (detect_reorg old (ac_tip a)) as [r|e]; [right|left]; eauto.
Qed.

(** What follows [activate] in [import_block]. *)
Definition finish_import (b : ConsensusBlock) (stored : StoredBlock) (active : ActiveChain) : SM Node StoredBlock :=
  index_import stored active;; settle_mempool b;; mret stored.

Lemma keeps_finish b stored active : keeps same_chain (finish_import b stored active).
Proof.
  unfold finish_import. apply keeps_bind; [apply _|apply keeps_index_import|]. intros _.
  apply keeps_bind; [apply _|apply keeps_settle|]. auto with bcc.
Qed.

Lemma import_unfold n b old : best_tip (n_store n) = Ok old →
  import_block b n =
    match block_hash b with
    | Err _ => (n, raise ConsensusNodeError "block header is invalid")
    | Ok h =>
        if is_invalid (d_invalid (n_disk n)) h then
          (n, Err (Exn ConsensusNodeError (py "block is cached as invalid: " ++ cached_reason n h)))
        else match store_candidate b h n with
             | (n1, Ok sb) => (active ← activate (sb_block <$> old); finish_import b sb active) n1
             | (n1, Err e) => (n1, Err e)
             end
    end.
Proof.
  intros Hold. unfold import_block, finish_import, sm_get, sm_lift, mbind, SM_bind. rewrite Hold.
  destruct (block_hash b) as [h|e]; [|done]. cbn [try_catch]. destruct (is_invalid (d_invalid (n_disk n)) h); [done|].
  by destruct (store_candidate b h n) as [n1 [sb|e]].
Qed.

(** The ways an import can go. *)
Lemma import_cases n b : node_wf n →
  (∃ e, import_block b n = (n, Err e)) ∨
  (∃ h e, block_hash b = Ok h ∧
     import_block b n = (with_disk (with_invalid (mark_invalid h (exn_msg e) (d_invalid (n_disk n))) (n_disk n)) n, Err e)) ∨
  (∃ h old st sb, block_hash b = Ok h ∧ is_invalid (d_invalid (n_disk n)) h = false ∧ best_tip (n_store n) = Ok old ∧
     validate_import_candidate n b = Ok tt ∧ put_block b (n_store n) = (st, Ok sb) ∧
     import_block b n = (active ← activate (sb_block <$> old); finish_import b sb active)
                          (with_disk (with_store st (n_disk n)) n)).
Proof.
  intros ([Hwf _] & _). destruct (best_tip_total _ Hwf) as [old Hold].
  rewrite (import_unfold _ _ _ Hold). destruct (block_hash b) as [h|e] eqn:Hh; [|by left; eauto].
  destruct (is_invalid (d_invalid (n_disk n)) h) eqn:Hi; [by left; eauto|]. right.
  destruct (store_candidate_cases b h n) as [(e & -> & _)|(st & sb & Hv & Hp & ->)]; [by left; eauto|].
  right. exists h, old, st, sb. done.
Qed.

Lemma import_wf n b : node_wf n → canonical_block b →
  node_wf (import_block b n).1 ∧ fs_blocks (n_store n) ⊆ fs_blocks (n_store (import_block b n).1) ∧
  n_fork_choice (import_block b n).1 = n_fork_choice n ∧ n_difficulty (import_block b n).1 = n_difficulty n.
Proof.
  intros Hn Hc. destruct (import_cases n b Hn) as [(e & ->)|[(h & e & _ & ->)|(h & old & st & sb & Hh & _ & Hold & Hv & Hp & ->)]].
  - done.
  - split; [|done]. eapply node_wf_same; [|exact Hn]. by split_and!.
  - destruct (stored_accepted _ _ _ _ Hn Hc Hv Hp) as [Hvalid Hsub]. destruct Hn as (_ & Hs & Hm & _).
    set (n1 := with_disk (with_store st (n_disk n)) n).
    destruct (fc_active_chain_valid (n_fork_choice n1) (n_store n1) Hvalid Hs Hm) as (a & Ha & _).
    assert (Hw : ∀ n2, n_store n2 = st → n_fork_choice n2 = n_fork_choice n → n_state n2 = ac_state a → node_wf n2).
    { intros n2 E1 E2 E3. unfold node_wf. rewrite E1, E2, E3. by split_and!; [..|exists a]. }
    unfold mbind, SM_bind. destruct (activate_cases n1 (sb_block <$> old) a Ha) as [(e & _ & ->)|(r & _ & ->)].
    + split; [by apply Hw|]. done.
    + pose proof (keeps_finish b sb a (with_reorg r (with_state (ac_state a) n1))) as (E1 & E2 & E3 & E4 & _).
      split; [by apply Hw|]. rewrite E1, E2, E4. done.
Qed.

(** ** Lemmas: fork choice of an import *)

Lemma branch_state_fun fc st h a a' : store_wf st → branch_state fc st h a → branch_state fc st h a' → a = a'.
Proof. intros Hwf Ha%fc_chain_to_tip_Ok Ha'%fc_chain_to_tip_Ok; [congruence|done..]. Qed.

(** The state of a node is the replayed branch of its best tip. *)
Lemma node_state_tip n t h a : node_wf n → best_tip (n_store n) = Ok (Some t) → block_hash (sb_block t) = Ok h →
  branch_state (n_fork_choice n) (n_store n) h a → n_state n = ac_state a ∧ tip_hash n = Ok h.
Proof.
  intros ([Hwf _] & _ & _ & a' & Ha' & Hs) Ht Hh Ha. split.
  - rewrite (fc_active_chain_Some _ _ _ _ Hwf Ht Hh) in Ha'. apply fc_chain_to_tip_Ok in Ha'; [|done].
    by rewrite (branch_state_fun _ _ _ _ _ Hwf Ha Ha').
  - unfold tip_hash. rewrite Ht. csimpl. done.
Qed.

(** The work stored with an accepted block. *)
Lemma accepted_work n b a s' fees st sb h : node_wf n → accepted (n_fork_choice n) (n_store n) b a s' fees →
  put_block b (n_store n) = (st, Ok sb) → block_hash b = Ok h → fs_blocks (n_store n) !! h = None →
  cumulative_work sb = ac_work a + work_for b.
Proof.
  intros ([Hwf _] & _) Ha Hp Hh Hnew. apply put_block_Ok in Hp as (h' & Hh' & [(Hs & _)|(_ & w & p & Hw & _ & -> & _)]);
    assert (h' = h) as -> by congruence; [rewrite Hnew in Hs; by destruct Hs|]. simpl.
  unfold block_work in Hw. destruct Ha as [(H0 & (l & x & Hb & _ & _ & ->) & _)|(H0 & -> & _)].
  - rewrite (proj2 (Z.eqb_neq _ _) H0) in Hw. apply bind_Ok in Hw as (parent & Hg & Hw). apply raise_if_bind in Hw as [_ [= <-]].
    destruct (branch_last _ _ _ Hb) as (l' & y & E & Hgy & _). apply app_inj_tail in E as [_ ->]. by rewrite Hgy in Hg; injection Hg as ->.
  - rewrite H0 in Hw. simpl in Hw. by apply raise_if_bind in Hw as [_ [= <-]].
Qed.

(** The steps of an import that returns. *)
Lemma import_Ok_steps n b n' sb : node_wf n → canonical_block b → import_block b n = (n', Ok sb) →
  ∃ h st a n2, block_hash b = Ok h ∧ validate_import_candidate n b = Ok tt ∧ put_block b (n_store n) = (st, Ok sb) ∧
    fc_active_chain (n_fork_choice n) st = Ok a ∧ n_store n2 = st ∧ n_fork_choice n2 = n_fork_choice n ∧
    n_state n2 = ac_state a ∧ same_pool n n2 ∧ finish_import b sb a n2 = (n', Ok sb).
Proof.
  intros Hn Hc E. destruct (import_cases n b Hn) as [(e & E')|[(h & e & _ & E')|(h & old & st & sb' & Hh & _ & Hold & Hv & Hp & E')]];
    rewrite E' in E; [done..|].
  destruct (stored_accepted _ _ _ _ Hn Hc Hv Hp) as [Hvalid _]. destruct Hn as (_ & Hs & Hm & _).
  set (n1 := with_disk (with_store st (n_disk n)) n) in *.
  destruct (fc_active_chain_valid (n_fork_choice n1) (n_store n1) Hvalid Hs Hm) as (a & Ha & _).
  unfold mbind, SM_bind in E. destruct (activate_cases n1 (sb_block <$> old) a Ha) as [(e & _ & Ea)|(r & _ & Ea)]; rewrite Ea in E; [done|].
  set (n2 := with_reorg r (with_state (ac_state a) n1)) in *. exists h, st, a, n2.
  assert (sb' = sb) as <-.
  { unfold finish_import in E. apply SM_bind_Ok in E as (u & n3 & _ & E). apply SM_bind_Ok in E as (u2 & n4 & _ & E).
    by injection E as _ ->. }
  done.
Qed.

Lemma import_Ok_chain n b n' sb : node_wf n → canonical_block b → import_block b n = (n', Ok sb) →
  ∃ h st, block_hash b = Ok h ∧ validate_import_candidate n b = Ok tt ∧ put_block b (n_store n) = (st, Ok sb) ∧
    n_store n' = st ∧ n_fork_choice n' = n_fork_choice n.
Proof.
  intros Hn Hc E. destruct (import_Ok_steps _ _ _ _ Hn Hc E) as (h & st & a & n2 & Hh & Hv & Hp & _ & Hst & Hfc & _ & _ & Ef).
  pose proof (keeps_finish b sb a n2) as (E1 & E2 & _). rewrite Ef in E1, E2. exists h, st. simpl in *. by rewrite E1, E2.
Qed.

(** ** Lemmas: the mempool after an import *)

Lemma settle_Ok b n n' u : 0 ≤ block_subsidy (n_state n) → 0 < max_money (n_state n) → distinct (n_mempool n) →
  settle_mempool b n = (n', Ok u) → ∃ ids kept,
    mapR txid (transactions b) = Ok ids ∧ without_txids ids (n_mempool n) = Ok kept ∧
    n_mempool n' = keep_valid (n_policy n) (n_state n) [] kept ∧ mempool_saved n' ∧
    n_state n' = n_state n ∧ d_index (n_disk n') = d_index (n_disk n).
Proof.
  intros Hs Hm Hd E. unfold settle_mempool in E. unfold sm_get, sm_lift, sm_put, mbind, SM_bind in E.
  destruct (mapR txid (transactions b)) as [ids|] eqn:Hids; [|done].
  destruct (without_txids ids (n_mempool n)) as [kept|] eqn:Hk; [|done].
  rewrite (prune_invalid_Ok (with_mempool kept n)) in E by done. cbn [n_mempool with_mempool n_policy n_state] in E.
  destruct (keep_valid_sublist (n_policy n) (n_state n) [] kept) as (l & El & Hl). simpl in El.
  assert (Hdl : distinct l) by (eapply distinct_sublist; [etransitivity; [exact Hl|by eapply without_txids_sublist]|done]).
  unfold on_mempool_store, sm_zoom in E. cbn [n_disk with_mempool] in E.
  rewrite El in E. destruct (replace_all_ok l (d_mempool (n_disk n)) Hdl) as (rows & Hr & Er). rewrite Er in E. cbn [fst snd] in E.
  injection E as <- _. exists ids, kept. rewrite El. split_and!; [done..| |done|done]. by exists rows.
Qed.

Lemma import_mempool n b n' sb : node_wf n → canonical_block b → distinct (n_mempool n) →
  import_block b n = (n', Ok sb) → ∃ ids kept,
    mapR txid (transactions b) = Ok ids ∧ without_txids ids (n_mempool n) = Ok kept ∧
    n_mempool n' = keep_valid (n_policy n) (n_state n') [] kept ∧ mempool_saved n' ∧ n_policy n' = n_policy n.
Proof.
  intros Hn Hc Hd E. pose proof (import_wf n b Hn Hc) as (Hn' & _). rewrite E in Hn'.
  destruct (node_state_params _ Hn') as (Hwf' & _). cbn [fst] in Hwf'.
  destruct (import_Ok_steps _ _ _ _ Hn Hc E) as (h & st & a & n2 & _ & _ & _ & _ & _ & _ & Hst2 & [Hp1 Hp2] & Ef).
  pose proof (keeps_finish b sb a n2) as (_ & _ & Es & _ & Epol). rewrite Ef in Es, Epol. cbn [fst] in Es, Epol.
  unfold finish_import in Ef. apply SM_bind_Ok in Ef as (u & n3 & Ei & Ef). apply SM_bind_Ok in Ef as (u2 & n4 & Et & Ef).
  injection Ef as <-. pose proof (keeps_index_import sb a n2) as (_ & _ & Es3 & _). pose proof (keeps_index_import_pool sb a n2) as [Ep3 Epl3].
  rewrite Ei in Es3, Ep3, Epl3. cbn [fst] in *. rewrite <- Hp1, <- Ep3 in Hd. destruct Hwf' as (Hs' & Hm' & _).
  apply settle_Ok in Et as (ids & kept & Hids & Hk & Hpool & Hsaved & Hst4 & _); [|by rewrite Es3, <- Es|by rewrite Es3, <- Es|done].
  exists ids, kept. rewrite Ep3, Hp1 in Hk. rewrite Epl3, Hp2, Es3, <- Es in Hpool. rewrite Epol, Hp2. done.
Qed.

Lemma settled_rest b ts ids rest t : mapR txid (transactions b) = Ok ids → without_txids ids ts = Ok rest →
  distinct ts → t ∈ ts → t ∈ rest ↔ Forall (λ x, txid x ≠ txid t) (transactions b).
Proof.
  intros Hids Hr (mids & Hm & _) Ht. apply mapR_Ok in Hids. pose proof Hm as Hm2. apply mapR_Ok in Hm2.
  pose proof Ht as [k Hk]%list_elem_of_lookup. destruct (Forall2_lookup_l _ _ _ _ _ Hm2 Hk) as (h & _ & Hh).
  rewrite (without_txids_elem ids ts mids rest Hm Hr t h Ht Hh), Forall_forall, Hh. split.
  - intros Hn x [i Hx]%list_elem_of_lookup E. destruct (Forall2_lookup_l _ _ _ _ _ Hids Hx) as (h2 & Hh2 & E2).
    apply Hn. assert (h2 = h) as <- by congruence. by eapply list_elem_of_lookup_2.
  - intros Hall [i Hi]%list_elem_of_lookup. destruct (Forall2_lookup_r _ _ _ _ _ Hids Hi) as (x & Hx & E).
    apply (Hall x); [by eapply list_elem_of_lookup_2|done].
Qed.

Lemma settled_wf p n rest : n_mempool n = keep_valid p (n_state n) [] rest → spends rest → distinct rest →
  policy_passes p (n_state n) rest (keep_valid p (n_state n) [] rest) → mempool_wf n.
Proof.
  intros Hpool Hs Hd Hp. destruct (keep_valid_sublist p (n_state n) [] rest) as (l & E & Hsub). simpl in E.
  unfold mempool_wf. rewrite Hpool. split; [rewrite E; by eapply Forall_sublist|]. split; [rewrite E; by eapply distinct_sublist|].
  eapply (keep_valid_applicable (n_state n) p _ [] rest); [constructor|].
  intros pre t post fee Er Ea. rewrite <- (kept_before_valid p (n_state n) pre (t :: post)); [|rewrite <- Er; by apply distinct_NoDup].
  rewrite <- Er. by eapply Hp.
Qed.

(** ** Lemmas: rejected blocks *)

Lemma marked_invalid h r c : is_invalid (mark_invalid h r c) h = true.
Proof. unfold is_invalid, mark_invalid. rewrite lookup_insert_eq. by apply bool_decide_eq_true. Qed.

(** The node after a block was refused. *)
Definition remember (h : str) (e : exn) (n : Node) : Node :=
  with_disk (with_invalid (mark_invalid h (exn_msg e) (d_invalid (n_disk n))) (n_disk n)) n.

Lemma store_rejected b h n e : validate_import_candidate n b = Err e → store_candidate b h n = (remember h e n, Err e).
Proof.
  intros Hv. unfold store_candidate, sm_try, sm_get, sm_lift, on_invalid, mbind, SM_bind. by rewrite Hv.
Qed.

Lemma import_rejected n b h e : node_wf n → block_hash b = Ok h → is_invalid (d_invalid (n_disk n)) h = false →
  validate_import_candidate n b = Err e → import_block b n = (remember h e n, Err e).
Proof.
  intros ([Hwf _] & _) Hh Hi He. destruct (best_tip_total _ Hwf) as [old Hold].
  by rewrite (import_unfold _ _ _ Hold), Hh, Hi, (store_rejected _ _ _ _ He).
Qed.

Lemma import_cached n b h : node_wf n → block_hash b = Ok h → is_invalid (d_invalid (n_disk n)) h = true →
  import_block b n = (n, Err (Exn ConsensusNodeError (py "block is cached as invalid: " ++ cached_reason n h))).
Proof.
  intros ([Hwf _] & _) Hh Hi. destruct (best_tip_total _ Hwf) as [old Hold].
  by rewrite (import_unfold _ _ _ Hold), Hh, Hi.
Qed.

Lemma validate_repeat_last n b ts t : validate_import_candidate n b = Ok tt → transactions b = ts ++ [t] →
  Nat.odd (length (transactions b)) = true → (3 ≤ length (transactions b))%nat →
  (∀ o, o ∈ spent_outpoints t → txid t ≠ Ok (op_txid o)) →
  block_hash (repeat_last b) = block_hash b ∧ ∃ e, validate_import_candidate n (repeat_last b) = Err e.
Proof.
  intros Hv Et Hodd Hlen Hself. unfold validate_import_candidate in *. cbn [height previous_hash repeat_last].
  assert (Hrun : ∀ s hh prev, ((apply_block b hh prev s).2;; Ok tt) = Ok tt →
    block_hash (repeat_last b) = block_hash b ∧ ∃ e, ((apply_block (repeat_last b) hh prev s).2;; Ok tt) = Err e).
  { intros s hh prev (f & Hf & _)%bind_Ok. rewrite apply_block_validate in Hf.
    destruct (repeat_last_valid _ _ _ _ _ _ _ Hf Et Hodd Hlen Hself) as (? & _ & e & He).
    split; [done|]. exists e. by rewrite apply_block_validate, He. }
  destruct (height b =? 0).
  - destruct (best_tip (n_store n)) as [tip|]; [|done]. csimpl in *.
    destruct (raise_if _ _ _) as [[]|]; [|done]. csimpl in *.
    destruct (state_init _ _ _) as [s|]; [|done]. csimpl in *. by apply Hrun.
  - destruct (reraise _ _ _ _) as [p|]; [|done]. csimpl in *. by apply Hrun.
Qed.

End node_lemmas.

(** ** Properties: the chain *)

(** A node on the sample chain with the second block still to come. *)
Definition genesis_store : ForkStore := (put_block sample_genesis empty_store).1.

Definition genesis_chain : ActiveChain :=
  ok_or (mkActive [] sample_start 0) (@fc_active_chain toy_ed25519 sample_fc genesis_store).

Lemma genesis_chain_found : @fc_active_chain toy_ed25519 sample_fc genesis_store = Ok genesis_chain.
Proof. unfold genesis_chain. apply ok_or_spec. vm_compute. reflexivity. Qed.

Definition genesis_node : Node :=
  mkNode (mkDisk genesis_store ∅ empty_index ∅) (ac_state genesis_chain) 1 sample_fc default_policy None [sample_transfer].

Lemma genesis_node_wf : @node_wf toy_ed25519 genesis_node.
Proof.
  split; [|split; [done|split; [done|]]].
  - apply validate_all_Ok; [|vm_compute; reflexivity].
    apply (bool_decide_unpack (store_wf genesis_store)). vm_compute. exact I.
  - exists genesis_chain. split; [exact genesis_chain_found|reflexivity].
Qed.

Lemma sample_second_canonical : canonical_block sample_second.
Proof. apply (bool_decide_unpack (canonical_block sample_second)). vm_compute. exact I. Qed.

Lemma sample_second_new : fs_blocks (n_store genesis_node) !! sample_second_hash = None.
Proof. vm_compute. reflexivity. Qed.

Definition imported_node : Node := (@import_block toy_ed25519 sample_second genesis_node).1.
Definition imported_block : StoredBlock :=
  ok_or (mkStored empty_block 0) (@import_block toy_ed25519 sample_second genesis_node).2.

Lemma sample_imported : @import_block toy_ed25519 sample_second genesis_node = (imported_node, Ok imported_block).
Proof. unfold imported_node, imported_block. apply run_ok_or. vm_compute. reflexivity. Qed.

(** C3: Importing keeps the node consistent whatever happens: after
    [import_block] of any decoded block, returned or raised, at whatever point,
    every stored branch still replays, the state is the replayed state of the
    best tip, and no stored block was lost or changed. *)
Theorem import_preserves_node `{Ed25519} n b :
  node_wf n → canonical_block b →
  node_wf (import_block b n).1 ∧
  (∀ h sb, get_block (n_store n) h = Ok sb → get_block (n_store (import_block b n).1) h = Ok sb).
Proof.
  intros Hn Hc. destruct (import_wf n b Hn Hc) as (Hw & Hsub & _). split; [done|]. intros h sb. by apply get_block_mono.
Qed.

Lemma import_preserves_node_witness :
  @node_wf toy_ed25519 (@import_block toy_ed25519 sample_second genesis_node).1 ∧
  (∀ h sb, get_block (n_store genesis_node) h = Ok sb →
     get_block (n_store (@import_block toy_ed25519 sample_second genesis_node).1) h = Ok sb).
Proof. exact (@import_preserves_node toy_ed25519 genesis_node sample_second genesis_node_wf sample_second_canonical). Defined.

(** C4: Fork choice.  An import of a new block that returns means that consensus
    accepted the block on the branch it extends; it is stored with that branch's
    work plus its own.  If it is then better than the old tip (more work, then
    greater height, then smaller hash), or there was none, the node's state is
    the branch's state after the block and the block is the tip; otherwise state
    and tip are as before. *)
Theorem import_fork_choice `{Ed25519} n b n' sb h :
  node_wf n → canonical_block b → import_block b n = (n', Ok sb) → block_hash b = Ok h →
  fs_blocks (n_store n) !! h = None →
  ∃ a s' fees, accepted (n_fork_choice n) (n_store n) b a s' fees ∧ sb = mkStored b (ac_work a + work_for b) ∧
    get_block (n_store n') h = Ok sb ∧
    (best_tip (n_store n) = Ok None → n_state n' = s' ∧ tip_hash n' = Ok h) ∧
    (∀ t ht, best_tip (n_store n) = Ok (Some t) → block_hash (sb_block t) = Ok ht →
       (better sb h t ht → n_state n' = s' ∧ tip_hash n' = Ok h) ∧
       (¬ better sb h t ht → n_state n' = n_state n ∧ tip_hash n' = Ok ht)).
Proof.
  intros Hn Hc E Hh Hnew. pose proof (import_wf n b Hn Hc) as (Hn' & Hsub & _). rewrite E in Hn', Hsub. cbn [fst] in Hn', Hsub.
  destruct (import_Ok_chain _ _ _ _ Hn Hc E) as (h' & st & Hh' & Hv & Hp & Hst & Hfc). assert (h' = h) as -> by congruence.
  destruct (validate_candidate_Ok _ _ _ Hn Hv) as (a & s' & fees & Ha & _).
  destruct (accepted_header _ _ _ _ _ _ Ha) as [Hd _]. pose proof Hn as ([Hwf Hall] & _). pose proof Hn' as ([Hwf' _] & _).
  subst st. destruct (put_accepted _ _ _ _ _ _ _ _ (conj Hwf Hall) Hc Hd Hp Ha) as (_ & h' & Hh2 & Hbr).
  assert (h' = h) as -> by congruence. specialize (Hbr Hnew). rewrite <- Hfc in Hbr.
  destruct (put_new_best _ _ _ _ _ Hwf Hwf' Hsub Hp Hh Hnew Hc) as (Hsb & Hg & Hnone & Hsome).
  assert (Htip : best_tip (n_store n') = Ok (Some sb) → n_state n' = s' ∧ tip_hash n' = Ok h).
  { intros Ht. rewrite <- Hsb in Hh. exact (node_state_tip n' sb h _ Hn' Ht Hh Hbr). }
  exists a, s', fees. split_and!; [done| |done|by auto|].
  - destruct sb as [b' w]. simpl in *. subst b'. f_equal.
    exact (accepted_work _ _ _ _ _ _ _ _ Hn Ha Hp Hh Hnew).
  - intros t ht Ht Hht. destruct (Hsome t ht Ht Hht) as [Hyes Hno]. split; [by auto|]. intros Hnb.
    destruct (best_tip_Some _ _ Hwf Ht) as (h2 & r & Hr & _ & Hh3 & _). assert (h2 = ht) as -> by congruence.
    destruct (proj1 (is_ok_spec _) (Hall ht (ex_intro _ r Hr))) as [a0 Ha0%fc_chain_to_tip_Ok]; [|done].
    destruct (node_state_tip n t ht a0 Hn Ht Hht Ha0) as [-> _]. apply (branch_state_mono _ _ _ _ _ Hsub) in Ha0.
    rewrite <- Hfc in Ha0. exact (node_state_tip n' t ht a0 Hn' (Hno Hnb) Hht Ha0).
Qed.

Lemma import_fork_choice_witness :
  ∃ a s' fees, @accepted toy_ed25519 (n_fork_choice genesis_node) (n_store genesis_node) sample_second a s' fees ∧
    imported_block = mkStored sample_second (ac_work a + work_for sample_second) ∧
    get_block (n_store imported_node) sample_second_hash = Ok imported_block ∧
    (best_tip (n_store genesis_node) = Ok None → n_state imported_node = s' ∧ tip_hash imported_node = Ok sample_second_hash) ∧
    (∀ t ht, best_tip (n_store genesis_node) = Ok (Some t) → block_hash (sb_block t) = Ok ht →
       (better imported_block sample_second_hash t ht →
          n_state imported_node = s' ∧ tip_hash imported_node = Ok sample_second_hash) ∧
       (¬ better imported_block sample_second_hash t ht →
          n_state imported_node = n_state genesis_node ∧ tip_hash imported_node = Ok ht)).
Proof.
  apply (@import_fork_choice toy_ed25519 genesis_node sample_second imported_node imported_block sample_second_hash).
  - apply genesis_node_wf.
  - apply sample_second_canonical.
  - apply sample_imported.
  - vm_compute. reflexivity.
  - exact sample_second_new.
Defined.

(** ** Properties: rejected blocks *)

(** C37: One forged copy blocks a valid block for good.  Let a node consider a
    block valid that has an odd number of transactions, at least three.  If the
    copy with the last transaction repeated, which has the same hash, arrives
    first, it is refused and its hash is remembered as invalid, and from then on
    the valid block itself is refused as "cached as invalid". *)
Theorem forged_copy_blocks `{Ed25519} n b h ts t :
  node_wf n → block_hash b = Ok h → is_invalid (d_invalid (n_disk n)) h = false →
  validate_import_candidate n b = Ok tt → transactions b = ts ++ [t] →
  Nat.odd (length (transactions b)) = true → (3 ≤ length (transactions b))%nat →
  (∀ o, o ∈ spent_outpoints t → txid t ≠ Ok (op_txid o)) →
  ∃ n' e, import_block (repeat_last b) n = (n', Err e) ∧
    import_block b n' =
      (n', Err (Exn ConsensusNodeError (py "block is cached as invalid: " ++ cached_reason n' h))).
Proof.
  intros Hn Hh Hi Hv Et Hodd Hlen Hself.
  destruct (validate_repeat_last n b ts t Hv Et Hodd Hlen Hself) as (Hh' & e & He). rewrite Hh in Hh'.
  eexists _, e. split; [by apply import_rejected|]. apply import_cached; [|done|apply marked_invalid].
  eapply node_wf_same; [|exact Hn]. by split_and!.
Qed.

Lemma forged_copy_blocks_witness :
  ∃ n' e, @import_block toy_ed25519 (repeat_last sample_third) genesis_node = (n', Err e) ∧
    @import_block toy_ed25519 sample_third n' =
      (n', Err (Exn ConsensusNodeError
             (py "block is cached as invalid: " ++ cached_reason n' (hash_or (block_hash sample_third))))).
Proof.
  apply (@forged_copy_blocks toy_ed25519 genesis_node sample_third (hash_or (block_hash sample_third))
           [sample_coinbase 1 65 "carol"; sample_transfer] sample_transfer2).
  - apply genesis_node_wf.
  - vm_compute. reflexivity.
  - vm_compute. reflexivity.
  - vm_compute. reflexivity.
  - vm_compute. reflexivity.
  - vm_compute. reflexivity.
  - apply Nat.leb_le. vm_compute. reflexivity.
  - apply Forall_forall.
    apply (bool_decide_unpack (Forall (λ o, txid sample_transfer2 ≠ Ok (op_txid o)) (spent_outpoints sample_transfer2))).
    vm_compute. exact I.
Defined.

(** ** Properties: the mempool after an import *)

(** C20: What an import leaves in the mempool.  After an import that returns,
    [rest] being the old mempool without the block's transactions, the mempool
    is what the prune loop makes of [rest], in its order: a transaction is kept
    exactly when it applies to the new state after those of [rest] before it and
    the policy accepts it at the number kept so far; the table holds the same.
    If the policy refuses none that applies, as a policy without minimum fees
    does whose limits the old mempool meets, the new mempool applies in order to
    the new state; [refused_parent_kept_child] shows what happens if it does. *)
Theorem import_settles_mempool `{Ed25519} n b n' sb :
  node_wf n → canonical_block b → spends (n_mempool n) → distinct (n_mempool n) → import_block b n = (n', Ok sb) →
  ∃ rest, rest `sublist_of` n_mempool n ∧
    (∀ t, t ∈ n_mempool n → (t ∈ rest ↔ Forall (λ x, txid x ≠ txid t) (transactions b))) ∧
    prunes_to (n_policy n) (n_state n') rest (n_mempool n') ∧ mempool_saved n' ∧
    (policy_passes (n_policy n) (n_state n') rest (n_mempool n') → mempool_wf n') ∧
    (flat (n_policy n) → Forall (within (n_policy n)) (n_mempool n) → zlen (n_mempool n) ≤ max_transactions (n_policy n) →
     mempool_wf n').
Proof.
  intros Hn Hc Hsp Hd E. destruct (import_mempool _ _ _ _ Hn Hc Hd E) as (ids & rest & Hids & Hr & Hpool & Hsaved & _).
  pose proof (without_txids_sublist _ _ _ Hr) as Hsub. assert (Hdr : distinct rest) by (by eapply distinct_sublist).
  assert (Hsr : spends rest) by (by eapply Forall_sublist).
  assert (Hwf : policy_passes (n_policy n) (n_state n') rest (n_mempool n') → mempool_wf n').
  { rewrite Hpool. intros Hp. by apply settled_wf with (p := n_policy n) (rest := rest). }
  exists rest. split_and!; [done| |rewrite Hpool; by apply keep_valid_prunes, distinct_NoDup|done|done|].
  - intros t Ht. by apply (settled_rest b (n_mempool n) ids).
  - intros Hf Hw Hlen. apply Hwf, flat_passes; [done..|by eapply Forall_sublist|].
    apply sublist_length in Hsub. unfold zlen in *. lia.
Qed.

Definition withinb (p : MempoolPolicy) (t : ConsensusTransaction) : bool :=
  (zlen (inputs t) <=? max_inputs p) && (zlen (outputs t) <=? max_outputs p) &&
  match serialized_size t with Ok size => size <=? max_transaction_bytes p | Err _ => false end.

Lemma withinb_spec p t : withinb p t = true → within p t.
Proof.
  unfold withinb, within. destruct (serialized_size t) as [size|] eqn:E; intros Hb; bool_prop; [|done]. split_and!; [lia..|eauto].
Qed.

Lemma import_settles_mempool_witness :
  ∃ rest, rest `sublist_of` [sample_transfer] ∧
    (∀ t, t ∈ [sample_transfer] → (t ∈ rest ↔ Forall (λ x, txid x ≠ txid t) (transactions sample_second))) ∧
    @prunes_to toy_ed25519 default_policy (n_state imported_node) rest (n_mempool imported_node) ∧ mempool_saved imported_node ∧
    (@policy_passes toy_ed25519 default_policy (n_state imported_node) rest (n_mempool imported_node) →
     @mempool_wf toy_ed25519 imported_node) ∧
    (flat default_policy → Forall (within default_policy) [sample_transfer] → zlen [sample_transfer] ≤ max_transactions default_policy →
     @mempool_wf toy_ed25519 imported_node).
Proof.
  apply (@import_settles_mempool toy_ed25519 genesis_node sample_second imported_node imported_block).
  - apply genesis_node_wf.
  - apply sample_second_canonical.
  - apply Forall_singleton. vm_compute. reflexivity.
  - apply distinctb_spec. vm_compute. reflexivity.
  - apply sample_imported.
Defined.
