(* ===== verification/Restart.v ===== *)
(** * Creating and reopening a node (utxo_node.py, [ConsensusNode.create] and [open])

    What a process finds when it starts on the databases another one left.
    [durable] is what the disk of a running node holds; it is established by
    [create], kept by imports that return or raise, at whatever point, and by
    the mempool operations, and is all [open] needs. *)

From S2P Require Import Prelude PyBytes PyText Sha256 Json Crypto ByteReader Transaction Block Utxo State BlockProcessor ForkStore ForkChoice Stores Policy Mempool Selection Mining Node.
Local Open Scope Z_scope.

(** The parameters of a running node. *)
Definition node_params (n : Node) : ChainParameters :=
  mkParams (n_difficulty n) (fc_block_subsidy (n_fork_choice n)) (fc_max_money (n_fork_choice n)).

(** The index holds the unspent outputs of the tip. *)
Definition index_current (n : Node) : Prop :=
  ∃ t h, best_tip (n_store n) = Ok (Some t) ∧ block_hash (sb_block t) = Ok h ∧
    load_snapshot (d_index (n_disk n)) h = Ok (Some (utxos (n_state n))).

(** No amount is too large for a column of the index. *)
Definition small_money (n : Node) : Prop := fc_max_money (n_fork_choice n) < 2 ^ 63.

(** The index is current or can be saved again; an import that raises may leave
    it behind. *)
Record durable `{Ed25519} (n : Node) : Prop := {
  du_wf : node_wf n;
  du_params : fs_parameters (n_store n) = Some (node_params n);
  du_difficulty : 0 ≤ n_difficulty n;
  du_tip : ∃ t h, best_tip (n_store n) = Ok (Some t) ∧ block_hash (sb_block t) = Ok h;
  du_index : index_current n ∨ small_money n;
  du_saved : mempool_saved n;
  du_distinct : distinct (n_mempool n);
  du_canonical : Forall canonical_tx (n_mempool n);
}.

(** ** Lemmas: the snapshot index *)

Lemma utxo_entries_map (m : UTXOSet) : list_to_map (utxo_entries m) = m.
Proof.
  transitivity (list_to_map (map_to_list m) : UTXOSet); [|apply list_to_map_to_list].
  apply list_to_map_proper; [apply utxo_entries_NoDup|]. apply sort_by_perm.
Qed.

Lemma save_snapshot_loads h m i i' u : save_snapshot h m i = (i', Ok u) → load_snapshot i' h = Ok (Some m).
Proof.
  unfold save_snapshot. rewrite sm_atomic_Ok. intros E. apply SM_bind_Ok in E as (i0 & s0 & [= <- <-] & E).
  apply SM_bind_Ok in E as (i1 & s1 & [-> Hi]%sm_lift_Ok & E). apply SM_bind_Ok in E as (rows & s2 & [-> Hr]%sm_lift_Ok & [= <- _]).
  pose proof (tip_snapshot_rows_Ok _ _ _ _ Hi) as (Htip & Hut & _ & Hlook). cbn [ui_active_tip ui_utxos] in Htip, Hut.
  rewrite Hut in Hr. apply insert_rows_Ok in Hr as (_ & _ & _ & ->). rewrite (right_id_L ∅ (∪)).
  set (i' := mkIndex _ _ _ _). unfold load_snapshot.
  change (load_tip_snapshot i' h) with (load_tip_snapshot i1 h). destruct (decide (m = ∅)) as [->|Hne].
  - assert (Hrows : tip_rows h (ui_snapshots i1) = []).
    { destruct (tip_rows h (ui_snapshots i1)) as [|[o x] l] eqn:E; [done|]. exfalso.
      assert (Hin : (o, x) ∈ tip_rows h (ui_snapshots i1)) by (rewrite E; left).
      apply elem_of_tip_rows in Hin. rewrite Hlook, decide_True, lookup_empty in Hin by done. done. }
    rewrite load_tip_snapshot_Ok, Hrows. cbn [bool_decide mbind result_bind]. unfold i'. cbn [ui_active_tip ui_utxos].
    rewrite Htip, !bool_decide_eq_true_2, utxo_entries_map, map_to_list_empty by done. done.
  - by rewrite (load_saved _ _ _ _ Hi Hne).
Qed.

Lemma load_same i i' h : ui_active_tip i' = ui_active_tip i → ui_utxos i' = ui_utxos i → ui_snapshots i' = ui_snapshots i →
  load_snapshot i' h = load_snapshot i h.
Proof. unfold load_snapshot, load_tip_snapshot. by intros -> -> ->. Qed.

Lemma load_snapshot_total i h : ∃ r, load_snapshot i h = Ok r.
Proof.
  unfold load_snapshot. rewrite load_tip_snapshot_Ok. csimpl. destruct (bool_decide (tip_rows h _ = [])); [|eauto].
  case_bool_decide; [|eauto]. rewrite utxo_init_NoDup; [csimpl; eauto|]. rewrite sort_by_perm. apply NoDup_fst_map_to_list.
Qed.

(** Outputs that fit the columns are saved. *)
Lemma save_snapshot_ok h m i : map_Forall (λ o x, bind_utxo o x = Ok tt) m → ∃ i', save_snapshot h m i = (i', Ok tt).
Proof.
  intros Hb. set (i0 := mkIndex (Some h) ∅ (ui_snapshots i) (ui_spent i)).
  destruct (tip_snapshot_rows_ok i0 h m Hb) as [i1 E].
  assert (∃ r, insert_rows bind_utxo (ui_utxos i1) (utxo_entries m) = Ok r) as [r Hr].
  { pose proof (tip_snapshot_rows_Ok _ _ _ _ E) as (_ & -> & _). eexists. apply insert_rows_Ok.
    split_and!; [unfold utxo_entries; rewrite sort_by_perm; apply NoDup_fst_map_to_list|intros k _; apply lookup_empty| |done].
    apply Forall_forall. intros [o x] Hx%elem_of_utxo_entries. by apply Hb. }
  eexists. unfold save_snapshot, sm_atomic, sm_get, sm_lift, sm_put, mbind, SM_bind. fold i0. rewrite E. by rewrite Hr.
Qed.

Section restart.
Context `{ED : Ed25519}.

(** The index after an import that returned. *)
Lemma index_import_loads stored active t ht n n' u : ac_tip active = Some t → block_hash t = Ok ht →
  index_import stored active n = (n', Ok u) → load_snapshot (d_index (n_disk n')) ht = Ok (Some (utxos (n_state n))).
Proof.
  intros Ht Hht E. unfold index_import in E. rewrite bind_get_run in E.
  apply SM_bind_Ok in E as (h & s1 & [-> _]%sm_lift_Ok & E). apply SM_bind_Ok in E as (imported & s2 & [-> _]%sm_lift_Ok & E).
  apply SM_bind_Ok in E as (u1 & n1 & E1 & E). apply SM_bind_Ok in E as (u2 & n2 & E2 & E). rewrite Ht in E.
  apply SM_bind_Ok in E as (h2 & s3 & [-> Hh2]%sm_lift_Ok & E). assert (h2 = ht) as -> by congruence.
  apply SM_bind_Ok in E as (u3 & n3 & E3 & E4).
  apply sm_zoom_Ok in E3 as (d3 & (i3 & E3 & ->)%sm_zoom_Ok & ->).
  apply sm_zoom_Ok in E4 as (d4 & (i4 & E4 & ->)%sm_zoom_Ok & ->).
  apply save_snapshot_loads in E3. apply save_tip_spends_Ok in E4 as (spends & _ & _ & Ha & Hu & Hs & _).
  cbn [n_disk with_disk d_index with_index] in *. by rewrite (load_same _ _ _ Ha Hu Hs).
Qed.

(** ** Lemmas: output indexes *)

(** Every outpoint's index is below the money limit: outputs are positive, so a
    transaction has no more of them than there is money. *)
Definition outputs_bounded (s : ConsensusState) : Prop := map_Forall (λ o _, op_index o < max_money s) (utxos s).

Lemma size_le_total (m : UTXOSet) : map_Forall (λ _ x, 0 < amount x) m → Z.of_nat (size m) ≤ utxo_total m.
Proof.
  induction m as [|o x m Ho IH] using map_ind; intros Hm; [by rewrite map_size_empty, utxo_total_empty|].
  rewrite map_size_insert_None, utxo_total_insert by done. apply map_Forall_insert in Hm as [Hx Hm]; [|done].
  specialize (IH Hm). lia.
Qed.

Lemma created_below h outs (m : UTXOSet) o x : list_to_map (created h 0 outs) ⊆ m → map_Forall (λ _ x, 0 < amount x) m →
  (o, x) ∈ created h 0 outs → op_index o < utxo_total m.
Proof.
  intros Hsub Hm ([j y] & E & Hj)%list_elem_of_fmap. cbn in E. simplify_eq. apply elem_of_enumerate in Hj as (k & Hk & ->).
  apply lookup_lt_Some in Hk. pose proof (size_le_total m Hm) as Hs. apply map_subseteq_size in Hsub.
  rewrite <- length_map_to_list, map_to_list_to_map in Hsub by apply created_NoDup.
  unfold created in Hsub. rewrite length_fmap in Hsub. cbn. pose proof (enumerate_length 0 outs). lia.
Qed.

Lemma commits_bounded s t s' : outputs_bounded s → state_wf s' → tx_commits s t s' → outputs_bounded s'.
Proof.
  intros Hi (_ & _ & Htot & Hall) (h & Hh & _ & _ & ->) o x Ho. cbn [utxos with_utxos max_money] in *.
  pose proof Ho as Ho'. unfold tx_effect in Ho. apply lookup_union_Some_raw in Ho as [Ho|[_ Ho]].
  - apply (Z.lt_le_trans _ (utxo_total (tx_effect h t (utxos s)))); [|done].
    apply (created_below h (outputs t) _ o x).
    + unfold tx_effect. apply map_union_subseteq_l.
    + intros p y Hy. by destruct (Hall p y Hy) as [[[? _] _] _].
    + by apply elem_of_list_to_map_2.
  - apply map_lookup_filter_Some in Ho as [Ho _]. exact (Hi o x Ho).
Qed.

Lemma steps_bounded s ts f s' : outputs_bounded s → state_wf s → tx_steps s ts f s' → outputs_bounded s'.
Proof.
  intros Hi Hw Hst. induction Hst as [|s t fee s1 ts fees s2 Hv Hc _ IH]; [done|].
  assert (Hw1 : state_wf s1) by (apply (tx_steps_wf s [t] (fee + 0) s1 Hw); by econstructor; [..|constructor]).
  by apply IH; [eapply commits_bounded|].
Qed.

Lemma chain_bounded s h prev bs s' : outputs_bounded s → state_wf s → chain_steps s h prev bs s' → outputs_bounded s'.
Proof.
  intros Hi Hw Hst. induction Hst as [|s h prev b fees s1 hash bs s2 Hb _ _ IH]; [done|].
  pose proof (block_step_wf _ _ _ _ _ _ Hw Hb) as Hw1. apply IH; [|done].
  destruct Hb as (_ & cb & ts & s0 & _ & _ & Hts & _ & _ & _ & Hcb).
  eapply commits_bounded; [|exact Hw1|exact Hcb]. by eapply steps_bounded.
Qed.

Lemma node_outputs_bounded n : node_wf n → outputs_bounded (n_state n).
Proof.
  intros (Hv & Hs & Hm & a & Ha & ->). destruct (fc_active_chain_valid _ _ Hv Hs Hm) as (a' & Ha' & Hr & _).
  assert (a' = a) as -> by congruence. apply rebuild_Ok in Hr as (_ & _ & Hst).
  eapply chain_bounded; [|by apply empty_state_wf|exact Hst]. intros o x. cbn. by rewrite lookup_empty.
Qed.

(** Below SQLite's bound on integers the state can be saved. *)
Lemma node_state_binds n : node_wf n → small_money n → map_Forall (λ o x, bind_utxo o x = Ok tt) (utxos (n_state n)).
Proof.
  intros Hn Hsm o x Ho. destruct (node_state_params n Hn) as ((_ & _ & _ & Hall) & _ & Hm).
  pose proof (node_outputs_bounded n Hn o x Ho) as Hi. cbn in Hi. destruct (Hall o x Ho) as [[Ha _] Hz]. unfold small_money in Hsm.
  rewrite Hm in *. apply bind_utxo_Ok. lia.
Qed.

(** ** Lemmas: what keeps the disk durable *)

Lemma put_block_params b st : fs_parameters (put_block b st).1 = fs_parameters st.
Proof. unfold put_block, sm_get, sm_lift, sm_put, mret, SM_ret, mbind, SM_bind. repeat (case_match; simplify_eq; try done). Qed.

Lemma node_tip_some n h : node_wf n → is_Some (fs_blocks (n_store n) !! h) → ∃ t ht, best_tip (n_store n) = Ok (Some t) ∧
  block_hash (sb_block t) = Ok ht ∧ ∀ a, fc_active_chain (n_fork_choice n) (n_store n) = Ok a → ac_tip a = Some (sb_block t).
Proof.
  intros (Hv & Hs & Hm & _) [r Hr]. destruct (fc_active_chain_valid _ _ Hv Hs Hm) as (a & Ha & _ & [(Hnone & _)|(t & ht & Ht & Hht & Hat & _)]).
  - apply best_tip_None in Hnone. by rewrite Hnone, lookup_empty in Hr.
  - exists t, ht. split_and!; [done|done|]. intros a' Ha'. congruence.
Qed.

Lemma without_canonical hs ts kept : Forall canonical_tx ts → without_txids hs ts = Ok kept → Forall canonical_tx kept.
Proof. intros Hc Hk%without_txids_sublist. by eapply Forall_sublist. Qed.

Lemma import_Ok_durable n b n' sb : durable n → canonical_block b → import_block b n = (n', Ok sb) → durable n' ∧ index_current n'.
Proof.
  intros [Hn Hp Hd _ _ Hsv Hdis Hcan] Hc E. pose proof (import_wf n b Hn Hc) as (Hn' & _ & Hfc' & Hdf). rewrite E in Hn', Hfc', Hdf. cbn [fst] in *.
  destruct (import_mempool _ _ _ _ Hn Hc Hdis E) as (ids & kept & _ & Hk & Hpool & Hsaved & _).
  destruct (keep_valid_sublist (n_policy n) (n_state n') [] kept) as (l & El & Hl). simpl in El. rewrite El in Hpool.
  assert (Hlm : l `sublist_of` n_mempool n) by (etransitivity; [exact Hl|by eapply without_txids_sublist]).
  destruct (import_Ok_steps _ _ _ _ Hn Hc E) as (h & st & a & n2 & Hh & _ & Hput & Ha & Hst & Hfc & Hst2 & _ & Ef).
  pose proof (keeps_finish b sb a n2) as (Es & _ & Est & _). rewrite Ef in Es, Est. cbn [fst] in Es, Est.
  assert (Hblk : is_Some (fs_blocks (n_store n') !! h)).
  { rewrite Es, Hst. apply put_block_Ok in Hput as (h' & Hh' & [(Hx & -> & _)|(_ & w & p & _ & _ & _ & _ & ->)]);
      assert (h' = h) as -> by congruence; [done|]. cbn [fs_blocks]. rewrite lookup_insert_eq. eauto. }
  destruct (node_tip_some _ _ Hn' Hblk) as (t & ht & Ht & Hht & Htip).
  enough (Hcur : index_current n').
  { split; [|done]. split; [done| |by rewrite Hdf|by exists t, ht|by left|done|by rewrite Hpool; eapply distinct_sublist|by rewrite Hpool; eapply Forall_sublist].
    rewrite Es, Hst. replace st with (put_block b (n_store n)).1 by (by rewrite Hput). rewrite put_block_params, Hp.
    unfold node_params. by rewrite Hfc', Hdf. }
  exists t, ht. split; [done|]. split; [done|]. unfold finish_import in Ef.
  apply SM_bind_Ok in Ef as (u & n3 & Ei & Ef). apply SM_bind_Ok in Ef as (u2 & n4 & Et & Ef). injection Ef as <-.
  assert (Hat : ac_tip a = Some (sb_block t)) by (apply Htip; rewrite Hfc', Es, Hst; exact Ha).
  pose proof (index_import_loads _ _ _ _ _ _ _ Hat Hht Ei) as Hload.
  assert (Hd4 : d_index (n_disk n4) = d_index (n_disk n3)); [|by rewrite Hd4, Hload, Est].
  unfold settle_mempool in Et. rewrite bind_get_run in Et.
  apply SM_bind_Ok in Et as (inc & s1 & [-> _]%sm_lift_Ok & Et). apply SM_bind_Ok in Et as (k & s2 & [-> _]%sm_lift_Ok & Et).
  apply SM_bind_Ok in Et as (u3 & s3 & [= <-] & Et). apply SM_bind_Ok in Et as (u4 & s4 & Epr & Et).
  rewrite bind_get_run in Et. apply sm_zoom_Ok in Et as (d' & (m & _ & ->)%sm_zoom_Ok & ->). cbn.
  unfold prune_invalid_mempool in Epr. rewrite bind_get_run in Epr. apply SM_bind_Ok in Epr as (c & s5 & [-> _]%sm_lift_Ok & [= <- _]). done.
Qed.

(** The mempool and its table are replaced together. *)
Lemma with_pool_durable n ts rows : durable n → distinct ts → Forall canonical_tx ts → mapR mempool_row ts = Ok rows →
  durable (with_disk (with_mempool_store (list_to_map rows) (n_disk n)) (with_mempool ts n)).
Proof. intros [Hn Hp Hd Ht Hi Hsv _ _] Hdis Hc Hr. split; try done. by exists rows. Qed.

(** A refused block only marks the cache. *)
Lemma cache_durable n c : durable n → durable (with_disk (with_invalid c (n_disk n)) n).
Proof. intros [Hn Hp Hd Ht Hi Hsv Hdis Hcan]. by split. Qed.

Lemma refused_durable n b e : durable n → validate_import_candidate n b = Err e → durable (import_block b n).1.
Proof.
  intros Hn He. pose proof (du_wf n Hn) as Hwf. destruct (import_cases n b Hwf) as [(e' & ->)|[(h & e' & _ & ->)|(h & old & st & sb & _ & _ & _ & Hv & _)]].
  - done.
  - by apply cache_durable.
  - congruence.
Qed.

(** Updates of the index alone. *)
Definition index_only (n n' : Node) : Prop := ∃ i, n' = with_disk (with_index i (n_disk n)) n.

#[local] Instance index_only_preorder : PreOrder index_only.
Proof.
  split; [intros n; exists (d_index (n_disk n)); by destruct n as [[] ? ? ? ? ? ?]|].
  intros n1 n2 n3 [i ->] [j ->]. by exists j.
Qed.

Lemma keeps_index_only {A} (m : SM UTXOIndex A) : keeps index_only (on_index m).
Proof. intros n. by eexists. Qed.

#[local] Hint Resolve keeps_index_only : bcc.

Lemma index_import_only stored active : keeps index_only (index_import stored active).
Proof. unfold index_import. apply keeps_bind; [apply _|auto with bcc|]. intros n. destruct (ac_tip active); auto 20 with bcc. Qed.

Lemma index_durable n n' : durable n → small_money n → index_only n n' → durable n'.
Proof. intros [Hn Hp Hd Ht _ Hsv Hdis Hcan] Hs [i ->]. split; try done. by right. Qed.

(** The end of an import either raises before it touches the mempool or replaces
    it and its table. *)
Lemma settle_durable b n : durable n → durable (settle_mempool b n).1.
Proof.
  intros Hn. destruct (node_state_params _ (du_wf n Hn)) as ((Hs & Hm & _) & _).
  unfold settle_mempool, sm_get, sm_lift, sm_put, mbind, SM_bind.
  destruct (mapR txid (transactions b)) as [ids|]; [|done].
  destruct (without_txids ids (n_mempool n)) as [kept|] eqn:Hk; [|done].
  rewrite (prune_invalid_Ok (with_mempool kept n)) by done. cbn [n_mempool with_mempool n_policy n_state].
  destruct (keep_valid_sublist (n_policy n) (n_state n) [] kept) as (l & El & Hl). simpl in El. rewrite El.
  assert (Hsub : l `sublist_of` n_mempool n) by (etransitivity; [exact Hl|by eapply without_txids_sublist]).
  assert (Hd : distinct l) by (eapply distinct_sublist; [exact Hsub|by destruct Hn]).
  destruct (replace_all_ok l (d_mempool (n_disk n)) Hd) as (rows & Hr & Er).
  unfold on_mempool_store, sm_zoom. cbn [n_disk with_mempool]. rewrite Er. cbn [fst snd].
  apply (with_pool_durable n l rows); [done..| |done]. eapply Forall_sublist; [exact Hsub|]. by destruct Hn.
Qed.

Lemma finish_durable b sb a n : durable n → small_money n → durable (finish_import b sb a n).1.
Proof.
  intros Hn Hs. unfold finish_import, mbind, SM_bind, mret, SM_ret.
  pose proof (index_durable _ _ Hn Hs (index_import_only sb a n)) as Hd.
  destruct (index_import sb a n) as [n1 [u|]]; [|done]. cbn [fst] in Hd.
  pose proof (settle_durable b n1 Hd) as Hd'. by destruct (settle_mempool b n1) as [n2 [u2|]].
Qed.

(** A stored block, before the index. *)
Lemma activated_durable n b st sb a r : durable n → small_money n → canonical_block b →
  validate_import_candidate n b = Ok tt → put_block b (n_store n) = (st, Ok sb) →
  fc_active_chain (n_fork_choice n) st = Ok a →
  durable (with_state (ac_state a) (with_disk (with_store st (n_disk n)) n)) ∧
  durable (with_reorg r (with_state (ac_state a) (with_disk (with_store st (n_disk n)) n))).
Proof.
  intros [Hn Hp Hd _ _ Hsv Hdis Hcan] Hs Hc Hv Hput Ha. destruct (stored_accepted _ _ _ _ Hn Hc Hv Hput) as [Hvalid _].
  destruct Hn as (_ & Hs0 & Hm0 & _).
  assert (Hpar : fs_parameters st = Some (node_params n)).
  { replace st with (put_block b (n_store n)).1 by (by rewrite Hput). by rewrite put_block_params. }
  assert (Hblk : ∃ h, is_Some (fs_blocks st !! h)).
  { apply put_block_Ok in Hput as (h & Hh & [(Hx & -> & _)|(_ & w & p & _ & _ & _ & _ & ->)]); exists h; [done|].
    cbn [fs_blocks]. rewrite lookup_insert_eq. eauto. }
  destruct Hblk as [h Hblk]. assert (Hwf : node_wf (with_state (ac_state a) (with_disk (with_store st (n_disk n)) n))).
  { split; [exact Hvalid|]. split; [done|]. split; [done|]. by exists a. }
  destruct (node_tip_some _ h Hwf Hblk) as (t & ht & Ht & Hht & _).
  split; split; try done; first [by exists t, ht|by right].
Qed.

(** Whatever becomes of an import, the next process can go on. *)
Lemma import_durable n b : durable n → canonical_block b → small_money n → durable (import_block b n).1.
Proof.
  intros Hn Hc Hs. pose proof (du_wf n Hn) as Hwf.
  destruct (import_cases n b Hwf) as [(e & ->)|[(h & e & _ & ->)|(h & old & st & sb & _ & _ & _ & Hv & Hp & ->)]].
  - done.
  - by apply cache_durable.
  - destruct (stored_accepted _ _ _ _ Hwf Hc Hv Hp) as [Hvalid _]. pose proof Hwf as (_ & Hs0 & Hm0 & _).
    destruct (fc_active_chain_valid (n_fork_choice n) st Hvalid Hs0 Hm0) as (a & Ha & _).
    unfold mbind, SM_bind. destruct (activate_cases (with_disk (with_store st (n_disk n)) n) (sb_block <$> old) a Ha) as [(e & _ & ->)|(r & _ & ->)].
    + by destruct (activated_durable n b st sb a None Hn Hs Hc Hv Hp Ha).
    + destruct (activated_durable n b st sb a r Hn Hs Hc Hv Hp Ha) as [_ Hd]. by apply finish_durable.
Qed.

Lemma submit_durable n t : durable n → canonical_tx t → durable (submit_transaction t n).1.
Proof.
  intros Hn Ht. destruct (submit_cases n t (du_distinct n Hn)) as [(e & _ & ->)|(kept & h & rows & Ha & _ & Hr & ->)]; [done|].
  destruct (admission_Ok _ _ _ (du_distinct n Hn) Ha) as (h' & fee & _ & _ & Hsub & Hdis & _).
  apply with_pool_durable; [done..| |done]. apply Forall_app. split; [|by apply Forall_singleton].
  eapply Forall_sublist; [exact Hsub|]. by destruct Hn.
Qed.

Lemma prune_durable n : durable n → durable (prune_mempool n).1.
Proof.
  intros Hn. destruct (node_state_params _ (du_wf n Hn)) as ((Hs & Hm & _) & _).
  destruct (keep_valid_sublist (n_policy n) (n_state n) [] (n_mempool n)) as (kept & Ek & Hsub). simpl in Ek.
  assert (Hdk : distinct kept) by (eapply distinct_sublist; [exact Hsub|by destruct Hn]).
  destruct (replace_all_ok kept (d_mempool (n_disk n)) Hdk) as (rows & Hr & Er).
  unfold prune_mempool. rewrite bind_get_run, (sm_bind_run _ _ _ _ _ (prune_invalid_Ok n Hs Hm)), bind_get_run, Ek.
  rewrite (sm_bind_run _ _ _ (with_disk (with_mempool_store (list_to_map rows) (n_disk n)) (with_mempool kept n)) tt).
  - apply with_pool_durable; [done..| |done]. eapply Forall_sublist; [exact Hsub|]. by destruct Hn.
  - unfold on_mempool_store, sm_zoom. cbn. by rewrite Er.
Qed.

Lemma clear_durable n : durable n → durable (clear_mempool n).1.
Proof. intros Hn. apply (with_pool_durable n [] []); [done| |done..]. by exists []; split; [|constructor]. Qed.

Lemma submit_params n t : durable n → node_params (submit_transaction t n).1 = node_params n.
Proof.
  intros Hn. by destruct (submit_cases n t (du_distinct n Hn)) as [(e & _ & ->)|(kept & h & rows & _ & _ & _ & ->)].
Qed.

Lemma import_params n b : node_wf n → canonical_block b → node_params (import_block b n).1 = node_params n.
Proof. intros Hn Hc. destruct (import_wf n b Hn Hc) as (_ & _ & Hfc & Hdf). unfold node_params. by rewrite Hfc, Hdf. Qed.

(** ** Lemmas: opening *)

Lemma distinct_rows ts rows : distinct ts → mapR mempool_row ts = Ok rows → NoDup rows.*1.
Proof. intros (ids & Hids & Hn) Hr%row_keys. assert (ids = rows.*1) as <- by congruence. done. Qed.

(** The mempool that [open] finds in a table. *)
Lemma load_mempool_saved s p ts rows : 0 ≤ block_subsidy s → 0 < max_money s → Forall canonical_tx ts →
  mapR mempool_row ts = Ok rows → NoDup rows.*1 → ∃ ts' kept rows',
    load_mempool s p (list_to_map rows) = (list_to_map rows', Ok kept) ∧ ts' ≡ₚ ts ∧ kept `sublist_of` ts' ∧
    kept = keep_valid p s [] ts' ∧ mapR mempool_row kept = Ok rows' ∧ distinct kept.
Proof.
  intros Hs Hm Hc Hr Hn. destruct (saved_mempool_reads _ _ Hc Hr Hn) as (ts' & ids & Hts & Hp & Hids & _).
  destruct (keep_valid_sublist p s [] ts') as (kept & Ek & Hsub). simpl in Ek.
  assert (Hdis : distinct ts').
  { exists ids. split; [done|]. destruct (mapR_perm _ _ _ _ (symmetry Hp) (row_keys _ _ Hr)) as (ids' & Hids' & Hpp).
    assert (ids' = ids) as <- by congruence. by rewrite Hpp. }
  assert (Hdk : distinct kept) by (by eapply distinct_sublist).
  unfold load_mempool. rewrite (proj2 (copy_state_Ok s s)) by done. rewrite !bind_lift_run, bind_get_run, Hts, bind_lift_run, Ek.
  destruct (replace_all_ok kept (list_to_map rows) Hdk) as (rows' & Hr' & Er'). exists ts', kept, rows'.
  split; [|by rewrite Ek].
  destruct (Z.eqb_spec (zlen kept) (mempool_count (list_to_map rows))) as [Hl|_].
  - assert (Hk : kept ≡ₚ ts).
    { rewrite <- Hp. apply submseteq_length_Permutation; [by apply sublist_submseteq|].
      rewrite (Permutation_length Hp), (mapR_length _ _ _ Hr). unfold mempool_count, zlen in Hl.
      rewrite <- (length_map_to_list (list_to_map rows)), map_to_list_to_map in Hl by done. lia. }
    destruct (mapR_perm _ _ _ _ (symmetry Hk) Hr) as (rows2 & Hr2 & Hpr). assert (rows2 = rows') as -> by congruence.
    cbn. by rewrite (list_to_map_proper rows rows').
  - unfold mbind at 1, SM_bind. by rewrite Er'.
Qed.

(** The check of the stored parameters, when the store has some. *)
Lemma require_parameters d p q : fs_parameters (d_store d) = Some p →
  disk_store (require_chain_parameters q) d =
    (d, if bool_decide (p = q) then Ok tt else raise StorageError "chain parameters do not match stored chain").
Proof.
  intros Hp. unfold disk_store, sm_zoom, require_chain_parameters. rewrite bind_get_run. unfold load_chain_parameters. rewrite Hp.
  unfold sm_lift. destruct d as [[] ? ? ?]. cbn.
  f_equal. unfold raise_if. rewrite bool_decide_not. by case_bool_decide.
Qed.

(** The databases of [n'] as [open] leaves them, compared with those of [n]: an
    index that an import left behind is made current. *)
Definition reopened (n n' : Node) : Prop :=
  n_store n' = n_store n ∧ n_state n' = n_state n ∧ n_difficulty n' = n_difficulty n ∧ n_fork_choice n' = n_fork_choice n ∧
  index_current n' ∧ (index_current n → d_index (n_disk n') = d_index (n_disk n)) ∧
  d_invalid (n_disk n') = d_invalid (n_disk n) ∧
  ∃ ts, ts ≡ₚ n_mempool n ∧ n_mempool n' = keep_valid default_policy (n_state n) [] ts.

Lemma utxo_entries_inj (m m' : UTXOSet) : utxo_entries m = utxo_entries m' → m = m'.
Proof. intros E. by rewrite <- (utxo_entries_map m), E, utxo_entries_map. Qed.

Lemma with_index_same d : with_index (d_index d) d = d.
Proof. by destruct d. Qed.

Lemma open_state_restores n a : durable n → fc_active_chain (n_fork_choice n) (n_store n) = Ok a →
  ∃ i, open_state (n_fork_choice n) a (n_disk n) = (with_index i (n_disk n), Ok (n_state n)) ∧
    index_current (with_disk (with_index i (n_disk n)) n) ∧ (index_current n → i = d_index (n_disk n)).
Proof.
  intros [Hn _ _ (t & h & Ht & Hh) Hi _ _ _] Ha. destruct (node_state_params _ Hn) as ((Hs0 & Hm0 & _) & Hs & Hm).
  pose proof Hn as (Hv & Hs1 & Hm1 & a' & Ha' & Hst). assert (a' = a) as -> by congruence.
  destruct (fc_active_chain_valid _ _ Hv Hs1 Hm1) as (a' & Ha2 & _ & [(Hnone & _)|(t' & h' & Ht' & _ & Hat & _)]); [congruence|].
  assert (a' = a) as -> by congruence. assert (t' = t) as -> by congruence.
  assert (Hcur : ∀ i, load_snapshot i h = Ok (Some (utxos (n_state n))) → index_current (with_disk (with_index i (n_disk n)) n))
    by (intros i Hl; by exists t, h).
  destruct (load_snapshot_total (d_index (n_disk n)) h) as [r Hr].
  unfold open_state. rewrite bind_get_run, Hat, bind_lift_run, Hh, bind_lift_run, Hr, <- Hst.
  destruct (decide (r = Some (utxos (n_state n)))) as [->|Hne].
  - rewrite bool_decide_eq_true_2 by done. exists (d_index (n_disk n)). split; [|by auto].
    rewrite with_index_same. unfold sm_lift. f_equal. rewrite <- Hs, <- Hm. by apply state_init_copy.
  - assert (Hno : ¬ index_current n) by (intros (t2 & h2 & Ht2 & Hh2 & Hl); apply Hne; congruence).
    destruct Hi as [|Hsm]; [done|]. destruct (save_snapshot_ok h _ (d_index (n_disk n)) (node_state_binds n Hn Hsm)) as [i Es].
    exists i. split; [|split; [by eapply Hcur, save_snapshot_loads|done]].
    assert (Erun : (disk_index (save_snapshot h (utxos (n_state n)));; mret (n_state n)) (n_disk n) = (with_index i (n_disk n), Ok (n_state n))).
    { unfold disk_index, sm_zoom, mbind, SM_bind. by rewrite Es. }
    destruct r as [m|]; [|exact Erun]. rewrite bool_decide_eq_false_2; [exact Erun|].
    intros Em%utxo_entries_inj. by subst m.
Qed.

Lemma reopen_durable n : durable n →
  ∃ n', node_open (n_difficulty n) (fc_block_subsidy (n_fork_choice n)) (fc_max_money (n_fork_choice n)) (n_disk n) = (n_disk n', Ok n') ∧
    reopened n n' ∧ durable n'.
Proof.
  intros Hd. pose proof Hd as [Hn Hp Hdif Ht Hi (rows & Hr & Hm) Hdis Hcan].
  destruct (node_state_params _ Hn) as ((Hs0 & Hm0 & _) & Hs & Hmx). pose proof Hn as (Hv & Hs1 & Hm1 & a & Ha & Hst).
  destruct (load_mempool_saved (n_state n) default_policy (n_mempool n) rows) as (ts & kept & rows' & El & Hperm & Hsub & Hk & Hr' & Hdk);
    [done..|by eapply distinct_rows|]. destruct (open_state_restores n a Hd Ha) as (i & Eo & Hcur & Hsame).
  set (d' := with_mempool_store (list_to_map rows') (with_index i (n_disk n))).
  set (n' := mkNode d' (n_state n) (n_difficulty n) (n_fork_choice n) default_policy None kept).
  assert (Hnode : node_init (n_state n) (n_difficulty n) (n_fork_choice n) (with_index i (n_disk n)) = (d', Ok n')).
  { unfold node_init. rewrite bind_lift_run, (proj2 (Z.ltb_ge _ _)) by done. unfold disk_mempool, sm_zoom.
    unfold mbind at 1, SM_bind. cbn [d_mempool with_index]. rewrite Hm, El. done. }
  exists n'. split; [|split].
  - unfold node_open, open_chain. cbv zeta. replace (mkForkChoice _ _) with (n_fork_choice n) by (by destruct (n_fork_choice n)).
    rewrite (sm_bind_run _ _ _ (with_index i (n_disk n)) (n_state n)); [exact Hnode|]. apply sm_try_run.
    rewrite (sm_bind_run _ _ _ (n_disk n) tt); [|by rewrite (require_parameters _ _ _ Hp), bool_decide_eq_true_2].
    rewrite bind_get_run, bind_lift_run. fold (n_store n). rewrite Ha, bind_lift_run.
    by rewrite (proj2 (validate_all_Ok _ _ (proj1 Hv)) Hv).
  - split_and!; try done. by exists ts.
  - split; try done; [by left|by exists rows'|]. eapply Forall_sublist; [exact Hsub|]. by rewrite Hperm.
Qed.

(** ** Lemmas: creating *)

Lemma zero_hash_text : hash_text ZERO_HASH.
Proof. apply (bool_decide_unpack (hash_text ZERO_HASH)). vm_compute. exact I. Qed.

Lemma genesis_canonical fuel allocations difficulty now b : 0 ≤ now < 2 ^ 64 →
  build_genesis_block fuel allocations difficulty now = Ok b → canonical_block b ∧ height b = 0.
Proof.
  intros Hnow E. unfold build_genesis_block in E. apply raise_if_bind in E as [_ E]. apply raise_if_bind in E as [_ E].
  apply bind_Ok in E as (acc & _ & E). apply raise_if_bind in E as [_ E]. apply bind_Ok in E as (b0 & Hb & E).
  unfold make_block in Hb. apply bind_Ok in Hb as (root & Hroot & [= <-]).
  apply mine_Ok in E as (m & _ & -> & _); [|exact Hroot]. split; [|done].
  unfold canonical_block, with_nonce. cbn [previous_hash transaction_root timestamp transactions].
  split_and!; [apply zero_hash_text|by eapply root_hash_text|lia..|].
  apply Forall_singleton, Forall_singleton. split; [apply zero_hash_text|done].
Qed.

Lemma empty_store_valid fc st : fs_blocks st = ∅ → store_valid fc st.
Proof.
  intros E. split; [unfold store_wf; rewrite E; apply map_Forall_empty|]. intros h [r Hr]. by rewrite E, lookup_empty in Hr.
Qed.

Lemma load_mempool_empty s p : 0 ≤ block_subsidy s → 0 < max_money s → load_mempool s p ∅ = (∅, Ok []).
Proof. intros Hs Hm. unfold load_mempool. by rewrite (proj2 (copy_state_Ok s s)). Qed.

(** The chain of a store that holds the genesis block alone. *)
Lemma first_block_stored fc st st' b s' fees sb h : fs_blocks st = ∅ → canonical_block b → height b = 0 →
  apply_block b 0 ZERO_HASH (mkState ∅ (fc_block_subsidy fc) (fc_max_money fc)) = (s', Ok fees) →
  put_block b st = (st', Ok sb) → block_hash b = Ok h →
  store_valid fc st' ∧ best_tip st' = Ok (Some sb) ∧ sb_block sb = b ∧ ∃ a, fc_active_chain fc st' = Ok a ∧ ac_state a = s'.
Proof.
  intros Hempty Hcan H0 Hap Hput Hh. pose proof (empty_store_valid fc st Hempty) as Hv.
  assert (Ha : accepted fc st b (mkActive [] (mkState ∅ (fc_block_subsidy fc) (fc_max_money fc)) 0) s' fees)
    by (right; split; [exact H0|]; split; [reflexivity|exact Hap]).
  pose proof (proj1 (accepted_header _ _ _ _ _ _ Ha)) as Hd.
  assert (Hnew : fs_blocks st !! h = None) by (by rewrite Hempty).
  destruct (put_accepted _ _ _ _ _ _ _ _ Hv Hcan Hd Hput Ha) as (Hv' & h' & Hh' & Hbr). assert (h' = h) as -> by congruence.
  specialize (Hbr Hnew). assert (Hsub : fs_blocks st ⊆ fs_blocks st') by (rewrite Hempty; apply map_empty_subseteq).
  destruct (put_new_best _ _ _ _ _ (proj1 Hv) (proj1 Hv') Hsub Hput Hh Hnew Hcan) as (Hsb & _ & Htip & _).
  split; [done|]. rewrite <- Hsb in Hh. specialize (Htip (proj2 (best_tip_None _) Hempty)). split; [done|]. split; [done|].
  rewrite (fc_active_chain_Some _ _ _ _ (proj1 Hv') Htip Hh). eexists.
  split; [apply fc_chain_to_tip_Ok; [apply Hv'|exact Hbr]|reflexivity].
Qed.

Lemma create_durable fuel allocations difficulty subsidy max now d d' n : 0 ≤ now < 2 ^ 64 →
  node_create fuel allocations difficulty subsidy max now d = (d', Ok n) →
  d' = n_disk n ∧ durable n ∧ n_fork_choice n = mkForkChoice subsidy max ∧ n_difficulty n = difficulty ∧ n_mempool n = [].
Proof.
  intros Hnow E. unfold node_create in E. apply SM_bind_Ok in E as (uc & dc & E & Ec).
  unfold create_chain in E. rewrite bind_get_run in E. apply SM_bind_Ok in E as (tip & d0 & [-> Htip]%sm_lift_Ok & E).
  apply SM_bind_Ok in E as (u0 & d0' & [-> Hno]%sm_lift_Ok & E).
  assert (Hempty : fs_blocks (d_store d) = ∅).
  { apply best_tip_None. destruct tip; [|done]. unfold raise_if in Hno. by rewrite bool_decide_eq_true_2 in Hno. }
  apply SM_bind_Ok in E as (u1 & d1 & (st1 & Hst1 & ->)%sm_zoom_Ok & E).
  unfold save_chain_parameters in Hst1. rewrite bind_get_run in Hst1. apply SM_bind_Ok in Hst1 as (cid & st0 & [-> _]%sm_lift_Ok & [= <- _]).
  rewrite Hempty in E. apply SM_bind_Ok in E as (s & d2 & [-> Hs]%sm_lift_Ok & E). unfold state_init in Hs. inv_ok Hs.
  apply SM_bind_Ok in E as (genesis & d3 & [-> Hg]%sm_lift_Ok & E). apply SM_bind_Ok in E as (s' & d4 & [-> [fees Hap]%run_state_Ok]%sm_lift_Ok & E).
  apply SM_bind_Ok in E as (sb & d5 & (st2 & Hput & ->)%sm_zoom_Ok & E). apply SM_bind_Ok in E as (u2 & d6 & (m & Hrep & ->)%sm_zoom_Ok & E).
  apply SM_bind_Ok in E as (h & d7 & [-> Hh]%sm_lift_Ok & (ix & Hix & ->)%sm_zoom_Ok).
  rename Ec into E. unfold create_node in E. rewrite bind_get_run in E. cbv zeta in E. apply SM_bind_Ok in E as (active & d9 & [-> Ha]%sm_lift_Ok & E). cbn in Ha, E.
  destruct (genesis_canonical _ _ _ _ _ Hnow Hg) as [Hcan Hh0].
  set (fc := mkForkChoice subsidy max) in *. set (st1 := mkStore _ _ ∅) in *. subst s.
  destruct (first_block_stored fc st1 st2 genesis s' fees sb h) as (Hv & Ht & <- & a & Ha' & <-); [done..|].
  assert (a = active) as -> by congruence. clear Ha'.
  destruct (fc_active_chain_valid fc st2) as (a & Ha' & Hr & _); [done|cbn; lia|cbn; lia|]. assert (a = active) as -> by congruence.
  apply rebuild_params in Hr as (Hsub & Hmax & Hswf).
  apply replace_all_Ok in Hrep as (rows & [= <-] & _ & ->). cbn [list_to_map] in *.
  unfold node_init in E. apply SM_bind_Ok in E as (u4 & d10 & [-> Hdif]%sm_lift_Ok & E). apply raise_if_Ok in Hdif as Hdif.
  unfold disk_mempool in E. rewrite (sm_bind_run _ _ _ (with_index ix (with_mempool_store ∅ (with_store st2 (with_store st1 d)))) []) in E.
  2: { unfold sm_zoom. cbn [d_mempool with_index with_mempool_store]. rewrite load_mempool_empty; [done|apply Hswf..]. }
  rewrite bind_get_run in E. injection E as <- <-. split; [done|]. split; [|done]. split.
  - split; [done|]. cbn. split; [lia|]. split; [lia|]. by exists active.
  - cbn. replace st2 with (put_block (sb_block sb) st1).1 by (cbn in Hput; by rewrite Hput). by rewrite put_block_params.
  - cbn. lia.
  - by exists sb, h.
  - left. exists sb, h. split; [done|]. split; [done|]. by apply save_snapshot_loads in Hix.
  - by exists [].
  - exists []. split; [done|constructor].
  - constructor.
Qed.

Lemma wrong_chain n difficulty subsidy max : durable n → mkParams difficulty subsidy max ≠ node_params n →
  open_chain difficulty subsidy max (n_disk n) = (n_disk n, raise StorageError "chain parameters do not match stored chain").
Proof.
  intros Hn Hne. unfold open_chain. cbv zeta. unfold mbind at 1, SM_bind at 1.
  by rewrite (require_parameters _ _ _ (du_params n Hn)), bool_decide_eq_false_2 by done.
Qed.

Lemma wrong_parameters n difficulty subsidy max : durable n → mkParams difficulty subsidy max ≠ node_params n →
  node_open difficulty subsidy max (n_disk n) = (n_disk n, raise ConsensusNodeError "stored consensus chain failed validation").
Proof.
  intros Hn Hne. unfold node_open, mbind at 1, SM_bind at 1.
  by rewrite (sm_try_raises _ _ _ _ _ (wrong_chain _ _ _ _ Hn Hne)).
Qed.

(** ** Histories *)

(** What a database goes through: a creation, then imports, whether they return
    or raise, mempool operations, and restarts.  Only where the money limit does
    not fit SQLite's integers must an import return or its block be refused. *)
Inductive history : Node → Prop :=
  | history_create fuel allocations difficulty subsidy max now d d' n :
      0 ≤ now < 2 ^ 64 → node_create fuel allocations difficulty subsidy max now d = (d', Ok n) → history n
  | history_import n b : history n → canonical_block b →
      small_money n ∨ is_ok (import_block b n).2 = true ∨ is_ok (validate_import_candidate n b) = false →
      history (import_block b n).1
  | history_submit n t : history n → canonical_tx t → history (submit_transaction t n).1
  | history_prune n : history n → history (prune_mempool n).1
  | history_clear n : history n → history (clear_mempool n).1
  | history_open n difficulty subsidy max d n' :
      history n → node_open difficulty subsidy max (n_disk n) = (d, Ok n') → history n'.

Lemma history_durable n : history n → durable n.
Proof.
  induction 1 as [fuel allocations difficulty subsidy max now d d' n Hnow E|n b _ IH Hc Hout
    |n t _ IH Ht|n _ IH|n _ IH|n difficulty subsidy max d n' _ IH E].
  - by apply create_durable in E as (_ & ? & _).
  - destruct Hout as [Hs|[E|E]]; [by apply import_durable| |].
    + destruct (import_block b n) as [n' [sb|]] eqn:Ei; [|done]. by eapply import_Ok_durable.
    + destruct (validate_import_candidate n b) as [|e] eqn:Ev; [done|]. by eapply refused_durable.
  - by apply submit_durable.
  - by apply prune_durable.
  - by apply clear_durable.
  - destruct (decide (mkParams difficulty subsidy max = node_params n)) as [[= -> -> ->]|Hne].
    + destruct (reopen_durable n IH) as (n2 & E2 & _ & Hd). congruence.
    + by rewrite (wrong_parameters _ _ _ _ IH Hne) in E.
Qed.

End restart.

(** ** Properties *)

(** A node can always be restarted.  Whatever history its databases have,
    creation included, [open] with the parameters of the running node returns
    one with the same blocks, state and cache of refused blocks and a current
    index, the same if it was current; its
    mempool is what still applies, in the order the table is read in, of the
    transactions that were pending.  With any other parameters [open] raises
    and the databases are not touched. *)
Theorem restart_restores `{Ed25519} n :
  history n →
  (∃ n', node_open (n_difficulty n) (fc_block_subsidy (n_fork_choice n)) (fc_max_money (n_fork_choice n)) (n_disk n) =
           (n_disk n', Ok n') ∧ reopened n n') ∧
  (∀ difficulty subsidy max, mkParams difficulty subsidy max ≠ node_params n →
     node_open difficulty subsidy max (n_disk n) =
       (n_disk n, raise ConsensusNodeError "stored consensus chain failed validation")).
Proof.
  intros Hn%history_durable. split.
  - destruct (reopen_durable n Hn) as (n' & E & Hr & _). by exists n'.
  - intros difficulty subsidy max. by apply wrong_parameters.
Qed.

(** A node created on empty databases, after one block and one payment. *)
Definition empty_disk : Disk := mkDisk empty_store ∅ empty_index ∅.

Definition sample_create : SM Disk Node :=
  @node_create toy_ed25519 20 [(toy_address "alice", 1000)] 1 50 MAX_MONEY sample_timestamp.

Definition created_node : Node := ok_or genesis_node (sample_create empty_disk).2.
Definition grown_node : Node := (@import_block toy_ed25519 sample_second created_node).1.
Definition grown_block : StoredBlock := ok_or (mkStored empty_block 0) (@import_block toy_ed25519 sample_second created_node).2.

Lemma created_Ok : sample_create empty_disk = ((sample_create empty_disk).1, Ok created_node).
Proof. unfold created_node. apply run_ok_or. vm_compute. reflexivity. Qed.

Lemma grown_Ok : @import_block toy_ed25519 sample_second created_node = (grown_node, Ok grown_block).
Proof. unfold grown_node, grown_block. apply run_ok_or. vm_compute. reflexivity. Qed.

Lemma grown_history : @history toy_ed25519 (@submit_transaction toy_ed25519 sample_transfer2 grown_node).1.
Proof.
  apply (@history_submit toy_ed25519); [|apply (bool_decide_unpack (canonical_tx sample_transfer2)); vm_compute; exact I].
  apply (@history_import toy_ed25519 created_node sample_second); [|exact sample_second_canonical|left; by vm_compute].
  refine (@history_create toy_ed25519 _ _ _ _ _ _ _ _ _ _ created_Ok). by vm_compute.
Qed.

(** Its parameters are those it was created with. *)
Lemma sample_timestamp_range : 0 ≤ sample_timestamp < 2 ^ 64.
Proof. by vm_compute. Qed.

Lemma grown_params : node_params (@submit_transaction toy_ed25519 sample_transfer2 grown_node).1 = mkParams 1 50 MAX_MONEY.
Proof.
  pose proof (@create_durable toy_ed25519 _ _ _ _ _ _ _ _ _ sample_timestamp_range created_Ok) as (_ & Hd & Hfc & Hdf & _).
  assert (Hg : @durable toy_ed25519 grown_node) by (eapply import_Ok_durable; [exact Hd|exact sample_second_canonical|exact grown_Ok]).
  rewrite (@submit_params toy_ed25519) by exact Hg. unfold grown_node.
  rewrite (@import_params toy_ed25519) by (exact (du_wf _ Hd) || exact sample_second_canonical).
  unfold node_params. by rewrite Hfc, Hdf.
Qed.

Lemma restart_restores_witness :
  let n := (@submit_transaction toy_ed25519 sample_transfer2 grown_node).1 in
  (∃ n', @node_open toy_ed25519 (n_difficulty n) (fc_block_subsidy (n_fork_choice n)) (fc_max_money (n_fork_choice n)) (n_disk n) =
           (n_disk n', Ok n') ∧ @reopened toy_ed25519 n n') ∧
  (∀ difficulty subsidy max, mkParams difficulty subsidy max ≠ node_params n →
     @node_open toy_ed25519 difficulty subsidy max (n_disk n) =
       (n_disk n, raise ConsensusNodeError "stored consensus chain failed validation")).
Proof. exact (@restart_restores toy_ed25519 _ grown_history). Defined.
