(* ===== verification/Produced.v ===== *)
(** * What a node makes itself (utxo_node.py)

    The payments of [create_transaction] and the blocks of
    [build_candidate_block] are in the form the codecs read back, so a durable
    node stays durable when they enter its mempool and its chain.  [activity] has
    the operations a process runs on a node; none loses a block. *)

From S2P Require Import Prelude PyBytes PyText Sha256 Json Crypto ByteReader Transaction Block Utxo State BlockProcessor ForkStore ForkChoice Stores Policy Mempool Selection Mining Node Restart.
Local Open Scope Z_scope.

(** Every outpoint of the set names a transaction by 64 hexadecimal digits. *)
Definition keys_hashed (m : UTXOSet) : Prop := ∀ o x, m !! o = Some x → hash_text (op_txid o).

Section produced.
Context `{ED : Ed25519}.

(** ** Lemmas: outpoints *)

Lemma commits_hashed s t s' : keys_hashed (utxos s) → tx_commits s t s' → keys_hashed (utxos s').
Proof.
  intros Hk (h & Hh & _ & _ & ->) o x Ho. cbn [utxos with_utxos] in Ho. unfold tx_effect in Ho.
  apply lookup_union_Some_raw in Ho as [Ho|[_ Ho]].
  - apply created_key in Ho as ->. by eapply txid_hash_text.
  - apply map_lookup_filter_Some in Ho as [Ho _]. by eapply Hk.
Qed.

Lemma steps_hashed s ts f s' : keys_hashed (utxos s) → tx_steps s ts f s' → keys_hashed (utxos s').
Proof. intros Hk Hst. induction Hst as [|s t fee s1 ts fees s2 _ Hc _ IH]; [done|]. by eapply IH, commits_hashed. Qed.

Lemma chain_hashed s h prev bs s' : keys_hashed (utxos s) → chain_steps s h prev bs s' → keys_hashed (utxos s').
Proof.
  intros Hk Hst. induction Hst as [|s h prev b fees s1 hash bs s2 Hb _ _ IH]; [done|]. apply IH.
  destruct Hb as (_ & cb & ts & s0 & _ & _ & Hts & _ & _ & _ & Hcb). eapply commits_hashed; [|exact Hcb]. by eapply steps_hashed.
Qed.

Lemma node_keys_hashed n : node_wf n → keys_hashed (utxos (n_state n)).
Proof.
  intros (Hv & Hs & Hm & a & Ha & ->). destruct (fc_active_chain_valid _ _ Hv Hs Hm) as (a' & Ha' & Hr & _).
  assert (a' = a) as -> by congruence. apply rebuild_Ok in Hr as (_ & _ & Hst). eapply chain_hashed; [|exact Hst].
  intros o x. cbn. by rewrite lookup_empty.
Qed.

(** ** Lemmas: payments *)

Lemma pk_dict_canonical pk : canonical_key (pk_to_dict pk).
Proof. done. Qed.

Lemma sign_input_canonical t i w t' : canonical_tx t → sign_input t i w = Ok t' → canonical_tx t'.
Proof.
  unfold canonical_tx. intros Hc (x & sg & _ & Hx & _ & ->)%sign_input_spec. cbn [inputs]. apply Forall_insert; [done|].
  split; [|apply pk_dict_canonical]. by apply (Forall_lookup_1 _ _ _ _ Hc) in Hx as [? _].
Qed.

Lemma sign_all_canonical w t t' : canonical_tx t → sign_all w t = Ok t' → canonical_tx t'.
Proof. unfold sign_all. intros Hc E. eapply (foldR_inv canonical_tx); [|exact Hc|exact E].
  intros s x s' _ Hs Hx. exact (sign_input_canonical _ _ _ _ Hs Hx).
Qed.

Lemma payment_canonical n w recipient amount fee t : node_wf n → create_transaction n w recipient amount fee = Ok t → canonical_tx t.
Proof.
  intros Hn E. unfold create_transaction in E. apply raise_if_bind in E as [_ E]. apply raise_if_bind in E as [_ E].
  apply raise_if_bind in E as [_ E]. apply bind_Ok in E as (from & _ & E). apply raise_if_bind in E as [_ E].
  eapply sign_all_canonical; [|exact E]. unfold canonical_tx. cbn [inputs]. apply Forall_fmap, Forall_forall. intros u Hu.
  split; [|done]. cbn. destruct (select_coins_spec (amount + fee) (spendable_outputs n from) [] 0 _ eq_refl) as (taken & rest & Hus & Ht & _).
  rewrite Ht in Hu. assert (Hin : u ∈ spendable_outputs n from) by (rewrite Hus; apply elem_of_app; by left).
  unfold spendable_outputs, entries_for_address in Hin. apply list_elem_of_filter in Hin as [_ Hin].
  unfold utxo_entries in Hin. rewrite sort_by_perm in Hin. destruct u as [o x]. apply elem_of_map_to_list in Hin.
  by eapply node_keys_hashed.
Qed.

(** ** Lemmas: blocks *)

Lemma select_subset (P : ConsensusTransaction → Prop) fuel pending selected fees c c' r :
  Forall P pending → Forall P selected → select_transactions fuel pending selected fees c = (c', Ok r) → Forall P r.1.
Proof.
  revert pending selected fees c. induction fuel as [|fuel IH]; intros pending selected fees c Hp Hs E; destruct pending as [|t0 pending0]; cbn [select_transactions] in E.
  - by injection E as _ <-.
  - done.
  - by injection E as _ <-.
  - set (pending := t0 :: pending0) in *. rewrite bind_get_run in E. apply SM_bind_Ok in E as (best & c1 & [-> _]%sm_lift_Ok & E).
    destruct best as [[i sc]|]; [|done]. destruct (pending !! Z.to_nat i) as [t|] eqn:Ht; [|done].
    apply SM_bind_Ok in E as (fee & c2 & _ & E). eapply IH; [| |exact E].
    + apply (Forall_sublist _ _ pending); [|done]. apply without_sublist.
    + apply Forall_app. split; [done|]. apply Forall_singleton. exact (Forall_lookup_1 _ _ _ _ Hp Ht).
Qed.

Lemma block_hash_text b h : block_hash b = Ok h → hash_text h.
Proof.
  unfold block_hash, sha256_hex. intros H. inv_oks. subst. apply bytes_hex_hash_text, sha256_length.
Qed.

Lemma tip_hash_text n h : tip_hash n = Ok h → hash_text h.
Proof.
  unfold tip_hash. intros E. apply bind_Ok in E as (tip & _ & E). destruct tip as [t|]; [by eapply block_hash_text|].
  injection E as <-. apply zero_hash_text.
Qed.

Lemma candidate_canonical n miner now fuel b b' : Forall canonical_tx (n_mempool n) → 0 ≤ now < 2 ^ 64 →
  build_candidate_block n miner now = Ok b → mine fuel b = Ok b' → canonical_block b'.
Proof.
  intros Hc Hnow E Em. unfold build_candidate_block in E. apply raise_if_bind in E as [_ E]. apply bind_Ok in E as (c & _ & E).
  apply bind_Ok in E as (chosen & Hch & E). apply bind_Ok in E as (h & _ & E). apply bind_Ok in E as (cb & Hcb & E).
  apply bind_Ok in E as (tip & Htip%tip_hash_text & E). unfold make_block in E. apply bind_Ok in E as (root & Hroot & [= <-]).
  apply mine_Ok in Em as (m & _ & -> & _); [|exact Hroot]. apply create_coinbase_Ok in Hcb as (_ & _ & _ & _ & ->).
  unfold canonical_block, with_nonce. cbn [previous_hash transaction_root timestamp transactions].
  split_and!; [done|by eapply root_hash_text|lia..|]. constructor.
  - apply Forall_singleton. split; [apply zero_hash_text|done].
  - destruct (prioritized_mempool_transactions n c) as [c' r] eqn:Er. cbn [snd] in Hch. subst r.
    exact (select_subset canonical_tx _ _ _ _ _ _ _ Hc (Forall_nil_2 _) Er).
Qed.

(** What a durable node goes through without losing a block or its parameters. *)
Definition grows_to (n n' : Node) : Prop :=
  durable n' ∧ node_params n' = node_params n ∧ fs_blocks (n_store n) ⊆ fs_blocks (n_store n').

Lemma grows_to_refl n : durable n → grows_to n n.
Proof. intros Hd. unfold grows_to. by split_and!. Qed.

Lemma grows_to_trans n1 n2 n3 : grows_to n1 n2 → grows_to n2 n3 → grows_to n1 n3.
Proof. intros (_ & E1 & S1) (D2 & E2 & S2). unfold grows_to. split_and!; [done|congruence|by etrans]. Qed.

Lemma small_money_params n n' : node_params n' = node_params n → small_money n → small_money n'.
Proof. unfold small_money. by intros [= _ _ ->]. Qed.

Lemma import_grows n b : durable n → canonical_block b → small_money n → grows_to n (import_block b n).1.
Proof.
  intros Hd Hc Hs. unfold grows_to. split_and!; [by apply import_durable|apply import_params; [apply Hd|done]|].
  by destruct (import_wf n b (du_wf n Hd) Hc) as (_ & ? & _).
Qed.

Lemma mine_block_grows n fuel miner now : durable n → 0 ≤ now < 2 ^ 64 → small_money n →
  grows_to n (mine_block fuel miner now n).1.
Proof.
  intros Hd Hnow Hs. unfold mine_block. rewrite bind_get_run, bind_lift_run.
  destruct (build_candidate_block n miner now) as [b|] eqn:Hb; [|by apply grows_to_refl]. rewrite bind_lift_run.
  destruct (mine fuel b) as [b'|] eqn:Hm; [|by apply grows_to_refl]. apply import_grows; [done| |done].
  eapply candidate_canonical; [exact (du_canonical n Hd)|done..].
Qed.

(** ** What a process does with a node *)

(** The operations that change a node; what one returns or raises is ignored. *)
Inductive activity :=
  | Import (b : ConsensusBlock)
  | Mine (fuel : nat) (miner : str) (now : Z)
  | Submit (t : ConsensusTransaction)
  | Prune
  | Clear.

Definition run_activity (a : activity) : SM Node unit := λ n,
  (match a with
   | Import b => (import_block b n).1
   | Mine fuel miner now => (mine_block fuel miner now n).1
   | Submit t => (submit_transaction t n).1
   | Prune => (prune_mempool n).1
   | Clear => (clear_mempool n).1
   end, Ok tt).

(** Blocks and transactions in the form the codecs read back, and a clock that
    fits the header. *)
Definition activity_ok (a : activity) : Prop :=
  match a with
  | Import b => canonical_block b
  | Mine _ _ now => 0 ≤ now < 2 ^ 64
  | Submit t => canonical_tx t
  | Prune | Clear => True
  end.

Definition run_activities (l : list activity) (n : Node) : Node := foldl (λ n a, (run_activity a n).1) n l.

Lemma prune_same n : durable n → n_store (prune_mempool n).1 = n_store n ∧ node_params (prune_mempool n).1 = node_params n.
Proof.
  intros Hn. destruct (node_state_params _ (du_wf n Hn)) as ((Hs & Hm & _) & _). unfold prune_mempool.
  rewrite bind_get_run, (sm_bind_run _ _ _ _ _ (prune_invalid_Ok n Hs Hm)), bind_get_run.
  unfold on_mempool_store, sm_zoom, mbind, SM_bind, mret, SM_ret. cbn. by destruct (replace_all _ _) as [? []].
Qed.

Lemma submit_same n t : durable n → n_store (submit_transaction t n).1 = n_store n.
Proof.
  intros Hn. by destruct (submit_cases n t (du_distinct n Hn)) as [(e & _ & ->)|(kept & h & rows & _ & _ & _ & ->)].
Qed.

Lemma activity_grows a n : durable n → small_money n → activity_ok a → grows_to n (run_activity a n).1.
Proof.
  intros Hd Hs Ha. unfold grows_to. destruct a as [b|fuel miner now|t| |]; cbn in Ha |- *.
  - by apply import_grows.
  - by apply mine_block_grows.
  - split_and!; [by apply submit_durable|by apply submit_params|by rewrite submit_same].
  - destruct (prune_same n Hd) as [-> ->]. split_and!; [by apply prune_durable|done|done].
  - split_and!; [by apply clear_durable|done|done].
Qed.

Lemma activities_grow l : ∀ n, durable n → small_money n → Forall activity_ok l → grows_to n (run_activities l n).
Proof.
  induction l as [|a l IH]; intros n Hd Hs Hl; [by apply grows_to_refl|]. apply Forall_cons in Hl as [Ha Hl].
  pose proof (activity_grows a n Hd Hs Ha) as Hg. eapply grows_to_trans; [exact Hg|]. destruct Hg as (Hd' & Hp & _).
  apply IH; [done|by eapply small_money_params|done].
Qed.

Lemma reopened_grows n n' : reopened n n' → durable n' → grows_to n n'.
Proof.
  intros (Hst & _ & Hdif & Hfc & _) Hd. unfold grows_to. split_and!; [done|by unfold node_params; rewrite Hdif, Hfc|by rewrite Hst].
Qed.

End produced.
