(* ===== verification/Peers.v ===== *)
(** * Peer address manager (peers.py)

    The records the manager keeps per address, its connection limits, the
    exponential backoff after failures and the bans.  Records are shared by
    reference in Python; here each operation writes the record back, and an
    exception keeps what was written before it.  The dictionary is a map, since
    every operation that iterates over it sorts or counts. *)

From S2P Require Import Prelude PyText.
Local Open Scope Z_scope.

Inductive ConnectionState := DISCONNECTED | CONNECTING | CONNECTED | BANNED.
#[global] Instance ConnectionState_eq_dec : EqDecision ConnectionState.
Proof. solve_decision. Defined.

Record PeerRecord := mkPeer {
  pr_address : str;
  pr_last_seen : Z;
  pr_failures : Z;
  pr_misbehavior : Z;
  pr_state : ConnectionState;
  pr_next_retry : Z;
  pr_banned_until : Z;
  pr_inbound : bool;
}.
#[global] Instance PeerRecord_eq_dec : EqDecision PeerRecord.
Proof. solve_decision. Defined.

Record PeerManager := mkManager {
  max_outbound : Z;
  max_inbound : Z;
  ban_threshold : Z;
  base_backoff : Z;
  max_backoff : Z;
  ban_seconds : Z;
  pm_peers : gmap str PeerRecord;
}.

Definition is_banned (r : PeerRecord) : bool := bool_decide (pr_state r = BANNED).

Definition with_peers (ps : gmap str PeerRecord) (m : PeerManager) : PeerManager :=
  mkManager (max_outbound m) (max_inbound m) (ban_threshold m) (base_backoff m) (max_backoff m) (ban_seconds m) ps.

(** [PeerAddressManager(...)] *)
Definition manager_init (out inb threshold base max ban : Z) : result PeerManager :=
  raise_if ((out <? 0) || (inb <? 0)) PeerManagerError "connection limits cannot be negative";;
  raise_if (threshold <=? 0) PeerManagerError "ban threshold must be positive";;
  Ok (mkManager out inb threshold base max ban ∅).

(** [str.isspace] on one character. *)
Definition unicode_space (c : Z) : bool :=
  ((9 <=? c) && (c <=? 13)) || ((28 <=? c) && (c <=? 32)) || (c =? 0x85) || (c =? 0xA0) || (c =? 0x1680)
  || ((0x2000 <=? c) && (c <=? 0x200A)) || (c =? 0x2028) || (c =? 0x2029) || (c =? 0x202F)
  || (c =? 0x205F) || (c =? 0x3000).

Definition validate_address (a : str) : result unit :=
  raise_if (bool_decide (a = []) || forallb unicode_space a) PeerManagerError "peer address is invalid";;
  raise_if (255 <? zlen a) PeerManagerError "peer address is too long".

(** [record.field = ...] for the record of an address. *)
Definition write (a : str) (r : PeerRecord) : SM PeerManager unit :=
  m ← sm_get; sm_put (with_peers (<[a := r]> (pm_peers m)) m).

Definition get_peer (a : str) : SM PeerManager PeerRecord :=
  m ← sm_get;
  match pm_peers m !! a with
  | Some r => mret r
  | None => sm_raise PeerManagerError "unknown peer"
  end.

Definition touch (now : Z) (inbound : bool) (r : PeerRecord) : PeerRecord :=
  mkPeer (pr_address r) (Z.max (pr_last_seen r) now) (pr_failures r) (pr_misbehavior r) (pr_state r)
    (pr_next_retry r) (pr_banned_until r) (pr_inbound r || inbound).

Definition new_peer (a : str) (now : Z) (inbound : bool) : PeerRecord :=
  mkPeer a now 0 0 DISCONNECTED 0 0 inbound.

(** The record [add_peer] leaves for an address. *)
Definition added (m : PeerManager) (a : str) (now : Z) (inbound : bool) : PeerRecord :=
  match pm_peers m !! a with Some old => touch now inbound old | None => new_peer a now inbound end.

(** [add_peer] *)
Definition add_peer (a : str) (now : Z) (inbound : bool) : SM PeerManager PeerRecord :=
  sm_lift (validate_address a);;
  m ← sm_get;
  let r := added m a now inbound in
  write a r;; mret r.

(** [_clear_expired_ban] *)
Definition clear_expired_ban (now : Z) (r : PeerRecord) : PeerRecord :=
  if is_banned r && (pr_banned_until r <=? now) then
    mkPeer (pr_address r) (pr_last_seen r) (pr_failures r) (pr_misbehavior r) DISCONNECTED
      (pr_next_retry r) 0 (pr_inbound r)
  else r.

Definition active (r : PeerRecord) : bool :=
  bool_decide (pr_state r = CONNECTING) || bool_decide (pr_state r = CONNECTED).
Definition active_outbound (r : PeerRecord) : bool := active r && negb (pr_inbound r).
Definition active_inbound (r : PeerRecord) : bool := active r && pr_inbound r.

Definition count_peers (f : PeerRecord → bool) (m : PeerManager) : Z :=
  Z.of_nat (size (filter (λ x : str * PeerRecord, f x.2 = true) (pm_peers m))).
Definition outbound_count (m : PeerManager) : Z := count_peers active_outbound m.
Definition inbound_count (m : PeerManager) : Z := count_peers active_inbound m.

Definition with_pstate (s : ConnectionState) (inbound : bool) (r : PeerRecord) : PeerRecord :=
  mkPeer (pr_address r) (pr_last_seen r) (pr_failures r) (pr_misbehavior r) s (pr_next_retry r) (pr_banned_until r) inbound.

(** [mark_connecting] *)
Definition mark_connecting (a : str) (now : Z) (inbound : bool) : SM PeerManager PeerRecord :=
  r0 ← add_peer a now inbound;
  let r := clear_expired_ban now r0 in
  write a r;;
  m ← sm_get;
  sm_lift (raise_if (is_banned r) PeerManagerError "peer is banned");;
  sm_lift (raise_if (inbound && (max_inbound m <=? inbound_count m) && negb (bool_decide (pr_state r = CONNECTED)))
             PeerManagerError "inbound peer limit reached");;
  sm_lift (raise_if (negb inbound && (max_outbound m <=? outbound_count m) && negb (bool_decide (pr_state r = CONNECTED)))
             PeerManagerError "outbound peer limit reached");;
  let r' := with_pstate CONNECTING inbound r in
  write a r';; mret r'.

(** [mark_connected] *)
Definition mark_connected (a : str) (now : Z) : SM PeerManager PeerRecord :=
  r0 ← get_peer a;
  let r := clear_expired_ban now r0 in
  write a r;;
  sm_lift (raise_if (is_banned r) PeerManagerError "peer is banned");;
  let r' := mkPeer (pr_address r) now 0 (pr_misbehavior r) CONNECTED 0 (pr_banned_until r) (pr_inbound r) in
  write a r';; mret r'.

Definition disconnected_at (retry failures : Z) (r : PeerRecord) : PeerRecord :=
  mkPeer (pr_address r) (pr_last_seen r) failures (pr_misbehavior r) DISCONNECTED retry (pr_banned_until r) (pr_inbound r).

(** [mark_disconnected] *)
Definition mark_disconnected (a : str) (now : Z) : SM PeerManager PeerRecord :=
  r ← get_peer a;
  if is_banned r then mret r else
  let r' := disconnected_at now (pr_failures r) r in
  write a r';; mret r'.

(** The delay after the [failures]-th failure in a row. *)
Definition backoff_delay (m : PeerManager) (failures : Z) : Z :=
  Z.min (max_backoff m) (base_backoff m * 2 ^ (failures - 1)).

(** [mark_failure] *)
Definition mark_failure (a : str) (now : Z) : SM PeerManager PeerRecord :=
  r ← get_peer a;
  if is_banned r then mret r else
  m ← sm_get;
  let failures := pr_failures r + 1 in
  let r' := disconnected_at (now + backoff_delay m failures) failures r in
  write a r';; mret r'.

Definition banned_at (until : Z) (r : PeerRecord) : PeerRecord :=
  mkPeer (pr_address r) (pr_last_seen r) (pr_failures r) (pr_misbehavior r) BANNED until until (pr_inbound r).

(** [ban_peer] *)
Definition ban_peer (a : str) (now : Z) : SM PeerManager PeerRecord :=
  r ← get_peer a;
  m ← sm_get;
  let r' := banned_at (now + ban_seconds m) r in
  write a r';; mret r'.

Definition blame (score : Z) (r : PeerRecord) : PeerRecord :=
  mkPeer (pr_address r) (pr_last_seen r) (pr_failures r) (pr_misbehavior r + score) (pr_state r)
    (pr_next_retry r) (pr_banned_until r) (pr_inbound r).

(** [report_misbehavior]; the record it returns is the one [ban_peer] wrote. *)
Definition report_misbehavior (a : str) (score now : Z) : SM PeerManager PeerRecord :=
  sm_lift (raise_if (score <? 0) PeerManagerError "misbehavior score cannot be negative");;
  r ← get_peer a;
  let r' := blame score r in
  write a r';;
  m ← sm_get;
  if ban_threshold m <=? pr_misbehavior r' then ban_peer a now else mret r'.

(** The key [(-last_seen, failures, address)]. *)
Definition outbound_leb (x y : PeerRecord) : bool :=
  (pr_last_seen y <? pr_last_seen x)
  || ((pr_last_seen x =? pr_last_seen y)
      && ((pr_failures x <? pr_failures y) || ((pr_failures x =? pr_failures y) && str_leb (pr_address x) (pr_address y)))).

Definition eligible (now : Z) (r : PeerRecord) : bool :=
  bool_decide (pr_state r = DISCONNECTED) && negb (pr_inbound r) && (pr_next_retry r <=? now).

(** [eligible_outbound] *)
Definition eligible_outbound (now : Z) : SM PeerManager (list PeerRecord) :=
  m ← sm_get;
  let ps := clear_expired_ban now <$> pm_peers m in
  sm_put (with_peers ps m);;
  mret (sort_by outbound_leb (filter (λ r, eligible now r = true) (map_to_list ps).*2)).

(** [l[:count]] *)
Definition slice_to {A} (count : Z) (l : list A) : list A :=
  take (Z.to_nat (if count <? 0 then zlen l + count else count)) l.

(** [select_outbound] *)
Definition select_outbound (now : Z) (limit : option Z) : SM PeerManager (list PeerRecord) :=
  m ← sm_get;
  let remaining := Z.max 0 (max_outbound m - outbound_count m) in
  let count := match limit with None => remaining | Some k => Z.min k remaining end in
  l ← eligible_outbound now;
  mret (slice_to count l).

(** The key [(misbehavior_score, last_seen, address)], in reverse. *)
Definition eviction_leb (x y : PeerRecord) : bool :=
  (pr_misbehavior y <? pr_misbehavior x)
  || ((pr_misbehavior x =? pr_misbehavior y)
      && ((pr_last_seen y <? pr_last_seen x) || ((pr_last_seen x =? pr_last_seen y) && str_leb (pr_address y) (pr_address x)))).

(** [eviction_candidates] *)
Definition eviction_candidates (m : PeerManager) : list PeerRecord :=
  sort_by eviction_leb (filter (λ r, pr_state r = CONNECTED) (map_to_list (pm_peers m)).*2).

(** [all_peers] *)
Definition all_peers (m : PeerManager) : list PeerRecord :=
  sort_by (λ x y, str_leb (pr_address x) (pr_address y)) (map_to_list (pm_peers m)).*2.

(** ** Runs of the manager *)

Inductive peer_op :=
  | OAdd (a : str) (now : Z) (inbound : bool)
  | OConnecting (a : str) (now : Z) (inbound : bool)
  | OConnected (a : str) (now : Z)
  | ODisconnected (a : str) (now : Z)
  | OFailure (a : str) (now : Z)
  | OMisbehavior (a : str) (score now : Z)
  | OBan (a : str) (now : Z)
  | OSelect (now : Z) (limit : option Z).

Definition op_time (o : peer_op) : Z :=
  match o with
  | OAdd _ now _ | OConnecting _ now _ | OConnected _ now | ODisconnected _ now | OFailure _ now
  | OMisbehavior _ _ now | OBan _ now | OSelect now _ => now
  end.

Definition op_step (o : peer_op) (m : PeerManager) : PeerManager :=
  match o with
  | OAdd a now i => (add_peer a now i m).1
  | OConnecting a now i => (mark_connecting a now i m).1
  | OConnected a now => (mark_connected a now m).1
  | ODisconnected a now => (mark_disconnected a now m).1
  | OFailure a now => (mark_failure a now m).1
  | OMisbehavior a score now => (report_misbehavior a score now m).1
  | OBan a now => (ban_peer a now m).1
  | OSelect now limit => (select_outbound now limit m).1
  end.

(** The manager after a run, raised exceptions included. *)
Definition run_ops (ops : list peer_op) (m : PeerManager) : PeerManager := foldl (λ m o, op_step o m) m ops.

(** ** Lemmas: each operation as an equation *)

Definition put (a : str) (r : PeerRecord) (m : PeerManager) : PeerManager := with_peers (<[a := r]> (pm_peers m)) m.

Lemma put_put a r r' m : put a r' (put a r m) = put a r' m.
Proof. unfold put, with_peers. simpl. by rewrite insert_insert_eq. Qed.

Lemma lookup_put a r m b : pm_peers (put a r m) !! b = if decide (a = b) then Some r else pm_peers m !! b.
Proof. unfold put. simpl. destruct (decide (a = b)) as [->|Hne]; [apply lookup_insert_eq|by apply lookup_insert_ne]. Qed.

Lemma put_same_limits a r m :
  max_outbound (put a r m) = max_outbound m ∧ max_inbound (put a r m) = max_inbound m ∧
  ban_seconds (put a r m) = ban_seconds m ∧ ban_threshold (put a r m) = ban_threshold m.
Proof. done. Qed.

Ltac run_sm := unfold write, sm_lift, sm_get, sm_put, sm_raise, mbind, SM_bind, mret, SM_ret.

Lemma add_peer_run a now i m :
  add_peer a now i m = match validate_address a with
                       | Ok _ => (put a (added m a now i) m, Ok (added m a now i))
                       | Err e => (m, Err e)
                       end.
Proof. unfold add_peer. run_sm. by destruct (validate_address a). Qed.

Lemma mark_connecting_run a now i m :
  mark_connecting a now i m =
  match validate_address a with
  | Err e => (m, Err e)
  | Ok _ =>
      let r := clear_expired_ban now (added m a now i) in
      if is_banned r then (put a r m, raise PeerManagerError "peer is banned")
      else if i && (max_inbound m <=? inbound_count (put a r m)) && negb (bool_decide (pr_state r = CONNECTED))
      then (put a r m, raise PeerManagerError "inbound peer limit reached")
      else if negb i && (max_outbound m <=? outbound_count (put a r m)) && negb (bool_decide (pr_state r = CONNECTED))
      then (put a r m, raise PeerManagerError "outbound peer limit reached")
      else (put a (with_pstate CONNECTING i r) m, Ok (with_pstate CONNECTING i r))
  end.
Proof.
  unfold mark_connecting. unfold mbind at 1, SM_bind at 1. rewrite add_peer_run.
  destruct (validate_address a); [|done]. cbv zeta. set (r := clear_expired_ban now (added m a now i)).
  run_sm. fold (put a r (put a (added m a now i) m)). rewrite put_put. unfold raise_if.
  destruct (is_banned r); [done|].
  change (max_inbound (put a r m)) with (max_inbound m). change (max_outbound (put a r m)) with (max_outbound m).
  destruct (i && (max_inbound m <=? inbound_count (put a r m)) && negb (bool_decide (pr_state r = CONNECTED))); [done|].
  destruct (negb i && _ && _); [done|].
  fold (put a (with_pstate CONNECTING i r) (put a r m)). by rewrite put_put.
Qed.

Lemma mark_connected_run a now m :
  mark_connected a now m =
  match pm_peers m !! a with
  | None => (m, raise PeerManagerError "unknown peer")
  | Some r0 =>
      let r := clear_expired_ban now r0 in
      if is_banned r then (put a r m, raise PeerManagerError "peer is banned")
      else let r' := mkPeer (pr_address r) now 0 (pr_misbehavior r) CONNECTED 0 (pr_banned_until r) (pr_inbound r) in
           (put a r' m, Ok r')
  end.
Proof.
  unfold mark_connected, get_peer. run_sm. destruct (pm_peers m !! a) as [r0|]; [|done]. cbv zeta.
  set (r := clear_expired_ban now r0). unfold raise_if. destruct (is_banned r); [done|].
  set (r' := mkPeer _ _ _ _ _ _ _ _). fold (put a r m). fold (put a r' (put a r m)). by rewrite put_put.
Qed.

Lemma mark_disconnected_run a now m :
  mark_disconnected a now m =
  match pm_peers m !! a with
  | None => (m, raise PeerManagerError "unknown peer")
  | Some r => if is_banned r then (m, Ok r)
              else (put a (disconnected_at now (pr_failures r) r) m, Ok (disconnected_at now (pr_failures r) r))
  end.
Proof.
  unfold mark_disconnected, get_peer. run_sm. destruct (pm_peers m !! a) as [r|]; [|done]. by destruct (is_banned r).
Qed.

Lemma mark_failure_run a now m :
  mark_failure a now m =
  match pm_peers m !! a with
  | None => (m, raise PeerManagerError "unknown peer")
  | Some r => if is_banned r then (m, Ok r)
              else let r' := disconnected_at (now + backoff_delay m (pr_failures r + 1)) (pr_failures r + 1) r in
                   (put a r' m, Ok r')
  end.
Proof.
  unfold mark_failure, get_peer. run_sm. destruct (pm_peers m !! a) as [r|]; [|done]. by destruct (is_banned r).
Qed.

Lemma ban_peer_run a now m :
  ban_peer a now m =
  match pm_peers m !! a with
  | None => (m, raise PeerManagerError "unknown peer")
  | Some r => (put a (banned_at (now + ban_seconds m) r) m, Ok (banned_at (now + ban_seconds m) r))
  end.
Proof. unfold ban_peer, get_peer. run_sm. by destruct (pm_peers m !! a). Qed.

Lemma report_misbehavior_run a score now m :
  report_misbehavior a score now m =
  if score <? 0 then (m, raise PeerManagerError "misbehavior score cannot be negative") else
  match pm_peers m !! a with
  | None => (m, raise PeerManagerError "unknown peer")
  | Some r =>
      let r' := blame score r in
      let r'' := if ban_threshold m <=? pr_misbehavior r' then banned_at (now + ban_seconds m) r' else r' in
      (put a r'' m, Ok r'')
  end.
Proof.
  unfold report_misbehavior, get_peer. run_sm. unfold raise_if. destruct (score <? 0); [done|].
  destruct (pm_peers m !! a) as [r|]; [|done]. cbv zeta. fold (put a (blame score r) m).
  change (ban_threshold (put a (blame score r) m)) with (ban_threshold m). case_match; [|done].
  rewrite ban_peer_run, lookup_put, decide_True by done. by rewrite put_put.
Qed.

Lemma eligible_outbound_run now m :
  eligible_outbound now m =
  (with_peers (clear_expired_ban now <$> pm_peers m) m,
   Ok (sort_by outbound_leb (filter (λ r, eligible now r = true) (map_to_list (clear_expired_ban now <$> pm_peers m)).*2))).
Proof. done. Qed.

(** ** Lemmas: counting *)

Definition holds_at (f : PeerRecord → bool) (m : PeerManager) (a : str) : bool :=
  match pm_peers m !! a with Some r => f r | None => false end.

Lemma filter_put (f : PeerRecord → bool) (a : str) (r : PeerRecord) (ps : gmap str PeerRecord) : ps !! a = None →
  Z.of_nat (size (filter (λ x : str * PeerRecord, f x.2 = true) (<[a := r]> ps))) =
  Z.of_nat (size (filter (λ x : str * PeerRecord, f x.2 = true) ps)) + Z.b2z (f r).
Proof.
  intros Ha. destruct (f r) eqn:E; simpl.
  - rewrite map_filter_insert_True by done. rewrite map_size_insert_None; [lia|].
    apply map_lookup_filter_None. by left.
  - rewrite map_filter_insert_False by (simpl; congruence). rewrite delete_id by done. lia.
Qed.

Lemma count_put f a r m : count_peers f (put a r m) = count_peers f m - Z.b2z (holds_at f m a) + Z.b2z (f r).
Proof.
  unfold count_peers, put, holds_at. cbn [pm_peers with_peers].
  rewrite <- (insert_delete_eq (pm_peers m) a r), filter_put by apply lookup_delete_eq.
  destruct (pm_peers m !! a) as [r0|] eqn:E.
  - rewrite <- (insert_delete_id (pm_peers m) a r0) at 2 by done.
    rewrite filter_put by apply lookup_delete_eq. lia.
  - rewrite delete_id by done. simpl. lia.
Qed.

Lemma active_clear now r : active (clear_expired_ban now r) = active r.
Proof. unfold clear_expired_ban, is_banned, active. destruct (pr_state r) eqn:E; simpl; rewrite ?E; try done. by destruct (_ <=? _); simpl; rewrite ?E. Qed.

Lemma inbound_clear now r : pr_inbound (clear_expired_ban now r) = pr_inbound r.
Proof. unfold clear_expired_ban. by case_match. Qed.

Lemma count_clear f now m : (∀ r, f (clear_expired_ban now r) = f r) →
  count_peers f (with_peers (clear_expired_ban now <$> pm_peers m) m) = count_peers f m.
Proof.
  intros Hf. unfold count_peers. cbn [pm_peers with_peers]. rewrite map_filter_fmap, map_size_fmap. do 2 f_equal.
  apply map_filter_ext. intros i x _. simpl. by rewrite Hf.
Qed.

(** ** Lemmas: limits *)

Definition within_limits (m : PeerManager) : Prop :=
  outbound_count m ≤ max_outbound m ∧ inbound_count m ≤ max_inbound m.

Lemma limits_put m a r : within_limits m →
  (active_outbound r = true → holds_at active_outbound m a = true ∨ outbound_count m < max_outbound m) →
  (active_inbound r = true → holds_at active_inbound m a = true ∨ inbound_count m < max_inbound m) →
  within_limits (put a r m).
Proof.
  unfold within_limits, outbound_count, inbound_count. rewrite !count_put.
  change (max_outbound (put a r m)) with (max_outbound m). change (max_inbound (put a r m)) with (max_inbound m).
  intros [Ho Hi] H1 H2. split.
  - destruct (active_outbound r); simpl; [destruct (H1 eq_refl) as [-> |?]; simpl; [lia|]|];
      destruct (holds_at active_outbound m a); simpl; lia.
  - destruct (active_inbound r); simpl; [destruct (H2 eq_refl) as [-> |?]; simpl; [lia|]|];
      destruct (holds_at active_inbound m a); simpl; lia.
Qed.

Lemma limits_put_inactive m a r : within_limits m → active r = false → within_limits (put a r m).
Proof. intros Hm Hr. apply limits_put; [done|..]; unfold active_outbound, active_inbound; by rewrite Hr. Qed.

(** The same peer, as active as before. *)
Lemma limits_put_same m a r r' : within_limits m → pm_peers m !! a = Some r → active r' = active r →
  pr_inbound r' = pr_inbound r → within_limits (put a r' m).
Proof.
  intros Hm Ha He Hi. apply limits_put; [done|..]; unfold active_outbound, active_inbound, holds_at; rewrite Ha, He, Hi; auto.
Qed.

(** A use of the manager that keeps an active peer in its direction and does
    not mark a peer connected that was not connecting. *)
Definition orderly (m : PeerManager) (o : peer_op) : Prop :=
  match o with
  | OAdd a _ i => ∀ r, pm_peers m !! a = Some r → active r = true → i = true → pr_inbound r = true
  | OConnecting a _ i => ∀ r, pm_peers m !! a = Some r → active r = true → pr_inbound r = i
  | OConnected a _ => ∀ r, pm_peers m !! a = Some r → active r = true
  | _ => True
  end.

Lemma added_active m a now i : active (added m a now i) = holds_at active m a.
Proof. unfold added, holds_at. by destruct (pm_peers m !! a). Qed.

Lemma add_limits m a now i : within_limits m → orderly m (OAdd a now i) → within_limits (put a (added m a now i) m).
Proof.
  intros Hm Ho. simpl in Ho. unfold added. destruct (pm_peers m !! a) as [r|] eqn:E; [|by apply limits_put_inactive].
  destruct (active r) eqn:Er; [|by apply limits_put_inactive].
  apply (limits_put_same _ _ r); [done..|]. simpl. destruct (pr_inbound r) eqn:Ei, i; try done. by rewrite Ho in Ei.
Qed.

Lemma connecting_limits m a now i : within_limits m → orderly m (OConnecting a now i) →
  within_limits (mark_connecting a now i m).1.
Proof.
  intros Hm Ho. simpl in Ho. rewrite mark_connecting_run. destruct (validate_address a); [|done]. cbv zeta.
  set (r := clear_expired_ban now (added m a now i)).
  assert (Hr : active r = holds_at active m a) by (unfold r; by rewrite active_clear, added_active).
  assert (Hput : within_limits (put a r m)).
  { unfold holds_at in Hr. destruct (pm_peers m !! a) as [r0|] eqn:E; [|by apply limits_put_inactive].
    destruct (active r0) eqn:Er; [|by apply limits_put_inactive].
    apply (limits_put_same _ _ r0); [done..|congruence|]. unfold r, added. rewrite E, inbound_clear. simpl.
    rewrite (Ho r0) by done. by destruct i. }
  destruct (is_banned r); [done|]. destruct (i && _ && _) eqn:E1; [done|]. destruct (negb i && _ && _) eqn:E2; [done|].
  cbn [fst]. rewrite <- (put_put a r). destruct (holds_at active m a) eqn:Ha.
  - apply (limits_put_same _ _ r); [done| |by rewrite Hr|].
    + by rewrite lookup_put, decide_True.
    + cbn [pr_inbound with_pstate]. unfold r. rewrite inbound_clear. unfold holds_at, added in *.
      destruct (pm_peers m !! a) as [r0|] eqn:E; [|done]. simpl. rewrite (Ho r0) by done. by destruct i.
  - assert (Hc : bool_decide (pr_state r = CONNECTED) = false).
    { unfold active in Hr. by apply orb_false_iff in Hr as [_ ?]. }
    rewrite Hc in E1, E2. rewrite !andb_true_r in E1, E2.
    apply limits_put; [done|..]; unfold active_outbound, active_inbound; cbn [pr_inbound with_pstate]; right;
      destruct i; simpl in *; try done; bool_prop; lia.
Qed.

Lemma op_limits m o : within_limits m → orderly m o → within_limits (op_step o m).
Proof.
  intros Hm Ho. destruct o as [a now i|a now i|a now|a now|a now|a score now|a now|now limit]; cbn [op_step].
  - rewrite add_peer_run. destruct (validate_address a); [|done]. by apply add_limits.
  - by apply connecting_limits.
  - rewrite mark_connected_run. simpl in Ho. destruct (pm_peers m !! a) as [r|] eqn:E; [|done]. cbv zeta.
    assert (Hput : ∀ r', active r' = true → pr_inbound r' = pr_inbound r → within_limits (put a r' m)).
    { intros r' H1 H2. apply (limits_put_same _ _ r); [done..| |done]. by rewrite H1, Ho. }
    case_match; (apply Hput; [|cbn [pr_inbound]; by rewrite inbound_clear]); [by rewrite active_clear, Ho|done].
  - rewrite mark_disconnected_run. case_match; [|done]. case_match; [done|]. by apply limits_put_inactive.
  - rewrite mark_failure_run. case_match; [|done]. case_match; [done|]. by apply limits_put_inactive.
  - rewrite report_misbehavior_run. case_match; [done|]. destruct (pm_peers m !! a) as [r|] eqn:E; [|done]. cbv zeta.
    case_match; [by apply limits_put_inactive|]. by apply (limits_put_same _ _ r).
  - rewrite ban_peer_run. case_match; [|done]. by apply limits_put_inactive.
  - unfold select_outbound. run_sm. rewrite eligible_outbound_run. cbn [fst].
    unfold within_limits, outbound_count, inbound_count in *.
    rewrite !count_clear; [done|..]; intros r; unfold active_inbound, active_outbound; by rewrite active_clear, inbound_clear.
Qed.

(** ** Lemmas: bans *)

(** The peer is banned until [T] at least. *)
Definition banned_for (T : Z) (a : str) (m : PeerManager) : Prop :=
  ∃ r, pm_peers m !! a = Some r ∧ pr_state r = BANNED ∧ T ≤ pr_banned_until r.

Lemma banned_is r : pr_state r = BANNED → is_banned r = true.
Proof. intros E. unfold is_banned. by apply bool_decide_eq_true. Qed.

Lemma ban_not_expired now r : now < pr_banned_until r → clear_expired_ban now r = r.
Proof. intros Hn. unfold clear_expired_ban. destruct (Z.leb_spec (pr_banned_until r) now); [lia|]. by rewrite andb_false_r. Qed.

Lemma banned_put T a b r m : banned_for T a m → (a = b → pr_state r = BANNED ∧ T ≤ pr_banned_until r) →
  banned_for T a (put b r m).
Proof.
  intros (r0 & Ha & Hb & HT) Hr. unfold banned_for. rewrite lookup_put. destruct (decide (b = a)) as [->|?]; [|by exists r0].
  destruct Hr; [done|]. by exists r.
Qed.

Lemma ban_step T a m o : banned_for T a m → op_time o < T → T ≤ op_time o + ban_seconds m → banned_for T a (op_step o m).
Proof.
  intros Hban Ht Hlong. destruct (Hban) as (r & Ha & Hb & HT).
  assert (Hclr : ∀ now r', op_time o = now → pr_state r' = BANNED → T ≤ pr_banned_until r' → clear_expired_ban now r' = r').
  { intros now r' <- _ ?. apply ban_not_expired. lia. }
  assert (Hadd : ∀ now i, pr_state (added m a now i) = BANNED ∧ T ≤ pr_banned_until (added m a now i)).
  { intros now i. unfold added. by rewrite Ha. }
  destruct o as [b now i|b now i|b now|b now|b now|b score now|b now|now limit]; cbn [op_step op_time] in *.
  - rewrite add_peer_run. case_match; [|done]. apply banned_put; [done|]. by intros <-.
  - rewrite mark_connecting_run. destruct (validate_address b); [|done]. cbv zeta. destruct (decide (a = b)) as [<-|Hne].
    + destruct (Hadd now i). rewrite Hclr, banned_is by done. apply banned_put; [done|]. by intros _.
    + by repeat case_match; (apply banned_put; [done|]).
  - rewrite mark_connected_run. destruct (decide (a = b)) as [<-|Hne].
    + rewrite Ha. cbv zeta. rewrite Hclr, banned_is by done. apply banned_put; [done|]. by intros _.
    + destruct (pm_peers m !! b); [|done]. cbv zeta. case_match; by apply banned_put.
  - rewrite mark_disconnected_run. destruct (decide (a = b)) as [<-|Hne]; [by rewrite Ha, banned_is|].
    repeat case_match; by try apply banned_put.
  - rewrite mark_failure_run. destruct (decide (a = b)) as [<-|Hne]; [by rewrite Ha, banned_is|].
    repeat case_match; by try apply banned_put.
  - rewrite report_misbehavior_run. case_match; [done|]. destruct (pm_peers m !! b) as [r'|] eqn:E; [|done].
    apply banned_put; [done|]. intros <-. rewrite Ha in E. injection E as <-. case_match; simpl; [|done]. split; [done|lia].
  - rewrite ban_peer_run. case_match; [|done]. apply banned_put; [done|]. intros <-. simpl. split; [done|lia].
  - exists r. split_and!; [|done|done]. change (pm_peers _) with (clear_expired_ban now <$> pm_peers m).
    rewrite lookup_fmap, Ha. simpl. f_equal. by apply Hclr.
Qed.

Lemma op_ban_seconds o m : ban_seconds (op_step o m) = ban_seconds m.
Proof.
  destruct o; cbn [op_step]; rewrite ?add_peer_run, ?mark_connecting_run, ?mark_connected_run, ?mark_disconnected_run,
    ?mark_failure_run, ?report_misbehavior_run, ?ban_peer_run; cbv zeta; repeat case_match; done.
Qed.

Lemma ban_run T a ops : ∀ m, banned_for T a m → Forall (λ o, op_time o < T ∧ T ≤ op_time o + ban_seconds m) ops →
  banned_for T a (run_ops ops m).
Proof.
  induction ops as [|o ops IH]; intros m Hm Hops; [done|]. apply Forall_cons in Hops as [[? ?] Hops].
  apply IH; [by apply ban_step|]. by rewrite op_ban_seconds.
Qed.

(** ** Lemmas: the order of outbound candidates *)

Lemma outbound_leb_spec x y : outbound_leb x y = true ↔
  pr_last_seen y < pr_last_seen x ∨ (pr_last_seen x = pr_last_seen y ∧
    (pr_failures x < pr_failures y ∨ (pr_failures x = pr_failures y ∧ str_leb (pr_address x) (pr_address y) = true))).
Proof. unfold outbound_leb. rewrite !orb_true_iff, !andb_true_iff, !orb_true_iff, !andb_true_iff, !Z.ltb_lt, !Z.eqb_eq. done. Qed.

Lemma outbound_leb_total x y : outbound_leb x y = true ∨ outbound_leb y x = true.
Proof.
  rewrite !outbound_leb_spec. destruct (Z.lt_trichotomy (pr_last_seen x) (pr_last_seen y)) as [?|[?|?]]; [by auto| |by auto].
  destruct (Z.lt_trichotomy (pr_failures x) (pr_failures y)) as [?|[?|?]]; [by auto| |by auto].
  destruct (str_leb_total (pr_address x) (pr_address y)); [left|right]; right; auto.
Qed.

Lemma outbound_leb_trans x y z : outbound_leb x y = true → outbound_leb y z = true → outbound_leb x z = true.
Proof.
  rewrite !outbound_leb_spec. intros [?|(? & [?|[? H1]])] [?|(? & [?|[? H2]])]; try (left; lia); right; (split; [lia|]);
    try (left; lia). right. split; [lia|]. by eapply str_leb_trans.
Qed.

(** What [eligible_outbound] lists. *)
Lemma eligible_elem now m r :
  r ∈ sort_by outbound_leb (filter (λ r, eligible now r = true) (map_to_list (clear_expired_ban now <$> pm_peers m)).*2) ↔
  ∃ a r0, pm_peers m !! a = Some r0 ∧ r = clear_expired_ban now r0 ∧ eligible now r = true.
Proof.
  rewrite sort_by_perm, list_elem_of_filter, list_elem_of_fmap. split.
  - intros (He & [a r1] & -> & Hin). apply elem_of_map_to_list in Hin. rewrite lookup_fmap, fmap_Some in Hin.
    destruct Hin as (r0 & Ha & ->). by exists a, r0.
  - intros (a & r0 & Ha & -> & He). split; [done|]. exists (a, clear_expired_ban now r0). split; [done|].
    apply elem_of_map_to_list. by rewrite lookup_fmap, Ha.
Qed.

Lemma slice_take {A} k (l : list A) : ∃ n, slice_to k l = take n l ∧ (0 ≤ k → zlen (slice_to k l) ≤ k).
Proof.
  unfold slice_to. eexists. split; [done|]. intros Hk. destruct (Z.ltb_spec k 0); [lia|].
  unfold zlen. rewrite length_take. lia.
Qed.

(** ** Lemmas: records and their addresses *)

Definition record_ok (a : str) (r : PeerRecord) : Prop :=
  pr_address r = a ∧ validate_address a = Ok tt ∧ 0 ≤ pr_failures r.

(** Every record is kept under its own, valid address. *)
Definition manager_wf (m : PeerManager) : Prop := map_Forall record_ok (pm_peers m).

Lemma wf_put m a r : manager_wf m → record_ok a r → manager_wf (put a r m).
Proof. intros Hm Hr. by apply map_Forall_insert_2. Qed.

Lemma ok_clear a now r : record_ok a r → record_ok a (clear_expired_ban now r).
Proof. unfold clear_expired_ban. by case_match. Qed.

Lemma ok_added m a now i : manager_wf m → validate_address a = Ok tt → record_ok a (added m a now i).
Proof.
  intros Hm Ha. unfold added. destruct (pm_peers m !! a) as [r|] eqn:E; [|by split_and!].
  apply (Hm _ _ E).
Qed.

Lemma wf_step o m : manager_wf m → manager_wf (op_step o m).
Proof.
  intros Hm. destruct o as [a now i|a now i|a now|a now|a now|a score now|a now|now limit]; cbn [op_step].
  - rewrite add_peer_run. destruct (validate_address a) as [[]|] eqn:E; [|done]. apply wf_put; [done|]. by apply ok_added.
  - rewrite mark_connecting_run. destruct (validate_address a) as [[]|] eqn:E; [|done]. cbv zeta.
    pose proof (ok_clear _ now _ (ok_added m a now i Hm E)) as Hr. by repeat case_match; apply wf_put.
  - rewrite mark_connected_run. destruct (pm_peers m !! a) as [r|] eqn:E; [|done]. cbv zeta.
    pose proof (ok_clear _ now _ (Hm _ _ E)) as Hr. case_match; apply wf_put; try done. by destruct Hr as (? & ? & ?).
  - rewrite mark_disconnected_run. destruct (pm_peers m !! a) as [r|] eqn:E; [|done]. case_match; [done|].
    apply wf_put; [done|]. exact (Hm _ _ E).
  - rewrite mark_failure_run. destruct (pm_peers m !! a) as [r|] eqn:E; [|done]. case_match; [done|].
    apply wf_put; [done|]. destruct (Hm _ _ E) as (? & ? & ?). split_and!; [done..|simpl; lia].
  - rewrite report_misbehavior_run. case_match; [done|]. destruct (pm_peers m !! a) as [r|] eqn:E; [|done].
    apply wf_put; [done|]. case_match; exact (Hm _ _ E).
  - rewrite ban_peer_run. destruct (pm_peers m !! a) as [r|] eqn:E; [|done]. apply wf_put; [done|]. exact (Hm _ _ E).
  - change (manager_wf (with_peers (clear_expired_ban now <$> pm_peers m) m)). apply map_Forall_fmap.
    intros a r Ha. apply ok_clear. by apply Hm.
Qed.

Lemma wf_run ops : ∀ m, manager_wf m → manager_wf (run_ops ops m).
Proof. induction ops as [|o ops IH]; intros m Hm; [done|]. apply IH. by apply wf_step. Qed.

(** The run keeps to the orders [orderly] allows. *)
Fixpoint orderly_run (m : PeerManager) (ops : list peer_op) : Prop :=
  match ops with
  | [] => True
  | o :: ops' => orderly m o ∧ orderly_run (op_step o m) ops'
  end.

Lemma limits_run ops : ∀ m, within_limits m → orderly_run m ops → within_limits (run_ops ops m).
Proof. induction ops as [|o ops IH]; intros m Hm Ho; [done|]. destruct Ho. apply IH; [by apply op_limits|done]. Qed.

Lemma manager_init_spec out inb th base mx ban m : manager_init out inb th base mx ban = Ok m →
  m = mkManager out inb th base mx ban ∅ ∧ 0 ≤ out ∧ 0 ≤ inb ∧ 0 < th.
Proof.
  unfold manager_init. intros E. inv_ok E. subst. apply orb_false_iff in Hc as [? ?]. bool_prop. done.
Qed.

(** A run of failures of one peer. *)
Lemma failures_run a (ts : list Z) : ∀ m r now, pm_peers m !! a = Some r → is_banned r = false →
  let m' := run_ops (OFailure a <$> ts ++ [now]) m in
  let n := pr_failures r + zlen ts in
  pm_peers m' !! a = Some (disconnected_at (now + backoff_delay m (n + 1)) (n + 1) r).
Proof.
  induction ts as [|t ts IH]; intros m r now Ha Hb; cbn [app fmap list_fmap run_ops foldl op_step];
    rewrite mark_failure_run, Ha, Hb; cbv zeta; cbn [fst].
  - rewrite lookup_put, decide_True by done. change (zlen []) with 0. by rewrite Z.add_0_r.
  - set (r1 := disconnected_at _ _ r).
    assert (H1 : pm_peers (put a r1 m) !! a = Some r1) by (by rewrite lookup_put, decide_True).
    specialize (IH (put a r1 m) r1 now H1 eq_refl). cbv zeta in IH. unfold run_ops in IH. rewrite IH, zlen_cons.
    cbn [pr_failures r1 disconnected_at].
    replace (pr_failures r + 1 + zlen ts) with (pr_failures r + (1 + zlen ts)) by lia. done.
Qed.

(** ** Properties *)

(** Two outbound slots; one peer connected, another one known. *)
Definition sample_manager0 : PeerManager := mkManager 2 1 100 30 3600 86400 ∅.
Definition peer_a : str := py "10.0.0.1:8333".
Definition peer_b : str := py "10.0.0.2:8333".
Definition sample_ops : list peer_op := [OConnecting peer_a 5 false; OConnected peer_a 6; OAdd peer_b 7 false].
Definition sample_manager : PeerManager := run_ops sample_ops sample_manager0.
Definition sample_record (a : str) (m : PeerManager) : PeerRecord := default (new_peer a 0 false) (pm_peers m !! a).

Lemma sample_manager_wf : manager_wf sample_manager.
Proof. by apply wf_run. Qed.

(** C29: A ban holds.  From the moment a peer is banned until the ban expires,
    whatever operations run meanwhile on any peers, the peer stays banned,
    cannot be marked connecting or connected, and is never offered as an
    outbound candidate. *)
Theorem ban_holds m a r now ops t inbound :
  manager_wf m → pm_peers m !! a = Some r →
  Forall (λ o, now ≤ op_time o < now + ban_seconds m) ops → now ≤ t < now + ban_seconds m →
  let m' := run_ops ops (ban_peer a now m).1 in
  (∃ r', pm_peers m' !! a = Some r' ∧ pr_state r' = BANNED) ∧
  (mark_connecting a t inbound m').2 = raise PeerManagerError "peer is banned" ∧
  (mark_connected a t m').2 = raise PeerManagerError "peer is banned" ∧
  ∀ l, (eligible_outbound t m').2 = Ok l → Forall (λ x, pr_address x ≠ a) l.
Proof.
  intros Hwf Ha Hops Ht m'. destruct (Hwf _ _ Ha) as (_ & Hval & _).
  assert (Hban : banned_for (now + ban_seconds m) a m').
  { apply ban_run.
    - rewrite ban_peer_run, Ha. exists (banned_at (now + ban_seconds m) r). cbn [fst]. by rewrite lookup_put, decide_True.
    - rewrite ban_peer_run, Ha. eapply Forall_impl; [exact Hops|]. simpl. lia. }
  assert (Hwf' : manager_wf m') by (apply wf_run; by apply (wf_step (OBan a now))).
  destruct Hban as (r' & Hr' & Hb & HT). split; [eauto|].
  assert (Hclr : ∀ x, pr_banned_until x = pr_banned_until r' → clear_expired_ban t x = x) by (intros x Hx; apply ban_not_expired; lia).
  split; [|split].
  - rewrite mark_connecting_run, Hval. cbv zeta. unfold added. rewrite Hr', Hclr, banned_is by done. done.
  - rewrite mark_connected_run, Hr'. cbv zeta. by rewrite Hclr, banned_is.
  - rewrite eligible_outbound_run. intros l [= <-]. apply Forall_forall. intros x (b & r0 & Hb0 & -> & He)%eligible_elem Hx.
    destruct (ok_clear _ t _ (Hwf' _ _ Hb0)) as (Hab & _). assert (b = a) as -> by congruence.
    rewrite Hr' in Hb0. injection Hb0 as <-. rewrite Hclr in He by done. unfold eligible in He. by rewrite Hb in He.
Qed.

Lemma ban_holds_witness :
  let m' := run_ops [OMisbehavior peer_a 7 120; OConnected peer_b 130; OSelect 140 None] (ban_peer peer_a 100 sample_manager).1 in
  (∃ r', pm_peers m' !! peer_a = Some r' ∧ pr_state r' = BANNED) ∧
  (mark_connecting peer_a 150 true m').2 = raise PeerManagerError "peer is banned" ∧
  (mark_connected peer_a 150 m').2 = raise PeerManagerError "peer is banned" ∧
  ∀ l, (eligible_outbound 150 m').2 = Ok l → Forall (λ x, pr_address x ≠ peer_a) l.
Proof.
  apply (ban_holds sample_manager peer_a (sample_record peer_a sample_manager) 100
    [OMisbehavior peer_a 7 120; OConnected peer_b 130; OSelect 140 None] 150 true).
  - exact sample_manager_wf.
  - vm_compute. reflexivity.
  - repeat constructor; vm_compute; discriminate.
  - split; vm_compute; [discriminate|reflexivity].
Defined.

(** C28: Connection limits.  From a fresh manager, through any orderly run (an
    active peer keeps its direction, and only connecting peers are marked
    connected), the active outbound and inbound peers never exceed their
    limits, and [select_outbound] never offers more peers than there are free
    outbound slots. *)
Theorem limits_hold out inb th base mx ban m0 ops now l :
  manager_init out inb th base mx ban = Ok m0 → orderly_run m0 ops →
  (select_outbound now None (run_ops ops m0)).2 = Ok l →
  within_limits (run_ops ops m0) ∧ outbound_count (run_ops ops m0) + zlen l ≤ max_outbound (run_ops ops m0).
Proof.
  intros (-> & ? & ? & _)%manager_init_spec Ho Hl. set (m := run_ops _ _) in *.
  assert (Hm : within_limits m) by (by apply limits_run). split; [done|]. destruct Hm as [Hout _].
  unfold select_outbound in Hl. revert Hl. run_sm. rewrite eligible_outbound_run. intros [= <-].
  destruct (slice_take (Z.max 0 (max_outbound m - outbound_count m))
    (sort_by outbound_leb (filter (λ r, eligible now r = true) (map_to_list (clear_expired_ban now <$> pm_peers m)).*2))) as (_ & _ & Hs).
  specialize (Hs ltac:(lia)). lia.
Qed.

Lemma limits_hold_witness :
  within_limits sample_manager ∧
  outbound_count sample_manager + zlen [new_peer peer_b 7 false] ≤ max_outbound sample_manager.
Proof.
  apply (limits_hold 2 1 100 30 3600 86400 sample_manager0 sample_ops 10 [new_peer peer_b 7 false]).
  - reflexivity.
  - split; [|split; [|split; [|exact I]]]; intros r E; revert E; vm_compute; by intros [= <-].
  - vm_compute. reflexivity.
Defined.

(** Outside that discipline the limits do not hold: marking a connected
    outbound peer connecting from the other side skips the check, so a manager
    that allows no inbound peer has one. *)
Theorem direction_flip_exceeds :
  ∃ m0, manager_init 1 0 100 30 3600 86400 = Ok m0 ∧
    let m := run_ops [OConnecting (py "10.0.0.1:8333") 0 false; OConnected (py "10.0.0.1:8333") 0] m0 in
    let (m', res) := mark_connecting (py "10.0.0.1:8333") 1 true m in
    within_limits m ∧ is_ok res = true ∧ max_inbound m' < inbound_count m'.
Proof. eexists. split; [reflexivity|]. vm_compute. repeat split; discriminate. Qed.

(** Exponential backoff.  After a run of failures of an outbound peer that
    is not banned, the delay since the last one is the base delay doubled per
    failure and capped, and the peer is offered again exactly from then on. *)
Theorem backoff_schedule m a r ts now t l :
  manager_wf m → pm_peers m !! a = Some r → is_banned r = false → pr_inbound r = false →
  let m' := run_ops (OFailure a <$> ts ++ [now]) m in
  let delay := Z.min (max_backoff m) (base_backoff m * 2 ^ (pr_failures r + zlen ts)) in
  (eligible_outbound t m').2 = Ok l →
  StronglySorted (λ x y, outbound_leb x y = true) l ∧
  ((∃ x, x ∈ l ∧ pr_address x = a) ↔ now + delay ≤ t).
Proof.
  intros Hwf Ha Hb Hi m' delay. pose proof (failures_run a ts m r now Ha Hb) as Hm'. cbv zeta in Hm'. fold m' in Hm'.
  rewrite eligible_outbound_run. intros [= <-]. split.
  { apply sort_by_sorted; [apply outbound_leb_total|apply outbound_leb_trans]. }
  unfold backoff_delay in Hm'. rewrite Z.add_simpl_r in Hm'. fold delay in Hm'.
  assert (Hwf' : manager_wf m') by (by apply wf_run).
  setoid_rewrite eligible_elem. split.
  - intros (x & (b & r0 & Hb0 & -> & He) & Hx). destruct (ok_clear _ t _ (Hwf' _ _ Hb0)) as (Hab & _).
    assert (b = a) as -> by congruence. rewrite Hm' in Hb0. injection Hb0 as <-.
    unfold eligible in He. simpl in He. rewrite Hi in He. simpl in He. by bool_prop.
  - intros Hle. eexists. split; [do 2 eexists; split; [exact Hm'|]; split; [done|]|].
    + unfold eligible. simpl. rewrite Hi. simpl. by apply Z.leb_le.
    + simpl. apply (Hwf _ _ Ha).
Qed.

Definition failed_twice : PeerManager := run_ops (OFailure peer_b <$> [20] ++ [60]) sample_manager.

Lemma backoff_schedule_witness :
  StronglySorted (λ x y, outbound_leb x y = true) (ok_or [] (eligible_outbound 120 failed_twice).2) ∧
  ((∃ x, x ∈ ok_or [] (eligible_outbound 120 failed_twice).2 ∧ pr_address x = peer_b) ↔
   60 + Z.min 3600 (30 * 2 ^ (0 + zlen [20])) ≤ 120).
Proof.
  apply (backoff_schedule sample_manager peer_b (sample_record peer_b sample_manager) [20] 60 120
    (ok_or [] (eligible_outbound 120 failed_twice).2)).
  - exact sample_manager_wf.
  - vm_compute. reflexivity.
  - vm_compute. reflexivity.
  - vm_compute. reflexivity.
  - reflexivity.
Defined.
