(* ===== verification/WireJson.v ===== *)
(** * JSON on the wire ([json.loads] and [json.dumps])

    The values a peer message is made of, floats included, the text
    [crypto.canonical_json] writes for them and the parser [json.loads] is: the
    grammar of Python's scanner (white space, escapes with surrogate pairs,
    [NaN] and [Infinity], the number syntax, duplicate keys, the limit on the
    digits of an integer).  The limit on nesting is not modelled.  Only the
    conversions between floats or free-form numerals and text are parameters. *)

From S2P Require Import Prelude PyBytes PyText Json.
Local Open Scope Z_scope.

(** A Python value built from JSON; a float is its 64-bit pattern. *)
Inductive value :=
  | VNull
  | VBool (b : bool)
  | VInt (z : Z)
  | VFloat (x : Z)
  | VStr (s : str)
  | VArr (l : list value)
  | VObj (l : list (str * value)).

(** [float.__repr__], [float(text)] and [int(text)] of the language. *)
Class NumText := {
  float_repr : Z → str;
  float_of_text : str → result Z;
  int_of_text : str → result Z;
}.

(** ** Writing *)

Definition float_nan : Z := 0x7FF8000000000000.
Definition float_inf : Z := 0x7FF0000000000000.
Definition float_neg_inf : Z := 0xFFF0000000000000.
Definition float_exp (x : Z) : Z := x / 2 ^ 52 mod 2048.
Definition float_man (x : Z) : Z := x mod 2 ^ 52.
Definition float_neg (x : Z) : bool := 2 ^ 63 <=? x.
Definition float_finite (x : Z) : bool := negb (float_exp x =? 2047).

Definition float_json `{NumText} (x : Z) : str :=
  if float_finite x then float_repr x
  else if negb (float_man x =? 0) then py "NaN"
  else if float_neg x then py "-Infinity" else py "Infinity".

(** [canonical_json(value)] *)
Fixpoint dumps `{NumText} (v : value) : str :=
  match v with
  | VNull => py "null"
  | VBool true => py "true"
  | VBool false => py "false"
  | VInt z => str_of_int z
  | VFloat x => float_json x
  | VStr s => json_string s
  | VArr l => 91 :: join 44 (map dumps l) ++ [93]
  | VObj l =>
      123 :: join 44 (map json_item (sort_by item_leb
               (map (λ kv, (kv.1, dumps kv.2)) l))) ++ [125]
  end.

(** The white space of a layout: a line break before each element at its depth,
    and what separates a key from its value. *)
Record Layout := mkLayout { ly_break : nat → str; ly_colon : str }.

Definition compact : Layout := mkLayout (λ _, []) [58].

(** [json.dumps(value, indent=2, sort_keys=True)]: [render indent2 0]. *)
Definition indent2 : Layout := mkLayout (λ n, 10 :: replicate (2 * n) 32) [58; 32].

Definition lay_item (y : Layout) (n : nat) (kv : str * str) : str := ly_break y n ++ json_string kv.1 ++ ly_colon y ++ kv.2.

Fixpoint render `{NumText} (y : Layout) (n : nat) (v : value) : str :=
  match v with
  | VNull => py "null"
  | VBool true => py "true"
  | VBool false => py "false"
  | VInt z => str_of_int z
  | VFloat x => float_json x
  | VStr s => json_string s
  | VArr [] => py "[]"
  | VArr l => 91 :: join 44 (map (λ x, ly_break y (S n) ++ render y (S n) x) l) ++ ly_break y n ++ [93]
  | VObj [] => py "{}"
  | VObj l =>
      123 :: join 44 (map (lay_item y (S n)) (sort_by item_leb
               (map (λ kv, (kv.1, render y (S n) kv.2)) l))) ++ ly_break y n ++ [125]
  end.

(** ** Scanning *)

Definition json_space (c : Z) : bool := (c =? 32) || (c =? 9) || (c =? 10) || (c =? 13).

Fixpoint skip_space (s : str) : str :=
  match s with
  | c :: s' => if json_space c then skip_space s' else s
  | [] => []
  end.

Definition simple_escape (e : Z) : option Z :=
  if e =? 34 then Some 34 else if e =? 92 then Some 92 else if e =? 47 then Some 47
  else if e =? 98 then Some 8 else if e =? 102 then Some 12 else if e =? 110 then Some 10
  else if e =? 114 then Some 13 else if e =? 116 then Some 9 else None.

Definition high_surrogate (u : Z) : bool := (0xD800 <=? u) && (u <? 0xDC00).
Definition low_surrogate (u : Z) : bool := (0xDC00 <=? u) && (u <? 0xE000).

Definition scan_cons (c : Z) (r : result (str * str)) : result (str * str) :=
  x ← r; Ok (c :: x.1, x.2).

(** The rest of a string literal, after its opening quote. *)
Fixpoint scan_string (s : str) : result (str * str) :=
  match s with
  | [] => raise JSONDecodeError "Unterminated string"
  | c :: r =>
      if c =? 34 then Ok ([], r)
      else if c =? 92 then
        match r with
        | [] => raise JSONDecodeError "Unterminated string"
        | e :: r1 =>
            if e =? 117 then
              match r1 with
              | a :: b :: c1 :: d :: r2 =>
                  match hex4_val a b c1 d with
                  | None => raise JSONDecodeError "Invalid \uXXXX escape"
                  | Some u =>
                      match r2 with
                      | x :: y :: a' :: b' :: c' :: d' :: r3 =>
                          if high_surrogate u && (x =? 92) && (y =? 117) then
                            match hex4_val a' b' c' d' with
                            | None => raise JSONDecodeError "Invalid \uXXXX escape"
                            | Some v =>
                                if low_surrogate v
                                then scan_cons (0x10000 + (u - 0xD800) * 1024 + (v - 0xDC00)) (scan_string r3)
                                else scan_cons u (scan_string r2)
                            end
                          else scan_cons u (scan_string r2)
                      | _ => scan_cons u (scan_string r2)
                      end
                  end
              | _ => raise JSONDecodeError "Invalid \uXXXX escape"
              end
            else match simple_escape e with
                 | Some ch => scan_cons ch (scan_string r1)
                 | None => raise JSONDecodeError "Invalid escape"
                 end
        end
      else if c <? 32 then raise JSONDecodeError "Invalid control character at"
      else scan_cons c (scan_string r)
  end.

Fixpoint digit_span (s : str) : str * str :=
  match s with
  | c :: s' => if is_digit c then (c :: (digit_span s').1, (digit_span s').2) else ([], s)
  | [] => ([], [])
  end.

Definition sign_span (s : str) : str * str :=
  match s with c :: s' => if c =? 45 then ([45], s') else ([], s) | [] => ([], []) end.

(** [0] or digits without a leading zero. *)
Definition int_part (s : str) : option (str * str) :=
  match s with
  | c :: s' => if c =? 48 then Some ([48], s') else if is_digit c then Some (digit_span s) else None
  | [] => None
  end.

Definition frac_part (s : str) : str * str :=
  match s with
  | c :: s' => if c =? 46 then match digit_span s' with ([], _) => ([], s) | (ds, r) => (46 :: ds, r) end else ([], s)
  | [] => ([], [])
  end.

Definition exp_sign (s : str) : str * str :=
  match s with c :: s' => if (c =? 43) || (c =? 45) then ([c], s') else ([], s) | [] => ([], []) end.

Definition exp_part (s : str) : str * str :=
  match s with
  | c :: s' =>
      if (c =? 101) || (c =? 69) then
        let '(sg, r) := exp_sign s' in
        match digit_span r with ([], _) => ([], s) | (ds, r') => (c :: sg ++ ds, r') end
      else ([], s)
  | [] => ([], [])
  end.

(** The numeral at the start of a text: its characters, whether it is a float,
    what follows. *)
Definition scan_number (s : str) : option (str * bool * str) :=
  let '(sg, s1) := sign_span s in
  '(ip, s2) ← int_part s1;
  let '(fp, s3) := frac_part s2 in
  let '(ep, s4) := exp_part s3 in
  Some (sg ++ ip ++ fp ++ ep, negb (bool_decide (fp ++ ep = [])), s4).

(** The integer a numeral without fraction stands for. *)
Definition int_value (t : str) : Z := match t with c :: t' => if c =? 45 then - dec_val t' else dec_val t | [] => 0 end.

Definition MAX_STR_DIGITS : Z := 4300.

Definition number_value `{NumText} (t : str) (is_float : bool) : result value :=
  if is_float then VFloat <$> float_of_text t
  else
    raise_if (MAX_STR_DIGITS <? zlen (filter (λ c, is_digit c = true) t)) ValueError
      "Exceeds the limit (4300 digits) for integer string conversion";;
    Ok (VInt (int_value t)).

Definition keywords : list (str * value) :=
  [(py "null", VNull); (py "true", VBool true); (py "false", VBool false); (py "NaN", VFloat float_nan);
   (py "Infinity", VFloat float_inf); (py "-Infinity", VFloat float_neg_inf)].

Fixpoint scan_keyword (ks : list (str * value)) (s : str) : option (value * str) :=
  match ks with
  | [] => None
  | (k, v) :: ks' => if startswith s k then Some (v, drop (length k) s) else scan_keyword ks' s
  end.

(** [d[k] = v] on a dictionary in insertion order. *)
Fixpoint obj_set {V} (k : str) (v : V) (l : list (str * V)) : list (str * V) :=
  match l with
  | [] => [(k, v)]
  | (k', v') :: l' => if bool_decide (k' = k) then (k, v) :: l' else (k', v') :: obj_set k v l'
  end.

Definition expecting {A} (what : string) : result A := raise JSONDecodeError what.

(** [scan_once], and the loops of arrays and objects: what they take after the
    elements read so far.  The fuel bounds the nesting of calls. *)
Fixpoint scan_value `{NumText} (fuel : nat) (s : str) : result (value * str) :=
  match fuel with
  | O => raise OutOfFuel ""
  | S k =>
      match s with
      | [] => expecting "Expecting value"
      | c :: r =>
          if c =? 34 then x ← scan_string r; Ok (VStr x.1, x.2)
          else if c =? 123 then
            match skip_space r with
            | c1 :: r1 => if c1 =? 125 then Ok (VObj [], r1) else scan_members k (c1 :: r1) []
            | [] => expecting "Expecting property name"
            end
          else if c =? 91 then
            match skip_space r with
            | c1 :: r1 => if c1 =? 93 then Ok (VArr [], r1) else scan_items k (c1 :: r1) []
            | [] => expecting "Expecting value"
            end
          else match scan_keyword keywords s with
               | Some x => Ok x
               | None =>
                   match scan_number s with
                   | Some (t, is_float, r') => v ← number_value t is_float; Ok (v, r')
                   | None => expecting "Expecting value"
                   end
               end
      end
  end
with scan_items `{NumText} (fuel : nat) (s : str) (acc : list value) : result (value * str) :=
  match fuel with
  | O => raise OutOfFuel ""
  | S k =>
      x ← scan_value k s;
      match skip_space x.2 with
      | c :: r =>
          if c =? 93 then Ok (VArr (acc ++ [x.1]), r)
          else if c =? 44 then scan_items k (skip_space r) (acc ++ [x.1])
          else expecting "Expecting ',' delimiter"
      | [] => expecting "Expecting ',' delimiter"
      end
  end
with scan_members `{NumText} (fuel : nat) (s : str) (acc : list (str * value)) : result (value * str) :=
  match fuel with
  | O => raise OutOfFuel ""
  | S k =>
      match s with
      | q :: r =>
          if q =? 34 then
            key ← scan_string r;
            match skip_space key.2 with
            | c :: r1 =>
                if c =? 58 then
                  x ← scan_value k (skip_space r1);
                  match skip_space x.2 with
                  | c2 :: r2 =>
                      if c2 =? 125 then Ok (VObj (obj_set key.1 x.1 acc), r2)
                      else if c2 =? 44 then scan_members k (skip_space r2) (obj_set key.1 x.1 acc)
                      else expecting "Expecting ',' delimiter"
                  | [] => expecting "Expecting ',' delimiter"
                  end
                else expecting "Expecting ':' delimiter"
            | [] => expecting "Expecting ':' delimiter"
            end
          else expecting "Expecting property name"
      | [] => expecting "Expecting property name"
      end
  end.

(** [json.loads(text)] *)
Definition loads `{NumText} (s : str) : result value :=
  raise_if (bool_decide (head s = Some 0xFEFF)) JSONDecodeError "Unexpected UTF-8 BOM (decode using utf-8-sig)";;
  x ← scan_value (S (2 * length s)) (skip_space s);
  raise_if (negb (bool_decide (skip_space x.2 = []))) JSONDecodeError "Extra data";;
  Ok x.1.

(** What the model relies on for the numeral conversions: they fail with
    [ValueError] only, and the text [repr] gives a finite float is a JSON float
    that reads back as the same float. *)
Class NumTextOk `{NumText} := {
  float_of_text_raises : ∀ t, raises_only (exn_is ValueError) (float_of_text t);
  int_of_text_raises : ∀ t, raises_only (exn_is ValueError) (int_of_text t);
  float_repr_scans : ∀ x, 0 ≤ x < 2 ^ 64 → float_finite x = true → scan_number (float_repr x) = Some (float_repr x, true, []);
  float_repr_reads : ∀ x, 0 ≤ x < 2 ^ 64 → float_finite x = true → float_of_text (float_repr x) = Ok x;
}.

(** ** Lemmas: nothing is read twice *)

(** Both kinds of error the parser has. *)
Definition json_error (e : exn) : bool := exn_is JSONDecodeError e || exn_is ValueError e.

(** A scan that consumes some of a text of [n] characters or fails as JSON. *)
Definition scans {A} (n : nat) (m : result (A * str)) : Prop :=
  match m with Ok x => (length x.2 < n)%nat | Err e => json_error e = true end.

Lemma scans_bind {A B} n (m : result (A * str)) (f : A * str → result (B * str)) :
  scans n m → (∀ x, (length x.2 < n)%nat → scans n (f x)) → scans n (m ≫= f).
Proof. intros Hm Hf. destruct m as [x|e]; [|done]. by apply Hf. Qed.

Lemma scans_cons n c m : scans n m → scans n (scan_cons c m).
Proof. unfold scan_cons. by destruct m. Qed.

Lemma scans_le {A} n k (m : result (A * str)) : (n ≤ k)%nat → scans n m → scans k m.
Proof. destruct m; simpl; [lia|done]. Qed.

Lemma skip_space_le s : (length (skip_space s) ≤ length s)%nat.
Proof. induction s as [|c s IH]; simpl; [done|]. case_match; simpl; lia. Qed.

Lemma scan_string_scans s : scans (length s) (scan_string s).
Proof.
  remember (length s) as n eqn:Hn. revert s Hn. induction (lt_wf n) as [n _ IH]. intros s ->.
  assert (Hrec : ∀ c r, (length r < length s)%nat → scans (length s) (scan_cons c (scan_string r))).
  { intros c r Hr. apply scans_cons. apply scans_le with (length r); [lia|]. by eapply IH. }
  destruct s as [|c r]; [done|]. cbn [scan_string]. simpl length in *.
  destruct (c =? 34); [simpl; lia|]. destruct (c =? 92).
  - destruct r as [|e r1]; [done|]. simpl length in *. destruct (e =? 117).
    + destruct r1 as [|a [|b [|c1 [|d r2]]]]; try done. simpl length in *. destruct (hex4_val a b c1 d) as [u|]; [|done].
      destruct r2 as [|x [|y [|a' [|b' [|c' [|d' r3]]]]]]; simpl length in *; try (apply Hrec; simpl; lia).
      destruct (high_surrogate u && (x =? 92) && (y =? 117)); [|apply Hrec; simpl; lia].
      destruct (hex4_val a' b' c' d') as [v|]; [|done]. destruct (low_surrogate v); apply Hrec; simpl; lia.
    + destruct (simple_escape e); [|done]. apply Hrec. lia.
  - destruct (c <? 32); [done|]. apply Hrec. lia.
Qed.

Lemma digit_span_app s : s = (digit_span s).1 ++ (digit_span s).2.
Proof. induction s as [|c s IH]; simpl; [done|]. destruct (is_digit c); [|done]. simpl. by rewrite <- IH. Qed.

(** The parts of a numeral are consecutive pieces of the text. *)
Lemma scan_number_app s t b r : scan_number s = Some (t, b, r) → s = t ++ r ∧ t ≠ [].
Proof.
  unfold scan_number. destruct (sign_span s) as [sg s1] eqn:E1.
  assert (H1 : s = sg ++ s1).
  { unfold sign_span in E1. destruct s as [|c s]; [by simplify_eq|]. destruct (Z.eqb_spec c 45); by simplify_eq. }
  destruct (int_part s1) as [[ip s2]|] eqn:E2; [|done]. cbn [mbind option_bind].
  assert (H2 : s1 = ip ++ s2 ∧ ip ≠ []).
  { unfold int_part in E2. destruct s1 as [|c s1]; [done|]. destruct (Z.eqb_spec c 48); [by simplify_eq|].
    destruct (is_digit c) eqn:Ed; [|done]. injection E2 as E2. change (digit_span (c :: s1) = (ip, s2)) in E2. pose proof (digit_span_app (c :: s1)) as Hs.
    rewrite E2 in Hs. split; [done|]. cbn [digit_span] in E2. rewrite Ed in E2. by injection E2 as <- _. }
  destruct (frac_part s2) as [fp s3] eqn:E3.
  assert (H3 : s2 = fp ++ s3).
  { unfold frac_part in E3. destruct s2 as [|c s2]; [by simplify_eq|]. destruct (Z.eqb_spec c 46) as [->|]; [|by simplify_eq].
    pose proof (digit_span_app s2) as Hs. destruct (digit_span s2) as [[|d ds] r2]; simpl in Hs; simplify_eq; done. }
  destruct (exp_part s3) as [ep s4] eqn:E4.
  assert (H4 : s3 = ep ++ s4).
  { unfold exp_part in E4. destruct s3 as [|c s3]; [by simplify_eq|]. destruct ((c =? 101) || (c =? 69)); [|by simplify_eq].
    destruct (exp_sign s3) as [es r3] eqn:E5.
    assert (H5 : s3 = es ++ r3).
    { unfold exp_sign in E5. destruct s3 as [|c3 s3]; [by simplify_eq|]. destruct ((c3 =? 43) || (c3 =? 45)); by simplify_eq. }
    pose proof (digit_span_app r3) as Hs. destruct (digit_span r3) as [[|d ds] r4]; simpl in Hs; simplify_eq; [done|].
    by rewrite <- app_comm_cons, <- app_assoc. }
  intros [= <- _ <-]. destruct H2 as [-> Hip]. subst. split; [by rewrite <- !app_assoc|]. destruct sg, ip; done.
Qed.

Lemma scan_number_scans s t b r : scan_number s = Some (t, b, r) → (length r < length s)%nat.
Proof. intros [-> Ht]%scan_number_app. rewrite length_app. destruct t; [done|]. simpl. lia. Qed.

Lemma startswith_length s k : startswith s k = true → (length k ≤ length s)%nat.
Proof. intros [s' ->]%startswith_spec. rewrite length_app. lia. Qed.

Lemma scan_keyword_scans ks s v r : Forall (λ k, k.1 ≠ []) ks → scan_keyword ks s = Some (v, r) → (length r < length s)%nat.
Proof.
  induction 1 as [|[k w] ks Hk Hks IH]; simpl; [done|]. destruct (startswith s k) eqn:E; [|done].
  intros [= <- <-]. apply startswith_length in E. rewrite length_drop. destruct k; simpl in *; [done|]. lia.
Qed.

Section scan.
Context `{NumTextOk}.

Lemma number_value_raises t b : ∀ e, number_value t b = Err e → json_error e = true.
Proof using Type*.
  intros e. unfold number_value. destruct b.
  - pose proof (float_of_text_raises t) as Hr. destruct (float_of_text t); simpl; [done|]. intros [= ->].
    unfold json_error. rewrite (Hr e eq_refl). apply orb_true_r.
  - unfold raise_if. case_match; simpl; [|done]. by intros [= <-].
Qed.

(** Twice the length of the text is enough fuel. *)
Lemma scan_fuel fuel :
  (∀ s, (2 * length s + 1 ≤ fuel)%nat → scans (length s) (scan_value fuel s)) ∧
  (∀ s acc, (2 * length s + 2 ≤ fuel)%nat → scans (length s) (scan_items fuel s acc)) ∧
  (∀ s acc, (2 * length s + 2 ≤ fuel)%nat → scans (length s) (scan_members fuel s acc)).
Proof using Type*.
  induction fuel as [|k (IHv & IHi & IHm)]; [split_and!; intros; lia|]. split_and!.
  - intros [|c r] Hf; [done|]. simpl length in *. cbn [scan_value]. pose proof (skip_space_le r) as Hsk.
    destruct (c =? 34).
    { apply scans_bind; [eapply scans_le; [|apply scan_string_scans]; lia|]. intros x Hx. simpl. lia. }
    destruct (c =? 123).
    { destruct (skip_space r) as [|c1 r1] eqn:E; [done|]. simpl length in Hsk. destruct (c1 =? 125); [simpl; lia|].
      eapply scans_le; [|apply IHm]; simpl; lia. }
    destruct (c =? 91).
    { destruct (skip_space r) as [|c1 r1] eqn:E; [done|]. simpl length in Hsk. destruct (c1 =? 93); [simpl; lia|].
      eapply scans_le; [|apply IHi]; simpl; lia. }
    destruct (scan_keyword keywords (c :: r)) as [[v r']|] eqn:E.
    { apply (scan_keyword_scans keywords (c :: r)) in E; [exact E|]. by repeat constructor. }
    destruct (scan_number (c :: r)) as [[[t b] r']|] eqn:E2; [|done]. apply scan_number_scans in E2.
    destruct (number_value t b) eqn:E3; simpl; [exact E2|]. by eapply number_value_raises.
  - intros s acc Hf. cbn [scan_items]. apply scans_bind; [apply IHv; lia|]. intros x Hx.
    pose proof (skip_space_le x.2) as Hsk. destruct (skip_space x.2) as [|c r] eqn:E; [done|]. simpl length in Hsk.
    destruct (c =? 93); [simpl; lia|]. destruct (c =? 44); [|done]. pose proof (skip_space_le r).
    eapply scans_le; [|apply IHi]; lia.
  - intros [|q r] acc Hf; [done|]. simpl length in *. cbn [scan_members]. destruct (q =? 34); [|done].
    apply scans_bind; [eapply scans_le; [|apply scan_string_scans]; lia|]. intros key Hkey.
    pose proof (skip_space_le key.2) as Hsk. destruct (skip_space key.2) as [|c r1] eqn:E; [done|]. simpl length in Hsk.
    destruct (c =? 58); [|done]. pose proof (skip_space_le r1) as Hsk1.
    apply scans_bind; [eapply scans_le; [|apply IHv]; lia|]. intros x Hx.
    pose proof (skip_space_le x.2) as Hsk2. destruct (skip_space x.2) as [|c2 r2] eqn:E2; [done|]. simpl length in Hsk2.
    destruct (c2 =? 125); [simpl; lia|]. destruct (c2 =? 44); [|done]. pose proof (skip_space_le r2).
    eapply scans_le; [|apply IHm]; lia.
Qed.

(** [loads] always returns or raises a JSON error. *)
Lemma loads_raises s : raises_only json_error (loads s).
Proof using Type*.
  unfold loads. apply raises_only_bind; [by apply raises_only_if|]. intros _ _.
  pose proof (proj1 (scan_fuel (S (2 * length s))) (skip_space s)) as Hs. pose proof (skip_space_le s).
  apply raises_only_bind; [|intros; apply raises_only_bind; [by apply raises_only_if|intros; apply raises_only_ok]].
  intros e E. rewrite E in Hs. apply Hs. lia.
Qed.

End scan.
