(* ===== verification/Explorer.v ===== *)
(** * What a node reports (utxo_node.py, the summaries of [ConsensusNode])

    [mempool_summary], [block_summary], [transaction_summary] and
    [active_chain_hashes], and the dictionaries of transactions they show
    (consensus.py, the [to_dict] methods).  A summary whose keys are fixed is a
    record; the dictionary of an input's public key is listed by key. *)

From S2P Require Import Prelude PyBytes PyText Sha256 Json Crypto ByteReader Transaction Block Utxo State BlockProcessor ForkStore ForkChoice Stores Policy Mempool Selection Mining Node WireJson.
Local Open Scope Z_scope.

(** ** Dictionaries *)

(** [OutPoint.to_dict], [TxInput.to_dict], [TxOutput.to_dict] *)
Definition outpoint_to_value (o : OutPoint) : value :=
  VObj [(py "txid", VStr (op_txid o)); (py "index", VInt (op_index o))].

Definition input_to_value (i : TxInput) : value :=
  VObj [(py "previous_output", outpoint_to_value (previous_output i));
        (py "signature", match in_signature i with Some s => VStr s | None => VNull end);
        (py "public_key", match in_public_key i with
                          | Some d => VObj ((λ e, (e.1, VStr e.2)) <$> by_key d)
                          | None => VNull
                          end)].

Definition output_to_value (x : TxOutput) : value :=
  VObj [(py "amount", VInt (amount x)); (py "address", VStr (out_address x))].

(** ** Summaries *)

(** A row of [mempool_summary]. *)
Record MempoolRow := mkMempoolRow {
  mr_txid : str; mr_inputs : Z; mr_outputs : Z; mr_output_value : Z;
  mr_fee : option Z; mr_fee_rate : option Z; mr_bytes : Z; mr_valid : bool;
}.

(** The dictionary of [block_summary]. *)
Record BlockSummary := mkBlockSummary {
  bs_hash : str; bs_height : Z; bs_previous_hash : str; bs_difficulty : Z; bs_timestamp : Z; bs_nonce : Z;
  bs_transaction_root : str; bs_transactions : list str; bs_transaction_count : Z; bs_cumulative_work : Z; bs_active : bool;
}.

(** The dictionary of [_transaction_summary]; the last two keys are left out
    when they are [None]. *)
Record TransactionSummary := mkTxSummary {
  ts_txid : str; ts_status : str; ts_coinbase : bool; ts_inputs : list value; ts_outputs : list value;
  ts_input_count : Z; ts_output_count : Z; ts_output_value : Z; ts_block_hash : option str; ts_height : option Z;
}.

(** The loop of [transaction_summary] over one list of transactions. *)
Fixpoint find_txid (h : str) (ts : list ConsensusTransaction) : result (option ConsensusTransaction) :=
  match ts with
  | [] => Ok None
  | t :: ts' => x ← txid t; if bool_decide (x = h) then Ok (Some t) else find_txid h ts'
  end.

(** The loop over the blocks of the active chain. *)
Fixpoint find_confirmed (h : str) (bs : list ConsensusBlock) : result (option (ConsensusTransaction * ConsensusBlock)) :=
  match bs with
  | [] => Ok None
  | b :: bs' =>
      found ← find_txid h (transactions b);
      match found with Some t => Ok (Some (t, b)) | None => find_confirmed h bs' end
  end.

(** [_transaction_summary] *)
Definition summarize_transaction (t : ConsensusTransaction) (status : string) (block_hash : option str) (height : option Z) :
    result TransactionSummary :=
  h ← txid t;
  Ok (mkTxSummary h (py status) (is_coinbase t) (input_to_value <$> inputs t) (output_to_value <$> outputs t)
        (zlen (inputs t)) (zlen (outputs t)) (sumZ (amount <$> outputs t)) block_hash height).

Section explorer.
Context `{Ed25519}.

(** The loop of [mempool_summary]: an entry that does not apply is reported as
    invalid and leaves the candidate as it is. *)
Fixpoint summarize_mempool (c : ConsensusState) (ts : list ConsensusTransaction) : result (list MempoolRow) :=
  match ts with
  | [] => Ok []
  | t :: ts' =>
      size ← serialized_size t;
      let r := apply_transaction t c in
      let priced := (fee ← r.2; rate ← fee_rate fee size; Ok (fee, rate)) in
      h ← txid t;
      rows ← summarize_mempool r.1 ts';
      Ok (mkMempoolRow h (zlen (inputs t)) (zlen (outputs t)) (sumZ (amount <$> outputs t))
            (match priced with Ok p => Some p.1 | Err _ => None end)
            (match priced with Ok p => Some p.2 | Err _ => None end) size (is_ok priced) :: rows)
  end.

(** [mempool_summary] *)
Definition mempool_summary (n : Node) : result (list MempoolRow) :=
  c ← copy_state (n_state n); summarize_mempool c (n_mempool n).

(** [active_chain_hashes] *)
Definition active_chain_hashes (n : Node) : result (list str) :=
  a ← fc_active_chain (n_fork_choice n) (n_store n); mapR block_hash (ac_blocks a).

(** The dictionary that [block_summary] returns. *)
Definition describe_block (active_hashes : list str) (b : ConsensusBlock) (work : Z) : result BlockSummary :=
  h ← block_hash b;
  ids ← mapR txid (transactions b);
  Ok (mkBlockSummary h (height b) (previous_hash b) (difficulty b) (timestamp b) (nonce b) (transaction_root b)
        ids (zlen (transactions b)) work (bool_decide (h ∈ active_hashes))).

(** [block_summary] *)
Definition block_summary (n : Node) (hash : option str) (at_height : option Z) : result BlockSummary :=
  raise_if (Bool.eqb (bool_decide (hash = None)) (bool_decide (at_height = None))) ConsensusNodeError
    "provide exactly one of block_hash or height";;
  active ← fc_active_chain (n_fork_choice n) (n_store n);
  active_hashes ← mapR block_hash (ac_blocks active);
  match at_height, hash with
  | Some k, _ =>
      raise_if (k <? 0) ConsensusNodeError "height cannot be negative";;
      match ac_blocks active !! Z.to_nat k with
      | None => Err (Exn ConsensusNodeError (py "unknown active-chain block height: " ++ str_of_int k))
      | Some b =>
          h ← block_hash b;
          stored ← get_block (n_store n) h;
          describe_block active_hashes b (cumulative_work stored)
      end
  | None, Some h =>
      stored ← try_catch (get_block (n_store n) h)
                 (λ e, if exn_is StorageError e then Err (Exn ConsensusNodeError (py "unknown block: " ++ h)) else Err e);
      describe_block active_hashes (sb_block stored) (cumulative_work stored)
  | None, None => raise ConsensusNodeError "provide exactly one of block_hash or height"
  end.

(** [transaction_summary] *)
Definition transaction_summary (n : Node) (h : str) : result TransactionSummary :=
  active ← fc_active_chain (n_fork_choice n) (n_store n);
  confirmed ← find_confirmed h (ac_blocks active);
  match confirmed with
  | Some (t, b) => hash ← block_hash b; summarize_transaction t "confirmed" (Some hash) (Some (height b))
  | None =>
      pending ← find_txid h (n_mempool n);
      match pending with
      | Some t => summarize_transaction t "mempool" None None
      | None => Err (Exn ConsensusNodeError (py "unknown transaction: " ++ h))
      end
  end.

End explorer.

(** ** Lemmas: stored branches *)

Lemma branch_members st h l : branch st h l →
  Forall (λ sb, ∃ hash, get_block st hash = Ok sb ∧ block_hash (sb_block sb) = Ok hash) l.
Proof.
  induction 1 as [h sb Hg Hh|h sb l p _ IH Hg Hh _ _].
  - apply Forall_singleton. eauto.
  - change [p; sb] with ([p] ++ [sb]). rewrite app_assoc. apply Forall_app. split; [done|]. apply Forall_singleton. eauto.
Qed.

Lemma branch_works st h l : branch st h l → ∀ k sb, l !! k = Some sb →
  cumulative_work sb = sumZ (work_for <$> take (S k) (sb_block <$> l)).
Proof.
  intros Hb. pose proof (branch_work _ _ _ Hb) as Hw. induction Hb as [h sb Hg Hh H0 Hp Hw1|h sb l p Hb IH Hg Hh H1 Hw1]; intros k x Hk.
  - destruct k; simplify_eq/=. rewrite sumZ_cons, sumZ_nil. lia.
  - change [p; sb] with ([p] ++ [sb]) in *. rewrite app_assoc in *.
    apply lookup_snoc_Some in Hk as [[Hlt Hk]|[-> ->]].
    + rewrite (IH (branch_work _ _ _ Hb) k x Hk), (fmap_app _ (l ++ [p])), take_app_le; [done|]. rewrite length_fmap. lia.
    + rewrite (Hw _ _ eq_refl), take_ge by (rewrite length_fmap, length_app; simpl; lia).
      by rewrite <- list_fmap_compose.
Qed.

(** The identifiers of a stored block's transactions can be computed. *)
Lemma stored_txids st h sb : get_block st h = Ok sb → ∃ ids, mapR txid (transactions (sb_block sb)) = Ok ids.
Proof.
  intros (r & _ & Hd & _)%get_block_Ok. unfold decode_consensus_block in Hd. apply bind_Ok in Hd as (x & _ & Hd).
  apply block_to_from_bytes in Hd as [Hb _]. apply block_bytes_parts in Hb as [_ Hts].
  induction Hts as [|t ts [y Hy] _ [ids IH]]; [by exists []|]. exists (sha256_hex y :: ids).
  apply mapR_cons_Ok. unfold txid at 1. rewrite Hy. eauto.
Qed.

Section explorer_lemmas.
Context `{ED : Ed25519}.

(** What is known of the blocks of the active chain. *)
Lemma active_blocks n : node_wf n → ∃ a, fc_active_chain (n_fork_choice n) (n_store n) = Ok a ∧
  ∀ k b, ac_blocks a !! k = Some b → height b = Z.of_nat k ∧ ∃ h, block_hash b = Ok h ∧
    get_block (n_store n) h = Ok (mkStored b (sumZ (work_for <$> take (S k) (ac_blocks a)))).
Proof.
  intros (Hv & Hs & Hm & _). destruct (fc_active_chain_valid _ _ Hv Hs Hm) as (a & Ha & _ & Hcase). exists a. split; [done|].
  intros k b Hk. destruct Hcase as [(_ & Hnil & _)|(t & h & _ & _ & _ & (l & x & Hb & Hbs & _))]; [by rewrite Hnil in Hk|].
  rewrite Hbs in *. apply list_lookup_fmap_Some in Hk as (sb & -> & Hk). split; [by eapply branch_heights|].
  pose proof (Forall_lookup_1 _ _ _ _ (branch_members _ _ _ Hb) Hk) as (hash & Hg & Hh). exists hash. split; [done|].
  rewrite Hg, <- (branch_works _ _ _ Hb _ _ Hk). by destruct sb.
Qed.

Lemma active_hashes n a : node_wf n → fc_active_chain (n_fork_choice n) (n_store n) = Ok a → ∃ hs,
  mapR block_hash (ac_blocks a) = Ok hs ∧ ∀ h, h ∈ hs ↔ ∃ b, b ∈ ac_blocks a ∧ block_hash b = Ok h.
Proof.
  intros Hn Ha. destruct (active_blocks n Hn) as (a' & Ha' & Hall). assert (a' = a) as -> by congruence.
  assert (Hok : Forall (λ b, ∃ h, block_hash b = Ok h) (ac_blocks a)).
  { apply Forall_lookup. intros k b Hk. destruct (Hall k b Hk) as (_ & h & Hh & _). eauto. }
  clear -Hok. induction Hok as [|b bs [h Hh] _ (hs & Hhs & Hin)].
  - exists []. split; [done|]. intros h. split; [by intros ?%not_elem_of_nil|]. by intros (b & ?%not_elem_of_nil & _).
  - exists (h :: hs). split; [apply mapR_cons_Ok; eauto|]. intros h'. rewrite elem_of_cons, Hin. setoid_rewrite elem_of_cons.
    split; [intros [->|(b' & ? & ?)]; eauto|]. intros (b' & [->|?] & Hb'); [left; congruence|eauto].
Qed.

Lemma describe_Ok hs b w h ids : block_hash b = Ok h → mapR txid (transactions b) = Ok ids →
  describe_block hs b w = Ok (mkBlockSummary h (height b) (previous_hash b) (difficulty b) (timestamp b) (nonce b)
    (transaction_root b) ids (zlen (transactions b)) w (bool_decide (h ∈ hs))).
Proof. unfold describe_block. by intros -> ->. Qed.

(** The two queries of [block_summary], once the active chain is known. *)
Lemma by_hash n a hs h : fc_active_chain (n_fork_choice n) (n_store n) = Ok a → mapR block_hash (ac_blocks a) = Ok hs →
  block_summary n (Some h) None =
    (stored ← try_catch (get_block (n_store n) h)
                (λ e, if exn_is StorageError e then Err (Exn ConsensusNodeError (py "unknown block: " ++ h)) else Err e);
     describe_block hs (sb_block stored) (cumulative_work stored)).
Proof. unfold block_summary. intros -> Hhs. csimpl. by rewrite Hhs. Qed.

Lemma by_height n a hs k : fc_active_chain (n_fork_choice n) (n_store n) = Ok a → mapR block_hash (ac_blocks a) = Ok hs → 0 ≤ k →
  block_summary n None (Some k) =
    match ac_blocks a !! Z.to_nat k with
    | None => Err (Exn ConsensusNodeError (py "unknown active-chain block height: " ++ str_of_int k))
    | Some b => h ← block_hash b; stored ← get_block (n_store n) h; describe_block hs b (cumulative_work stored)
    end.
Proof. unfold block_summary. intros -> Hhs Hk. csimpl. rewrite Hhs. csimpl. by rewrite (proj2 (Z.ltb_ge _ _)). Qed.

(** ** Lemmas: finding a transaction *)

Lemma find_txid_total h ts ids : mapR txid ts = Ok ids →
  (∃ t, find_txid h ts = Ok (Some t) ∧ t ∈ ts ∧ txid t = Ok h) ∨
  (find_txid h ts = Ok None ∧ ∀ t, t ∈ ts → txid t ≠ Ok h).
Proof.
  revert ids. induction ts as [|t ts IH]; intros ids E; [right; split; [done|]; by intros t ?%not_elem_of_nil|].
  apply mapR_cons_Ok in E as (x & ids' & -> & Hx & E). cbn [find_txid]. rewrite Hx. csimpl. case_bool_decide as Hxh.
  - left. exists t. subst x. split; [done|]. split; [left|done].
  - destruct (IH _ E) as [(t' & -> & Ht' & Hh)|(-> & Hall)]; [left; exists t'; split; [done|]; split; [by right|done]|].
    right. split; [done|]. intros t' [->|Ht']%elem_of_cons; [congruence|by apply Hall].
Qed.

Lemma find_confirmed_total h bs : Forall (λ b, ∃ ids, mapR txid (transactions b) = Ok ids) bs →
  (∃ t b, find_confirmed h bs = Ok (Some (t, b)) ∧ b ∈ bs ∧ t ∈ transactions b ∧ txid t = Ok h) ∨
  (find_confirmed h bs = Ok None ∧ ∀ b t, b ∈ bs → t ∈ transactions b → txid t ≠ Ok h).
Proof.
  induction 1 as [|b bs [ids Hids] _ IH]; [right; split; [done|]; by intros b t ?%not_elem_of_nil|]. cbn [find_confirmed].
  destruct (find_txid_total h _ _ Hids) as [(t & -> & Ht & Hh)|(-> & Hno)]; csimpl.
  - left. exists t, b. split; [done|]. split; [left|done].
  - destruct IH as [(t & b' & -> & Hb' & ?)|(-> & Hall)]; [left; exists t, b'; split; [done|]; split; [by right|done]|].
    right. split; [done|]. intros b' t [->|Hb']%elem_of_cons Ht; [by apply Hno|by eapply Hall].
Qed.

Lemma active_txids n a : node_wf n → fc_active_chain (n_fork_choice n) (n_store n) = Ok a →
  Forall (λ b, ∃ ids, mapR txid (transactions b) = Ok ids) (ac_blocks a).
Proof.
  intros Hn Ha. destruct (active_blocks n Hn) as (a' & Ha' & Hall). assert (a' = a) as -> by congruence.
  apply Forall_lookup. intros k b Hk. destruct (Hall k b Hk) as (_ & h & _ & Hg). by apply stored_txids in Hg.
Qed.

(** ** Lemmas: the mempool's rows *)

Lemma encoded_nonempty w t x : tx_to_bytes w t = Ok x → 0 < zlen x.
Proof. unfold tx_to_bytes. intros E. inv_oks. subst. rewrite zlen_app. change (zlen (b_lit "bcctx")) with 5. match goal with |- 0 < 5 + zlen ?r => pose proof (zlen_nonneg r) end. lia. Qed.

Lemma summarize_steps s ts f s' : spends ts → tx_steps s ts f s' → ∃ rows,
  summarize_mempool s ts = Ok rows ∧ Forall (λ r, mr_valid r = true ∧ is_Some (mr_fee r)) rows ∧
  mapR txid ts = Ok (mr_txid <$> rows) ∧ sumZ (default 0 ∘ mr_fee <$> rows) = f.
Proof.
  intros Hsp Hst. induction Hst as [s|s t fee s1 ts fees s2 Hv Hc _ IH].
  - exists []. done.
  - apply Forall_cons in Hsp as [Ht Hsp]. destruct (IH Hsp) as (rows & Hrows & Hall & Hids & Hsum).
    assert (E : apply_transaction t s = (s1, Ok fee)) by (by apply apply_transaction_Ok).
    pose proof (apply_fee_nonneg _ _ _ _ Ht E) as Hfee. destruct Hc as (h & Hh & _).
    assert (∃ x, tx_to_bytes true t = Ok x) as [x Hx].
    { unfold txid in Hh. destruct (tx_to_bytes true t) as [x|]; [eauto|done]. }
    cbn [summarize_mempool]. unfold serialized_size. rewrite Hx. csimpl. rewrite E, Hh. cbn [fst snd]. csimpl. rewrite Hrows. csimpl.
    assert (Hrate : ∃ rate, fee_rate fee (zlen x) = Ok rate).
    { unfold fee_rate. pose proof (encoded_nonempty _ _ _ Hx). eexists.
      by rewrite (proj2 (Z.ltb_ge _ _)), (proj2 (Z.leb_gt _ _)). }
    destruct Hrate as [rate ->]. csimpl. eexists. split; [reflexivity|]. split; [by constructor|].
    rewrite Hids. csimpl. split; [done|]. by rewrite sumZ_cons, <- Hsum.
Qed.

End explorer_lemmas.

(** ** Properties *)

(** C33: The block explorer is exact.  On a consistent node [block_summary]
    answers for every height of the active chain with that block, its
    identifiers and the work accumulated up to it, the query by the block's hash
    answers the same, and the block is reported as active; heights above the
    tip and unknown hashes are errors; and every stored block is found by its
    hash, reported as active exactly when the active chain holds it. *)
Theorem block_summary_exact `{Ed25519} n :
  node_wf n → ∃ a, fc_active_chain (n_fork_choice n) (n_store n) = Ok a ∧
    (∀ k b, ac_blocks a !! k = Some b → ∃ s, block_summary n None (Some (Z.of_nat k)) = Ok s ∧
       block_summary n (Some (bs_hash s)) None = Ok s ∧ block_hash b = Ok (bs_hash s) ∧ bs_height s = Z.of_nat k ∧
       mapR txid (transactions b) = Ok (bs_transactions s) ∧
       bs_cumulative_work s = sumZ (work_for <$> take (S k) (ac_blocks a)) ∧ bs_active s = true) ∧
    (∀ k, zlen (ac_blocks a) ≤ k →
       block_summary n None (Some k) = Err (Exn ConsensusNodeError (py "unknown active-chain block height: " ++ str_of_int k))) ∧
    (∀ h, fs_blocks (n_store n) !! h = None →
       block_summary n (Some h) None = Err (Exn ConsensusNodeError (py "unknown block: " ++ h))) ∧
    (∀ h, is_Some (fs_blocks (n_store n) !! h) → ∃ s, block_summary n (Some h) None = Ok s ∧ bs_hash s = h ∧
       (bs_active s = true ↔ ∃ b, b ∈ ac_blocks a ∧ block_hash b = Ok h)).
Proof.
  intros Hn. destruct (active_blocks n Hn) as (a & Ha & Hall). destruct (active_hashes n a Hn Ha) as (hs & Hhs & Hin).
  exists a. split; [done|]. split_and!.
  - intros k b Hk. destruct (Hall k b Hk) as (Hhk & h & Hh & Hg). destruct (stored_txids _ _ _ Hg) as [ids Hids].
    rewrite (by_height _ _ _ _ Ha Hhs), Nat2Z.id, Hk, Hh by lia. csimpl. rewrite Hg. csimpl.
    rewrite (describe_Ok _ _ _ _ _ Hh Hids). eexists. split; [reflexivity|]. cbn [bs_hash].
    rewrite (by_hash _ _ _ _ Ha Hhs), Hg. csimpl. rewrite (describe_Ok _ _ _ _ _ Hh Hids). split_and!; try done.
    apply bool_decide_eq_true, Hin. exists b. split; [by eapply list_elem_of_lookup_2|done].
  - intros k Hk. pose proof (zlen_nonneg (ac_blocks a)). rewrite (by_height _ _ _ _ Ha Hhs) by lia.
    rewrite (proj2 (lookup_ge_None _ _)); [done|]. unfold zlen in *. lia.
  - intros h Hh. rewrite (by_hash _ _ _ _ Ha Hhs). unfold get_block. by rewrite Hh.
  - intros h [r Hr]. destruct Hn as ([Hwf _] & _). destruct (get_block_row _ _ _ Hwf Hr) as (b & Hg & Hh & _).
    destruct (stored_txids _ _ _ Hg) as [ids Hids]. rewrite (by_hash _ _ _ _ Ha Hhs), Hg. csimpl.
    rewrite (describe_Ok _ _ _ _ _ Hh Hids). eexists. split; [reflexivity|]. split; [done|].
    cbn [bs_active]. by rewrite bool_decide_eq_true.
Qed.

(** The transaction explorer is exact.  On a consistent node whose mempool
    has computable identifiers, [transaction_summary] reports a transaction as
    confirmed, with the hash and height of an active block that holds it,
    exactly when there is one; otherwise as pending exactly when the mempool
    holds it; otherwise it raises the error of an unknown transaction. *)
Theorem transaction_summary_exact `{Ed25519} n ids :
  node_wf n → mapR txid (n_mempool n) = Ok ids → ∃ a, fc_active_chain (n_fork_choice n) (n_store n) = Ok a ∧
    ∀ h, match transaction_summary n h with
         | Ok s => ts_txid s = h ∧
             ((ts_status s = py "confirmed" ∧ ∃ k b t bh, ac_blocks a !! k = Some b ∧ t ∈ transactions b ∧ txid t = Ok h ∧
                 block_hash b = Ok bh ∧ ts_block_hash s = Some bh ∧ ts_height s = Some (Z.of_nat k) ∧
                 ts_output_value s = sumZ (amount <$> outputs t)) ∨
              (ts_status s = py "mempool" ∧ h ∈ ids ∧ ts_block_hash s = None ∧
                 ∀ b t, b ∈ ac_blocks a → t ∈ transactions b → txid t ≠ Ok h))
         | Err e => e = Exn ConsensusNodeError (py "unknown transaction: " ++ h) ∧ h ∉ ids ∧
             ∀ b t, b ∈ ac_blocks a → t ∈ transactions b → txid t ≠ Ok h
         end.
Proof.
  intros Hn Hids. destruct (active_blocks n Hn) as (a & Ha & Hall). exists a. split; [done|]. intros h.
  unfold transaction_summary. rewrite Ha. csimpl.
  destruct (find_confirmed_total h _ (active_txids n a Hn Ha)) as [(t & b & -> & Hb & Ht & Hh)|(-> & Hno)]; csimpl.
  - apply list_elem_of_lookup in Hb as [k Hk]. destruct (Hall k b Hk) as (Hhk & bh & Hbh & _). rewrite Hbh. csimpl.
    unfold summarize_transaction. rewrite Hh. csimpl. split; [done|]. left. split; [done|]. exists k, b, t, bh.
    cbn. by rewrite Hhk.
  - assert (Hmem : ∀ t, t ∈ n_mempool n → txid t = Ok h → h ∈ ids).
    { intros t [i Hi]%list_elem_of_lookup Hh. apply mapR_Ok in Hids. destruct (Forall2_lookup_l _ _ _ _ _ Hids Hi) as (x & Hx & E).
      assert (x = h) as -> by congruence. by eapply list_elem_of_lookup_2. }
    destruct (find_txid_total h _ _ Hids) as [(t & -> & Ht & Hh)|(-> & Hnp)]; csimpl.
    + unfold summarize_transaction. rewrite Hh. csimpl. split; [done|]. right. split_and!; [done|by eapply Hmem|done|done].
    + split_and!; [done| |done]. intros [i Hi]%list_elem_of_lookup. apply mapR_Ok in Hids.
      destruct (Forall2_lookup_r _ _ _ _ _ Hids Hi) as (t & Ht & E). by apply (Hnp t); [eapply list_elem_of_lookup_2|].
Qed.

(** The mempool report agrees with mining.  If the mempool applies to a
    well-formed state and its identifiers are new to it, [mempool_summary]
    lists every entry as valid, in order, and the fees it reports add up to
    what the coinbase of [build_candidate_block] pays above the subsidy. *)
Theorem mempool_summary_prices `{Ed25519} n miner now b f s1 :
  spends (n_mempool n) → distinct (n_mempool n) → fresh (utxos (n_state n)) (n_mempool n) → state_wf (n_state n) →
  tx_steps (n_state n) (n_mempool n) f s1 → build_candidate_block n miner now = Ok b → ∃ rows cb ts,
    mempool_summary n = Ok rows ∧ Forall (λ r, mr_valid r = true ∧ is_Some (mr_fee r)) rows ∧
    mapR txid (n_mempool n) = Ok (mr_txid <$> rows) ∧ transactions b = cb :: ts ∧ ts ≡ₚ n_mempool n ∧
    output_total cb = block_subsidy (n_state n) + sumZ (default 0 ∘ mr_fee <$> rows).
Proof.
  intros Hsp Hd Hf Hwf Hst Hb. destruct (summarize_steps _ _ _ _ Hsp Hst) as (rows & Hrows & Hall & Hids & Hsum).
  destruct (build_candidate_Ok _ _ _ _ _ _ Hsp Hd Hf Hwf Hst Hb) as (h & tip & cb & chosen & _ & _ & Hcb & Hp & _ & _ & ->).
  destruct (tx_steps_params _ _ _ _ Hst) as [Hsub _]. destruct Hwf as (Hs & Hm & _).
  exists rows, cb, chosen. unfold mempool_summary. rewrite (proj2 (copy_state_Ok _ (n_state n))) by done. split_and!; try done.
  apply create_coinbase_Ok in Hcb as (_ & _ & _ & _ & ->). unfold output_total. csimpl. rewrite sumZ_cons, sumZ_nil, Hsub. lia.
Qed.

Lemma imported_wf : @node_wf toy_ed25519 imported_node.
Proof. exact (proj1 (@import_wf toy_ed25519 genesis_node sample_second genesis_node_wf sample_second_canonical)). Qed.

Lemma block_summary_exact_witness :
  ∃ a, @fc_active_chain toy_ed25519 (n_fork_choice imported_node) (n_store imported_node) = Ok a ∧
    (∀ k b, ac_blocks a !! k = Some b → ∃ s, @block_summary toy_ed25519 imported_node None (Some (Z.of_nat k)) = Ok s ∧
       @block_summary toy_ed25519 imported_node (Some (bs_hash s)) None = Ok s ∧ block_hash b = Ok (bs_hash s) ∧
       bs_height s = Z.of_nat k ∧ mapR txid (transactions b) = Ok (bs_transactions s) ∧
       bs_cumulative_work s = sumZ (work_for <$> take (S k) (ac_blocks a)) ∧ bs_active s = true) ∧
    (∀ k, zlen (ac_blocks a) ≤ k → @block_summary toy_ed25519 imported_node None (Some k) =
       Err (Exn ConsensusNodeError (py "unknown active-chain block height: " ++ str_of_int k))) ∧
    (∀ h, fs_blocks (n_store imported_node) !! h = None → @block_summary toy_ed25519 imported_node (Some h) None =
       Err (Exn ConsensusNodeError (py "unknown block: " ++ h))) ∧
    (∀ h, is_Some (fs_blocks (n_store imported_node) !! h) → ∃ s, @block_summary toy_ed25519 imported_node (Some h) None = Ok s ∧
       bs_hash s = h ∧ (bs_active s = true ↔ ∃ b, b ∈ ac_blocks a ∧ block_hash b = Ok h)).
Proof. exact (@block_summary_exact toy_ed25519 imported_node imported_wf). Defined.

Lemma transaction_summary_exact_witness :
  ∃ a, @fc_active_chain toy_ed25519 (n_fork_choice genesis_node) (n_store genesis_node) = Ok a ∧
    ∀ h, match @transaction_summary toy_ed25519 genesis_node h with
         | Ok s => ts_txid s = h ∧
             ((ts_status s = py "confirmed" ∧ ∃ k b t bh, ac_blocks a !! k = Some b ∧ t ∈ transactions b ∧ txid t = Ok h ∧
                 block_hash b = Ok bh ∧ ts_block_hash s = Some bh ∧ ts_height s = Some (Z.of_nat k) ∧
                 ts_output_value s = sumZ (amount <$> outputs t)) ∨
              (ts_status s = py "mempool" ∧ h ∈ [hash_or (txid sample_transfer)] ∧ ts_block_hash s = None ∧
                 ∀ b t, b ∈ ac_blocks a → t ∈ transactions b → txid t ≠ Ok h))
         | Err e => e = Exn ConsensusNodeError (py "unknown transaction: " ++ h) ∧ h ∉ [hash_or (txid sample_transfer)] ∧
             ∀ b t, b ∈ ac_blocks a → t ∈ transactions b → txid t ≠ Ok h
         end.
Proof.
  apply (@transaction_summary_exact toy_ed25519 genesis_node [hash_or (txid sample_transfer)] genesis_node_wf).
  vm_compute. reflexivity.
Defined.

Lemma mempool_summary_prices_witness :
  ∃ rows cb ts, @mempool_summary toy_ed25519 (chain_node [sample_transfer2]) = Ok rows ∧
    Forall (λ r, mr_valid r = true ∧ is_Some (mr_fee r)) rows ∧
    mapR txid [sample_transfer2] = Ok (mr_txid <$> rows) ∧ transactions chain_candidate = cb :: ts ∧ ts ≡ₚ [sample_transfer2] ∧
    output_total cb = block_subsidy sample_state2 + sumZ (default 0 ∘ mr_fee <$> rows).
Proof.
  apply (@mempool_summary_prices toy_ed25519 (chain_node [sample_transfer2]) (toy_address "dave") sample_timestamp chain_candidate
           5 pool_transfer_state).
  - apply Forall_singleton. vm_compute. reflexivity.
  - apply distinctb_spec. vm_compute. reflexivity.
  - apply freshb_spec. vm_compute. reflexivity.
  - apply sample_state2_wf.
  - apply pool_transfer_steps.
  - apply chain_candidate_built.
Defined.
