(* ===== verification/JsonText.v ===== *)
(** * JSON texts read back

    What [json.dumps] writes, compactly or indented, [json.loads] reads back as
    the same value, and it is ASCII.  One proof covers every layout of white
    space ([scan_render]). *)

From S2P Require Import Prelude PyBytes PyText Json WireJson.
Local Open Scope Z_scope.

(** ** Lemmas: a numeral before a delimiter *)

Lemma ends_cases r : ends r → r = [] ∨ ∃ c r', r = c :: r' ∧ (c = 44 ∨ c = 93 ∨ c = 125 ∨ c = 10).
Proof. destruct r as [|c r]; [by left|]. right. eauto. Qed.

Ltac case_ends H := destruct (ends_cases _ H) as [->|(?c & ?r' & -> & [-> |[-> |[-> | ->]]])].

Lemma digit_span_ends s r : ends r → digit_span (s ++ r) = ((digit_span s).1, (digit_span s).2 ++ r).
Proof.
  intros Hr. induction s as [|c s IH]; [by case_ends Hr|]. simpl. destruct (is_digit c); [|done]. by rewrite IH.
Qed.

Lemma frac_part_ends s r : ends r → frac_part (s ++ r) = ((frac_part s).1, (frac_part s).2 ++ r).
Proof.
  intros Hr. destruct s as [|c s]; [by case_ends Hr|]. simpl. destruct (c =? 46); [|done].
  rewrite digit_span_ends by done. by destruct (digit_span s) as [[|d ds] r2].
Qed.

Lemma exp_sign_ends s r : ends r → exp_sign (s ++ r) = ((exp_sign s).1, (exp_sign s).2 ++ r).
Proof. intros Hr. destruct s as [|c s]; [by case_ends Hr|]. simpl. by destruct ((c =? 43) || (c =? 45)). Qed.

Lemma exp_part_ends s r : ends r → exp_part (s ++ r) = ((exp_part s).1, (exp_part s).2 ++ r).
Proof.
  intros Hr. destruct s as [|c s]; [by case_ends Hr|]. simpl. destruct ((c =? 101) || (c =? 69)); [|done].
  rewrite exp_sign_ends by done. destruct (exp_sign s) as [sg s2]. simpl. rewrite digit_span_ends by done.
  by destruct (digit_span s2) as [[|d ds] r2].
Qed.

Lemma int_part_ends s r : ends r → int_part (s ++ r) = (λ x, (x.1, x.2 ++ r)) <$> int_part s.
Proof.
  intros Hr. destruct s as [|c s]; [by case_ends Hr|]. cbn [int_part app]. destruct (c =? 48); [done|].
  destruct (is_digit c); [|done]. rewrite app_comm_cons, digit_span_ends by done. done.
Qed.

Lemma scan_number_ends s r : ends r → s ≠ [] →
  scan_number (s ++ r) = (λ x, (x.1, x.2 ++ r)) <$> scan_number s.
Proof.
  intros Hr Hs. unfold scan_number.
  assert (E : sign_span (s ++ r) = ((sign_span s).1, (sign_span s).2 ++ r)).
  { destruct s as [|c s]; [done|]. simpl. by destruct (c =? 45). }
  rewrite E. destruct (sign_span s) as [sg s1]. cbn [fst snd]. rewrite int_part_ends by done.
  destruct (int_part s1) as [[ip s2]|]; [|done]. cbn. rewrite frac_part_ends by done.
  destruct (frac_part s2) as [fp s3]. cbn [fst snd]. rewrite exp_part_ends by done. by destruct (exp_part s3).
Qed.

Lemma dec_aux_head fuel n : 0 < n < 2 ^ Z.of_nat fuel → ∃ c t, dec_aux fuel n [] = c :: t ∧ is_digit c = true ∧ c ≠ 48.
Proof.
  revert n. induction fuel as [|fuel IH]; intros n Hn; [simpl in Hn; lia|]. simpl. destruct (Z.ltb_spec n 10).
  - exists (48 + n mod 10), []. rewrite Z.mod_small by lia. split; [done|]. split; [|lia].
    unfold is_digit. apply andb_true_iff. split; [apply Z.leb_le|apply Z.ltb_lt]; lia.
  - destruct (IH (n / 10)) as (c & t & E & Hc).
    { rewrite Nat2Z.inj_succ, Z.pow_succ_r in Hn by lia. split; [apply Z.div_str_pos; lia|]. apply Z.div_lt_upper_bound; lia. }
    exists c, (t ++ [48 + n mod 10]). rewrite dec_aux_app, E. done.
Qed.

Lemma dec_nonneg_int_part n : 0 ≤ n → int_part (dec_nonneg n) = Some (dec_nonneg n, []).
Proof.
  intros Hn. destruct (decide (n = 0)) as [->|Hne]; [by vm_compute|].
  assert (Hf : n < 2 ^ Z.of_nat (S (Z.to_nat (Z.log2 n)))).
  { rewrite Nat2Z.inj_succ, Z2Nat.id by apply Z.log2_nonneg. apply Z.log2_spec. lia. }
  destruct (dec_aux_head (S (Z.to_nat (Z.log2 n))) n) as (c & t & E & Hc & H48); [lia|].
  pose proof (dec_nonneg_digits n) as Hd. unfold dec_nonneg in *. rewrite E in *. cbn [int_part].
  destruct (Z.eqb_spec c 48); [done|]. rewrite Hc. f_equal.
  clear -Hd. induction Hd as [|d l Hdd Hd IH]; [done|]. cbn [digit_span]. by rewrite Hdd, IH.
Qed.

Lemma scan_int z : scan_number (str_of_int z) = Some (str_of_int z, false, []).
Proof.
  unfold scan_number, str_of_int. destruct (Z.ltb_spec z 0).
  - cbn [sign_span]. cbn [Z.eqb Pos.eqb]. rewrite dec_nonneg_int_part by lia. cbn. by rewrite !app_nil_r.
  - assert (E : sign_span (dec_nonneg z) = ([], dec_nonneg z)).
    { pose proof (dec_nonneg_digits z) as Hd. destruct (dec_nonneg z) as [|c t]; [done|]. apply Forall_cons in Hd as [Hc _].
      unfold is_digit in Hc. bool_prop. cbn [sign_span]. by destruct (Z.eqb_spec c 45); [lia|]. }
    rewrite E, dec_nonneg_int_part by lia. cbn. by rewrite !app_nil_r.
Qed.

Lemma int_value_str z : int_value (str_of_int z) = z.
Proof.
  unfold int_value, str_of_int. destruct (Z.ltb_spec z 0).
  - cbn [Z.eqb Pos.eqb]. rewrite dec_nonneg_val; lia.
  - pose proof (dec_nonneg_digits z) as Hd. pose proof (dec_nonneg_nonempty z) as Hne. pose proof (dec_nonneg_val z) as Hv.
    destruct (dec_nonneg z) as [|c t]; [done|]. apply Forall_cons in Hd as [Hc _].
    unfold is_digit in Hc. bool_prop. destruct (Z.eqb_spec c 45); [lia|]. by apply Hv.
Qed.

(** The digits of an integer's text. *)
Definition int_digits (z : Z) : str := dec_nonneg (Z.abs z).

Lemma int_digits_str z : filter (λ c, is_digit c = true) (str_of_int z) = int_digits z.
Proof.
  assert (Hall : ∀ n, filter (λ c, is_digit c = true) (dec_nonneg n) = dec_nonneg n).
  { intros n. pose proof (dec_nonneg_digits n) as Hd. induction Hd as [|c l Hc _ IH]; [done|]. by rewrite filter_cons_True, IH. }
  unfold str_of_int, int_digits. destruct (Z.ltb_spec z 0).
  - rewrite filter_cons_False by done. rewrite Hall. f_equal. lia.
  - rewrite Hall. f_equal. lia.
Qed.

(** A text that starts with a numeral starts with no keyword. *)
Lemma scan_keyword_number s x : scan_number s = Some x →
  scan_keyword keywords s = None ∧ ∃ c t, s = c :: t ∧ int_char c = true.
Proof.
  unfold scan_number. destruct (sign_span s) as [sg s1] eqn:E1. destruct (int_part s1) as [[ip s2]|] eqn:E2; [|done].
  intros _. assert (Hd : ∃ c t, s1 = c :: t ∧ is_digit c = true).
  { unfold int_part in E2. destruct s1 as [|c t]; [done|]. exists c, t. split; [done|].
    destruct (Z.eqb_spec c 48) as [->|]; [done|]. by destruct (is_digit c). }
  destruct Hd as (c & t & -> & Hc). unfold sign_span in E1. destruct s as [|c0 s]; [done|].
  unfold is_digit in Hc. bool_prop. let ks := eval vm_compute in keywords in change keywords with ks.
  destruct (Z.eqb_spec c0 45) as [->|]; simplify_eq.
  - split; [|by do 2 eexists]. cbn [scan_keyword startswith].
    rewrite (proj2 (Z.eqb_neq 73 c)) by lia. done.
  - split; [|do 2 eexists; split; [done|]; unfold int_char, is_digit; apply orb_true_iff; left; apply andb_true_iff; split; [apply Z.leb_le|apply Z.ltb_lt]; lia].
    cbn [scan_keyword startswith]. repeat match goal with |- context [?k =? c] => destruct (Z.eqb_spec k c); [lia|] end. done.
Qed.

(** ** Lemmas: reading back what was written *)

Lemma hex4_cons u : 0 ≤ u < 0x10000 → ∃ a b c d, hex4 u = [a; b; c; d] ∧ hex4_val a b c d = Some u.
Proof. intros Hu. do 4 eexists. split; [reflexivity|]. by apply hex4_val_digits. Qed.

Lemma scan_esc c t : scalar c = true → scan_string (esc_char c ++ t) = scan_cons c (scan_string t).
Proof.
  intros Hs%scalar_spec. unfold esc_char.
  repeat (case_match; bool_prop; [by subst|]).
  destruct ((32 <=? c) && (c <=? 126)) eqn:E.
  - bool_prop. cbn [app scan_string]. rewrite (proj2 (Z.eqb_neq c 34)), (proj2 (Z.eqb_neq c 92)) by done.
    by rewrite (proj2 (Z.ltb_ge c 32)).
  - destruct (Z.ltb_spec c 0x10000).
    + destruct (hex4_cons c) as (h1 & h2 & h3 & h4 & -> & Hv); [lia|].
      cbn [app scan_string]. change (92 =? 34) with false. change (92 =? 92) with true. change (117 =? 117) with true. cbv iota.
      rewrite Hv. assert (Hh : high_surrogate c = false).
      { unfold high_surrogate. apply andb_false_iff. rewrite Z.leb_gt, Z.ltb_ge. lia. }
      rewrite Hh. by destruct t as [|x [|y [|a' [|b' [|c' [|d' r3]]]]]].
    + cbv zeta. set (n := c - 0x10000).
      destruct (hex4_cons (0xD800 + n / 1024)) as (h1 & h2 & h3 & h4 & -> & Hv).
      { unfold n. Z.to_euclidean_division_equations; lia. }
      destruct (hex4_cons (0xDC00 + n mod 1024)) as (l1 & l2 & l3 & l4 & -> & Hl).
      { unfold n. Z.to_euclidean_division_equations; lia. }
      cbn [app scan_string]. change (92 =? 34) with false. change (92 =? 92) with true. change (117 =? 117) with true. cbv iota.
      rewrite Hv, Hl.
      assert (Hh : high_surrogate (0xD800 + n / 1024) = true).
      { unfold high_surrogate, n. apply andb_true_iff. rewrite Z.leb_le, Z.ltb_lt. Z.to_euclidean_division_equations; lia. }
      assert (Hw : low_surrogate (0xDC00 + n mod 1024) = true).
      { unfold low_surrogate, n. apply andb_true_iff. rewrite Z.leb_le, Z.ltb_lt. Z.to_euclidean_division_equations; lia. }
      rewrite Hh, Hw. cbn [andb]. f_equal. unfold n. Z.to_euclidean_division_equations; lia.
Qed.

Lemma scan_body s r : Forall (λ c, scalar c = true) s → scan_string (concat (esc_char <$> s) ++ 34 :: r) = Ok (s, r).
Proof.
  induction 1 as [|c s Hc Hs IH]; [done|]. rewrite fmap_cons. cbn [concat]. rewrite <- app_assoc, scan_esc by done.
  by rewrite IH.
Qed.

Lemma json_string_body s r : json_string s ++ r = 34 :: concat (esc_char <$> s) ++ 34 :: r.
Proof. unfold json_string. cbn [app]. by rewrite <- app_assoc. Qed.

Lemma skip_space_head c s : json_space c = false → skip_space (c :: s) = c :: s.
Proof. intros E. simpl. by rewrite E. Qed.

Section value_ind.
Variable P : value → Prop.
Hypothesis Pnull : P VNull.
Hypothesis Pbool : ∀ b, P (VBool b).
Hypothesis Pint : ∀ z, P (VInt z).
Hypothesis Pfloat : ∀ x, P (VFloat x).
Hypothesis Pstr : ∀ s, P (VStr s).
Hypothesis Parr : ∀ l, Forall P l → P (VArr l).
Hypothesis Pobj : ∀ l, Forall (λ kv, P kv.2) l → P (VObj l).

Fixpoint value_nested_ind (v : value) : P v :=
  match v with
  | VNull => Pnull
  | VBool b => Pbool b
  | VInt z => Pint z
  | VFloat x => Pfloat x
  | VStr s => Pstr s
  | VArr l => Parr l ((fix go (l : list value) : Forall P l :=
      match l with [] => Forall_nil_2 _ | x :: l' => Forall_cons_2 _ _ _ (value_nested_ind x) (go l') end) l)
  | VObj l => Pobj l ((fix go (l : list (str * value)) : Forall (λ kv, P kv.2) l :=
      match l with [] => Forall_nil_2 _ | x :: l' => Forall_cons_2 _ _ _ (value_nested_ind x.2) (go l') end) l)
  end.
End value_ind.

(** A value in the form [loads] builds from its own text: objects in key order
    without duplicates, text without surrogates, integers within the digit
    limit, finite floats. *)
Fixpoint value_wf (v : value) : Prop :=
  match v with
  | VNull | VBool _ => True
  | VInt z => zlen (int_digits z) ≤ MAX_STR_DIGITS
  | VFloat x => 0 ≤ x < 2 ^ 64 ∧ float_finite x = true
  | VStr s => Forall (λ c, scalar c = true) s
  | VArr l => foldr (λ x acc, value_wf x ∧ acc) True l
  | VObj l => StronglySorted (λ x y, str_leb x y = true) l.*1 ∧ NoDup l.*1 ∧
      foldr (λ kv acc, (Forall (λ c, scalar c = true) kv.1 ∧ value_wf kv.2) ∧ acc) True l
  end.

Lemma value_wf_arr l : value_wf (VArr l) ↔ Forall value_wf l.
Proof. apply foldr_and. Qed.

Lemma value_wf_obj l : value_wf (VObj l) ↔ StronglySorted (λ x y, str_leb x y = true) l.*1 ∧ NoDup l.*1 ∧
  Forall (λ kv, Forall (λ c, scalar c = true) kv.1 ∧ value_wf kv.2) l.
Proof. simpl. do 2 f_equiv. apply (foldr_and (λ kv, Forall (λ c, scalar c = true) kv.1 ∧ value_wf kv.2)). Qed.

(** The well-formedness of a dictionary with known keys, up to its values. *)
Ltac obj_items :=
  match goal with |- Forall ?P ?l => let l' := eval hnf in l in change (Forall P l') end;
  lazymatch goal with
  | |- Forall _ (_ :: _) => apply Forall_cons_2; [split; [by repeat constructor|cbn [snd]]|obj_items]
  | |- Forall _ [] => apply Forall_nil_2
  end.

Ltac obj_wf :=
  apply value_wf_obj; split; [by repeat constructor|]; split;
  [match goal with |- ?P => apply (bool_decide_unpack P); by vm_compute end|obj_items].

Lemma dumps_obj `{NumText} l : StronglySorted (λ x y, str_leb x y = true) l.*1 →
  dumps (VObj l) = 123 :: join 44 (map (λ kv, json_string kv.1 ++ 58 :: dumps kv.2) l) ++ [125].
Proof.
  intros Hs. cbn [dumps]. rewrite sort_by_sorted_id.
  - do 3 f_equal. rewrite map_map. by apply map_ext.
  - clear -Hs. unfold item_leb. induction l as [|x l IH]; [constructor|]. cbn in *. apply StronglySorted_inv in Hs as [Hs Hx].
    constructor; [by apply IH|]. apply Forall_map. by apply Forall_fmap in Hx.
Qed.

Lemma obj_set_new {V} k (v : V) l : k ∉ l.*1 → obj_set k v l = l ++ [(k, v)].
Proof.
  induction l as [|[k' v'] l IH]; simpl; [done|]. intros [Hk Hl]%not_elem_of_cons. rewrite bool_decide_eq_false_2 by done.
  by rewrite IH.
Qed.

Lemma join_map_one {A} (f : A → str) sep x t : join sep (map f [x]) ++ t = f x ++ t.
Proof. done. Qed.

Lemma join_map_cons {A} (f : A → str) sep x y l t :
  join sep (map f (x :: y :: l)) ++ t = f x ++ sep :: join sep (map f (y :: l)) ++ t.
Proof. exact (eq_sym (app_assoc (f x) (sep :: join sep (map f (y :: l))) t)). Qed.

(** The characters of the texts written: printable ASCII and line feeds. *)
Definition plain (c : Z) : Prop := (10 =? c) || ((32 <=? c) && (c <? 128)) = true.

Lemma plain_spec c : plain c ↔ c = 10 ∨ 32 ≤ c < 128.
Proof. unfold plain. rewrite orb_true_iff, andb_true_iff, Z.eqb_eq, Z.leb_le, Z.ltb_lt. lia. Qed.

Lemma plain_ascii s : Forall plain s → Forall (λ c, 0 ≤ c < 128) s.
Proof. intros Hs. eapply Forall_impl; [exact Hs|]. intros c ?%plain_spec. lia. Qed.

(** A layout of white space; what follows a line break is not part of a numeral. *)
Record layout_ok (y : Layout) : Prop := {
  lay_break n : Forall (λ c, json_space c = true) (ly_break y n);
  lay_break_ends n r : ends r → ends (ly_break y n ++ r);
  lay_colon : ∃ sp, ly_colon y = 58 :: sp ∧ Forall (λ c, json_space c = true) sp ∧ Forall plain sp;
  lay_break_plain n : Forall plain (ly_break y n);
}.

Lemma compact_ok : layout_ok compact.
Proof. split; [constructor|done|by exists []|constructor]. Qed.

Lemma indent2_ok : layout_ok indent2.
Proof.
  split; [|intros; cbn; lia|by exists [32]; repeat constructor|];
    (intros n; constructor; [done|]; by apply Forall_replicate).
Qed.

Lemma skip_spaces sp t : Forall (λ c, json_space c = true) sp → skip_space (sp ++ t) = skip_space t.
Proof. induction 1 as [|c sp Hc _ IH]; [done|]. cbn. by rewrite Hc. Qed.

(** The elements of a list and the items of an object, to the closing bracket. *)
Definition elements_text `{NumText} (y : Layout) (n : nat) (l : list value) (r : str) : str :=
  join 44 (map (λ x, ly_break y (S n) ++ render y (S n) x) l) ++ ly_break y n ++ 93 :: r.

Definition members_text `{NumText} (y : Layout) (n : nat) (l : list (str * value)) (r : str) : str :=
  join 44 (map (λ kv, lay_item y (S n) (kv.1, render y (S n) kv.2)) l) ++ ly_break y n ++ 125 :: r.

Lemma render_arr `{NumText} y n l r : l ≠ [] → render y n (VArr l) ++ r = 91 :: elements_text y n l r.
Proof. intros Hl. destruct l as [|x l]; [done|]. cbn [render]. unfold elements_text. cbn [app]. by rewrite <- !app_assoc. Qed.

Lemma sorted_items `{NumText} (f : value → str) l : StronglySorted (λ x y, str_leb x y = true) l.*1 →
  sort_by item_leb (map (λ kv, (kv.1, f kv.2)) l) = map (λ kv, (kv.1, f kv.2)) l.
Proof.
  intros Hs. apply sort_by_sorted_id. unfold item_leb. induction l as [|x l IH]; [constructor|]. cbn in *.
  apply StronglySorted_inv in Hs as [Hs Hx]. constructor; [by apply IH|]. apply Forall_map. by apply Forall_fmap in Hx.
Qed.

Lemma render_obj `{NumText} y n l r : StronglySorted (λ x y, str_leb x y = true) l.*1 → l ≠ [] →
  render y n (VObj l) ++ r = 123 :: members_text y n l r.
Proof.
  intros Hs Hl. destruct l as [|x l]; [done|]. cbn [render]. rewrite sorted_items by done. unfold members_text. rewrite map_map.
  rewrite <- app_comm_cons. by rewrite <- !app_assoc.
Qed.

Lemma render_compact `{NumText} v : ∀ n, render compact n v = dumps v.
Proof.
  induction v as [|b|z|x|s|l IH|l IH] using value_nested_ind; intros n; try done.
  - destruct l as [|x l]; [done|]. cbn [render dumps ly_break compact app]. do 2 f_equal. f_equal.
    apply map_ext_in. intros v Hv. rewrite Forall_forall in IH. by apply IH, list_elem_of_In.
  - destruct l as [|x l]; [done|]. cbn [render dumps]. rewrite Forall_forall in IH.
    rewrite (map_ext_in _ (λ kv, (kv.1, dumps kv.2))); [done|].
    intros kv Hkv. by rewrite IH by (by apply list_elem_of_In).
Qed.

Section roundtrip.
Context `{NumTextOk} (y : Layout) (Hy : layout_ok y).

Lemma render_head n v : value_wf v → ∃ c t, render y n v = c :: t ∧ json_space c = false ∧ c ≠ 93 ∧ c ≠ 125 ∧ c ≠ 0xFEFF.
Proof using Type*.
  assert (Hnum : ∀ c, int_char c = true → json_space c = false ∧ c ≠ 93 ∧ c ≠ 125 ∧ c ≠ 0xFEFF).
  { intros c [?| ->]%int_char_spec; [|by vm_compute]. unfold json_space. split_and!; [|lia..].
    rewrite !orb_false_iff, !Z.eqb_neq. lia. }
  intros Hwf. destruct v as [|[]|z|x|s|[]|[]]; try (do 2 eexists; split; [reflexivity|done]).
  - destruct (int_text_head z) as (c & t & E & Hc). exists c, t. split; [done|]. by apply Hnum.
  - destruct Hwf as [Hx Hf]. cbn [render]. unfold float_json. rewrite Hf.
    destruct (scan_keyword_number _ _ (float_repr_scans x Hx Hf)) as (_ & c & t & E & Hc).
    exists c, t. split; [done|]. by apply Hnum.
Qed.

(** What the main lemma says of a value. *)
Definition reads_back (v : value) : Prop := ∀ n fuel r, value_wf v → ends r →
  (2 * length (render y n v ++ r) + 1 ≤ fuel)%nat → scan_value fuel (render y n v ++ r) = Ok (v, r).

Lemma scan_numeral fuel t b v r : scan_number t = Some (t, b, []) → number_value t b = Ok v → ends r →
  (1 ≤ fuel)%nat → scan_value fuel (t ++ r) = Ok (v, r).
Proof using Type*.
  intros Ht Hv Hr Hf. destruct fuel as [|k]; [lia|].
  destruct (scan_number_app _ _ _ _ Ht) as [_ Hne].
  pose proof (scan_number_ends t r Hr Hne) as Hs. rewrite Ht in Hs. cbn in Hs.
  destruct (scan_keyword_number _ _ Hs) as (Hk & c & t' & E & Hc). rewrite E in *. cbn [scan_value].
  apply int_char_spec in Hc. rewrite (proj2 (Z.eqb_neq c 34)), (proj2 (Z.eqb_neq c 123)), (proj2 (Z.eqb_neq c 91)) by lia.
  rewrite Hk, Hs. by rewrite Hv.
Qed.

Lemma skip_break n v r : value_wf v → skip_space ((ly_break y n ++ render y n v) ++ r) = render y n v ++ r.
Proof using Type*.
  intros (c & t & -> & Hc & _)%(render_head n). rewrite <- app_assoc, skip_spaces by apply Hy. by apply skip_space_head.
Qed.

Lemma skip_close n c r : json_space c = false → skip_space (ly_break y n ++ c :: r) = c :: r.
Proof using Type*. intros Hc. rewrite skip_spaces by apply Hy. by apply skip_space_head. Qed.

Lemma elements_head n x l r : value_wf x → ∃ t, skip_space (elements_text y n (x :: l) r) = render y (S n) x ++ t.
Proof using Type*.
  intros Hx. unfold elements_text. destruct l as [|z l]; [rewrite join_map_one|rewrite join_map_cons]; rewrite skip_break by done; eauto.
Qed.

Lemma scan_items_render n l : ∀ x fuel acc (r : str), Forall reads_back (x :: l) → Forall value_wf (x :: l) →
  (2 * length (elements_text y n (x :: l) r) + 2 ≤ fuel)%nat →
  scan_items fuel (skip_space (elements_text y n (x :: l) r)) acc = Ok (VArr (acc ++ x :: l), r).
Proof using Type*.
  induction l as [|z l IH]; intros x fuel acc r Hok Hwf Hf; (destruct fuel as [|k]; [lia|]);
    apply Forall_cons in Hok as [Hx Hok]; apply Forall_cons in Hwf as [Hwx Hwf]; unfold elements_text in *.
  - rewrite join_map_one in Hf |- *. rewrite skip_break by done. cbn [scan_items].
    rewrite Hx; [|done|apply Hy; simpl; lia|rewrite !length_app in *; lia].
    cbn [mbind result_bind snd fst]. by rewrite skip_close.
  - rewrite join_map_cons in Hf |- *. rewrite skip_break by done. cbn [scan_items].
    rewrite Hx; [|done|simpl; lia|rewrite !length_app, !length_cons in *; lia].
    cbn [mbind result_bind snd fst]. rewrite skip_space_head by done. change (44 =? 93) with false. change (44 =? 44) with true. cbv iota.
    rewrite IH; [by rewrite <- app_assoc|done|done|rewrite !length_app, length_cons in Hf; lia].
Qed.

(** An item before [t]. *)
Lemma skip_item n (kv : str * value) t : ∃ sp, Forall (λ c, json_space c = true) sp ∧
  skip_space (lay_item y n (kv.1, render y n kv.2) ++ t) = 34 :: concat (esc_char <$> kv.1) ++ 34 :: 58 :: sp ++ render y n kv.2 ++ t ∧
  (length (sp ++ render y n kv.2 ++ t) + 3 ≤ length (lay_item y n (kv.1, render y n kv.2) ++ t))%nat.
Proof using Type*.
  destruct (lay_colon y Hy) as (sp & Ec & Hsp & _). exists sp. split; [done|]. unfold lay_item. cbn [fst snd]. rewrite Ec. split.
  - rewrite <- !app_assoc, skip_spaces by apply Hy. rewrite json_string_body, skip_space_head by done. done.
  - unfold json_string. rewrite !length_app, !length_cons, !length_app. simpl. rewrite ?length_app. lia.
Qed.

Lemma skip_value n sp v r : Forall (λ c, json_space c = true) sp → value_wf v → skip_space (sp ++ render y n v ++ r) = render y n v ++ r.
Proof using Type*.
  intros Hsp (c & t & -> & Hc & _)%(render_head n). rewrite skip_spaces by done. by apply skip_space_head.
Qed.

Lemma scan_members_render n l : ∀ x fuel acc (r : str), Forall (λ kv, reads_back kv.2) (x :: l) →
  Forall (λ kv, Forall (λ c, scalar c = true) kv.1 ∧ value_wf kv.2) (x :: l) → NoDup (acc ++ x :: l).*1 →
  (2 * length (members_text y n (x :: l) r) + 2 ≤ fuel)%nat →
  scan_members fuel (skip_space (members_text y n (x :: l) r)) acc = Ok (VObj (acc ++ x :: l), r).
Proof using Type*.
  induction l as [|z l IH]; intros [key v] fuel acc r Hok Hwf Hnd Hf; (destruct fuel as [|k]; [lia|]);
    apply Forall_cons in Hok as [Hx Hok]; apply Forall_cons in Hwf as [[Hkey Hwx] Hwf]; cbn [fst snd] in *;
    assert (Hnew : key ∉ acc.*1) by (rewrite fmap_app in Hnd; apply NoDup_app in Hnd as (_ & Hnd & _);
      intros Hin; apply (Hnd _ Hin); by left); unfold members_text in *.
  - rewrite join_map_one in Hf |- *. destruct (skip_item (S n) (key, v) (ly_break y n ++ 125 :: r)) as (sp & Hsp & E & Hl).
    cbn [fst snd] in *. rewrite E. cbn [scan_members]. change (34 =? 34) with true. cbv iota.
    rewrite scan_body by done. cbn [mbind result_bind snd fst].
    rewrite skip_space_head by done. change (58 =? 58) with true. cbv iota. rewrite skip_value by done.
    rewrite Hx; [|done|apply Hy; simpl; lia|rewrite length_app in Hl; lia].
    cbn [mbind result_bind snd fst]. rewrite skip_close by done. change (125 =? 125) with true. cbv iota.
    by rewrite obj_set_new.
  - rewrite join_map_cons in Hf |- *. set (rest := join 44 _ ++ _) in *.
    destruct (skip_item (S n) (key, v) (44 :: rest)) as (sp & Hsp & E & Hl).
    cbn [fst snd] in *. rewrite E. cbn [scan_members]. change (34 =? 34) with true. cbv iota.
    rewrite scan_body by done. cbn [mbind result_bind snd fst].
    rewrite skip_space_head by done. change (58 =? 58) with true. cbv iota. rewrite skip_value by done.
    rewrite Hx; [|done|simpl; lia|rewrite length_app in Hl; lia].
    cbn [mbind result_bind snd fst]. rewrite skip_space_head by done. change (44 =? 125) with false.
    change (44 =? 44) with true. cbv iota. rewrite obj_set_new by done. unfold rest in *.
    rewrite IH; [by rewrite <- app_assoc|done|done|by rewrite <- app_assoc|].
    rewrite length_app, length_cons in Hf. lia.
Qed.

Lemma scan_render v : reads_back v.
Proof using Type*.
  induction v as [|b|z|x|s|l IH|l IH] using value_nested_ind; intros n fuel r Hwf Hr Hf.
  - destruct fuel as [|k]; [simpl in Hf; lia|]. by destruct r.
  - destruct fuel as [|k]; [destruct b; simpl in Hf; lia|]. by destruct b, r.
  - apply scan_numeral with false; [apply scan_int| |done|lia]. unfold number_value. cbn [render]. rewrite int_digits_str.
    rewrite raise_if_false by (apply Z.ltb_ge; exact Hwf). cbn. by rewrite int_value_str.
  - destruct Hwf as [Hx Hfin]. cbn [render] in *. unfold float_json in *. rewrite Hfin in *.
    apply scan_numeral with true; [by apply float_repr_scans| |done|lia]. unfold number_value. by rewrite float_repr_reads.
  - cbn [render] in *. rewrite json_string_body in *. destruct fuel as [|k]; [simpl in Hf; lia|]. cbn [scan_value].
    change (34 =? 34) with true. cbv iota. by rewrite scan_body.
  - apply value_wf_arr in Hwf. destruct fuel as [|k]; [simpl in Hf; lia|]. destruct l as [|x l]; [done|].
    rewrite render_arr in * by done. rewrite length_cons in Hf. cbn [scan_value].
    change (91 =? 34) with false. change (91 =? 123) with false. change (91 =? 91) with true. cbv iota.
    pose proof (Forall_inv Hwf) as Hwx. destruct (elements_head n x l r Hwx) as (t & E).
    destruct (render_head (S n) x Hwx) as (c & t' & E' & Hc & H93 & _). rewrite E' in E. rewrite E. cbn [app].
    rewrite (proj2 (Z.eqb_neq c 93)) by done. change (c :: t' ++ t) with ((c :: t') ++ t). rewrite <- E.
    rewrite scan_items_render; [done..|lia].
  - apply value_wf_obj in Hwf as (Hs & Hnd & Hwf). destruct fuel as [|k]; [simpl in Hf; lia|]. destruct l as [|x l]; [done|].
    rewrite render_obj in * by done. rewrite length_cons in Hf. cbn [scan_value].
    change (123 =? 34) with false. change (123 =? 123) with true. cbv iota.
    pose proof (scan_members_render n l x k [] r IH Hwf Hnd) as E.
    assert (Hhd : ∃ t, skip_space (members_text y n (x :: l) r) = 34 :: t).
    { unfold members_text. destruct l as [|z l]; [rewrite join_map_one|rewrite join_map_cons];
        edestruct (skip_item (S n) x) as (sp & _ & -> & _); eauto. }
    destruct Hhd as (t & E1). rewrite E1 in *. change (34 =? 125) with false. cbv iota. rewrite E; [done|]. lia.
Qed.

(** [json.loads] reads a rendered value back, white space after it included. *)
Lemma loads_render n v sp : value_wf v → Forall (λ c, json_space c = true) sp → (sp = [] ∨ head sp = Some 10) →
  loads (render y n v ++ sp) = Ok v.
Proof using Type*.
  intros Hwf Hsp Hends. destruct (render_head n v Hwf) as (c & t & E & Hc & _ & _ & Hbom).
  unfold loads. rewrite bool_decide_eq_false_2 by (rewrite E; intros [= ->]; done).
  cbn [raise_if mbind result_bind].
  assert (Hsk : skip_space (render y n v ++ sp) = render y n v ++ sp) by (rewrite E; by apply skip_space_head). rewrite Hsk.
  rewrite scan_render; [|done|destruct sp as [|c' sp]; [done|destruct Hends as [|[= ->]]; [done|simpl; lia]]|lia].
  cbn [mbind result_bind snd fst]. rewrite <- (app_nil_r sp), skip_spaces by done. done.
Qed.

End roundtrip.

Section compact_texts.
Context `{NumTextOk}.

(** [json.loads(canonical_json(v)) == v] *)
Lemma loads_dumps v : value_wf v → loads (dumps v) = Ok v.
Proof using Type*.
  intros Hwf. pose proof (loads_render compact compact_ok 0 v [] Hwf (Forall_nil_2 _) (or_introl eq_refl)) as E.
  by rewrite app_nil_r, render_compact in E.
Qed.

Lemma digit_span_digits s : Forall (λ c, is_digit c = true) (digit_span s).1.
Proof using Type. induction s as [|c s IH]; simpl; [constructor|]. destruct (is_digit c) eqn:E; by constructor. Qed.

(** Numerals are ASCII, so the whole text is. *)
Lemma numeral_ascii s t b r : scan_number s = Some (t, b, r) → Forall (λ c, 32 ≤ c < 128) t.
Proof using Type.
  assert (Hdig : ∀ s, Forall (λ c, 32 ≤ c < 128) (digit_span s).1).
  { intros s'. eapply Forall_impl; [apply digit_span_digits|]. unfold is_digit. intros c Hc. simpl in Hc. bool_prop. lia. }
  unfold scan_number. destruct (sign_span s) as [sg s1] eqn:E1. destruct (int_part s1) as [[ip s2]|] eqn:E2; [|done].
  cbn [mbind option_bind]. destruct (frac_part s2) as [fp s3] eqn:E3. destruct (exp_part s3) as [ep s4] eqn:E4. intros [= <- _ _].
  rewrite !Forall_app. split_and!.
  - unfold sign_span in E1. destruct s as [|c s]; [by simplify_eq|]. case_match; simplify_eq; repeat constructor; lia.
  - unfold int_part in E2. destruct s1 as [|c s1]; [done|]. case_match; [simplify_eq; repeat constructor; lia|].
    case_match; [|done]. injection E2 as E2. change (digit_span (c :: s1) = (ip, s2)) in E2. specialize (Hdig (c :: s1)). by rewrite E2 in Hdig.
  - unfold frac_part in E3. destruct s2 as [|c s2]; [by simplify_eq|]. case_match; [|by simplify_eq].
    specialize (Hdig s2). destruct (digit_span s2) as [[|d ds] r2]; simplify_eq; [done|]. constructor; [lia|done].
  - unfold exp_part in E4. destruct s3 as [|c s3]; [by simplify_eq|]. destruct ((c =? 101) || (c =? 69)) eqn:Ec; [|by simplify_eq].
    destruct (exp_sign s3) as [es r3] eqn:E5. specialize (Hdig r3). destruct (digit_span r3) as [[|d ds] r4]; simplify_eq; [done|].
    apply orb_true_iff in Ec. rewrite !Z.eqb_eq in Ec. constructor; [lia|]. apply Forall_app. split; [|done].
    unfold exp_sign in E5. destruct s3 as [|c3 s3]; [by simplify_eq|]. destruct ((c3 =? 43) || (c3 =? 45)) eqn:E6; simplify_eq; [|done].
    apply orb_true_iff in E6. rewrite !Z.eqb_eq in E6. repeat constructor; lia.
Qed.

Lemma json_string_plain s : Forall plain (json_string s).
Proof using Type. eapply Forall_impl; [apply json_string_ascii|]. intros c Hc. simpl in Hc. by apply plain_spec; lia. Qed.

Lemma numeral_plain s t b r : scan_number s = Some (t, b, r) → Forall plain t.
Proof using Type. intros Hs. eapply Forall_impl; [by eapply numeral_ascii|]. intros c Hc. simpl in Hc. by apply plain_spec; lia. Qed.

Lemma render_plain y v : layout_ok y → ∀ n, value_wf v → Forall plain (render y n v).
Proof using Type*.
  intros Hy. pose proof (lay_break_plain y Hy) as Hb. destruct (lay_colon y Hy) as (sp & Hsp & _ & Hspp).
  induction v as [|[]|z|x|s|l IH|l IH] using value_nested_ind; intros n Hwf.
  1-3: by repeat constructor.
  - by eapply numeral_plain, scan_int.
  - destruct Hwf as [Hx Hf]. cbn [render]. unfold float_json. rewrite Hf. by eapply numeral_plain, float_repr_scans.
  - apply json_string_plain.
  - apply value_wf_arr in Hwf. destruct l as [|x l]; [by repeat constructor|]. cbn [render]. constructor; [done|].
    apply Forall_app. split; [|apply Forall_app; split; [done|by repeat constructor]].
    apply join_forall; [done|]. apply Forall_map. rewrite Forall_forall in *. intros v Hv. apply Forall_app. split; auto.
  - apply value_wf_obj in Hwf as (Hs & _ & Hwf). destruct l as [|x l]; [by repeat constructor|].
    pose proof (render_obj y n (x :: l) [] Hs ltac:(done)) as E. rewrite app_nil_r in E. rewrite E. unfold members_text.
    constructor; [done|]. apply Forall_app. split; [|apply Forall_app; split; [done|by repeat constructor]].
    apply join_forall; [done|]. apply Forall_map.
    rewrite Forall_forall in *. intros kv Hkv. unfold lay_item. cbn [fst snd]. rewrite Hsp.
    repeat (apply Forall_app; split); [done|apply json_string_plain|by constructor|].
    apply (IH kv Hkv), (Hwf kv Hkv).
Qed.

Lemma dumps_ascii v : value_wf v → Forall (λ c, 0 ≤ c < 128) (dumps v).
Proof using Type*. intros Hv. rewrite <- (render_compact v 0). by apply plain_ascii, render_plain, Hv; apply compact_ok. Qed.

End compact_texts.

(** ** Lemmas: the order of keys does not matter *)

Definition key_leb (x y : str * value) : bool := str_leb x.1 y.1.

(** The value with the items of every object in key order. *)
Fixpoint sort_keys (v : value) : value :=
  match v with
  | VArr l => VArr (map sort_keys l)
  | VObj l => VObj (sort_by key_leb (map (λ kv, (kv.1, sort_keys kv.2)) l))
  | _ => v
  end.

Lemma item_leb_total x y : item_leb x y = true ∨ item_leb y x = true.
Proof. apply str_leb_total. Qed.
Lemma item_leb_trans x y z : item_leb x y = true → item_leb y z = true → item_leb x z = true.
Proof. apply str_leb_trans. Qed.

Lemma render_obj_eq `{NumText} y n l : l ≠ [] → render y n (VObj l) =
  123 :: join 44 (map (lay_item y (S n)) (sort_by item_leb (map (λ kv, (kv.1, render y (S n) kv.2)) l))) ++ ly_break y n ++ [125].
Proof. by destruct l. Qed.

Lemma render_sort_keys `{NumText} y v : ∀ n, render y n (sort_keys v) = render y n v.
Proof.
  induction v as [|b|z|x|s|l IH|l IH] using value_nested_ind; intros n; try done; rewrite Forall_forall in IH.
  - destruct l as [|x l]; [done|]. cbn [sort_keys]. cbn [map]. cbn [render]. do 3 f_equal. change (sort_keys x :: map sort_keys l) with (map sort_keys (x :: l)).
    rewrite map_map. apply map_ext_in. intros v Hv. by rewrite IH by (by apply list_elem_of_In).
  - destruct (decide (l = [])) as [->|Hl]; [done|]. cbn [sort_keys]. rewrite !render_obj_eq; [|done|].
    + rewrite <- (sort_by_map (λ kv, (kv.1, render y (S n) kv.2)) key_leb item_leb) by done. rewrite map_map. cbn [fst snd].
      rewrite (sort_by_sorted_id item_leb (sort_by _ _)) by (apply sort_by_sorted; [apply item_leb_total|apply item_leb_trans]).
      do 5 f_equal. apply map_ext_in. intros kv Hkv. by rewrite (IH kv) by (by apply list_elem_of_In).
    + intros E. apply Hl. apply (f_equal length) in E. rewrite (Permutation_length (sort_by_perm _ _)), length_map in E. by destruct l.
Qed.

(** A text the program writes for people and reads again: indented, keys
    sorted, and possibly a line break at the end. *)
Lemma loads_indented `{NumTextOk} v : value_wf (sort_keys v) →
  loads (render indent2 0 v ++ [10]) = Ok (sort_keys v) ∧ Forall plain (render indent2 0 v ++ [10]).
Proof.
  intros Hv. rewrite <- render_sort_keys. split.
  - apply loads_render; [apply indent2_ok|done|by repeat constructor|by right].
  - apply Forall_app. split; [by apply render_plain, Hv; apply indent2_ok|by repeat constructor].
Qed.

(** ** A concrete instance, to show that the laws can hold: the pattern of a
    float in decimal, with a fraction. *)

Definition toy_float_of_text (t : str) : result Z :=
  match digit_span t with ([], _) => raise ValueError "could not convert string to float" | (ds, _) => Ok (dec_val ds) end.

Definition toy_int_of_text (t : str) : result Z :=
  match digit_span t with (c :: ds, []) => Ok (dec_val (c :: ds)) | _ => raise ValueError "invalid literal for int()" end.

Definition toy_numtext : NumText := {|
  float_repr x := dec_nonneg x ++ py ".0";
  float_of_text := toy_float_of_text;
  int_of_text := toy_int_of_text;
|}.

Lemma digit_span_stop s c r : Forall (λ c, is_digit c = true) s → is_digit c = false → digit_span (s ++ c :: r) = (s, c :: r).
Proof. intros Hs Hc. induction Hs as [|d s Hd Hs IH]; simpl; [by rewrite Hc|]. by rewrite Hd, IH. Qed.

Lemma toy_numtext_ok : @NumTextOk toy_numtext.
Proof.
  split; cbn [float_of_text int_of_text float_repr toy_numtext].
  - intros t. unfold toy_float_of_text. destruct (digit_span t) as [[|]]; [by apply raises_only_raise|apply raises_only_ok].
  - intros t. unfold toy_int_of_text. destruct (digit_span t) as [[|] [|]]; try (by apply raises_only_raise). apply raises_only_ok.
  - intros x [Hx _] _. pose proof (dec_nonneg_digits x) as Hd. pose proof (dec_nonneg_int_part x Hx) as Hi.
    unfold scan_number.
    assert (Hs : sign_span (dec_nonneg x ++ py ".0") = ([], dec_nonneg x ++ py ".0")).
    { pose proof (dec_nonneg_nonempty x). destruct (dec_nonneg x) as [|c t]; [done|]. apply Forall_cons in Hd as [Hc _].
      unfold is_digit in Hc. bool_prop. cbn [sign_span app]. by destruct (Z.eqb_spec c 45); [lia|]. }
    assert (Hp : int_part (dec_nonneg x ++ py ".0") = Some (dec_nonneg x, py ".0")).
    { destruct (dec_nonneg x) as [|c t]; [done|]. cbn [int_part app] in *. destruct (c =? 48); [by simplify_eq|].
      destruct (is_digit c); [|done]. f_equal. exact (digit_span_stop (c :: t) 46 [48] Hd eq_refl). }
    rewrite Hs, Hp. cbn. done.
  - intros x [Hx _] _. unfold toy_float_of_text. pose proof (dec_nonneg_nonempty x).
    change (py ".0") with [46; 48]. rewrite (digit_span_stop (dec_nonneg x) 46 [48]); [|apply dec_nonneg_digits|done].
    destruct (dec_nonneg x) eqn:E; [done|]. rewrite <- E. f_equal. by apply dec_nonneg_val.
Qed.
