(* ===== verification/Network.v ===== *)
(** * Peer messages and authenticated frames (network.py)

    The message shapes and their validation, and the frame codec: magic, length,
    canonical JSON payload and HMAC-SHA256 tag.  A payload is an arbitrary JSON
    value, as in the source, where nothing checks that it is an object; the
    exceptions of Python's conversions ([KeyError], [TypeError],
    [AttributeError], [OverflowError]) are kept apart from [NetworkError]. *)

From S2P Require Import Prelude PyBytes PyText Sha256 Json Crypto ByteReader Transaction Block BlockProcessor WireJson JsonText.
Local Open Scope Z_scope.

Definition NETWORK_MAGIC : bytes := b_lit "BCCN".
Definition PROTOCOL_VERSION : Z := 1.
Definition MAX_MESSAGE_SIZE : Z := 2000000.
Definition MAX_INVENTORY_ITEMS : Z := 2000.
Definition HEADER_SIZE : Z := 8.
Definition AUTH_TAG_SIZE : Z := 32.

Inductive MessageType :=
  | VERSION | VERACK | PING | PONG | INV | GETDATA | GETHEADERS | HEADERS | TX | BLOCK | REJECT.
#[global] Instance MessageType_eq_dec : EqDecision MessageType.
Proof. solve_decision. Defined.

Definition message_types : list (str * MessageType) :=
  [(py "version", VERSION); (py "verack", VERACK); (py "ping", PING); (py "pong", PONG); (py "inv", INV);
   (py "getdata", GETDATA); (py "getheaders", GETHEADERS); (py "headers", HEADERS); (py "tx", TX);
   (py "block", BLOCK); (py "reject", REJECT)].

(** [message_type.value] *)
Definition type_text (t : MessageType) : str :=
  match t with
  | VERSION => py "version" | VERACK => py "verack" | PING => py "ping" | PONG => py "pong" | INV => py "inv"
  | GETDATA => py "getdata" | GETHEADERS => py "getheaders" | HEADERS => py "headers" | TX => py "tx"
  | BLOCK => py "block" | REJECT => py "reject"
  end.

(** [FrameAuthenticator] *)
Definition authenticator (key : bytes) : result bytes :=
  raise_if (bool_decide (key = [])) NetworkError "frame authentication key is required";; Ok key.

Definition verify_tag (key data tag : bytes) : result unit :=
  raise_if (negb (zlen tag =? AUTH_TAG_SIZE)) NetworkError "frame authentication tag is invalid";;
  raise_if (negb (bool_decide (hmac_sha256 key data = tag))) NetworkError "frame authentication failed".

(** [_is_hash] *)
Definition is_hash (s : str) : bool := (zlen s =? 64) && forallb lower_hex s.

(** ** Reading values *)

(** [d[k]] and [d.get(k)] on a dictionary. *)
Fixpoint obj_get (k : str) (l : list (str * value)) : option value :=
  match l with
  | [] => None
  | (k', v) :: l' => if bool_decide (k' = k) then Some v else obj_get k l'
  end.

Definition obj_item (k : string) (l : list (str * value)) : result value :=
  match obj_get (py k) l with Some v => Ok v | None => raise KeyError k end.

(** [payload.get(k)], [None] for an absent key; [payload] may be any value. *)
Definition payload_get (p : value) (k : string) : result value :=
  match p with
  | VObj l => Ok (default VNull (obj_get (py k) l))
  | _ => raise AttributeError "object has no attribute 'get'"
  end.

(** [payload[k]] *)
Definition payload_item (p : value) (k : string) : result value :=
  match p with
  | VObj l => obj_item k l
  | _ => raise TypeError "object is not subscriptable with a string"
  end.

(** [isinstance(v, int)]: a boolean is an integer. *)
Definition as_int (v : value) : option Z :=
  match v with VInt z => Some z | VBool b => Some (Z.b2z b) | _ => None end.

(** [bool(v)] *)
Definition truthy (v : value) : bool :=
  match v with
  | VNull => false
  | VBool b => b
  | VInt z => negb (z =? 0)
  | VFloat x => negb ((x =? 0) || (x =? 2 ^ 63))
  | VStr s => negb (bool_decide (s = []))
  | VArr l => match l with [] => false | _ => true end
  | VObj l => match l with [] => false | _ => true end
  end.

Section network.
Context `{NumText}.

(** [str(v)].  The text of a container is only ever compared with texts that
    do not start with a bracket; it is cut after that. *)
Definition py_str (v : value) : str :=
  match v with
  | VNull => py "None"
  | VBool b => if b then py "True" else py "False"
  | VInt z => str_of_int z
  | VFloat x =>
      if float_finite x then float_repr x
      else if negb (float_man x =? 0) then py "nan"
      else if float_neg x then py "-inf" else py "inf"
  | VStr s => s
  | VArr _ => py "["
  | VObj _ => py "{"
  end.

(** [int(x)] of a float: truncation. *)
Definition float_trunc (x : Z) : result Z :=
  if float_finite x then
    let e := float_exp x in
    let m := if e =? 0 then float_man x else 2 ^ 52 + float_man x in
    let a := Z.shiftl m ((if e =? 0 then 1 else e) - 1075) in
    Ok (if float_neg x then - a else a)
  else if float_man x =? 0 then raise OverflowError "cannot convert float infinity to integer"
  else raise ValueError "cannot convert float NaN to integer".

(** [float(z)] of an integer: the nearest double, ties to even. *)
Definition float_of_int (z : Z) : result Z :=
  if z =? 0 then Ok 0 else
  let a := Z.abs z in
  let n := Z.log2 a in
  let m :=
    if n <=? 52 then Z.shiftl a (52 - n)
    else
      let k := n - 52 in
      let q := Z.shiftr a k in
      let r := a mod 2 ^ k in
      if (2 ^ (k - 1) <? r) || ((r =? 2 ^ (k - 1)) && Z.odd q) then q + 1 else q in
  let bits := (n + 1022) * 2 ^ 52 + m in
  raise_if (float_inf <=? bits) OverflowError "int too large to convert to float";;
  Ok (if z <? 0 then 2 ^ 63 + bits else bits).

(** [int(v)] and [float(v)] *)
Definition py_int (v : value) : result Z :=
  match v with
  | VInt z => Ok z
  | VBool b => Ok (Z.b2z b)
  | VFloat x => float_trunc x
  | VStr s => int_of_text s
  | _ => raise TypeError "int() argument must be a string or a real number"
  end.

Definition py_float (v : value) : result Z :=
  match v with
  | VInt z => float_of_int z
  | VBool b => float_of_int (Z.b2z b)
  | VFloat x => Ok x
  | VStr s => float_of_text s
  | _ => raise TypeError "float() argument must be a string or a real number"
  end.

(** One element of the sequence [dict(...)] is given: a key, when it is a text,
    and its value. *)
Definition dict_pair (e : value) : result (option (str * value)) :=
  let pair_of (k v : value) :=
    match k with
    | VStr s => Ok (Some (s, v))
    | VArr _ | VObj _ => raise TypeError "unhashable type"
    | _ => Ok None
    end in
  let bad_length := raise ValueError "dictionary update sequence element has the wrong length" in
  match e with
  | VArr [k; v] => pair_of k v
  | VStr [a; b] => pair_of (VStr [a]) (VStr [b])
  | VObj [(k, _); (k', _)] => pair_of (VStr k) (VStr k')
  | VArr _ | VStr _ | VObj _ => bad_length
  | _ => raise TypeError "cannot convert dictionary update sequence element to a sequence"
  end.

Definition dict_add (acc : list (str * value)) (e : value) : result (list (str * value)) :=
  p ← dict_pair e; Ok (match p with Some (k, v) => obj_set k v acc | None => acc end).

(** [dict(v)], the keys that are text. *)
Definition py_dict (v : value) : result (list (str * value)) :=
  match v with
  | VObj l => Ok l
  | VArr l => foldR dict_add [] l
  | VStr s => foldR dict_add [] ((λ c, VStr [c]) <$> s)
  | _ => raise TypeError "object is not iterable"
  end.

(** ** Inventory *)

Record InventoryVector := mkInventory { inv_kind : str; inv_hash : str }.

Definition inventory_to_value (i : InventoryVector) : value :=
  VObj [(py "hash", VStr (inv_hash i)); (py "kind", VStr (inv_kind i))].

(** [InventoryVector.from_dict] on a dictionary, and on any value. *)
Definition inventory_from_dict (l : list (str * value)) : result InventoryVector :=
  kind ← obj_item "kind" l;
  h ← obj_item "hash" l;
  raise_if (bool_decide (py_str kind ∉ [py "tx"; py "block"])) NetworkError "inventory kind is invalid";;
  raise_if (negb (is_hash (py_str h))) NetworkError "inventory hash is invalid";;
  Ok (mkInventory (py_str kind) (py_str h)).

Definition inventory_from_value (v : value) : result InventoryVector :=
  match v with
  | VObj l => inventory_from_dict l
  | _ => raise TypeError "object is not subscriptable with a string"
  end.

(** ** Headers *)

Record BlockHeader := mkHeader {
  bh_height : Z;
  bh_previous_hash : str;
  bh_root : str;
  bh_difficulty : Z;
  bh_timestamp : Z;
  bh_nonce : Z;
  bh_version : Z;
}.

(** [BlockHeader.from_block] *)
Definition header_from_block (b : ConsensusBlock) : BlockHeader :=
  mkHeader (height b) (previous_hash b) (transaction_root b) (difficulty b) (timestamp b) (nonce b) (block_version b).

(** [BlockHeader.hash] *)
Definition header_hash (h : BlockHeader) : result str :=
  b ← make_block (bh_height h) (bh_previous_hash h) [] (bh_difficulty h) (bh_timestamp h) (bh_nonce h) (bh_root h) (bh_version h);
  block_hash b.

Definition header_to_value (h : BlockHeader) : result value :=
  hash ← header_hash h;
  Ok (VObj [(py "difficulty", VInt (bh_difficulty h)); (py "hash", VStr hash); (py "height", VInt (bh_height h));
            (py "nonce", VInt (bh_nonce h)); (py "previous_hash", VStr (bh_previous_hash h));
            (py "timestamp", VFloat (bh_timestamp h)); (py "transaction_root", VStr (bh_root h));
            (py "version", VInt (bh_version h))]).

(** [except (KeyError, TypeError, ValueError)] *)
Definition malformed_error (e : exn) : bool := exn_is KeyError e || exn_is TypeError e || is_value_error e.

Definition or_malformed {A} (m : result A) (msg : string) : result A :=
  try_catch m (λ e, if malformed_error e then raise NetworkError msg else Err e).

Definition header_fields (l : list (str * value)) : result BlockHeader :=
  height ← (v ← obj_item "height" l; py_int v);
  previous ← obj_item "previous_hash" l;
  root ← obj_item "transaction_root" l;
  difficulty ← (v ← obj_item "difficulty" l; py_int v);
  timestamp ← (v ← obj_item "timestamp" l; py_float v);
  nonce ← (v ← obj_item "nonce" l; py_int v);
  version ← py_int (default (VInt 1) (obj_get (py "version") l));
  Ok (mkHeader height (py_str previous) (py_str root) difficulty timestamp nonce version).

(** [BlockHeader.from_dict] *)
Definition header_from_dict (l : list (str * value)) : result BlockHeader :=
  h ← or_malformed (header_fields l) "block header is malformed";
  raise_if (bh_height h <? 0) NetworkError "block header height is invalid";;
  raise_if (bh_difficulty h <? 0) NetworkError "block header difficulty is invalid";;
  raise_if (bool_decide (bh_version h ∉ SUPPORTED_BLOCK_VERSIONS)) NetworkError "block header version is unsupported";;
  raise_if (negb (is_hash (bh_previous_hash h))) NetworkError "block header previous hash is invalid";;
  raise_if (negb (is_hash (bh_root h))) NetworkError "block header transaction root is invalid";;
  match default VNull (obj_get (py "hash") l) with
  | VNull => Ok h
  | v =>
      hash ← header_hash h;
      raise_if (match v with VStr s => negb (bool_decide (s = hash)) | _ => true end)
        NetworkError "block header hash is invalid";;
      Ok h
  end.

(** The loop of [validate_header_chain]: what the next header must extend. *)
Definition check_header (prior : option str * option Z) (h : BlockHeader) : result (option str * option Z) :=
  hash ← header_hash h;
  raise_if (negb (startswith hash (zeros (bh_difficulty h)))) NetworkError "block header proof of work is invalid";;
  raise_if (match prior.1 with Some p => negb (bool_decide (bh_previous_hash h = p)) | None => false end)
    NetworkError "block headers are disconnected";;
  raise_if (match prior.2 with Some k => negb (bh_height h =? k + 1) | None => false end)
    NetworkError "block header height is not sequential";;
  Ok (Some hash, Some (bh_height h)).

(** [validate_header_chain] *)
Definition validate_header_chain (hs : list BlockHeader) (previous : option str) : result (list BlockHeader) :=
  raise_if (match previous with Some p => negb (is_hash p) | None => false end) NetworkError "header chain anchor is invalid";;
  foldR check_header (previous, None) hs;;
  Ok hs.

(** [headers_from_payload] *)
Definition headers_from_payload (p : value) : result (list BlockHeader) :=
  v ← payload_get p "headers";
  match v with
  | VArr l =>
      raise_if (2000 <? zlen l) NetworkError "headers payload is too large";;
      hs ← mapR (λ x, d ← py_dict x; header_from_dict d) l;
      validate_header_chain hs None
  | _ => raise NetworkError "headers payload is invalid"
  end.

(** ** Transactions and blocks *)

(** [except (ConsensusError, ValueError)] *)
Definition or_invalid {A} (m : result A) (msg : string) : result A :=
  try_catch m (λ e, if is_value_error e then raise NetworkError msg else Err e).

Definition transaction_from_payload (p : value) : result ConsensusTransaction :=
  v ← payload_get p "transaction_bytes";
  match v with
  | VStr s => or_invalid (b ← fromhex s; tx_from_bytes true b) "transaction binary payload is invalid"
  | _ => raise NetworkError "transaction payload is invalid"
  end.

Definition block_from_payload (p : value) : result ConsensusBlock :=
  v ← payload_get p "block_bytes";
  match v with
  | VStr s => or_invalid (b ← fromhex s; block_from_bytes b) "block binary payload is invalid"
  | _ => raise NetworkError "block payload is invalid"
  end.

(** ** Messages *)

Record PeerMessage := mkMessage { msg_type : MessageType; msg_payload : value; msg_version : Z }.

Definition message (t : MessageType) (p : value) : PeerMessage := mkMessage t p PROTOCOL_VERSION.

Definition validate_empty (p : value) : result unit :=
  raise_if (truthy p) NetworkError "message payload must be empty".

Definition nonempty_text (v : value) : bool := match v with VStr s => negb (bool_decide (s = [])) | _ => false end.

Definition validate_version (p : value) : result unit :=
  network ← payload_get p "network";
  height ← payload_get p "height";
  node_id ← payload_get p "node_id";
  raise_if (negb (nonempty_text network)) NetworkError "version network is invalid";;
  raise_if (match as_int height with Some z => z <? -1 | None => true end) NetworkError "version height is invalid";;
  raise_if (negb (nonempty_text node_id)) NetworkError "version node id is invalid".

Definition validate_nonce (p : value) : result unit :=
  nonce ← payload_get p "nonce";
  raise_if (match as_int nonce with Some z => z <? 0 | None => true end) NetworkError "nonce is invalid".

Definition validate_inventory (p : value) : result unit :=
  items ← payload_get p "items";
  match items with
  | VArr l =>
      raise_if (MAX_INVENTORY_ITEMS <? zlen l) NetworkError "inventory items exceed maximum count";;
      foldR (λ _ x, d ← py_dict x; inventory_from_dict d;; Ok tt) tt l
  | _ => raise NetworkError "inventory items are invalid"
  end.

Definition is_hash_value (v : value) : bool := match v with VStr s => is_hash s | _ => false end.

Definition validate_getheaders (p : value) : result unit :=
  locator ← payload_get p "locator";
  stop_hash ← payload_get p "stop_hash";
  limit ← payload_get p "limit";
  match locator with
  | VArr l =>
      raise_if (match as_int limit with Some z => (z <? 0) || (2000 <? z) | None => true end)
        NetworkError "header limit is invalid";;
      raise_if (match stop_hash with VNull => false | v => negb (is_hash_value v) end) NetworkError "header stop hash is invalid";;
      raise_if (negb (forallb is_hash_value l)) NetworkError "header locator hash is invalid"
  | _ => raise NetworkError "header locator is invalid"
  end.

Definition validate_reject (p : value) : result unit :=
  reason ← payload_get p "reason";
  raise_if (negb (nonempty_text reason)) NetworkError "reject reason is invalid".

Definition validate_headers (p : value) : result unit := headers_from_payload p;; Ok tt.
Definition validate_transaction_payload (p : value) : result unit := transaction_from_payload p;; Ok tt.
Definition validate_block_payload (p : value) : result unit := block_from_payload p;; Ok tt.

(** [validate_payload] *)
Definition validate_payload (m : PeerMessage) : result unit :=
  let p := msg_payload m in
  match msg_type m with
  | VERSION => validate_version p
  | VERACK => validate_empty p
  | PING | PONG => validate_nonce p
  | INV | GETDATA => validate_inventory p
  | GETHEADERS => validate_getheaders p
  | HEADERS => validate_headers p
  | TX => validate_transaction_payload p
  | BLOCK => validate_block_payload p
  | REJECT => validate_reject p
  end.

(** [to_dict] *)
Definition message_to_value (m : PeerMessage) : value :=
  VObj [(py "payload", msg_payload m); (py "type", VStr (type_text (msg_type m))); (py "version", VInt (msg_version m))].

Definition message_fields (l : list (str * value)) : result PeerMessage :=
  t ← obj_item "type" l;
  ty ← match filter (λ x : str * MessageType, x.1 = py_str t) message_types with
       | (_, ty) :: _ => Ok ty
       | [] => raise ValueError "not a valid MessageType"
       end;
  version ← (v ← obj_item "version" l; py_int v);
  payload ← obj_item "payload" l;
  Ok (mkMessage ty payload version).

(** [PeerMessage.from_dict] *)
Definition message_from_dict (l : list (str * value)) : result PeerMessage :=
  m ← or_malformed (message_fields l) "message is malformed";
  raise_if (negb (msg_version m =? PROTOCOL_VERSION)) NetworkError "protocol version is unsupported";;
  validate_payload m;;
  Ok m.

(** ** Frames *)

(** [checksum] *)
Definition checksum (m : PeerMessage) : result str := sha256_hex_str (dumps (message_to_value m)).

Definition encode_payload (m : PeerMessage) : result bytes := utf8_encode (dumps (message_to_value m)).

(** Magic, length and payload: what the tag covers. *)
Definition frame_body (payload : bytes) : result bytes := n ← pack_I (zlen payload); Ok (NETWORK_MAGIC ++ n ++ payload).

(** [to_frame] *)
Definition to_frame (m : PeerMessage) (key : bytes) : result bytes :=
  payload ← encode_payload m;
  raise_if (MAX_MESSAGE_SIZE <? zlen payload) NetworkError "message exceeds maximum size";;
  frame ← frame_body payload;
  k ← authenticator key;
  Ok (frame ++ hmac_sha256 k frame).

(** [b[lo:hi]] *)
Definition slice (lo hi : Z) (b : bytes) : bytes := take (Z.to_nat (hi - lo)) (drop (Z.to_nat lo) b).

(** [except (UnicodeDecodeError, json.JSONDecodeError)] *)
Definition or_not_json {A} (m : result A) : result A :=
  try_catch m (λ e, if exn_is UnicodeError e || exn_is JSONDecodeError e
                    then raise NetworkError "frame payload is not valid JSON" else Err e).

(** [from_frame] *)
Definition from_frame (f key : bytes) : result PeerMessage :=
  raise_if (zlen f <? HEADER_SIZE) NetworkError "frame is too short";;
  raise_if (negb (bool_decide (take 4 f = NETWORK_MAGIC))) NetworkError "network magic is invalid";;
  let size := unpack_I (slice 4 HEADER_SIZE f) in
  raise_if (MAX_MESSAGE_SIZE <? size) NetworkError "message exceeds maximum size";;
  let fin := HEADER_SIZE + size in
  raise_if (negb (zlen f =? fin + AUTH_TAG_SIZE)) NetworkError "frame payload length mismatch";;
  k ← authenticator key;
  verify_tag k (slice 0 fin f) (slice fin (fin + AUTH_TAG_SIZE) f);;
  decoded ← or_not_json (s ← utf8_decode (slice HEADER_SIZE fin f); loads s);
  match decoded with
  | VObj l => message_from_dict l
  | _ => raise NetworkError "message payload must be an object"
  end.

(** [read_frame] *)
Definition read_frame (buffer key : bytes) : result (PeerMessage * bytes) :=
  raise_if (zlen buffer <? HEADER_SIZE) NetworkError "buffer does not contain a complete header";;
  raise_if (negb (bool_decide (take 4 buffer = NETWORK_MAGIC))) NetworkError "network magic is invalid";;
  let size := unpack_I (slice 4 HEADER_SIZE buffer) in
  raise_if (MAX_MESSAGE_SIZE <? size) NetworkError "message exceeds maximum size";;
  let fin := HEADER_SIZE + size + AUTH_TAG_SIZE in
  raise_if (zlen buffer <? fin) NetworkError "buffer does not contain a complete frame";;
  m ← from_frame (slice 0 fin buffer) key;
  Ok (m, drop (Z.to_nat fin) buffer).

(** ** Building messages *)

Definition version_message (network : str) (height : Z) (node_id : str) : PeerMessage :=
  message VERSION (VObj [(py "height", VInt height); (py "network", VStr network); (py "node_id", VStr node_id)]).

Definition inventory_message (t : MessageType) (items : list InventoryVector) : result PeerMessage :=
  raise_if (bool_decide (t ∉ [INV; GETDATA])) NetworkError "inventory message type is invalid";;
  Ok (message t (VObj [(py "items", VArr (inventory_to_value <$> items))])).

Definition getheaders_message (locator : list str) (stop_hash : option str) (limit : Z) : PeerMessage :=
  message GETHEADERS (VObj [(py "limit", VInt limit); (py "locator", VArr (VStr <$> locator));
    (py "stop_hash", match stop_hash with Some s => VStr s | None => VNull end)]).

Definition headers_message (hs : list BlockHeader) : result PeerMessage :=
  l ← mapR header_to_value hs; Ok (message HEADERS (VObj [(py "headers", VArr l)])).

Definition transaction_message (t : ConsensusTransaction) : result PeerMessage :=
  b ← tx_to_bytes true t; Ok (message TX (VObj [(py "transaction_bytes", VStr (bytes_hex b))])).

Definition block_message (b : ConsensusBlock) : result PeerMessage :=
  x ← block_to_bytes b; Ok (message BLOCK (VObj [(py "block_bytes", VStr (bytes_hex x))])).

End network.

(** ** Lemmas: the parts of a frame *)

Lemma slice_app_l n (a b : bytes) : n = zlen a → slice 0 n (a ++ b) = a.
Proof. intros ->. unfold slice. rewrite Z.sub_0_r, zlen_to_nat. change (drop (Z.to_nat 0) (a ++ b)) with (a ++ b). by rewrite take_app_length. Qed.

Lemma slice_app_r lo hi (a b : bytes) : zlen a ≤ lo → slice lo hi (a ++ b) = slice (lo - zlen a) (hi - zlen a) b.
Proof.
  intros Hlo. unfold slice. rewrite drop_app. rewrite (drop_ge a) by (unfold zlen in Hlo; lia). cbn [app].
  f_equal; [lia|]. f_equal. unfold zlen in *. lia.
Qed.

Lemma slice_all lo hi (b : bytes) : lo = 0 → hi = zlen b → slice lo hi b = b.
Proof. intros -> ->. rewrite <- (app_nil_r b) at 2. by apply slice_app_l. Qed.

Lemma pack_I_ok n : 0 ≤ n ≤ MAX_MESSAGE_SIZE → ∃ b, pack_I n = Ok b.
Proof.
  intros Hn. unfold pack_I, MAX_MESSAGE_SIZE in *. eexists.
  replace ((0 <=? n) && (n <? 2 ^ 32)) with true; [done|]. symmetry. apply andb_true_iff. split; [apply Z.leb_le|apply Z.ltb_lt]; lia.
Qed.

Lemma zlen_hmac k m : zlen (hmac_sha256 k m) = AUTH_TAG_SIZE.
Proof. unfold zlen. by rewrite hmac_sha256_length. Qed.

(** A frame is its body and the tag of the body. *)
Record frame_parts (f key payload len body : bytes) : Prop := {
  parts_len : pack_I (zlen payload) = Ok len;
  parts_body : body = NETWORK_MAGIC ++ len ++ payload;
  parts_frame : f = body ++ hmac_sha256 key body;
  parts_size : zlen payload ≤ MAX_MESSAGE_SIZE;
  parts_key : key ≠ [];
}.

Section parts.
Context {f key payload len body : bytes} (Hp : frame_parts f key payload len body).

Lemma parts_len4 : zlen len = 4.
Proof using Hp. destruct Hp. unfold zlen. by rewrite (pack_I_length _ _ parts_len0). Qed.

Lemma parts_body_length : zlen body = HEADER_SIZE + zlen payload.
Proof using Hp.
  pose proof parts_len4 as H4. destruct Hp as [_ -> _ _ _]. rewrite !zlen_app, H4.
  change (zlen NETWORK_MAGIC) with 4. unfold HEADER_SIZE. lia.
Qed.

Lemma parts_length : zlen f = HEADER_SIZE + zlen payload + AUTH_TAG_SIZE.
Proof using Hp.
  pose proof parts_body_length. destruct Hp as [_ _ -> _ _]. rewrite zlen_app, zlen_hmac. lia.
Qed.

Lemma parts_magic t : take 4 (f ++ t) = NETWORK_MAGIC.
Proof using Hp. destruct Hp as [_ -> -> _ _]. rewrite <- !app_assoc. done. Qed.

Lemma parts_size_field t : unpack_I (slice 4 HEADER_SIZE (f ++ t)) = zlen payload.
Proof using Hp.
  pose proof parts_len4 as H4. destruct Hp as [Hlen -> -> _ _]. rewrite <- !app_assoc.
  rewrite slice_app_r by done. change (4 - zlen NETWORK_MAGIC) with 0. change (HEADER_SIZE - zlen NETWORK_MAGIC) with 4.
  rewrite slice_app_l by done. by apply pack_unpack_I.
Qed.

Lemma parts_body_field : slice 0 (HEADER_SIZE + zlen payload) f = body.
Proof using Hp. pose proof parts_body_length as Hb. destruct Hp as [_ _ -> _ _]. by apply slice_app_l. Qed.

Lemma parts_tag_field : slice (HEADER_SIZE + zlen payload) (HEADER_SIZE + zlen payload + AUTH_TAG_SIZE) f = hmac_sha256 key body.
Proof using Hp.
  pose proof parts_body_length as Hb. destruct Hp as [_ _ -> _ _]. rewrite slice_app_r by lia.
  apply slice_all; [lia|]. rewrite zlen_hmac. lia.
Qed.

Lemma parts_payload_field : slice HEADER_SIZE (HEADER_SIZE + zlen payload) f = payload.
Proof using Hp.
  pose proof parts_len4 as H4. destruct Hp as [_ -> -> _ _]. rewrite <- !app_assoc.
  rewrite slice_app_r by done. rewrite slice_app_r by (change (zlen NETWORK_MAGIC) with 4; unfold HEADER_SIZE; lia).
  rewrite H4. change (zlen NETWORK_MAGIC) with 4. unfold HEADER_SIZE.
  replace (8 - 4 - 4) with 0 by lia. by apply slice_app_l; lia.
Qed.

End parts.

Lemma verify_tag_Ok key data tag : verify_tag key data tag = Ok tt ↔ zlen tag = AUTH_TAG_SIZE ∧ hmac_sha256 key data = tag.
Proof.
  unfold verify_tag. rewrite raise_if_bind, raise_if_Ok, !negb_false_iff, Z.eqb_eq, bool_decide_eq_true. done.
Qed.

Lemma verify_tag_raises key data tag : raises_only (exn_is NetworkError) (verify_tag key data tag).
Proof. unfold verify_tag. apply raises_only_bind; [by apply raises_only_if|]. intros _ _. by apply raises_only_if. Qed.

Section frames.
Context `{NumText}.

(** What [from_frame] makes of a payload. *)
Definition read_payload (payload : bytes) : result PeerMessage :=
  decoded ← or_not_json (s ← utf8_decode payload; loads s);
  match decoded with
  | VObj l => message_from_dict l
  | _ => raise NetworkError "message payload must be an object"
  end.

Lemma from_frame_parts f key payload len body : frame_parts f key payload len body →
  from_frame f key = read_payload payload.
Proof using Type.
  intros Hp. pose proof (parts_length Hp) as Hl. pose proof (zlen_nonneg payload).
  pose proof (parts_magic Hp []) as Hm. pose proof (parts_size_field Hp []) as Hs. rewrite app_nil_r in Hm, Hs.
  unfold from_frame. rewrite Hm, Hs, bool_decide_eq_true_2 by done.
  rewrite !raise_if_false; [|apply Z.ltb_ge; unfold HEADER_SIZE, AUTH_TAG_SIZE in *; lia|done|apply Z.ltb_ge; apply Hp|apply negb_false_iff, Z.eqb_eq; lia].
  cbn [mbind result_bind]. unfold authenticator. rewrite bool_decide_eq_false_2 by apply Hp. cbn [raise_if mbind result_bind].
  rewrite (parts_body_field Hp), (parts_tag_field Hp), (parts_payload_field Hp).
  rewrite (proj2 (verify_tag_Ok key body (hmac_sha256 key body))); [done|]. split; [apply zlen_hmac|done].
Qed.

(** A frame that passes the checks on its shape and tag is of that form. *)
Lemma frame_accepted f key :
  (∃ payload len body, frame_parts f key payload len body) ∨ ∃ e, from_frame f key = Err e ∧ exn_cls e = NetworkError.
Proof using Type.
  assert (Herr : ∀ b c k (g : unit → result PeerMessage), c = NetworkError →
    (b = false → (∃ payload len body, frame_parts f key payload len body) ∨ ∃ e, g tt = Err e ∧ exn_cls e = NetworkError) →
    (∃ payload len body, frame_parts f key payload len body) ∨ ∃ e, (raise_if b c k ≫= g) = Err e ∧ exn_cls e = NetworkError).
  { intros [] c k g -> Hg; [right; eexists; by split|]. by apply Hg. }
  unfold from_frame.
  apply Herr; [done|]. intros H8. apply Herr; [done|]. intros Hm. cbv zeta. set (size := unpack_I _).
  apply Herr; [done|]. intros Hsize. apply Herr; [done|]. intros Hlen. bool_prop.
  unfold authenticator. destruct (decide (key = [])) as [->|Hkey]; [right; by eexists|].
  rewrite bool_decide_eq_false_2 by done. cbn [raise_if mbind result_bind].
  destruct (verify_tag key _ _) as [[]|e] eqn:Hv.
  2:{ right. exists e. split; [done|]. apply verify_tag_raises in Hv. unfold exn_is in Hv. by bool_prop. }
  left. apply verify_tag_Ok in Hv as [_ Hv]. unfold HEADER_SIZE, AUTH_TAG_SIZE in *.
  assert (Hl4 : length (slice 4 8 f) = 4%nat) by (unfold slice; rewrite length_take, length_drop; unfold zlen in *; lia).
  pose proof (unpack_I_range _ Hl4) as Hr. change (unpack_I (slice 4 8 f)) with size in Hr.
  set (payload := slice 8 (8 + size) f). set (tag := slice (8 + size) (8 + size + 32) f) in *.
  assert (Hpl : zlen payload = size).
  { unfold payload, slice, zlen in *. rewrite length_take, length_drop. lia. }
  assert (Hf : f = (NETWORK_MAGIC ++ slice 4 8 f ++ payload) ++ tag).
  { rewrite <- Hm. unfold payload, tag, slice.
    replace (Z.to_nat (8 - 4)) with 4%nat by lia. replace (Z.to_nat (8 + size - 8)) with (Z.to_nat size) by lia.
    replace (Z.to_nat 4) with 4%nat by lia. replace (Z.to_nat 8) with (4 + 4)%nat by lia.
    replace (Z.to_nat (8 + size)) with (4 + 4 + Z.to_nat size)%nat by lia. replace (Z.to_nat (8 + size + 32 - (8 + size))) with 32%nat by lia.
    rewrite <- !app_assoc, <- !drop_drop. rewrite (take_ge _ 32); [by rewrite !take_drop|].
    rewrite !length_drop. unfold zlen in *. lia. }
  exists payload, (slice 4 8 f), (NETWORK_MAGIC ++ slice 4 8 f ++ payload). split.
  - rewrite Hpl. by apply unpack_pack_I.
  - done.
  - assert (Hb : slice 0 (8 + size) f = NETWORK_MAGIC ++ slice 4 8 f ++ payload).
    { rewrite Hf at 1. apply slice_app_l. rewrite !zlen_app, Hpl. change (zlen NETWORK_MAGIC) with 4. unfold zlen at 1. rewrite Hl4. lia. }
    by rewrite <- Hb, Hv, Hb.
  - lia.
  - done.
Qed.

End frames.

(** ** Lemmas: messages *)

Section messages.
Context `{NumTextOk}.

(** A message as [from_dict] builds it: the supported version and a payload
    that is in JSON normal form and valid for the type. *)
Definition message_wf (m : PeerMessage) : Prop :=
  msg_version m = PROTOCOL_VERSION ∧ value_wf (msg_payload m) ∧ validate_payload m = Ok tt.

Lemma message_value_wf m : message_wf m → value_wf (message_to_value m).
Proof using Type.
  intros (Hv & Hp & _). apply value_wf_obj. split; [|split].
  - repeat constructor.
  - change (NoDup [py "payload"; py "type"; py "version"]).
    apply (bool_decide_unpack (NoDup [py "payload"; py "type"; py "version"])). vm_compute. exact I.
  - apply Forall_cons. split; [split; [by repeat constructor|done]|].
    apply Forall_cons. split; [split; [by repeat constructor|]|].
    { destruct (msg_type m); by repeat constructor. }
    apply Forall_singleton. split; [by repeat constructor|]. cbn [snd]. rewrite Hv. vm_compute. discriminate.
Qed.

Lemma message_fields_value m : msg_version m = PROTOCOL_VERSION →
  message_fields [(py "payload", msg_payload m); (py "type", VStr (type_text (msg_type m))); (py "version", VInt (msg_version m))] = Ok m.
Proof using Type. destruct m as [ty p v]. cbn [msg_version msg_type msg_payload]. intros ->. by destruct ty. Qed.

Lemma message_from_value m : message_wf m →
  message_from_dict [(py "payload", msg_payload m); (py "type", VStr (type_text (msg_type m))); (py "version", VInt (msg_version m))] = Ok m.
Proof using Type.
  intros (Hv & _ & Hval). unfold message_from_dict. rewrite message_fields_value by done.
  cbn [or_malformed try_catch mbind result_bind]. rewrite Hv. cbn. by rewrite Hval.
Qed.

Lemma read_encoded m payload : message_wf m → encode_payload m = Ok payload → read_payload payload = Ok m.
Proof using Type*.
  intros Hm Hp. pose proof (message_value_wf m Hm) as Hwf. unfold read_payload.
  pose proof (utf8_decode_encode _ _ [] Hp) as Hd. rewrite app_nil_r in Hd. rewrite Hd. cbn [utf8_decode fmap result_fmap].
  rewrite app_nil_r. cbn [mbind result_bind]. rewrite loads_dumps by done. by apply message_from_value.
Qed.

Lemma to_frame_parts m key f : to_frame m key = Ok f →
  ∃ payload len body, encode_payload m = Ok payload ∧ frame_parts f key payload len body.
Proof using Type.
  unfold to_frame, frame_body, authenticator. intros E. apply bind_Ok in E as (payload & Hp & E).
  apply raise_if_bind in E as [Hsize E]. apply bind_Ok in E as (body & Hb & E). apply bind_Ok in Hb as (len & Hlen & [= <-]).
  apply bind_Ok in E as (k & Hk & [= <-]). apply raise_if_bind in Hk as [Hne [= ->]]. bool_prop.
  exists payload, len, (NETWORK_MAGIC ++ len ++ payload). split; [done|]. by split.
Qed.

Lemma to_frame_reads m key f : message_wf m → to_frame m key = Ok f → from_frame f key = Ok m.
Proof using Type*.
  intros Hm (payload & len & body & Hp & Hparts)%to_frame_parts. rewrite (from_frame_parts _ _ _ _ _ Hparts).
  by apply read_encoded.
Qed.

Lemma read_frame_app f key payload len body t : frame_parts f key payload len body →
  read_frame (f ++ t) key = (m ← from_frame f key; Ok (m, t)).
Proof using Type.
  intros Hp. pose proof (parts_length Hp) as Hl. pose proof (zlen_nonneg payload). pose proof (zlen_nonneg t).
  unfold read_frame. rewrite (parts_magic Hp t), (parts_size_field Hp t), bool_decide_eq_true_2 by done.
  rewrite <- Hl, zlen_app.
  rewrite !raise_if_false; [|apply Z.ltb_ge; unfold HEADER_SIZE, AUTH_TAG_SIZE in *; lia|done|apply Z.ltb_ge; apply Hp|apply Z.ltb_ge; lia].
  cbn [mbind result_bind]. rewrite slice_app_l by done. rewrite zlen_to_nat, drop_app_length. done.
Qed.

End messages.

(** ** Lemmas: header chains *)

(** A batch of headers that continues [prior]: each meets its own target, names
    the hash before it and has the next height. *)
Fixpoint linked (prior : option str * option Z) (hs : list BlockHeader) : Prop :=
  match hs with
  | [] => True
  | h :: hs' => ∃ hash, header_hash h = Ok hash ∧ zeros (bh_difficulty h) `prefix_of` hash ∧
      (∀ p, prior.1 = Some p → bh_previous_hash h = p) ∧ (∀ k, prior.2 = Some k → bh_height h = k + 1) ∧
      linked (Some hash, Some (bh_height h)) hs'
  end.

Lemma check_header_Ok prior h next : check_header prior h = Ok next ↔
  ∃ hash, header_hash h = Ok hash ∧ zeros (bh_difficulty h) `prefix_of` hash ∧
    (∀ p, prior.1 = Some p → bh_previous_hash h = p) ∧ (∀ k, prior.2 = Some k → bh_height h = k + 1) ∧
    next = (Some hash, Some (bh_height h)).
Proof.
  unfold check_header. rewrite bind_Ok. setoid_rewrite raise_if_bind. setoid_rewrite raise_if_bind. setoid_rewrite raise_if_bind.
  destruct prior as [p k]; cbn [fst snd]. split.
  - intros (hash & Hh & Hz & Hp & Hk & [= <-]). exists hash. apply negb_false_iff in Hz. rewrite startswith_spec in Hz.
    split_and!; [done|done|..|done].
    + intros q ->. by bool_prop.
    + intros j ->. by bool_prop.
  - intros (hash & Hh & Hz & Hp & Hk & ->). exists hash. split; [done|]. split; [by apply negb_false_iff, startswith_spec|].
    split; [|split; [|done]].
    + destruct p as [q|]; [|done]. apply negb_false_iff, bool_decide_eq_true. by apply Hp.
    + destruct k as [j|]; [|done]. apply negb_false_iff, Z.eqb_eq. by apply Hk.
Qed.

Lemma check_headers_Ok hs : ∀ prior, is_ok (foldR check_header prior hs) = true ↔ linked prior hs.
Proof.
  induction hs as [|h hs IH]; intros prior; [done|]. cbn [foldR linked].
  destruct (check_header prior h) as [next|e] eqn:E; cbn [mbind result_bind].
  - apply check_header_Ok in E as (hash & Hh & Hz & Hp & Hk & ->). rewrite IH. split; [eauto 10|].
    intros (hash' & Hh' & _ & _ & _ & Hl). by assert (hash' = hash) as -> by congruence.
  - split; [done|]. intros (hash & Hh & Hz & Hp & Hk & _). assert (check_header prior h = Ok (Some hash, Some (bh_height h))).
    { apply check_header_Ok. eauto 10. } congruence.
Qed.

(** ** Lemmas: relayed transactions and blocks *)

Lemma hex_text_wf b : value_wf (VStr (bytes_hex b)).
Proof.
  cbn [value_wf]. eapply Forall_impl; [apply bytes_hex_lower|]. intros c Hc. apply scalar_spec.
  unfold lower_hex in Hc. apply orb_true_iff in Hc as [Hc|Hc]; bool_prop; lia.
Qed.

Lemma single_field_wf k s : Forall (λ c, scalar c = true) k → value_wf (VStr s) → value_wf (VObj [(k, VStr s)]).
Proof.
  intros Hk Hs. apply value_wf_obj. cbn. split; [repeat constructor|]. split; [apply NoDup_singleton|]. by apply Forall_singleton.
Qed.

Section relay.
Context `{NumText}.

Lemma transaction_payload t b : canonical_tx t → tx_to_bytes true t = Ok b →
  transaction_from_payload (VObj [(py "transaction_bytes", VStr (bytes_hex b))]) = Ok t.
Proof using Type.
  intros Hc Hb. unfold transaction_from_payload.
  assert (E : payload_get (VObj [(py "transaction_bytes", VStr (bytes_hex b))]) "transaction_bytes" = Ok (VStr (bytes_hex b))) by done.
  rewrite E. cbn [mbind result_bind]. rewrite fromhex_hex. cbn [mbind result_bind]. by rewrite (tx_from_to_bytes t b).
Qed.

Lemma block_payload blk b : canonical_block blk → block_to_bytes blk = Ok b →
  block_from_payload (VObj [(py "block_bytes", VStr (bytes_hex b))]) = Ok blk.
Proof using Type.
  intros Hc Hb. unfold block_from_payload.
  assert (E : payload_get (VObj [(py "block_bytes", VStr (bytes_hex b))]) "block_bytes" = Ok (VStr (bytes_hex b))) by done.
  rewrite E. cbn [mbind result_bind]. rewrite fromhex_hex. cbn [mbind result_bind]. by rewrite (block_from_to_bytes blk b).
Qed.

Lemma transaction_message_wf t m : canonical_tx t → transaction_message t = Ok m →
  message_wf m ∧ transaction_from_payload (msg_payload m) = Ok t.
Proof using Type.
  intros Hc E. unfold transaction_message in E. apply bind_Ok in E as (b & Hb & [= <-]).
  pose proof (transaction_payload t b Hc Hb) as Hp. split; [|done]. split; [done|]. split.
  - apply single_field_wf; [by repeat constructor|apply hex_text_wf].
  - unfold validate_payload, validate_transaction_payload. cbn [msg_type message msg_payload]. by rewrite Hp.
Qed.

Lemma block_message_wf blk m : canonical_block blk → block_message blk = Ok m →
  message_wf m ∧ block_from_payload (msg_payload m) = Ok blk.
Proof using Type.
  intros Hc E. unfold block_message in E. apply bind_Ok in E as (b & Hb & [= <-]).
  pose proof (block_payload blk b Hc Hb) as Hp. split; [|done]. split; [done|]. split.
  - apply single_field_wf; [by repeat constructor|apply hex_text_wf].
  - unfold validate_payload, validate_block_payload. cbn [msg_type message msg_payload]. by rewrite Hp.
Qed.

End relay.

(** ** Properties *)

Definition sample_key : bytes := b_lit "network key".
Definition sample_ping : PeerMessage := message PING (VObj [(py "nonce", VInt 7)]).
Definition sample_ping_frame : bytes := Eval vm_compute in ok_or [] (@to_frame toy_numtext sample_ping sample_key).

Lemma sample_ping_wf : @message_wf toy_numtext sample_ping.
Proof.
  split; [done|]. split; [|done]. apply value_wf_obj. cbn. split; [repeat constructor|]. split; [apply NoDup_singleton|].
  apply Forall_singleton. split; [by repeat constructor|]. vm_compute. discriminate.
Qed.

Lemma sample_ping_framed : @to_frame toy_numtext sample_ping sample_key = Ok sample_ping_frame.
Proof. vm_compute. reflexivity. Qed.

(** C26: Frames round-trip.  A valid message that fits the size limit is read back
    from its frame exactly, and [read_frame] takes that frame and nothing more
    off a longer buffer. *)
Theorem frame_roundtrip `{NumTextOk} m key f rest :
  message_wf m → to_frame m key = Ok f →
  from_frame f key = Ok m ∧ read_frame (f ++ rest) key = Ok (m, rest).
Proof.
  intros Hm Hf. pose proof (to_frame_reads m key f Hm Hf) as Hr. split; [done|].
  destruct (to_frame_parts _ _ _ Hf) as (payload & len & body & _ & Hp).
  by rewrite (read_frame_app _ _ _ _ _ _ Hp), Hr.
Qed.

Lemma frame_roundtrip_witness :
  @from_frame toy_numtext sample_ping_frame sample_key = Ok sample_ping ∧
  @read_frame toy_numtext (sample_ping_frame ++ b_lit "BCCN") sample_key = Ok (sample_ping, b_lit "BCCN").
Proof.
  apply (@frame_roundtrip toy_numtext toy_numtext_ok sample_ping sample_key sample_ping_frame (b_lit "BCCN")).
  - exact sample_ping_wf.
  - exact sample_ping_framed.
Defined.

(** C27: Authentication comes first.  Whatever bytes arrive, [from_frame] raises
    [NetworkError] unless they are a length-delimited payload of at most two
    million bytes followed by the HMAC of all of it under the shared key; only
    then is the payload decoded. *)
Theorem frame_authentic `{NumText} f key :
  (∃ e, from_frame f key = Err e ∧ exn_cls e = NetworkError) ∨
  (∃ payload len body, pack_I (zlen payload) = Ok len ∧ body = NETWORK_MAGIC ++ len ++ payload ∧
     f = body ++ hmac_sha256 key body ∧ zlen payload ≤ MAX_MESSAGE_SIZE ∧
     from_frame f key = read_payload payload).
Proof.
  destruct (frame_accepted f key) as [(payload & len & body & Hp)|Herr]; [right|by left].
  exists payload, len, body. pose proof (from_frame_parts _ _ _ _ _ Hp). by destruct Hp.
Qed.

(** The tag binds the frame: two frames accepted under one key whose tags
    are equal are the same frame, or their bodies are an HMAC collision. *)
Theorem frame_tag_binds `{NumText} f1 f2 key m1 m2 :
  from_frame f1 key = Ok m1 → from_frame f2 key = Ok m2 →
  drop (length f1 - 32) f1 = drop (length f2 - 32) f2 →
  f1 = f2 ∨ ∃ b1 b2, b1 ≠ b2 ∧ hmac_sha256 key b1 = hmac_sha256 key b2.
Proof.
  intros H1 H2 Ht.
  destruct (frame_accepted f1 key) as [(p1 & l1 & b1 & [_ _ -> _ _])|(e & E & _)]; [|congruence].
  destruct (frame_accepted f2 key) as [(p2 & l2 & b2 & [_ _ -> _ _])|(e & E & _)]; [|congruence].
  rewrite !length_app, !hmac_sha256_length, !Nat.add_sub in Ht. rewrite !drop_app_length in Ht.
  destruct (decide (b1 = b2)) as [->|Hne]; [by left|]. right. by exists b1, b2.
Qed.

Lemma frame_tag_binds_witness :
  sample_ping_frame = sample_ping_frame ∨ ∃ b1 b2, b1 ≠ b2 ∧ hmac_sha256 sample_key b1 = hmac_sha256 sample_key b2.
Proof.
  apply (@frame_tag_binds toy_numtext sample_ping_frame sample_ping_frame sample_key sample_ping sample_ping).
  - vm_compute. reflexivity.
  - vm_compute. reflexivity.
  - reflexivity.
Defined.

(** A relayed block or transaction arrives intact: framing the message for a
    canonical one, reading the frame and decoding the payload gives it back. *)
Theorem relay_roundtrip `{NumTextOk} blk t key mb mt fb ft :
  canonical_block blk → canonical_tx t →
  block_message blk = Ok mb → transaction_message t = Ok mt →
  to_frame mb key = Ok fb → to_frame mt key = Ok ft →
  (m ← from_frame fb key; block_from_payload (msg_payload m)) = Ok blk ∧
  (m ← from_frame ft key; transaction_from_payload (msg_payload m)) = Ok t.
Proof.
  intros Hb Ht Hmb Hmt Hfb Hft.
  destruct (block_message_wf _ _ Hb Hmb) as [Hwb Hpb]. destruct (transaction_message_wf _ _ Ht Hmt) as [Hwt Hpt].
  by rewrite (to_frame_reads mb key fb Hwb Hfb), (to_frame_reads mt key ft Hwt Hft).
Qed.

Definition sample_block_message : PeerMessage := Eval vm_compute in ok_or sample_ping (block_message sample_block).
Definition sample_tx_message : PeerMessage := Eval vm_compute in ok_or sample_ping (transaction_message sample_transfer).

Lemma relay_roundtrip_witness :
  let fb := ok_or [] (@to_frame toy_numtext sample_block_message sample_key) in
  let ft := ok_or [] (@to_frame toy_numtext sample_tx_message sample_key) in
  (m ← @from_frame toy_numtext fb sample_key; block_from_payload (msg_payload m)) = Ok sample_block ∧
  (m ← @from_frame toy_numtext ft sample_key; transaction_from_payload (msg_payload m)) = Ok sample_transfer.
Proof.
  apply (@relay_roundtrip toy_numtext toy_numtext_ok sample_block sample_transfer sample_key sample_block_message sample_tx_message).
  - apply (bool_decide_unpack (canonical_block sample_block)). vm_compute. exact I.
  - apply (bool_decide_unpack (canonical_tx sample_transfer)). vm_compute. exact I.
  - vm_compute. reflexivity.
  - vm_compute. reflexivity.
  - apply ok_or_spec. vm_compute. reflexivity.
  - apply ok_or_spec. vm_compute. reflexivity.
Defined.

(** Header batches.  [validate_header_chain] returns the headers unchanged
    exactly when each meets its own proof-of-work target, names the hash of the
    header before it (the first one the anchor, when given) and is one higher. *)
Theorem header_chain_exact hs previous hs' :
  (∀ p, previous = Some p → is_hash p = true) →
  validate_header_chain hs previous = Ok hs' ↔ linked (previous, None) hs ∧ hs' = hs.
Proof.
  intros Hp. unfold validate_header_chain.
  rewrite raise_if_false by (destruct previous as [p|]; [by rewrite (Hp p)|done]). cbn [mbind result_bind].
  rewrite <- check_headers_Ok. destruct (foldR check_header (previous, None) hs); cbn; naive_solver.
Qed.

Lemma header_chain_exact_witness :
  let hs := [header_from_block sample_genesis; header_from_block sample_second] in
  validate_header_chain hs (Some ZERO_HASH) = Ok hs ↔ linked (Some ZERO_HASH, None) hs ∧ hs = hs.
Proof.
  apply (header_chain_exact [header_from_block sample_genesis; header_from_block sample_second] (Some ZERO_HASH)
    [header_from_block sample_genesis; header_from_block sample_second]).
  intros p [= <-]. vm_compute. reflexivity.
Defined.

(** The exception class a decoded message raises, if any. *)
Definition message_error (t : string) (payload : value) : option exn_class :=
  err_class (@message_from_dict toy_numtext [(py "payload", payload); (py "type", VStr (py t)); (py "version", VInt 1)]).

(** An authenticated peer can make [from_frame] raise something other than
    [NetworkError], the only exception the connection handler expects: an
    inventory item without a kind, an item that is not a dictionary, a payload
    that is not an object, a header with an infinite nonce, a header whose hash
    cannot be computed. *)
Theorem malformed_messages_escape :
  message_error "inv" (VObj [(py "items", VArr [VObj []])]) = Some KeyError ∧
  message_error "inv" (VObj [(py "items", VArr [VInt 1])]) = Some TypeError ∧
  message_error "ping" (VArr []) = Some AttributeError ∧
  (let header n := VObj [(py "height", VInt 0); (py "previous_hash", VStr ZERO_HASH); (py "transaction_root", VStr ZERO_HASH);
                         (py "difficulty", VInt 0); (py "timestamp", VInt 0); (py "nonce", n)] in
   message_error "headers" (VObj [(py "headers", VArr [header (VFloat float_inf)])]) = Some OverflowError ∧
   message_error "headers" (VObj [(py "headers", VArr [header (VInt (2 ^ 64))])]) = Some StructError).
Proof. vm_compute. repeat split. Qed.
