(* ===== verification/Session.v ===== *)
(** * Peer session (peer.py)

    The state machine of one peer connection: handshake flags, pending pings,
    the inventory announced and requested, and the misbehavior score.
    [receive] validates a message, runs its handler and turns protocol errors
    into a score and a reject message; other exceptions escape, with the state
    as the handler left it. *)

From S2P Require Import Prelude PyBytes PyText Sha256 Json Crypto ByteReader Transaction Block BlockProcessor WireJson JsonText Network.
Local Open Scope Z_scope.

Record PeerSession := mkSession {
  ps_network : str;
  ps_node_id : str;
  ps_height : Z;
  remote_node_id : option str;
  remote_height : Z;
  version_sent : bool;
  version_received : bool;
  verack_sent : bool;
  verack_received : bool;
  pending_pings : gset Z;
  known_inventory : gset (str * str);
  requested_inventory : gset (str * str);
  misbehavior_score : Z;
  max_inventory_items : Z;
}.

(** [PeerSession(network=..., node_id=..., height=...)] *)
Definition new_session (network node_id : str) (height : Z) : PeerSession :=
  mkSession network node_id height None (-1) false false false false ∅ ∅ ∅ 0 10000.

Definition handshake_complete (s : PeerSession) : bool :=
  version_sent s && version_received s && verack_sent s && verack_received s.

(** ** Field updates *)

Definition with_remote (id : option str) (h : Z) (received : bool) (s : PeerSession) : PeerSession :=
  mkSession (ps_network s) (ps_node_id s) (ps_height s) id h (version_sent s) received (verack_sent s) (verack_received s)
    (pending_pings s) (known_inventory s) (requested_inventory s) (misbehavior_score s) (max_inventory_items s).
Definition with_sent (version verack vreceived : bool) (s : PeerSession) : PeerSession :=
  mkSession (ps_network s) (ps_node_id s) (ps_height s) (remote_node_id s) (remote_height s) version (version_received s) verack vreceived
    (pending_pings s) (known_inventory s) (requested_inventory s) (misbehavior_score s) (max_inventory_items s).
Definition with_pings (p : gset Z) (s : PeerSession) : PeerSession :=
  mkSession (ps_network s) (ps_node_id s) (ps_height s) (remote_node_id s) (remote_height s) (version_sent s) (version_received s)
    (verack_sent s) (verack_received s) p (known_inventory s) (requested_inventory s) (misbehavior_score s) (max_inventory_items s).
Definition with_inventory (known requested : gset (str * str)) (s : PeerSession) : PeerSession :=
  mkSession (ps_network s) (ps_node_id s) (ps_height s) (remote_node_id s) (remote_height s) (version_sent s) (version_received s)
    (verack_sent s) (verack_received s) (pending_pings s) known requested (misbehavior_score s) (max_inventory_items s).
Definition with_score (n : Z) (s : PeerSession) : PeerSession :=
  mkSession (ps_network s) (ps_node_id s) (ps_height s) (remote_node_id s) (remote_height s) (version_sent s) (version_received s)
    (verack_sent s) (verack_received s) (pending_pings s) (known_inventory s) (requested_inventory s) n (max_inventory_items s).

Definition know (key : str * str) (s : PeerSession) : PeerSession :=
  with_inventory (known_inventory s ∪ {[key]}) (requested_inventory s) s.
Definition want (key : str * str) (s : PeerSession) : PeerSession :=
  with_inventory (known_inventory s) (requested_inventory s ∪ {[key]}) s.

Definition inv_key (i : InventoryVector) : str * str := (inv_kind i, inv_hash i).

Definition modify (f : PeerSession → PeerSession) : SM PeerSession unit := s ← sm_get; sm_put (f s).

(** A [for] loop whose body may raise. *)
Fixpoint sm_each {S A} (f : A → SM S unit) (l : list A) : SM S unit :=
  match l with [] => mret tt | x :: l' => f x;; sm_each f l' end.

(** ** What the node sends *)

Definition start_handshake : SM PeerSession PeerMessage :=
  s ← sm_get;
  sm_put (with_sent true (verack_sent s) (verack_received s) s);;
  mret (version_message (ps_network s) (ps_height s) (ps_node_id s)).

Definition send_verack : SM PeerSession PeerMessage :=
  s ← sm_get;
  sm_lift (raise_if (negb (version_received s)) PeerError "cannot verack before receiving version");;
  sm_put (with_sent (version_sent s) true (verack_received s) s);;
  mret (message VERACK (VObj [])).

Definition send_ping (nonce : Z) : SM PeerSession PeerMessage :=
  sm_lift (raise_if (nonce <? 0) PeerError "ping nonce cannot be negative");;
  modify (λ s, with_pings (pending_pings s ∪ {[nonce]}) s);;
  mret (message PING (VObj [(py "nonce", VInt nonce)])).

Definition announce (items : list InventoryVector) : SM PeerSession PeerMessage :=
  sm_each (λ i, modify (know (inv_key i))) items;;
  sm_lift (inventory_message INV items).

Definition request (items : list InventoryVector) : SM PeerSession PeerMessage :=
  sm_each (λ i, modify (want (inv_key i))) items;;
  sm_lift (inventory_message GETDATA items).

Section session.
Context `{NumText}.

(** ** Handlers *)

(** [_handle_version]; the remote identity is stored before it is checked. *)
Definition handle_version (m : PeerMessage) : SM PeerSession (list PeerMessage) :=
  network ← sm_lift (payload_item (msg_payload m) "network");
  s ← sm_get;
  sm_lift (raise_if (negb (bool_decide (py_str network = ps_network s))) PeerError "peer is on a different network");;
  id ← sm_lift (payload_item (msg_payload m) "node_id");
  modify (λ s, with_remote (Some (py_str id)) (remote_height s) (version_received s) s);;
  sm_lift (raise_if (bool_decide (py_str id = ps_node_id s)) PeerError "peer has the same node id");;
  h ← sm_lift (v ← payload_item (msg_payload m) "height"; py_int v);
  modify (λ s, with_remote (remote_node_id s) h true s);;
  s' ← sm_get;
  r1 ← (if version_sent s' then mret [] else x ← start_handshake; mret [x] : SM PeerSession (list PeerMessage));
  r2 ← (if verack_sent s' then mret [] else x ← send_verack; mret [x] : SM PeerSession (list PeerMessage));
  mret (r1 ++ r2).

Definition handle_verack : SM PeerSession (list PeerMessage) :=
  s ← sm_get;
  sm_lift (raise_if (negb (version_sent s)) PeerError "received verack before sending version");;
  sm_put (with_sent (version_sent s) (verack_sent s) true s);;
  mret [].

Definition handle_ping (m : PeerMessage) : SM PeerSession (list PeerMessage) :=
  nonce ← sm_lift (payload_item (msg_payload m) "nonce");
  mret [message PONG (VObj [(py "nonce", nonce)])].

Definition handle_pong (m : PeerMessage) : SM PeerSession (list PeerMessage) :=
  nonce ← sm_lift (v ← payload_item (msg_payload m) "nonce"; py_int v);
  s ← sm_get;
  sm_lift (raise_if (bool_decide (nonce ∉ pending_pings s)) PeerError "pong nonce was not pending");;
  sm_put (with_pings (pending_pings s ∖ {[nonce]}) s);;
  mret [].

(** [for raw_item in payload[k]] *)
Definition payload_list (p : value) (k : string) : result (list value) :=
  v ← payload_item p k;
  match v with VArr l => Ok l | _ => raise TypeError "object is not a list" end.

Definition zsize (x : gset (str * str)) : Z := Z.of_nat (size x).

(** The loop of [_handle_inv]: the items still to request. *)
Fixpoint inv_loop (items : list value) : SM PeerSession (list InventoryVector) :=
  match items with
  | [] => mret []
  | raw :: rest =>
      i ← sm_lift (inventory_from_value raw);
      s ← sm_get;
      if bool_decide (inv_key i ∈ known_inventory s) then inv_loop rest
      else
        sm_lift (raise_if (max_inventory_items s <=? zsize (known_inventory s)) PeerError "known inventory limit reached");;
        sm_put (know (inv_key i) s);;
        wanted ← inv_loop rest;
        mret (i :: wanted)
  end.

Definition handle_inv (m : PeerMessage) : SM PeerSession (list PeerMessage) :=
  items ← sm_lift (payload_list (msg_payload m) "items");
  wanted ← inv_loop items;
  match wanted with [] => mret [] | _ => x ← request wanted; mret [x] end.

Definition handle_getdata (m : PeerMessage) : SM PeerSession (list PeerMessage) :=
  items ← sm_lift (payload_list (msg_payload m) "items");
  sm_each (λ raw,
    i ← sm_lift (inventory_from_value raw);
    s ← sm_get;
    sm_lift (raise_if (max_inventory_items s <=? zsize (requested_inventory s)) PeerError "requested inventory limit reached");;
    sm_put (want (inv_key i) s)) items;;
  mret [].

(** A set element; only text gets this far. *)
Definition hashable_text (v : value) : result str := match v with VStr s => Ok s | _ => raise TypeError "unhashable type" end.

Definition handle_getheaders (m : PeerMessage) : SM PeerSession (list PeerMessage) :=
  locator ← sm_lift (payload_list (msg_payload m) "locator");
  sm_each (λ v, h ← sm_lift (hashable_text v); modify (want (py "block_header", h))) locator;;
  mret [].

Definition handle_headers (m : PeerMessage) : SM PeerSession (list PeerMessage) :=
  hs ← sm_lift (headers_from_payload (msg_payload m));
  sm_each (λ h,
    s ← sm_get;
    sm_lift (raise_if (max_inventory_items s <=? zsize (known_inventory s)) PeerError "known inventory limit reached");;
    hash ← sm_lift (header_hash h);
    sm_put (know (py "block_header", hash) s)) hs;;
  mret [].

Definition handle_tx (m : PeerMessage) : SM PeerSession (list PeerMessage) :=
  t ← sm_lift (transaction_from_payload (msg_payload m));
  h ← sm_lift (txid t);
  modify (know (py "tx", h));;
  mret [].

Definition handle_block (m : PeerMessage) : SM PeerSession (list PeerMessage) :=
  b ← sm_lift (block_from_payload (msg_payload m));
  h ← sm_lift (block_hash b);
  modify (know (py "block", h));;
  mret [].

Definition handle_reject : SM PeerSession (list PeerMessage) :=
  modify (λ s, with_score (misbehavior_score s + 1) s);; mret [].

Definition handle (m : PeerMessage) : SM PeerSession (list PeerMessage) :=
  match msg_type m with
  | VERSION => handle_version m
  | VERACK => handle_verack
  | PING => handle_ping m
  | PONG => handle_pong m
  | INV => handle_inv m
  | GETDATA => handle_getdata m
  | GETHEADERS => handle_getheaders m
  | HEADERS => handle_headers m
  | TX => handle_tx m
  | BLOCK => handle_block m
  | REJECT => handle_reject
  end.

Definition reject_message (reason : str) : PeerMessage := message REJECT (VObj [(py "reason", VStr reason)]).

(** [except (NetworkError, PeerError)] *)
Definition protocol_error (e : exn) : bool := exn_is NetworkError e || exn_is PeerError e.

(** [receive] *)
Definition receive (m : PeerMessage) : SM PeerSession (list PeerMessage) :=
  sm_try (sm_lift (validate_payload m);; handle m)
    (λ e, if protocol_error e
          then modify (λ s, with_score (misbehavior_score s + 1) s);; mret [reject_message (py "invalid message")]
          else sm_lift (Err e)).

End session.

(** ** Lemmas: what leaves the handshake alone *)

Definition same_handshake (s s' : PeerSession) : Prop :=
  ps_network s' = ps_network s ∧ ps_node_id s' = ps_node_id s ∧
  version_sent s' = version_sent s ∧ version_received s' = version_received s ∧
  verack_sent s' = verack_sent s ∧ verack_received s' = verack_received s.

#[global] Instance same_handshake_preorder : PreOrder same_handshake.
Proof. split; [by intros s|]. unfold same_handshake. intros s1 s2 s3 ? ?. naive_solver congruence. Qed.

Lemma keeps_modify (R : PeerSession → PeerSession → Prop) f : (∀ s, R s (f s)) → keeps R (modify f).
Proof. intros Hf s. apply Hf. Qed.

Lemma keeps_each {S A} (R : S → S → Prop) `{!PreOrder R} (f : A → SM S unit) l : (∀ x, keeps R (f x)) → keeps R (sm_each f l).
Proof.
  intros Hf. induction l as [|x l IH]; cbn [sm_each]; [apply keeps_ret, _|]. apply keeps_bind; [apply _|done|]. by intros _.
Qed.

(** A read of the state followed by a write of an update of it. *)
Lemma keeps_update {S A} (R : S → S → Prop) (m : result A) f : (∀ s, R s (f s)) → Reflexive R →
  keeps R (s ← sm_get; sm_lift m;; sm_put (f s)).
Proof. intros Hf Hr s. unfold sm_get, sm_lift, sm_put, mbind, SM_bind. destruct m; [apply Hf|apply Hr]. Qed.

Lemma keeps_get_then {S A} (R : S → S → Prop) (f : S → SM S A) : (∀ s, R s (f s s).1) → keeps R (s ← sm_get; f s).
Proof. intros Hf s. apply Hf. Qed.

#[export] Hint Resolve keeps_modify keeps_each : bcc.

Lemma know_handshake k s : same_handshake s (know k s).
Proof. done. Qed.
Lemma want_handshake k s : same_handshake s (want k s).
Proof. done. Qed.
Lemma pings_handshake p s : same_handshake s (with_pings p s).
Proof. done. Qed.
Lemma score_handshake n s : same_handshake s (with_score n s).
Proof. done. Qed.
#[export] Hint Resolve know_handshake want_handshake pings_handshake score_handshake : bcc.

Section frames.
Context `{NumText}.

Lemma keeps_inv_loop items : keeps same_handshake (inv_loop items).
Proof using Type.
  induction items as [|raw items IH]; cbn [inv_loop]; [apply keeps_ret, _|].
  apply keeps_bind; [apply _|apply keeps_lift, _|]. intros i. apply keeps_get_then. intros s. case_bool_decide; [apply IH|].
  unfold sm_lift, sm_put, mbind, SM_bind. destruct (raise_if _ _ _); [|done]. specialize (IH (know (inv_key i) s)).
  destruct (inv_loop items (know (inv_key i) s)) as [s' [|]]; exact IH.
Qed.

Lemma keeps_request items : keeps same_handshake (request items).
Proof using Type. unfold request. apply keeps_bind; [apply _|apply keeps_each; [apply _|]|]; intros; auto with bcc. apply keeps_lift, _. Qed.

Lemma keeps_announce items : keeps same_handshake (announce items).
Proof using Type. unfold announce. apply keeps_bind; [apply _|apply keeps_each; [apply _|]|]; intros; auto with bcc. apply keeps_lift, _. Qed.

(** A lifted value followed by a loop and [return []]. *)
Lemma keeps_loop {A} (m : result (list A)) (f : A → SM PeerSession unit) : (∀ x, keeps same_handshake (f x)) →
  keeps same_handshake (l ← sm_lift m; sm_each f l;; mret ([] : list PeerMessage)).
Proof using Type.
  intros Hf. apply keeps_bind; [apply _|apply keeps_lift, _|]. intros l.
  apply keeps_bind; [apply _|by apply keeps_each, Hf; apply _|]. intros _. apply keeps_ret, _.
Qed.

(** Every handler but the two of the handshake. *)
Lemma keeps_handle m : msg_type m ≠ VERSION → msg_type m ≠ VERACK → keeps same_handshake (handle m).
Proof using Type.
  intros Hv Ha. unfold handle. destruct (msg_type m); try done.
  - unfold handle_ping. apply keeps_bind; [apply _|apply keeps_lift, _|]. intros. apply keeps_ret, _.
  - unfold handle_pong. apply keeps_bind; [apply _|apply keeps_lift, _|]. intros n s.
    unfold sm_get, sm_lift, sm_put, mbind, SM_bind. by destruct (raise_if _ _ _).
  - unfold handle_inv. apply keeps_bind; [apply _|apply keeps_lift, _|]. intros items.
    apply keeps_bind; [apply _|apply keeps_inv_loop|]. intros [|i l]; [apply keeps_ret, _|].
    apply keeps_bind; [apply _|apply keeps_request|]. intros. apply keeps_ret, _.
  - unfold handle_getdata. apply keeps_loop. intros raw. apply keeps_bind; [apply _|apply keeps_lift, _|]. intros i s.
    unfold sm_get, sm_lift, sm_put, mbind, SM_bind. by destruct (raise_if _ _ _).
  - unfold handle_getheaders. apply keeps_loop. intros v. apply keeps_bind; [apply _|apply keeps_lift, _|]. intros. auto with bcc.
  - unfold handle_headers. apply keeps_loop. intros h s. unfold sm_get, sm_lift, sm_put, mbind, SM_bind.
    destruct (raise_if _ _ _); [|done]. by destruct (header_hash h).
  - unfold handle_tx. apply keeps_bind; [apply _|apply keeps_lift, _|]. intros t.
    apply keeps_bind; [apply _|apply keeps_lift, _|]. intros h. apply keeps_bind; [apply _|auto with bcc|]. intros. apply keeps_ret, _.
  - unfold handle_block. apply keeps_bind; [apply _|apply keeps_lift, _|]. intros t.
    apply keeps_bind; [apply _|apply keeps_lift, _|]. intros h. apply keeps_bind; [apply _|auto with bcc|]. intros. apply keeps_ret, _.
Qed.

(** [receive], by the outcome of validation and of the handler. *)
Lemma receive_run m s :
  receive m s =
  match validate_payload m with
  | Err e => if protocol_error e then (with_score (misbehavior_score s + 1) s, Ok [reject_message (py "invalid message")]) else (s, Err e)
  | Ok _ =>
      match handle m s with
      | (s', Ok r) => (s', Ok r)
      | (s', Err e) => if protocol_error e then (with_score (misbehavior_score s' + 1) s', Ok [reject_message (py "invalid message")])
                       else (s', Err e)
      end
  end.
Proof using Type.
  unfold receive, sm_try, sm_lift, modify, sm_get, sm_put, mbind, SM_bind, mret, SM_ret.
  destruct (validate_payload m) as [[]|e]; [|by destruct (protocol_error e)].
  destruct (handle m s) as [s' [r|e]]; [done|]. by destruct (protocol_error e).
Qed.

(** The handshake flags after [receive] are those after the handler. *)
Lemma receive_handshake m s : same_handshake s (receive m s).1 ∨
  (validate_payload m = Ok tt ∧ same_handshake (handle m s).1 (receive m s).1).
Proof using Type.
  rewrite receive_run. destruct (validate_payload m) as [[]|e]; [right; split; [done|]|left; by destruct (protocol_error e)].
  destruct (handle m s) as [s' [r|e]]; [done|]. by destruct (protocol_error e).
Qed.

(** The session after an accepted VERSION, and the answer to it. *)
Definition greeted (id : str) (h : Z) (s : PeerSession) : PeerSession :=
  with_sent true true (verack_received s) (with_remote (Some id) h true s).

Definition greeting (s : PeerSession) : list PeerMessage :=
  (if version_sent s then [] else [version_message (ps_network s) (ps_height s) (ps_node_id s)]) ++
  (if verack_sent s then [] else [message VERACK (VObj [])]).

(** A VERSION this session accepts: its own network, another node. *)
Definition acceptable_version (s : PeerSession) (p : value) (id : str) (h : Z) : Prop :=
  ∃ network i, payload_item p "network" = Ok network ∧ py_str network = ps_network s ∧
    payload_item p "node_id" = Ok i ∧ py_str i = id ∧ id ≠ ps_node_id s ∧ (v ← payload_item p "height"; py_int v) = Ok h.

Lemma with_sent_same s : with_sent (version_sent s) (verack_sent s) (verack_received s) s = s.
Proof using Type. by destruct s. Qed.

Lemma handle_version_accepted m s id h : acceptable_version s (msg_payload m) id h →
  handle_version m s = (greeted id h s, Ok (greeting s)).
Proof using Type.
  intros (network & i & Hn & Hnet & Hi & <- & Hid & Hh).
  unfold handle_version, modify, sm_lift, sm_get, sm_put, mbind, SM_bind, mret, SM_ret.
  unfold mbind in Hh. rewrite Hn, Hi, Hnet, bool_decide_eq_true_2, bool_decide_eq_false_2 by done. cbn [negb raise_if].
  rewrite Hh. unfold start_handshake, send_verack, greeting, sm_lift, sm_get, sm_put, mbind, SM_bind, mret, SM_ret.
  unfold greeted. destruct s as [? ? ? ? ? [] ? [] ? ? ? ? ? ?]; done.
Qed.

(** Either way, by whether the message is acceptable. *)
Lemma handle_version_cases m s :
  (∃ id h, acceptable_version s (msg_payload m) id h) ∨
  (∃ e, (handle_version m s).2 = Err e ∧ same_handshake s (handle_version m s).1).
Proof using Type.
  destruct (payload_item (msg_payload m) "network") as [network|e] eqn:Hn.
  2:{ right. exists e. unfold handle_version, sm_lift, mbind, SM_bind. by rewrite Hn. }
  destruct (decide (py_str network = ps_network s)) as [Hnet|Hnet].
  2:{ right. eexists. unfold handle_version, sm_lift, sm_get, mbind, SM_bind. rewrite Hn, bool_decide_eq_false_2 by done. done. }
  destruct (payload_item (msg_payload m) "node_id") as [i|e] eqn:Hi.
  2:{ right. exists e. unfold handle_version, sm_lift, sm_get, mbind, SM_bind. rewrite Hn, Hnet, bool_decide_eq_true_2, Hi by done. done. }
  destruct (decide (py_str i = ps_node_id s)) as [Hid|Hid].
  2: destruct (v ← payload_item (msg_payload m) "height"; py_int v) as [h|e] eqn:Hh; [left; exists (py_str i), h, network, i; done|].
  all: right; eexists; unfold handle_version, modify, sm_lift, sm_get, sm_put, mbind, SM_bind;
    try unfold mbind in Hh; rewrite Hn, Hnet, bool_decide_eq_true_2, Hi by done; cbn [negb raise_if].
  - rewrite bool_decide_eq_true_2 by done. done.
  - rewrite bool_decide_eq_false_2, Hh by done. done.
Qed.

Lemma verack_handshake s : let s' := (handle_verack s).1 in
  ps_network s' = ps_network s ∧ ps_node_id s' = ps_node_id s ∧ version_received s' = version_received s.
Proof using Type. cbv zeta. unfold handle_verack, sm_lift, sm_get, sm_put, mbind, SM_bind, mret, SM_ret, raise_if. by destruct (version_sent s). Qed.

End frames.

(** ** Runs of one session *)

Inductive session_event :=
  | Start
  | Verack
  | Ping (nonce : Z)
  | Announce (items : list InventoryVector)
  | Request (items : list InventoryVector)
  | Receive (m : PeerMessage).

Section runs.
Context `{NumText}.

Definition session_step (s : PeerSession) (e : session_event) : PeerSession :=
  match e with
  | Start => (start_handshake s).1
  | Verack => (send_verack s).1
  | Ping nonce => (send_ping nonce s).1
  | Announce items => (announce items s).1
  | Request items => (request items s).1
  | Receive m => (receive m s).1
  end.

Definition run_session (s : PeerSession) (es : list session_event) : PeerSession := foldl session_step s es.

(** A VERSION message that passes validation and the handler's checks. *)
Definition greets (s : PeerSession) (m : PeerMessage) : Prop :=
  msg_type m = VERSION ∧ validate_payload m = Ok tt ∧ ∃ id h, acceptable_version s (msg_payload m) id h.

(** What one event can change of the handshake. *)
Lemma step_handshake s e : let s' := session_step s e in
  ps_network s' = ps_network s ∧ ps_node_id s' = ps_node_id s ∧
  (version_received s' = true → version_received s = true ∨ ∃ m, e = Receive m ∧ greets s m) ∧
  (verack_received s' = true → verack_received s = true ∨ ∃ m, e = Receive m ∧ msg_type m = VERACK ∧ version_sent s = true) ∧
  (verack_sent s' = true → verack_sent s = true ∨ version_received s' = true).
Proof using Type.
  assert (Hsame : ∀ s', same_handshake s s' → ps_network s' = ps_network s ∧ ps_node_id s' = ps_node_id s ∧
    (version_received s' = true → version_received s = true ∨ ∃ m, e = Receive m ∧ greets s m) ∧
    (verack_received s' = true → verack_received s = true ∨ ∃ m, e = Receive m ∧ msg_type m = VERACK ∧ version_sent s = true) ∧
    (verack_sent s' = true → verack_sent s = true ∨ version_received s' = true)).
  { intros s' (-> & -> & _ & -> & -> & ->). by auto 10. }
  cbv zeta. destruct e as [| |nonce|items|items|m]; cbn [session_step].
  - by auto 10.
  - unfold send_verack, sm_lift, sm_get, sm_put, mbind, SM_bind, mret, SM_ret. destruct (version_received s) eqn:Er; cbn; rewrite Er; auto 10.
  - apply Hsame. unfold send_ping, modify, sm_lift, sm_get, sm_put, mbind, SM_bind, mret, SM_ret. by destruct (nonce <? 0).
  - apply Hsame, keeps_announce.
  - apply Hsame, keeps_request.
  - destruct (receive_handshake m s) as [Hs|[Hval Hs]]; [by apply Hsame|].
    destruct (decide (msg_type m = VERSION)) as [Hv|Hv]; [|destruct (decide (msg_type m = VERACK)) as [Ha|Ha]].
    + unfold handle in Hs. rewrite Hv in Hs. destruct (handle_version_cases m s) as [(id & h & Hacc)|(e & _ & Hsv)].
      * rewrite (handle_version_accepted m s id h Hacc) in Hs. destruct Hs as (-> & -> & _ & -> & -> & ->). cbn.
        split_and!; try by auto. intros _. right. exists m. split; [done|]. by split_and!; [..|eauto].
      * apply Hsame. by etransitivity.
    + unfold handle in Hs. rewrite Ha in Hs. unfold handle_verack, sm_lift, sm_get, sm_put, mbind, SM_bind, mret, SM_ret in Hs.
      destruct (version_sent s) eqn:Es; cbn in Hs.
      * destruct Hs as (-> & -> & _ & -> & -> & ->). cbn. split_and!; try by auto. intros _. right. by exists m.
      * by apply Hsame.
    + apply Hsame. etransitivity; [|exact Hs]. by apply keeps_handle.
Qed.

Lemma greets_ext s s' m : ps_network s' = ps_network s → ps_node_id s' = ps_node_id s → greets s' m → greets s m.
Proof using Type. unfold greets, acceptable_version. by intros -> ->. Qed.

(** The invariant of a run from a new session. *)
Definition run_inv (s0 : PeerSession) (es : list session_event) : Prop :=
  let s := run_session s0 es in
  ps_network s = ps_network s0 ∧ ps_node_id s = ps_node_id s0 ∧
  (version_received s = true → ∃ m, Receive m ∈ es ∧ greets s0 m) ∧
  (verack_received s = true →
    ∃ before m after, es = before ++ Receive m :: after ∧ msg_type m = VERACK ∧ version_sent (run_session s0 before) = true) ∧
  (verack_sent s = true → version_received s = true).

Lemma version_received_mono s e : version_received s = true → version_received (session_step s e) = true.
Proof using Type.
  intros Hv. assert (Hsame : ∀ s', same_handshake s s' → version_received s' = true) by (by intros s' (_ & _ & _ & -> & _)).
  destruct e as [| |nonce|items|items|m]; cbn [session_step].
  - done.
  - unfold send_verack, sm_lift, sm_get, sm_put, mbind, SM_bind, mret, SM_ret. rewrite Hv. cbn. by rewrite Hv.
  - apply Hsame. unfold send_ping, modify, sm_lift, sm_get, sm_put, mbind, SM_bind, mret, SM_ret. by destruct (nonce <? 0).
  - apply Hsame, keeps_announce.
  - apply Hsame, keeps_request.
  - destruct (receive_handshake m s) as [Hs|[_ Hs]]; [by apply Hsame|]. destruct Hs as (_ & _ & _ & -> & _).
    destruct (decide (msg_type m = VERSION)) as [Ev|Ev]; [|destruct (decide (msg_type m = VERACK)) as [Ea|Ea]].
    + unfold handle. rewrite Ev. destruct (handle_version_cases m s) as [(id & h & Hacc)|(e & _ & Hsv)]; [|by apply Hsame].
      by rewrite (handle_version_accepted m s id h Hacc).
    + unfold handle. rewrite Ea. by rewrite (proj2 (proj2 (verack_handshake s))).
    + by apply Hsame, keeps_handle.
Qed.

Lemma run_invariant network id h es : run_inv (new_session network id h) es.
Proof using Type.
  induction es as [|e es IH] using rev_ind; [done|]. unfold run_inv in *. unfold run_session at 1. rewrite foldl_snoc.
  set (s0 := new_session network id h) in *. fold (run_session s0 es). set (s := run_session s0 es) in *.
  destruct IH as (En & Ei & Hv & Ha & Hs). pose proof (step_handshake s e) as (En' & Ei' & Hv' & Ha' & Hs').
  unfold run_session. rewrite foldl_snoc. fold (run_session s0 es). fold s. split_and!; [congruence|congruence|..].
  - intros [Hr|(m & -> & Hm)]%Hv'.
    + destruct (Hv Hr) as (m & Hin & Hm). exists m. split; [set_solver|done].
    + exists m. split; [set_solver|]. by eapply greets_ext.
  - intros [Hr|(m & -> & Hm & Hsent)]%Ha'.
    + destruct (Ha Hr) as (before & m & after & -> & ? & ?). exists before, m, (after ++ [e]). split; [by rewrite <- app_assoc|done].
    + by exists es, m, [].
  - intros [Hr|Hr]%Hs'; [|done]. by apply version_received_mono, Hs.
Qed.

End runs.

(** ** Two sessions on one connection *)

(** The two ends and the messages under way to each. *)
Record Link := mkLink { end_a : PeerSession; end_b : PeerSession; to_a : list PeerMessage; to_b : list PeerMessage }.

Section link.
Context `{NumText}.

(** The first message under way is received, and answered. *)
Inductive deliver : Link → Link → Prop :=
  | deliver_b a b qa m qb b' r : receive m b = (b', Ok r) → deliver (mkLink a b qa (m :: qb)) (mkLink a b' (qa ++ r) qb)
  | deliver_a a b m qa qb a' r : receive m a = (a', Ok r) → deliver (mkLink a b (m :: qa) qb) (mkLink a' b qa (qb ++ r)).

(** Either end may start the handshake at any time, more than once. *)
Inductive open_link : Link → Link → Prop :=
  | open_a a b qa qb a' m : start_handshake a = (a', Ok m) → open_link (mkLink a b qa qb) (mkLink a' b qa (qb ++ [m]))
  | open_b a b qa qb b' m : start_handshake b = (b', Ok m) → open_link (mkLink a b qa qb) (mkLink a b' (qa ++ [m]) qb).

Definition link_step (l l' : Link) : Prop := deliver l l' ∨ open_link l l'.

Definition started (l : Link) : Prop := version_sent (end_a l) = true ∨ version_sent (end_b l) = true.

Definition greet (s : PeerSession) : PeerMessage := version_message (ps_network s) (ps_height s) (ps_node_id s).
Definition ack : PeerMessage := message VERACK (VObj []).

(** What holds of [x]'s messages [q] to [y]. *)
Record half (x : PeerSession) (q : list PeerMessage) (y : PeerSession) : Prop := {
  half_valid : ps_network x ≠ [] ∧ ps_node_id x ≠ [] ∧ -1 ≤ ps_height x;
  half_network : ps_network y = ps_network x;
  half_node : ps_node_id x ≠ ps_node_id y;
  half_queue : Forall (λ m, m = greet x ∨ m = ack) q;
  half_version : version_sent x = true ↔ version_received y = true ∨ greet x ∈ q;
  half_verack : verack_sent x = true ↔ verack_received y = true ∨ ack ∈ q;
  half_answer : verack_sent x = true ↔ version_received x = true;
  half_order : version_received x = true → version_sent x = true;
  half_remote : version_received y = true → remote_node_id y = Some (ps_node_id x) ∧ remote_height y = ps_height x;
  half_score : misbehavior_score y = 0;
}.

Definition link_inv (l : Link) : Prop := half (end_a l) (to_b l) (end_b l) ∧ half (end_b l) (to_a l) (end_a l).

Lemma greet_valid x : ps_network x ≠ [] → ps_node_id x ≠ [] → -1 ≤ ps_height x → validate_payload (greet x) = Ok tt.
Proof using Type.
  intros Hn Hi Hh. change (validate_version (msg_payload (greet x)) = Ok tt). unfold validate_version.
  assert (E1 : payload_get (msg_payload (greet x)) "network" = Ok (VStr (ps_network x))) by done.
  assert (E2 : payload_get (msg_payload (greet x)) "height" = Ok (VInt (ps_height x))) by done.
  assert (E3 : payload_get (msg_payload (greet x)) "node_id" = Ok (VStr (ps_node_id x))) by done.
  rewrite E1, E2, E3. cbn [mbind result_bind nonempty_text as_int].
  rewrite !bool_decide_eq_false_2 by done. cbn [negb raise_if mbind result_bind].
  by replace (ps_height x <? -1) with false by (symmetry; apply Z.ltb_ge; lia).
Qed.

Lemma receive_greet x y q : half x q y → receive (greet x) y = (greeted (ps_node_id x) (ps_height x) y, Ok (greeting y)).
Proof using Type.
  intros [(Hn & Hi & Hh) Hnet Hne _ _ _ _ _ _ _]. rewrite receive_run, greet_valid by done.
  change (handle (greet x) y) with (handle_version (greet x) y).
  erewrite handle_version_accepted; [done|]. exists (VStr (ps_network x)), (VStr (ps_node_id x)). by split_and!.
Qed.

Lemma receive_ack s : version_sent s = true → receive ack s = (with_sent true (verack_sent s) true s, Ok []).
Proof using Type.
  intros Hs. rewrite receive_run. change (validate_payload ack) with (Ok tt : result unit).
  change (handle ack s) with (handle_verack s). unfold handle_verack, sm_lift, sm_get, sm_put, mbind, SM_bind, mret, SM_ret.
  rewrite Hs. done.
Qed.

Lemma greet_ack x : greet x ≠ ack.
Proof. intros E. by apply (f_equal msg_type) in E. Qed.

Lemma greeting_mem s m : m ∈ greeting s ↔ (m = greet s ∧ version_sent s = false) ∨ (m = ack ∧ verack_sent s = false).
Proof. unfold greeting. fold (greet s). fold ack. destruct (version_sent s), (verack_sent s); set_solver. Qed.

(** Delivering the first message from [x] to [y]. *)
Lemma half_deliver x y m q q' : half x (m :: q) y → half y q' x →
  ∃ y' r, receive m y = (y', Ok r) ∧ half x q y' ∧ half y' (q' ++ r) x ∧ (version_sent y = true → version_sent y' = true) ∧
    (length r + (if version_received y' then 0 else 3) ≤ (if version_received y then 0 else 3))%nat.
Proof using Type.
  intros Hx Hy. pose proof (half_queue _ _ _ Hx) as Hq. apply Forall_cons in Hq as [[-> | ->] Hq].
  - exists (greeted (ps_node_id x) (ps_height x) y), (greeting y). split; [by eapply receive_greet|].
    destruct Hx as [Vx Nx Dx _ Sx Ax Wx Ox Rx Mx], Hy as [Vy Ny Dy Qy Sy Ay Wy Oy Ry My].
    pose proof (greet_ack x). pose proof (greet_ack y). split; [|split; [|split]].
    + split; try done; cbn.
      * split; [by left|]. intros _. apply Sx. right. set_solver.
      * rewrite Ax. set_solver.
    + split; try done; cbn.
      * apply Forall_app. split; [exact Qy|]. apply Forall_forall. intros z [[-> _]|[-> _]]%greeting_mem; [by left|by right].
      * split; [|done]. intros _. change (greet (greeted (ps_node_id x) (ps_height x) y)) with (greet y). rewrite elem_of_app, greeting_mem.
        destruct (version_sent y) eqn:E; [destruct (proj1 Sy eq_refl); auto|auto].
      * split; [|done]. intros _. rewrite elem_of_app, greeting_mem.
        destruct (verack_sent y) eqn:E; [destruct (proj1 Ay eq_refl); auto|auto].
    + done.
    + cbn. unfold greeting. destruct (version_received y) eqn:E; [|destruct (version_sent y), (verack_sent y); cbn; lia].
      rewrite (proj2 Wy eq_refl), (Oy eq_refl). done.
  - assert (Hsent : version_sent y = true).
    { apply (half_version _ _ _ Hy). left. apply (half_answer _ _ _ Hx), (half_verack _ _ _ Hx). right. set_solver. }
    eexists _, []. split; [by apply receive_ack|].
    destruct Hx as [Vx Nx Dx _ Sx Ax Wx Ox Rx Mx], Hy as [Vy Ny Dy Qy Sy Ay Wy Oy Ry My].
    pose proof (greet_ack x). split; [|split; [|split]].
    + split; try done; cbn.
      * rewrite Sx. set_solver.
      * split; [by left|]. intros _. apply Ax. right. set_solver.
    + rewrite app_nil_r. split; try done; cbn. by rewrite <- Sy.
    + done.
    + cbn. destruct (version_received y); lia.
Qed.

Definition awaits (s : PeerSession) : nat := if version_received s then 0 else 3.
Definition under_way (l : Link) : nat := length (to_a l) + length (to_b l) + awaits (end_a l) + awaits (end_b l).

Lemma deliver_inv l l' : link_inv l → deliver l l' → link_inv l' ∧ (under_way l' < under_way l)%nat.
Proof using Type.
  intros [Ha Hb] Hd. destruct Hd as [a b qa m qb b' r E|a b m qa qb a' r E]; cbn in *.
  - destruct (half_deliver _ _ _ _ _ Ha Hb) as (y' & r' & E' & H1 & H2 & _ & Hlt). rewrite E' in E. injection E as <- <-.
    split; [by split|]. unfold under_way, awaits in *. cbn. rewrite length_app. lia.
  - destruct (half_deliver _ _ _ _ _ Hb Ha) as (y' & r' & E' & H1 & H2 & _ & Hlt). rewrite E' in E. injection E as <- <-.
    split; [by split|]. unfold under_way, awaits in *. cbn. rewrite length_app. lia.
Qed.

Lemma half_start x y q q' : half x q y → half y q' x →
  let x' := with_sent true (verack_sent x) (verack_received x) x in half x' (q ++ [greet x]) y ∧ half y q' x'.
Proof using Type.
  intros [Vx Nx Dx Qx Sx Ax Wx Ox Rx Mx] [Vy Ny Dy Qy Sy Ay Wy Oy Ry My] x'. pose proof (greet_ack x). split.
  - split; try done; cbn.
    + apply Forall_app. split; [exact Qx|]. apply Forall_singleton. by left.
    + split; [|done]. intros _. right. change (greet x') with (greet x). set_solver.
    + rewrite Ax. set_solver.
  - by split.
Qed.

Lemma link_step_inv l l' : link_inv l → link_step l l' → link_inv l'.
Proof using Type.
  intros Hl [Hd|Ho]; [by eapply deliver_inv|]. destruct Hl as [Ha Hb].
  destruct Ho as [a b qa qb a' m [= <- <-]|a b qa qb b' m [= <- <-]].
  - by apply half_start.
  - apply and_comm. by apply half_start.
Qed.

Lemma link_terminates l : link_inv l → sn deliver l.
Proof using Type.
  remember (under_way l) as n eqn:Hn. assert (Hle : (under_way l ≤ n)%nat) by lia. clear Hn. revert l Hle.
  induction n as [|n IH]; intros l Hle Hl; constructor; intros l' Hd; destruct (deliver_inv l l' Hl Hd); [lia|]. apply IH; [lia|done].
Qed.

(** Nothing under way and somebody started: both ends are done. *)
Lemma half_done x y : half x [] y → half y [] x → version_sent x = true →
  handshake_complete x = true ∧ handshake_complete y = true ∧
  remote_node_id x = Some (ps_node_id y) ∧ remote_node_id y = Some (ps_node_id x) ∧
  remote_height x = ps_height y ∧ remote_height y = ps_height x ∧ misbehavior_score x = 0 ∧ misbehavior_score y = 0.
Proof using Type.
  intros [Vx Nx Dx _ Sx Ax Wx Ox Rx Mx] [Vy Ny Dy _ Sy Ay Wy Oy Ry My] Hs.
  assert (Hn : ∀ P m, P ∨ m ∈ ([] : list PeerMessage) ↔ P) by set_solver. rewrite !Hn in *.
  apply Sx in Hs as Hry. apply Wy in Hry as Hay. apply Oy in Hry as Hsy. apply Sy in Hsy as Hrx. apply Wx in Hrx as Hax.
  apply Ax in Hax as Hvy. apply Ay in Hay as Hvx. unfold handshake_complete. rewrite Hs, Hry, Hay, Hsy, Hrx, Hax, Hvy, Hvx.
  destruct (Rx Hry), (Ry Hrx). by split_and!.
Qed.

Definition connected (l : Link) : Prop :=
  handshake_complete (end_a l) = true ∧ handshake_complete (end_b l) = true ∧
  remote_node_id (end_a l) = Some (ps_node_id (end_b l)) ∧ remote_node_id (end_b l) = Some (ps_node_id (end_a l)) ∧
  remote_height (end_a l) = ps_height (end_b l) ∧ remote_height (end_b l) = ps_height (end_a l) ∧
  misbehavior_score (end_a l) = 0 ∧ misbehavior_score (end_b l) = 0.

Lemma link_quiet l : link_inv l → nf deliver l → started l → connected l.
Proof using Type.
  destruct l as [a b qa qb]. intros [Ha Hb] Hnf Hs. cbn in *. destruct qb as [|m qb].
  2:{ destruct (half_deliver _ _ _ _ _ Ha Hb) as (y & r & E & _). destruct Hnf. eexists. by constructor. }
  destruct qa as [|m qa].
  2:{ destruct (half_deliver _ _ _ _ _ Hb Ha) as (y & r & E & _). destruct Hnf. eexists. by constructor. }
  destruct Hs as [Hs|Hs]; cbn in Hs.
  - destruct (half_done a b Ha Hb Hs) as (?&?&?&?&?&?&?&?). by split_and!.
  - destruct (half_done b a Hb Ha Hs) as (?&?&?&?&?&?&?&?). by split_and!.
Qed.

Definition fresh_link (network ida idb : str) (ha hb : Z) : Link :=
  mkLink (new_session network ida ha) (new_session network idb hb) [] [].

Lemma fresh_half network x y hx hy : network ≠ [] → x ≠ [] → x ≠ y → -1 ≤ hx →
  half (new_session network x hx) [] (new_session network y hy).
Proof using Type.
  intros Hn Hx Hne Hh. split; cbn; try done; split; try done; set_solver.
Qed.

Lemma reachable_inv network ida idb ha hb l :
  network ≠ [] → ida ≠ [] → idb ≠ [] → ida ≠ idb → -1 ≤ ha → -1 ≤ hb →
  rtc link_step (fresh_link network ida idb ha hb) l → link_inv l.
Proof using Type.
  intros Hn Ha Hb Hne Hha Hhb Hr. assert (Hi : link_inv (fresh_link network ida idb ha hb)) by (split; by apply fresh_half).
  induction Hr as [|l0 l1 l2 Hs _ IH]; [done|]. by apply IH, (link_step_inv l0).
Qed.

Lemma started_deliver l l' : link_inv l → deliver l l' → started l → started l'.
Proof using Type.
  intros [Ha Hb] Hd Hs. destruct Hd as [a b qa m qb b' r E|a b m qa qb a' r E]; unfold started in *; cbn in *.
  - destruct Hs as [Hs|Hs]; [by left|right]. destruct (half_deliver _ _ _ _ _ Ha Hb) as (y & r' & E' & _ & _ & Hy & _).
    rewrite E' in E. injection E as <- <-. by apply Hy.
  - destruct Hs as [Hs|Hs]; [left|by right]. destruct (half_deliver _ _ _ _ _ Hb Ha) as (y & r' & E' & _ & _ & Hy & _).
    rewrite E' in E. injection E as <- <-. by apply Hy.
Qed.

Lemma started_delivers l l' : link_inv l → rtc deliver l l' → started l → link_inv l' ∧ started l'.
Proof using Type.
  intros Hi Hr. induction Hr as [|l0 l1 l2 Hd _ IH]; [done|]. intros Hs.
  apply IH; [by apply (deliver_inv l0)|by apply (started_deliver l0)].
Qed.

End link.

(** ** Inventory *)

Definition inventory_valid (i : InventoryVector) : bool :=
  bool_decide (inv_kind i ∈ [py "tx"; py "block"]) && is_hash (inv_hash i).

Definition keys_of (items : list InventoryVector) : gset (str * str) := list_to_set (inv_key <$> items).

(** The items not known yet, each once, in order. *)
Fixpoint fresh_items (known : gset (str * str)) (items : list InventoryVector) : list InventoryVector :=
  match items with
  | [] => []
  | i :: items' =>
      if bool_decide (inv_key i ∈ known) then fresh_items known items'
      else i :: fresh_items (known ∪ {[inv_key i]}) items'
  end.

Lemma keys_of_cons i items : keys_of (i :: items) = {[inv_key i]} ∪ keys_of items.
Proof. done. Qed.

Lemma fresh_known known items : keys_of items ⊆ known → fresh_items known items = [].
Proof.
  induction items as [|i items IH]; [done|]. rewrite keys_of_cons. intros Hk. cbn [fresh_items].
  rewrite bool_decide_eq_true_2 by set_solver. apply IH. set_solver.
Qed.

Lemma inventory_roundtrip `{NumText} i : inventory_valid i = true → inventory_from_value (inventory_to_value i) = Ok i.
Proof.
  unfold inventory_valid. intros [Hk Hh]%andb_true_iff. apply bool_decide_eq_true in Hk.
  change (inventory_from_value (inventory_to_value i)) with
    (raise_if (bool_decide (inv_kind i ∉ [py "tx"; py "block"])) NetworkError "inventory kind is invalid";;
     raise_if (negb (is_hash (inv_hash i))) NetworkError "inventory hash is invalid";;
     Ok (mkInventory (inv_kind i) (inv_hash i))).
  rewrite bool_decide_eq_false_2 by (intros Hn; by apply Hn). rewrite Hh. by destruct i.
Qed.

Lemma request_run items s :
  request items s = (with_inventory (known_inventory s) (requested_inventory s ∪ keys_of items) s,
    Ok (message GETDATA (VObj [(py "items", VArr (inventory_to_value <$> items))]))).
Proof.
  assert (Heach : ∀ s, sm_each (λ i, modify (want (inv_key i))) items s =
    (with_inventory (known_inventory s) (requested_inventory s ∪ keys_of items) s, Ok tt)).
  { induction items as [|i items IH]; intros t; cbn [sm_each].
    - change (keys_of []) with (∅ : gset (str * str)). rewrite union_empty_r_L. by destruct t.
    - unfold mbind, SM_bind. change (modify (want (inv_key i)) t) with (want (inv_key i) t, Ok tt : result unit).
      cbv beta iota. rewrite IH, keys_of_cons. cbn [known_inventory requested_inventory want with_inventory]. by rewrite assoc_L by apply _. }
  unfold request, mbind, SM_bind. by rewrite Heach.
Qed.

Lemma zsize_add (k : str * str) (x : gset (str * str)) : k ∉ x → zsize (x ∪ {[k]}) = zsize x + 1.
Proof. intros Hk. unfold zsize. rewrite size_union, size_singleton by set_solver. lia. Qed.

Lemma with_inventory_again k r k' r' s : with_inventory k r (with_inventory k' r' s) = with_inventory k r s.
Proof. done. Qed.

Section inventory.
Context `{NumText}.

(** The loop when everything fits. *)
Lemma inv_loop_fits items : ∀ s, Forall (λ i, inventory_valid i = true) items →
  fresh_items (known_inventory s) items = [] ∨
    zsize (known_inventory s) + zlen (fresh_items (known_inventory s) items) ≤ max_inventory_items s →
  inv_loop (inventory_to_value <$> items) s =
    (with_inventory (known_inventory s ∪ keys_of items) (requested_inventory s) s, Ok (fresh_items (known_inventory s) items)).
Proof using Type.
  induction items as [|i items IH]; intros s Hv Hf; cbn [inv_loop fmap list_fmap fresh_items].
  { change (keys_of []) with (∅ : gset (str * str)). rewrite union_empty_r_L. by destruct s. }
  apply Forall_cons in Hv as [Hi Hv]. unfold mbind, SM_bind, sm_lift, sm_get. rewrite inventory_roundtrip by done.
  cbn [fresh_items] in Hf. rewrite keys_of_cons. case_bool_decide as Hk.
  - change (inv_loop _ s) with (inv_loop (inventory_to_value <$> items) s). rewrite IH by done. do 2 f_equal. set_solver.
  - destruct Hf as [Hf|Hf]; [done|]. rewrite zlen_cons in Hf.
    pose proof (zlen_nonneg (fresh_items (known_inventory s ∪ {[inv_key i]}) items)).
    rewrite raise_if_false by (apply Z.leb_gt; lia). unfold sm_put. rewrite IH; [|done|right].
    + cbn. by rewrite assoc_L by apply _.
    + cbn. rewrite zsize_add by done. lia.
Qed.

(** The loop when the limit is reached: what was read before is known. *)
Lemma inv_loop_full items : ∀ s, Forall (λ i, inventory_valid i = true) items →
  fresh_items (known_inventory s) items ≠ [] →
  max_inventory_items s < zsize (known_inventory s) + zlen (fresh_items (known_inventory s) items) →
  ∃ read e, read `prefix_of` fresh_items (known_inventory s) items ∧ exn_cls e = PeerError ∧
    zlen read = Z.max 0 (max_inventory_items s - zsize (known_inventory s)) ∧
    inv_loop (inventory_to_value <$> items) s =
      (with_inventory (known_inventory s ∪ keys_of read) (requested_inventory s) s, Err e).
Proof using Type.
  induction items as [|i items IH]; intros s Hv Hf Hm; cbn [inv_loop fmap list_fmap fresh_items] in *; [done|].
  apply Forall_cons in Hv as [Hi Hv]. unfold mbind, SM_bind, sm_lift, sm_get. rewrite inventory_roundtrip by done.
  case_bool_decide as Hk; [by apply IH|]. rewrite zlen_cons in Hm.
  destruct (Z.leb_spec (max_inventory_items s) (zsize (known_inventory s))) as [Hle|Hlt].
  { eexists [], _. split_and!; [apply prefix_nil|..| |cbn; change (keys_of []) with (∅ : gset (str * str)); rewrite union_empty_r_L; by destruct s].
    - done.
    - change (zlen []) with 0. lia. }
  cbn [raise_if]. unfold sm_put.
  destruct (decide (fresh_items (known_inventory s ∪ {[inv_key i]}) items = [])) as [E|E].
  { rewrite E in Hm. change (zlen []) with 0 in Hm. lia. }
  destruct (IH (know (inv_key i) s) Hv E) as (read & e & Hp & He & Hl & Hrun).
  { cbn. rewrite zsize_add by done. lia. }
  exists (i :: read), e. cbn in Hl, Hp. rewrite zsize_add in Hl by done. split_and!; [by apply prefix_cons|done|rewrite zlen_cons; lia|].
  rewrite Hrun, keys_of_cons. cbn. by rewrite assoc_L by apply _.
Qed.

(** An INV message of valid items. *)
Definition inv_message (items : list InventoryVector) : PeerMessage :=
  message INV (VObj [(py "items", VArr (inventory_to_value <$> items))]).

Lemma validate_inv items : Forall (λ i, inventory_valid i = true) items → zlen items ≤ MAX_INVENTORY_ITEMS →
  validate_payload (inv_message items) = Ok tt.
Proof using Type.
  intros Hv Hl. change (validate_inventory (msg_payload (inv_message items)) = Ok tt). unfold validate_inventory.
  assert (E : payload_get (msg_payload (inv_message items)) "items" = Ok (VArr (inventory_to_value <$> items))) by done.
  rewrite E. cbn [mbind result_bind]. rewrite raise_if_false by (apply Z.ltb_ge; unfold zlen in *; rewrite length_fmap; lia).
  cbn [mbind result_bind]. clear E Hl. induction Hv as [|i items Hi _ IH]; [done|].
  cbn [fmap list_fmap foldR]. change (py_dict (inventory_to_value i)) with (Ok [(py "hash", VStr (inv_hash i)); (py "kind", VStr (inv_kind i))]).
  pose proof (inventory_roundtrip i Hi) as E. change (inventory_from_value (inventory_to_value i)) with
    (inventory_from_dict [(py "hash", VStr (inv_hash i)); (py "kind", VStr (inv_kind i))]) in E.
  cbn [mbind result_bind]. by rewrite E.
Qed.

(** What [receive] makes of it, from the loop. *)
Lemma receive_inv_run items s : Forall (λ i, inventory_valid i = true) items → zlen items ≤ MAX_INVENTORY_ITEMS →
  receive (inv_message items) s =
  match inv_loop (inventory_to_value <$> items) s with
  | (s', Ok []) => (s', Ok [])
  | (s', Ok wanted) =>
      (with_inventory (known_inventory s') (requested_inventory s' ∪ keys_of wanted) s',
       Ok [message GETDATA (VObj [(py "items", VArr (inventory_to_value <$> wanted))])])
  | (s', Err e) => if protocol_error e then (with_score (misbehavior_score s' + 1) s', Ok [reject_message (py "invalid message")])
                   else (s', Err e)
  end.
Proof using Type.
  intros Hv Hl. rewrite receive_run, validate_inv by done. change (handle (inv_message items) s) with (handle_inv (inv_message items) s).
  unfold handle_inv. change (payload_list (msg_payload (inv_message items)) "items") with (Ok (inventory_to_value <$> items)).
  unfold sm_lift, mbind, SM_bind. destruct (inv_loop (inventory_to_value <$> items) s) as [s' [[|i wanted]|e]]; [done| |done].
  by rewrite request_run.
Qed.

End inventory.

(** ** Properties *)

(** C25: The handshake converges.  Two new sessions of one network, with different
    node ids, are joined by a connection that delivers each direction in order;
    each end may start the handshake at any time.  Once somebody has, delivery
    terminates under every schedule, and when nothing is under way both ends
    have completed the handshake, know the other's id and height, and have
    rejected nothing. *)
Theorem handshake_converges `{NumText} network ida idb ha hb l :
  network ≠ [] → ida ≠ [] → idb ≠ [] → ida ≠ idb → -1 ≤ ha → -1 ≤ hb →
  rtc link_step (fresh_link network ida idb ha hb) l → started l →
  sn deliver l ∧ ∀ l', rtc deliver l l' → nf deliver l' → connected l'.
Proof.
  intros Hn Ha Hb Hne Hha Hhb Hr Hs. assert (Hi : link_inv l) by (by apply (reachable_inv network ida idb ha hb)).
  split; [by apply link_terminates|]. intros l' Hd Hnf.
  destruct (started_delivers l l' Hi Hd Hs). by apply link_quiet.
Qed.

Lemma handshake_converges_witness :
  let opened := mkLink (start_handshake (new_session (py "main") (py "a") 3)).1 (new_session (py "main") (py "b") 5)
                  [] [version_message (py "main") 3 (py "a")] in
  sn (@deliver toy_numtext) opened ∧ ∀ l', rtc (@deliver toy_numtext) opened l' → nf (@deliver toy_numtext) l' → connected l'.
Proof.
  apply (@handshake_converges toy_numtext (py "main") (py "a") (py "b") 3 5); [discriminate..|lia|lia| |].
  - apply rtc_once. right.
    apply (open_a (new_session (py "main") (py "a") 3) (new_session (py "main") (py "b") 5) [] []
      (start_handshake (new_session (py "main") (py "a") 3)).1). reflexivity.
  - left. reflexivity.
Defined.

(** A completed handshake was earned.  Whatever a session sends and receives,
    if its handshake is complete then it has accepted a valid VERSION of its own
    network from a node with another id, and a VERACK that came after its own
    VERSION was sent. *)
Theorem handshake_sound `{NumText} network id h es :
  handshake_complete (run_session (new_session network id h) es) = true →
  (∃ m rnet rid, Receive m ∈ es ∧ msg_type m = VERSION ∧ validate_payload m = Ok tt ∧
     payload_item (msg_payload m) "network" = Ok rnet ∧ py_str rnet = network ∧
     payload_item (msg_payload m) "node_id" = Ok rid ∧ py_str rid ≠ id) ∧
  (∃ before m after, es = before ++ Receive m :: after ∧ msg_type m = VERACK ∧
     version_sent (run_session (new_session network id h) before) = true).
Proof.
  unfold handshake_complete. intros [[[_ Hv]%andb_true_iff _]%andb_true_iff Ha]%andb_true_iff.
  destruct (run_invariant network id h es) as (_ & _ & Hver & Hack & _). split; [|by apply Hack].
  destruct (Hver Hv) as (m & Hin & Ht & Hval & rid & rh & rnet & i & ? & ? & ? & <- & ? & _). by exists m, rnet, i.
Qed.

Lemma handshake_sound_witness :
  let v := version_message (py "main") 3 (py "a") in
  let es := [Receive v; Receive ack] in
  (∃ m rnet rid, Receive m ∈ es ∧ msg_type m = VERSION ∧ @validate_payload toy_numtext m = Ok tt ∧
     payload_item (msg_payload m) "network" = Ok rnet ∧ @py_str toy_numtext rnet = py "main" ∧
     payload_item (msg_payload m) "node_id" = Ok rid ∧ @py_str toy_numtext rid ≠ py "b") ∧
  (∃ before m after, es = before ++ Receive m :: after ∧ msg_type m = VERACK ∧
     version_sent (@run_session toy_numtext (new_session (py "main") (py "b") 5) before) = true).
Proof.
  apply (@handshake_sound toy_numtext (py "main") (py "b") 5). vm_compute. reflexivity.
Defined.

(** Inventory.  An INV message of valid items requests exactly the items the
    session did not know, each once and in order, and marks them known and
    requested; receiving it again requests nothing and changes nothing.  When
    they do not fit the limit, the ones that fit are known but none is
    requested: the message is answered with a reject and scored. *)
Theorem inventory_requests `{NumText} items s :
  Forall (λ i, inventory_valid i = true) items → zlen items ≤ MAX_INVENTORY_ITEMS →
  let m := message INV (VObj [(py "items", VArr (inventory_to_value <$> items))]) in
  let wanted := fresh_items (known_inventory s) items in
  let getdata := message GETDATA (VObj [(py "items", VArr (inventory_to_value <$> wanted))]) in
  (wanted = [] ∨ zsize (known_inventory s) + zlen wanted ≤ max_inventory_items s →
     let s' := with_inventory (known_inventory s ∪ keys_of items) (requested_inventory s ∪ keys_of wanted) s in
     receive m s = (s', Ok (match wanted with [] => [] | _ => [getdata] end)) ∧ receive m s' = (s', Ok [])) ∧
  (wanted ≠ [] → max_inventory_items s < zsize (known_inventory s) + zlen wanted →
     ∃ read, read `prefix_of` wanted ∧ zlen read = Z.max 0 (max_inventory_items s - zsize (known_inventory s)) ∧
       receive m s = (with_score (misbehavior_score s + 1) (with_inventory (known_inventory s ∪ keys_of read) (requested_inventory s) s),
                      Ok [reject_message (py "invalid message")])).
Proof.
  intros Hv Hl m wanted getdata. split.
  - intros Hfit s'. unfold m. fold (inv_message items).
    assert (Hw : fresh_items (known_inventory s') items = []) by (by apply fresh_known, union_subseteq_r).
    rewrite !receive_inv_run, inv_loop_fits by done. rewrite inv_loop_fits, Hw by (try done; by left). fold wanted. cbn. split.
    + destruct wanted eqn:E; [|done]. unfold s'. change (keys_of []) with (∅ : gset (str * str)). by rewrite union_empty_r_L.
    + unfold s'. rewrite with_inventory_again. cbn. do 2 f_equal. set_solver.
  - intros Hne Hfull. unfold m. fold (inv_message items). rewrite receive_inv_run by done.
    destruct (inv_loop_full items s Hv Hne Hfull) as (read & e & Hp & He & Hr & ->).
    exists read. split; [done|]. split; [done|]. unfold protocol_error, exn_is. rewrite He. done.
Qed.

Definition sample_vector : InventoryVector := mkInventory (py "tx") (zeros 64).

Lemma inventory_requests_witness :
  let m := message INV (VObj [(py "items", VArr (inventory_to_value <$> [sample_vector; sample_vector]))]) in
  let s := new_session (py "main") (py "a") 0 in
  let wanted := fresh_items ∅ [sample_vector; sample_vector] in
  let getdata := message GETDATA (VObj [(py "items", VArr (inventory_to_value <$> wanted))]) in
  (wanted = [] ∨ zsize ∅ + zlen wanted ≤ 10000 →
     let s' := with_inventory (∅ ∪ keys_of [sample_vector; sample_vector]) (∅ ∪ keys_of wanted) s in
     @receive toy_numtext m s = (s', Ok (match wanted with [] => [] | _ => [getdata] end)) ∧
     @receive toy_numtext m s' = (s', Ok [])) ∧
  (wanted ≠ [] → 10000 < zsize ∅ + zlen wanted →
     ∃ read, read `prefix_of` wanted ∧ zlen read = Z.max 0 (10000 - zsize ∅) ∧
       @receive toy_numtext m s = (with_score (0 + 1) (with_inventory (∅ ∪ keys_of read) ∅ s), Ok [reject_message (py "invalid message")])).
Proof.
  apply (@inventory_requests toy_numtext [sample_vector; sample_vector] (new_session (py "main") (py "a") 0)).
  - repeat constructor.
  - vm_compute. discriminate.
Defined.

(** Pings.  The answer to a ping clears it: it is accepted once, by the
    session that sent the ping, and any other pong is rejected and scored. *)
Theorem ping_pong `{NumText} n s t : 0 ≤ n →
  let ping := message PING (VObj [(py "nonce", VInt n)]) in
  let pong := message PONG (VObj [(py "nonce", VInt n)]) in
  (send_ping n s).2 = Ok ping ∧ receive ping t = (t, Ok [pong]) ∧
  receive pong s =
    (if bool_decide (n ∈ pending_pings s) then (with_pings (pending_pings s ∖ {[n]}) s, Ok [])
     else (with_score (misbehavior_score s + 1) s, Ok [reject_message (py "invalid message")])) ∧
  n ∈ pending_pings (send_ping n s).1 ∧ n ∉ pending_pings (receive pong s).1.
Proof.
  intros Hn ping pong.
  assert (Hv : validate_nonce (VObj [(py "nonce", VInt n)]) = Ok tt).
  { change (raise_if (n <? 0) NetworkError "nonce is invalid" = Ok tt). by rewrite raise_if_false by (apply Z.ltb_ge; lia). }
  assert (Hpong : receive pong s = if bool_decide (n ∈ pending_pings s) then (with_pings (pending_pings s ∖ {[n]}) s, Ok [])
    else (with_score (misbehavior_score s + 1) s, Ok [reject_message (py "invalid message")])).
  { rewrite receive_run. change (validate_payload pong) with (validate_nonce (VObj [(py "nonce", VInt n)])). rewrite Hv.
    change (handle pong s) with (handle_pong pong s). unfold handle_pong.
    change (payload_item (msg_payload pong) "nonce") with (Ok (VInt n)).
    unfold sm_lift, sm_get, sm_put, mbind, SM_bind. cbn [result_bind py_int].
    destruct (decide (n ∈ pending_pings s)) as [Hp|Hp].
    - rewrite (bool_decide_eq_false_2 (n ∉ pending_pings s)), bool_decide_eq_true_2 by (done || by intros Hq).
      done.
    - by rewrite (bool_decide_eq_true_2 (n ∉ pending_pings s)), bool_decide_eq_false_2. }
  assert (Hs : send_ping n s = (with_pings (pending_pings s ∪ {[n]}) s, Ok ping)).
  { unfold send_ping, sm_lift, mbind, SM_bind. by replace (n <? 0) with false by (symmetry; apply Z.ltb_ge; lia). }
  rewrite Hs. split_and!; [done| |done|cbn; set_solver|].
  - rewrite receive_run. change (validate_payload ping) with (validate_nonce (VObj [(py "nonce", VInt n)])). by rewrite Hv.
  - rewrite Hpong. case_bool_decide; [cbn; set_solver|done].
Qed.

Lemma ping_pong_witness :
  let s := new_session (py "main") (py "a") 0 in
  let ping := message PING (VObj [(py "nonce", VInt 7)]) in
  let pong := message PONG (VObj [(py "nonce", VInt 7)]) in
  (send_ping 7 s).2 = Ok ping ∧ @receive toy_numtext ping s = (s, Ok [pong]) ∧
  @receive toy_numtext pong s =
    (if bool_decide (7 ∈ pending_pings s) then (with_pings (pending_pings s ∖ {[7]}) s, Ok [])
     else (with_score (misbehavior_score s + 1) s, Ok [reject_message (py "invalid message")])) ∧
  7 ∈ pending_pings (send_ping 7 s).1 ∧ 7 ∉ pending_pings (@receive toy_numtext pong s).1.
Proof. apply (@ping_pong toy_numtext 7 (new_session (py "main") (py "a") 0) (new_session (py "main") (py "a") 0)). lia. Defined.

(** A session whose inventory is full, and one that is connected. *)
Definition sample_full : PeerSession :=
  mkSession (py "main") (py "a") 0 None (-1) false false false false ∅ ∅ ∅ 0 0.
Definition sample_connected : PeerSession :=
  @run_session toy_numtext (new_session (py "main") (py "a") 0) [Receive (version_message (py "main") 3 (py "b")); Receive ack].

(** What the handlers do not check.  TX messages and GETHEADERS fill the
    inventory sets past [max_inventory_items]; a connected peer that sends
    VERSION again with this node's own id is rejected, but only after its
    recorded id has been overwritten, and the handshake stays complete. *)
Theorem unchecked_updates :
  max_inventory_items sample_full = 0 ∧
  zsize (known_inventory (@receive toy_numtext sample_tx_message sample_full).1) = 1 ∧
  zsize (requested_inventory (@receive toy_numtext (getheaders_message [zeros 64] None 10) sample_full).1) = 1 ∧
  remote_node_id sample_connected = Some (py "b") ∧ handshake_complete sample_connected = true ∧
  (let after := @receive toy_numtext (version_message (py "main") 3 (py "a")) sample_connected in
   after.2 = Ok [reject_message (py "invalid message")] ∧
   remote_node_id after.1 = Some (py "a") ∧ handshake_complete after.1 = true).
Proof. vm_compute. repeat split. Qed.
