(* ===== verification/Databases.v ===== *)
(** * Database files (storage.py, the constructors and migrations of the stores; utxo_node.py, the files of a node)

    A database file holds the tables of one store, or of several when their
    paths coincide.  [SchemaObject] is what a [CREATE] statement adds to the
    schema; the rows are those of [ForkStore] and [Stores].  [CREATE] statements
    take effect at once: the [sqlite3] module opens a transaction before an
    [INSERT], not before them, so nothing rolls them back.  A file that is no
    database is [OtherFile].  A process opens a node, runs operations on the
    tables in its files one after the other, and closes it ([process]).  Locks
    and the journal's content are not modelled. *)

From S2P Require Import Prelude PyBytes PyText Sha256 Json Crypto ByteReader Transaction Block Utxo State BlockProcessor ForkStore ForkChoice Stores Policy Mempool Selection Mining Node Restart Produced WireJson JsonText Session.
Local Open Scope Z_scope.

(** ** Paths *)

(** [pathlib.Path]: the text up to the last separator and the final component. *)
Record Path := mkPath { pa_parent : str; pa_name : str }.

#[global] Instance Path_eq_dec : EqDecision Path.
Proof. solve_decision. Defined.
#[global] Instance Path_countable : Countable Path.
Proof. by apply (inj_countable' (λ p, (pa_parent p, pa_name p)) (λ x, mkPath x.1 x.2)); intros []. Defined.

(** [name.rfind('.')] *)
Fixpoint last_dot (i : nat) (s : str) : option nat :=
  match s with
  | [] => None
  | c :: s' => match last_dot (S i) s' with Some j => Some j | None => if c =? 46 then Some i else None end
  end.

(** [Path.suffix]: a dot that is neither the first nor the last character. *)
Definition path_suffix (p : Path) : str :=
  match last_dot 0 (pa_name p) with
  | Some i => if (0 <? i)%nat && (i <? length (pa_name p) - 1)%nat then drop i (pa_name p) else []
  | None => []
  end.

(** [Path.with_suffix] *)
Definition with_suffix (suffix : str) (p : Path) : result Path :=
  raise_if (bool_decide (47 ∈ suffix)) ValueError "Invalid suffix";;
  raise_if ((bool_decide (suffix ≠ []) && negb (startswith suffix (py "."))) || bool_decide (suffix = py ".")) ValueError "Invalid suffix";;
  raise_if (bool_decide (pa_name p = [])) ValueError "path has an empty name";;
  Ok (mkPath (pa_parent p) (take (length (pa_name p) - length (path_suffix p)) (pa_name p) ++ suffix)).

(** [_utxo_index_path], [_mempool_path], [_invalid_blocks_path] *)
Definition utxo_index_path (p : Path) : result Path :=
  with_suffix (if bool_decide (path_suffix p = []) then py ".utxos.sqlite3" else path_suffix p ++ py ".utxos.sqlite3") p.
Definition mempool_path (p : Path) : result Path :=
  with_suffix (if bool_decide (path_suffix p = []) then py ".mempool.sqlite3" else path_suffix p ++ py ".mempool.sqlite3") p.
Definition invalid_blocks_path (p : Path) : result Path :=
  with_suffix (if bool_decide (path_suffix p = []) then py ".invalid.sqlite3" else path_suffix p ++ py ".invalid.sqlite3") p.

(** ** Schemas *)

Inductive ColumnType := TEXT | INTEGER.

Record Column := mkColumn { co_name : str; co_type : ColumnType; co_not_null : bool }.

Inductive SchemaObject :=
  | Table (columns : list Column) (primary_key : list str)
  | Index (table column : str).

(** [CREATE TABLE IF NOT EXISTS] and [CREATE INDEX IF NOT EXISTS] *)
Inductive Statement :=
  | CreateTable (name : str) (columns : list Column) (primary_key : list str)
  | CreateIndex (name table column : str).

Definition text (n : string) : Column := mkColumn (py n) TEXT true.
Definition integer (n : string) : Column := mkColumn (py n) INTEGER true.
Definition text_key (n : string) : Column := mkColumn (py n) TEXT false.

Definition metadata_table : Statement := CreateTable (py "metadata") [text_key "key"; text "value"] [py "key"].

(** The statements of [SQLiteForkStore._migrate], *)
Definition fork_schema : list Statement :=
  [metadata_table;
   CreateTable (py "fork_blocks")
     [text_key "hash"; integer "height"; text "previous_hash"; integer "difficulty"; integer "cumulative_work"; text "data"] [py "hash"];
   CreateIndex (py "idx_fork_blocks_previous") (py "fork_blocks") (py "previous_hash");
   CreateIndex (py "idx_fork_blocks_height") (py "fork_blocks") (py "height")].

(** of [SQLiteUTXOIndex._migrate], *)
Definition index_schema : list Statement :=
  [metadata_table;
   CreateTable (py "utxos") [text "txid"; integer "output_index"; integer "amount"; text "address"] [py "txid"; py "output_index"];
   CreateTable (py "utxo_snapshots")
     [text "tip_hash"; text "txid"; integer "output_index"; integer "amount"; text "address"] [py "tip_hash"; py "txid"; py "output_index"];
   CreateTable (py "spent_outpoints")
     [text "tip_hash"; text "txid"; integer "output_index"; text "spending_txid"; integer "input_index"]
     [py "tip_hash"; py "txid"; py "output_index"]].

(** of [SQLiteMempoolStore._migrate], *)
Definition mempool_schema : list Statement :=
  [metadata_table; CreateTable (py "mempool_transactions") [text_key "txid"; text "data"] [py "txid"]].

(** of [SQLiteInvalidBlockCache._migrate] *)
Definition invalid_schema : list Statement :=
  [metadata_table; CreateTable (py "invalid_blocks") [text_key "hash"; text "reason"] [py "hash"]].

(** and of [SQLitePeerSyncStore._migrate]. *)
Definition peer_schema : list Statement :=
  [metadata_table;
   CreateTable (py "peer_sync_progress")
     [text_key "address"; integer "requested_blocks"; integer "completed_blocks"; integer "timed_out_blocks"; integer "failed_blocks"]
     [py "address"]].

(** ** Databases *)

(** [db_version] is the row [schema_version] of the metadata table. *)
Record Database := mkDatabase {
  db_wal : bool;
  db_schema : gmap str SchemaObject;
  db_version : option str;
  db_fork : ForkStore;
  db_index : UTXOIndex;
  db_mempool : MempoolStore;
  db_invalid : InvalidBlockCache;
  db_peers : PeerSyncStore;
}.

Definition empty_database : Database := mkDatabase false ∅ None empty_store empty_index ∅ ∅ ∅.

Definition db_with_wal (d : Database) : Database :=
  mkDatabase true (db_schema d) (db_version d) (db_fork d) (db_index d) (db_mempool d) (db_invalid d) (db_peers d).
Definition db_with_schema (x : gmap str SchemaObject) (d : Database) : Database :=
  mkDatabase (db_wal d) x (db_version d) (db_fork d) (db_index d) (db_mempool d) (db_invalid d) (db_peers d).
Definition db_with_version (x : str) (d : Database) : Database :=
  mkDatabase (db_wal d) (db_schema d) (Some x) (db_fork d) (db_index d) (db_mempool d) (db_invalid d) (db_peers d).
Definition db_with_fork (x : ForkStore) (d : Database) : Database :=
  mkDatabase (db_wal d) (db_schema d) (db_version d) x (db_index d) (db_mempool d) (db_invalid d) (db_peers d).
Definition db_with_index (x : UTXOIndex) (d : Database) : Database :=
  mkDatabase (db_wal d) (db_schema d) (db_version d) (db_fork d) x (db_mempool d) (db_invalid d) (db_peers d).
Definition db_with_mempool (x : MempoolStore) (d : Database) : Database :=
  mkDatabase (db_wal d) (db_schema d) (db_version d) (db_fork d) (db_index d) x (db_invalid d) (db_peers d).
Definition db_with_invalid (x : InvalidBlockCache) (d : Database) : Database :=
  mkDatabase (db_wal d) (db_schema d) (db_version d) (db_fork d) (db_index d) (db_mempool d) x (db_peers d).

(** One statement of a schema. *)
Definition run_statement (x : Statement) : SM Database unit :=
  d ← sm_get;
  match x with
  | CreateTable name columns key =>
      match db_schema d !! name with
      | Some (Table _ _) => mret tt
      | Some (Index _ _) => sm_raise OperationalError "there is already an index with this name"
      | None => sm_put (db_with_schema (<[name := Table columns key]> (db_schema d)) d)
      end
  | CreateIndex name table column =>
      match db_schema d !! table with
      | Some (Table columns _) =>
          match db_schema d !! name with
          | Some (Table _ _) => sm_raise OperationalError "there is already a table with this name"
          | Some (Index _ _) => mret tt
          | None =>
              sm_lift (raise_if (bool_decide (column ∉ co_name <$> columns)) OperationalError "no such column");;
              sm_put (db_with_schema (<[name := Index table column]> (db_schema d)) d)
          end
      | _ => sm_raise OperationalError "no such table"
      end
  end.

(** The metadata table has the columns that the queries name. *)
Definition has_metadata (d : Database) : bool :=
  match db_schema d !! py "metadata" with
  | Some (Table columns _) => bool_decide (py "key" ∈ co_name <$> columns) && bool_decide (py "value" ∈ co_name <$> columns)
  | _ => false
  end.

Definition STORE_SCHEMA_VERSION : Z := 1.

Section migration.
Context `{NumText}.

(** The end of every [_migrate]. *)
Definition settle_version : SM Database unit :=
  d ← sm_get;
  sm_lift (raise_if (negb (has_metadata d)) OperationalError "no such column");;
  match db_version d with
  | None => sm_put (db_with_version (str_of_int STORE_SCHEMA_VERSION) d)
  | Some v =>
      n ← sm_lift (int_of_text v);
      if n =? STORE_SCHEMA_VERSION then mret tt
      else sm_lift (Err (Exn StorageError (py "unsupported store schema version: " ++ v)))
  end.

(** [_migrate] of the store with the given schema. *)
Definition migrate (schema : list Statement) : SM Database unit :=
  sm_each run_statement schema;; settle_version.

Definition fork_migrate : SM Database unit := migrate fork_schema.
Definition utxo_index_migrate : SM Database unit := migrate index_schema.
Definition mempool_migrate : SM Database unit := migrate mempool_schema.
Definition invalid_migrate : SM Database unit := migrate invalid_schema.
Definition peer_migrate : SM Database unit := migrate peer_schema.

End migration.

(** ** Files and connections *)

Inductive File := SQLiteFile (d : Database) | OtherFile.

(** An open connection: [PRAGMA foreign_keys] and [PRAGMA synchronous] belong to
    it, not to the file. *)
Record Connection := mkConnection { cn_path : Path; cn_foreign_keys : bool; cn_synchronous_normal : bool }.

Record System := mkSystem { sy_files : gmap Path File; sy_open : gmap nat Connection; sy_next : nat }.

Definition with_open (m : gmap nat Connection) (s : System) : System := mkSystem (sy_files s) m (sy_next s).
Definition with_file (p : Path) (d : Database) (s : System) : System := mkSystem (<[p := SQLiteFile d]> (sy_files s)) (sy_open s) (sy_next s).

(** What SQLite finds at a path; a missing file is an empty database. *)
Definition database (s : System) (p : Path) : option Database :=
  match sy_files s !! p with
  | None => Some empty_database
  | Some (SQLiteFile d) => Some d
  | Some OtherFile => None
  end.

Definition connection (c : nat) : SM System Connection :=
  s ← sm_get;
  match sy_open s !! c with
  | Some x => mret x
  | None => sm_raise ProgrammingError "Cannot operate on a closed database."
  end.

(** Statements executed on a connection. *)
Definition execute {A} (c : nat) (m : SM Database A) : SM System A :=
  x ← connection c;
  s ← sm_get;
  match database s (cn_path x) with
  | None => sm_raise DatabaseError "file is not a database"
  | Some d => let r := m d in sm_put (with_file (cn_path x) r.1 s);; sm_lift r.2
  end.

Definition set_pragma (c : nat) (f : Connection → Connection) : SM System unit :=
  x ← connection c;
  s ← sm_get;
  sm_put (with_open (<[c := f x]> (sy_open s)) s).

(** [PRAGMA journal_mode=WAL], [PRAGMA foreign_keys=ON], [PRAGMA synchronous=NORMAL] *)
Definition pragma_wal (c : nat) : SM System unit := execute c (d ← sm_get; sm_put (db_with_wal d)).
Definition pragma_foreign_keys (c : nat) : SM System unit := set_pragma c (λ x, mkConnection (cn_path x) true (cn_synchronous_normal x)).
Definition pragma_synchronous (c : nat) : SM System unit := set_pragma c (λ x, mkConnection (cn_path x) (cn_foreign_keys x) true).

(** [_configure] of [SQLiteForkStore] and [SQLiteUTXOIndex], *)
Definition fork_configure (c : nat) : SM System unit := pragma_wal c;; pragma_foreign_keys c;; pragma_synchronous c.
Definition utxo_index_configure (c : nat) : SM System unit := pragma_wal c;; pragma_foreign_keys c;; pragma_synchronous c.
(** and of the other stores. *)
Definition mempool_configure (c : nat) : SM System unit := pragma_wal c;; pragma_synchronous c.
Definition invalid_configure (c : nat) : SM System unit := pragma_wal c;; pragma_synchronous c.
Definition peer_configure (c : nat) : SM System unit := pragma_wal c;; pragma_synchronous c.

(** [close]; closing a closed connection does nothing. *)
Definition store_close (c : nat) : SM System unit := s ← sm_get; sm_put (with_open (delete c (sy_open s)) s).

(** What the operating system answers to [mkdir] and to [sqlite3.connect]. *)
Record Host := mkHost { os_mkdir : Path → result unit; os_connect : Path → result unit }.

(** The four stores of a node, by connection. *)
Record NodeStores := mkStores { ns_store : nat; ns_mempool : nat; ns_index : nat; ns_invalid : nat }.

Section files.
Context `{NumText}.
Variable host : Host.

Definition connect (p : Path) : SM System nat :=
  sm_lift (os_connect host p);;
  s ← sm_get;
  sm_put (mkSystem (sy_files s) (<[sy_next s := mkConnection p false false]> (sy_open s)) (S (sy_next s)));;
  mret (sy_next s).

(** The constructor of a store. *)
Definition store_init (configure : nat → SM System unit) (migration : SM Database unit) (p : Path) : SM System nat :=
  sm_lift (os_mkdir host p);;
  c ← connect p;
  sm_try (configure c;; execute c migration) (λ e, store_close c;; sm_lift (Err e));;
  mret c.

Definition fork_store_init : Path → SM System nat := store_init fork_configure fork_migrate.
Definition utxo_index_init : Path → SM System nat := store_init utxo_index_configure utxo_index_migrate.
Definition mempool_store_init : Path → SM System nat := store_init mempool_configure mempool_migrate.
Definition invalid_cache_init : Path → SM System nat := store_init invalid_configure invalid_migrate.
Definition peer_store_init : Path → SM System nat := store_init peer_configure peer_migrate.

(** ** The files of a node *)

(** The connections that [create] and [open] make. *)
Definition open_stores (p : Path) : SM System NodeStores :=
  store ← fork_store_init p;
  pm ← sm_lift (mempool_path p);
  mempool ← mempool_store_init pm;
  pu ← sm_lift (utxo_index_path p);
  index ← utxo_index_init pu;
  pi ← sm_lift (invalid_blocks_path p);
  invalid ← invalid_cache_init pi;
  mret (mkStores store mempool index invalid).

Definition close_stores (ns : NodeStores) : SM System unit :=
  store_close (ns_store ns);; store_close (ns_mempool ns);; store_close (ns_index ns);; store_close (ns_invalid ns).

Definition rows {A} (f : Database → A) : SM Database A := d ← sm_get; mret (f d).
Definition set_rows (f : Database → Database) : SM Database unit := d ← sm_get; sm_put (f d).

(** The tables of a node, read from and written to its four files. *)
Definition read_disk (ns : NodeStores) : SM System Disk :=
  store ← execute (ns_store ns) (rows db_fork);
  mempool ← execute (ns_mempool ns) (rows db_mempool);
  index ← execute (ns_index ns) (rows db_index);
  invalid ← execute (ns_invalid ns) (rows db_invalid);
  mret (mkDisk store mempool index invalid).

Definition write_disk (ns : NodeStores) (d : Disk) : SM System unit :=
  execute (ns_store ns) (set_rows (db_with_fork (d_store d)));;
  execute (ns_mempool ns) (set_rows (db_with_mempool (d_mempool d)));;
  execute (ns_index ns) (set_rows (db_with_index (d_index d)));;
  execute (ns_invalid ns) (set_rows (db_with_invalid (d_invalid d))).

Definition on_disk {A} (ns : NodeStores) (m : SM Disk A) : SM System A :=
  d ← read_disk ns;
  let r := m d in write_disk ns r.1;; sm_lift r.2.

Context `{Ed25519}.

(** [ConsensusNode.create], from the files *)
Definition create_files (fuel : nat) (p : Path) (allocations : list (str * Z)) (difficulty subsidy max now : Z) : SM System (NodeStores * Node) :=
  ns ← open_stores p;
  sm_try (on_disk ns (create_chain fuel allocations difficulty subsidy max now)) (λ e, close_stores ns;; sm_lift (Err e));;
  n ← on_disk ns (create_node difficulty subsidy max);
  mret (ns, n).

(** [ConsensusNode.open], from the files *)
Definition open_files (p : Path) (difficulty subsidy max : Z) : SM System (NodeStores * Node) :=
  ns ← open_stores p;
  s ← sm_try (on_disk ns (open_chain difficulty subsidy max))
        (λ _, close_stores ns;; sm_raise ConsensusNodeError "stored consensus chain failed validation");
  n ← on_disk ns (node_init s difficulty (mkForkChoice subsidy max));
  mret (ns, n).

(** [ConsensusNode.close] *)
Definition close_files (n : NodeStores * Node) : SM System unit := close_stores n.1.

(** An operation of a running node, on the tables in its files. *)
Definition do_activity (ns : NodeStores) (a : activity) (n : Node) : SM System Node :=
  d ← read_disk ns;
  let n' := (run_activity a (with_disk d n)).1 in
  write_disk ns (n_disk n');; mret n'.

Fixpoint session (ns : NodeStores) (l : list activity) (n : Node) : SM System Node :=
  match l with
  | [] => mret n
  | a :: l' => n' ← do_activity ns a n; session ns l' n'
  end.

(** A process: it opens the node, uses it and closes it. *)
Definition process (p : Path) (difficulty subsidy max : Z) (l : list activity) : SM System Node :=
  x ← open_files p difficulty subsidy max;
  n ← session x.1 l x.2;
  close_files (x.1, n);;
  mret n.

(** One process after the other, and the node the last one had. *)
Fixpoint processes (p : Path) (difficulty subsidy max : Z) (ls : list (list activity)) (n : Node) : SM System Node :=
  match ls with
  | [] => mret n
  | l :: ls' => n' ← process p difficulty subsidy max l; processes p difficulty subsidy max ls' n'
  end.

End files.

(** ** Lemmas: paths *)

Lemma suffix_split p : take (length (pa_name p) - length (path_suffix p)) (pa_name p) ++ path_suffix p = pa_name p.
Proof.
  unfold path_suffix. destruct (last_dot 0 (pa_name p)) as [i|]; [destruct (_ && _) eqn:E|].
  - apply andb_true_iff in E as [E1%Nat.ltb_lt E2%Nat.ltb_lt]. rewrite length_drop.
    replace (length (pa_name p) - (length (pa_name p) - i))%nat with i by lia. apply take_drop.
  - by rewrite app_nil_r, Nat.sub_0_r, firstn_all.
  - by rewrite app_nil_r, Nat.sub_0_r, firstn_all.
Qed.

Lemma suffix_starts p : path_suffix p = [] ∨ ∃ x, path_suffix p = py "." ++ x.
Proof.
  unfold path_suffix. destruct (last_dot 0 (pa_name p)) as [i|] eqn:E; [|by left]. destruct (_ && _); [|by left]. right.
  assert (Hd : ∀ s k j, last_dot k s = Some j → (k ≤ j)%nat ∧ s !! (j - k)%nat = Some 46).
  { induction s as [|c s IH]; intros k j; simpl; [done|]. destruct (last_dot (S k) s) as [j'|] eqn:El.
    - intros [= <-]. apply IH in El as [Hk Hl]. split; [lia|]. by replace (j' - k)%nat with (S (j' - S k)) by lia.
    - destruct (c =? 46) eqn:Ec; [|done]. intros [= <-]. apply Z.eqb_eq in Ec as ->. split; [done|]. by rewrite Nat.sub_diag. }
  apply Hd in E as [_ E]. rewrite Nat.sub_0_r in E. apply drop_S in E. rewrite E. by eexists.
Qed.

(** Every file of a node has the name of the database and an ending. *)
Lemma with_suffix_extends p tail : pa_name p ≠ [] → 47 ∉ pa_name p → 47 ∉ tail → tail ≠ [] →
  with_suffix (if bool_decide (path_suffix p = []) then py "." ++ tail else path_suffix p ++ py "." ++ tail) p =
    Ok (mkPath (pa_parent p) (pa_name p ++ py "." ++ tail)).
Proof.
  intros Hn Hs Ht Hne. pose proof (suffix_split p) as Hsp.
  assert (Hsuf : 47 ∉ path_suffix p) by (intros Hin; apply Hs; rewrite <- Hsp; apply elem_of_app; by right).
  assert (Hdot : 47 ∉ py "." ++ tail) by (rewrite elem_of_app; intros [Hin|Hin]; [by apply (list_elem_of_singleton 47 46) in Hin|done]).
  assert (Hst : ∀ x, startswith (py "." ++ x) (py ".") = true) by (by intros []).
  destruct (suffix_starts p) as [E|[x E]].
  - rewrite bool_decide_eq_true_2 by done. unfold with_suffix. rewrite (bool_decide_eq_false_2 (47 ∈ _)) by done.
    rewrite (bool_decide_eq_false_2 (py "." ++ tail = py ".")) by (destruct tail; naive_solver).
    rewrite Hst, andb_false_r, (bool_decide_eq_false_2 (pa_name p = [])) by done. cbn [orb raise_if mbind result_bind].
    rewrite E, app_nil_r in Hsp. by rewrite E, Hsp.
  - rewrite bool_decide_eq_false_2 by (by rewrite E). unfold with_suffix.
    rewrite (bool_decide_eq_false_2 (47 ∈ _)) by (rewrite elem_of_app; tauto).
    rewrite (bool_decide_eq_false_2 (path_suffix p ++ _ = py ".")) by (rewrite E; destruct x, tail; naive_solver).
    assert (Hst' : startswith (path_suffix p ++ py "." ++ tail) (py ".") = true) by (rewrite E, <- app_assoc; apply Hst).
    rewrite Hst', andb_false_r, (bool_decide_eq_false_2 (pa_name p = [])) by done. cbn [orb raise_if mbind result_bind].
    by rewrite (app_assoc _ (path_suffix p)), Hsp.
Qed.

(** ** Lemmas: migrations *)

(** [d'] is [d] with objects added to its schema. *)
Record grows (d d' : Database) : Prop := {
  gr_fork : db_fork d' = db_fork d;
  gr_index : db_index d' = db_index d;
  gr_mempool : db_mempool d' = db_mempool d;
  gr_invalid : db_invalid d' = db_invalid d;
  gr_peers : db_peers d' = db_peers d;
  gr_schema : db_schema d ⊆ db_schema d';
  gr_version : ∀ v, db_version d = Some v → db_version d' = Some v;
  gr_wal : db_wal d = true → db_wal d' = true;
}.

#[global] Instance grows_preorder : PreOrder grows.
Proof.
  split; [by intros d; split|]. intros d1 d2 d3 [????? S1 V1 W1] [????? S2 V2 W2]. split; try congruence; [by etrans|auto..].
Qed.

Lemma schema_grows name o d : db_schema d !! name = None → grows d (db_with_schema (<[name := o]> (db_schema d)) d).
Proof. intros Hn. split; try done. by apply insert_subseteq. Qed.

Lemma run_statement_grows x : keeps grows (run_statement x).
Proof.
  intros d. unfold run_statement. rewrite bind_get_run. destruct x as [name columns key|name table column].
  - destruct (db_schema d !! name) as [[]|] eqn:E; [done..|]. by apply schema_grows.
  - destruct (db_schema d !! table) as [[]|]; [|done..]. destruct (db_schema d !! name) as [[]|] eqn:E; [done..|].
    rewrite bind_lift_run. destruct (raise_if _ _ _); [|done]. by apply schema_grows.
Qed.

(** What a statement leaves in the schema. *)
Definition declared (x : Statement) (d : Database) : Prop :=
  match x with
  | CreateTable name _ _ => ∃ columns key, db_schema d !! name = Some (Table columns key)
  | CreateIndex name table _ =>
      (∃ columns key, db_schema d !! table = Some (Table columns key)) ∧ ∃ t c, db_schema d !! name = Some (Index t c)
  end.

Lemma declared_grows x d d' : grows d d' → declared x d → declared x d'.
Proof.
  intros Hg. assert (Hs : ∀ n o, db_schema d !! n = Some o → db_schema d' !! n = Some o).
  { intros n o Hn. eapply lookup_weaken; [exact Hn|apply Hg]. }
  destruct x; [intros (? & ? & ?%Hs)|intros [(? & ? & ?%Hs) (? & ? & ?%Hs)]]; cbn; eauto 6.
Qed.

Lemma run_statement_declares x d d' u : run_statement x d = (d', Ok u) → declared x d'.
Proof.
  unfold run_statement. rewrite bind_get_run. destruct x as [name columns key|name table column].
  - destruct (db_schema d !! name) as [[c k|]|] eqn:E; [intros [= <- _]; by exists c, k|done|].
    intros [= <- _]. cbn. rewrite lookup_insert_eq. eauto.
  - destruct (db_schema d !! table) as [[c k|]|] eqn:Et; [|done..].
    destruct (db_schema d !! name) as [[]|] eqn:E; [done|intros [= <- _]; cbn; rewrite Et, E; eauto 6|].
    rewrite bind_lift_run. destruct (raise_if _ _ _); [|done]. intros [= <- _]. cbn.
    rewrite lookup_insert_eq, lookup_insert_ne by congruence. rewrite Et. eauto 6.
Qed.

Lemma run_statement_again x d : declared x d → run_statement x d = (d, Ok tt).
Proof.
  unfold run_statement. rewrite bind_get_run. destruct x as [name columns key|name table column]; cbn.
  - by intros (? & ? & ->).
  - intros [(? & ? & ->) (? & ? & ->)]. done.
Qed.

Lemma run_schema_grows l : keeps grows (sm_each run_statement l).
Proof. induction l as [|x l IH]; cbn [sm_each]; [by intros d|]. apply keeps_bind; [apply _|apply run_statement_grows|done]. Qed.

Lemma run_schema_declares l : ∀ d d' u, sm_each run_statement l d = (d', Ok u) → Forall (λ x, declared x d') l.
Proof.
  induction l as [|x l IH]; intros d d' u E; [constructor|]. cbn [sm_each] in E. apply SM_bind_Ok in E as ([] & d1 & E1 & E2).
  constructor; [|by eapply IH]. eapply declared_grows; [|by eapply run_statement_declares].
  pose proof (run_schema_grows l d1) as Hg. by rewrite E2 in Hg.
Qed.

Lemma run_schema_again l d : Forall (λ x, declared x d) l → sm_each run_statement l d = (d, Ok tt).
Proof.
  induction 1 as [|x l Hx _ IH]; [done|]. cbn [sm_each]. unfold mbind, SM_bind. by rewrite run_statement_again.
Qed.

Section migrations.
Context `{NumText}.

(** A schema that its migration accepts without a change. *)
Record installed (schema : list Statement) (d : Database) : Prop := {
  in_declared : Forall (λ x, declared x d) schema;
  in_metadata : has_metadata d = true;
  in_version : ∃ v, db_version d = Some v ∧ int_of_text v = Ok STORE_SCHEMA_VERSION;
}.

Lemma settle_version_grows : keeps grows settle_version.
Proof.
  intros d. unfold settle_version. rewrite bind_get_run, bind_lift_run. destruct (raise_if _ _ _); [|done].
  destruct (db_version d) as [v|] eqn:Ev; [|by split; cbn; try done; rewrite Ev].
  rewrite bind_lift_run. destruct (int_of_text v); [|done]. by destruct (_ =? _).
Qed.

Lemma migrate_grows schema : keeps grows (migrate schema).
Proof. apply keeps_bind; [apply _|apply run_schema_grows|intros _; apply settle_version_grows]. Qed.

Lemma migrate_installed schema d d' u : int_of_text (str_of_int STORE_SCHEMA_VERSION) = Ok STORE_SCHEMA_VERSION →
  migrate schema d = (d', Ok u) → installed schema d'.
Proof.
  intros Hone E. unfold migrate in E. apply SM_bind_Ok in E as ([] & d1 & E1%run_schema_declares & E).
  assert (Hg : grows d1 d') by (pose proof (settle_version_grows d1) as Hg; by rewrite E in Hg).
  unfold settle_version in E. rewrite bind_get_run, bind_lift_run in E. destruct (has_metadata d1) eqn:Em; [|done]. cbn [negb raise_if] in E.
  split.
  - eapply Forall_impl; [exact E1|]. intros x. by apply declared_grows.
  - destruct (db_version d1) as [v|]; [|by injection E as <- _]. rewrite bind_lift_run in E.
    destruct (int_of_text v); [|done]. destruct (_ =? _); [|done]. by injection E as <- _.
  - destruct (db_version d1) as [v|] eqn:Ev; [|injection E as <- _; by eexists]. rewrite bind_lift_run in E.
    destruct (int_of_text v) as [n|] eqn:En; [|done]. destruct (n =? _) eqn:E1'; [|done]. apply Z.eqb_eq in E1' as ->.
    injection E as <- _. by exists v.
Qed.

Lemma migrate_again schema d : installed schema d → migrate schema d = (d, Ok tt).
Proof.
  intros [Hd Hm (v & Hv & Hi)]. unfold migrate, mbind, SM_bind at 1. rewrite run_schema_again by done.
  unfold settle_version. rewrite bind_get_run, bind_lift_run, Hm, Hv. cbn [negb raise_if]. by rewrite bind_lift_run, Hi.
Qed.

Lemma installed_same schema d d' : db_schema d' = db_schema d → db_version d' = db_version d → installed schema d → installed schema d'.
Proof.
  intros Hs Hv [Hd Hm Hi]. split; [|by unfold has_metadata in *; rewrite Hs|by rewrite Hv].
  eapply Forall_impl; [exact Hd|]. intros []; cbn; by rewrite Hs.
Qed.

End migrations.

(** ** Lemmas: connections *)

(** Connection numbers are not used again. *)
Definition fresh (s : System) : Prop := ∀ c, (sy_next s ≤ c)%nat → sy_open s !! c = None.

Lemma execute_run {A} c (m : SM Database A) s x d : sy_open s !! c = Some x → database s (cn_path x) = Some d →
  execute c m s = (with_file (cn_path x) (m d).1 s, (m d).2).
Proof.
  intros Hc Hd. unfold execute. rewrite (sm_bind_run _ _ _ s x); [|by unfold connection; rewrite bind_get_run, Hc].
  by rewrite bind_get_run, Hd.
Qed.

Lemma execute_other {A} c (m : SM Database A) s x : sy_open s !! c = Some x → database s (cn_path x) = None →
  execute c m s = (s, raise DatabaseError "file is not a database").
Proof.
  intros Hc Hd. unfold execute. rewrite (sm_bind_run _ _ _ s x); [|by unfold connection; rewrite bind_get_run, Hc].
  by rewrite bind_get_run, Hd.
Qed.

Lemma set_pragma_run c f s x : sy_open s !! c = Some x → set_pragma c f s = (with_open (<[c := f x]> (sy_open s)) s, Ok tt).
Proof. intros Hc. unfold set_pragma. rewrite (sm_bind_run _ _ _ s x); [done|]. unfold connection. by rewrite bind_get_run, Hc. Qed.

Lemma database_with_file p d s : database (with_file p d s) p = Some d.
Proof. unfold database. cbn. by rewrite lookup_insert_eq. Qed.

(** What [_configure] does, with and without foreign keys. *)
Definition configures (configure : nat → SM System unit) (foreign_keys : bool) : Prop := ∀ c s x,
  sy_open s !! c = Some x →
  configure c s =
    match database s (cn_path x) with
    | None => (s, raise DatabaseError "file is not a database")
    | Some d =>
        (mkSystem (<[cn_path x := SQLiteFile (db_with_wal d)]> (sy_files s))
           (<[c := mkConnection (cn_path x) (foreign_keys || cn_foreign_keys x) true]> (sy_open s)) (sy_next s), Ok tt)
    end.

Lemma pragma_wal_run c s x : sy_open s !! c = Some x →
  pragma_wal c s =
    match database s (cn_path x) with
    | None => (s, raise DatabaseError "file is not a database")
    | Some d => (with_file (cn_path x) (db_with_wal d) s, Ok tt)
    end.
Proof.
  intros Hc. unfold pragma_wal. destruct (database s (cn_path x)) as [d|] eqn:Ed; [by rewrite (execute_run c _ s x d)|by rewrite (execute_other c _ s x)].
Qed.

Lemma fork_configures : configures fork_configure true.
Proof.
  intros c s x Hc. unfold fork_configure. unfold mbind at 1, SM_bind at 1. rewrite (pragma_wal_run c s x) by done.
  destruct (database s (cn_path x)) as [d|]; [|done]. unfold mbind, SM_bind, pragma_foreign_keys, pragma_synchronous.
  rewrite (set_pragma_run _ _ _ x) by done. rewrite (set_pragma_run _ _ _ (mkConnection (cn_path x) true (cn_synchronous_normal x))).
  - unfold with_open. cbn. by rewrite insert_insert_eq.
  - cbn. apply lookup_insert_eq.
Qed.

Lemma mempool_configures : configures mempool_configure false.
Proof.
  intros c s x Hc. unfold mempool_configure. unfold mbind at 1, SM_bind at 1. rewrite (pragma_wal_run c s x) by done.
  destruct (database s (cn_path x)) as [d|]; [|done]. unfold pragma_synchronous. by rewrite (set_pragma_run _ _ _ x).
Qed.

Section constructors.
Context `{NumText}.
Variable host : Host.

Definition reachable (p : Path) : Prop := os_mkdir host p = Ok tt ∧ os_connect host p = Ok tt.

(** A constructor, on every branch: the outcome is the migration's, and the
    connection stays open only if it returns. *)
Lemma store_init_run configure fk schema p s : configures configure fk → fresh s → reachable p →
  store_init host configure (migrate schema) p s =
    match database s p with
    | None => (mkSystem (sy_files s) (sy_open s) (S (sy_next s)), raise DatabaseError "file is not a database")
    | Some d =>
        let r := migrate schema (db_with_wal d) in
        match r.2 with
        | Ok _ => (mkSystem (<[p := SQLiteFile r.1]> (sy_files s)) (<[sy_next s := mkConnection p fk true]> (sy_open s)) (S (sy_next s)), Ok (sy_next s))
        | Err e => (mkSystem (<[p := SQLiteFile r.1]> (sy_files s)) (sy_open s) (S (sy_next s)), Err e)
        end
    end.
Proof.
  intros Hconf Hf [Hm Hc]. unfold store_init. rewrite bind_lift_run, Hm.
  set (s1 := mkSystem (sy_files s) (<[sy_next s := mkConnection p false false]> (sy_open s)) (S (sy_next s))).
  rewrite (sm_bind_run _ _ _ s1 (sy_next s)) by (unfold connect; by rewrite bind_lift_run, Hc).
  assert (Ho : sy_open s1 !! sy_next s = Some (mkConnection p false false)) by apply lookup_insert_eq.
  assert (Hdel : ∀ x, delete (sy_next s) (<[sy_next s := x]> (sy_open s)) = sy_open s) by (intros x; apply delete_insert_id; by apply Hf).
  unfold sm_try, mbind at 1, SM_bind at 1, mbind at 1, SM_bind at 1. rewrite (Hconf _ _ _ Ho). cbn [cn_path cn_foreign_keys].
  change (database s1 p) with (database s p). destruct (database s p) as [d|] eqn:Ed.
  - set (s2 := mkSystem _ _ _).
    assert (Ho2 : sy_open s2 !! sy_next s = Some (mkConnection p (fk || false) true)) by apply lookup_insert_eq.
    rewrite (execute_run _ _ s2 _ (db_with_wal d) Ho2) by (unfold database; cbn; by rewrite lookup_insert_eq).
    unfold with_file, s2. cbn. rewrite insert_insert_eq, orb_false_r, insert_insert_eq.
    destruct (migrate schema (db_with_wal d)) as [d' [[]|e]]; [done|]. cbn. unfold store_close, with_open, sm_lift, mbind, SM_bind. cbn. by rewrite Hdel.
  - unfold store_close, with_open, sm_lift, mbind, SM_bind, s1. cbn. by rewrite Hdel.
Qed.

End constructors.

(** ** The five stores *)

Inductive StoreKind := BlockStore | IndexStore | MempoolTable | InvalidTable | PeerTable.

Definition kind_schema (k : StoreKind) : list Statement :=
  match k with
  | BlockStore => fork_schema
  | IndexStore => index_schema
  | MempoolTable => mempool_schema
  | InvalidTable => invalid_schema
  | PeerTable => peer_schema
  end.

Definition kind_foreign_keys (k : StoreKind) : bool := match k with BlockStore | IndexStore => true | _ => false end.

Definition open_store `{NumText} (host : Host) (k : StoreKind) : Path → SM System nat :=
  match k with
  | BlockStore => fork_store_init host
  | IndexStore => utxo_index_init host
  | MempoolTable => mempool_store_init host
  | InvalidTable => invalid_cache_init host
  | PeerTable => peer_store_init host
  end.

(** A file that the constructor takes as it is. *)
Definition ready `{NumText} (schema : list Statement) (d : Database) : Prop := db_wal d = true ∧ installed schema d.

Lemma wal_same d : db_wal d = true → db_with_wal d = d.
Proof. destruct d. cbn. by intros ->. Qed.

Lemma ready_migrates `{NumText} schema d : ready schema d → migrate schema (db_with_wal d) = (d, Ok tt).
Proof. intros [Hw Hi]. rewrite wal_same by done. by apply migrate_again. Qed.

Lemma migrated_ready `{NumText} schema d d' u : int_of_text (str_of_int STORE_SCHEMA_VERSION) = Ok STORE_SCHEMA_VERSION →
  migrate schema (db_with_wal d) = (d', Ok u) → ready schema d' ∧ grows d d'.
Proof.
  intros Hone E. pose proof (migrate_grows schema (db_with_wal d)) as Hg. rewrite E in Hg. cbn [fst] in Hg.
  split; [split; [by apply (gr_wal _ _ Hg)|by eapply migrate_installed]|]. etrans; [|exact Hg]. by split.
Qed.

Lemma open_store_run `{NumText} host k p s : fresh s → reachable host p →
  open_store host k p s =
    match database s p with
    | None => (mkSystem (sy_files s) (sy_open s) (S (sy_next s)), raise DatabaseError "file is not a database")
    | Some d =>
        let r := migrate (kind_schema k) (db_with_wal d) in
        match r.2 with
        | Ok _ => (mkSystem (<[p := SQLiteFile r.1]> (sy_files s)) (<[sy_next s := mkConnection p (kind_foreign_keys k) true]> (sy_open s)) (S (sy_next s)), Ok (sy_next s))
        | Err e => (mkSystem (<[p := SQLiteFile r.1]> (sy_files s)) (sy_open s) (S (sy_next s)), Err e)
        end
    end.
Proof. intros Hf Hr. destruct k; (apply store_init_run; [apply fork_configures || apply mempool_configures|done..]). Qed.

(** C21: Opening a store loses nothing.  Whichever store is opened on a file,
    whatever the file holds: no other file changes; the rows of every table stay,
    the objects of the schema and the recorded version too, also when the version
    is not supported; on an error the connection is closed again; and a file that
    was opened is one that the same store opens again without changing it. *)
Theorem store_opened `{NumText} host k p s :
  int_of_text (str_of_int STORE_SCHEMA_VERSION) = Ok STORE_SCHEMA_VERSION → fresh s → reachable host p →
  let r := open_store host k p s in
  (∀ q, q ≠ p → sy_files r.1 !! q = sy_files s !! q) ∧
  (∀ d, database s p = Some d → ∃ d', database r.1 p = Some d' ∧ grows d d') ∧
  match r.2 with
  | Ok c =>
      sy_open s !! c = None ∧ sy_open r.1 = <[c := mkConnection p (kind_foreign_keys k) true]> (sy_open s) ∧
      ∀ s', fresh s' → sy_files s' !! p = sy_files r.1 !! p →
        open_store host k p s' =
          (mkSystem (sy_files s') (<[sy_next s' := mkConnection p (kind_foreign_keys k) true]> (sy_open s')) (S (sy_next s')), Ok (sy_next s'))
  | Err e => sy_open r.1 = sy_open s
  end.
Proof.
  intros Hone Hf Hr r. pose proof (open_store_run host k p s Hf Hr) as E. fold r in E. rewrite E. clear E. clear r.
  destruct (database s p) as [d|] eqn:Ed; [|by split_and!].
  destruct (migrate (kind_schema k) (db_with_wal d)) as [d' [[]|e]] eqn:Em; cbn [fst snd sy_files sy_open].
  - destruct (migrated_ready _ _ _ _ Hone Em) as [Hready Hg]. split_and!.
    + intros q Hq. by apply lookup_insert_ne.
    + intros d0 [= <-]. exists d'. unfold database. cbn. by rewrite lookup_insert_eq.
    + by apply Hf.
    + done.
    + intros s' Hf' Hs'. rewrite lookup_insert_eq in Hs'. rewrite open_store_run by done. unfold database. rewrite Hs'.
      rewrite ready_migrates by done. cbn. by rewrite insert_id.
  - split_and!.
    + intros q Hq. by apply lookup_insert_ne.
    + intros d0 [= <-]. exists d'. unfold database. cbn. rewrite lookup_insert_eq. split; [done|].
      pose proof (migrate_grows (kind_schema k) (db_with_wal d)) as Hg. rewrite Em in Hg. etrans; [|exact Hg]. by split.
    + done.
Qed.

(** ** Lemmas: the files of a node *)

Definition named (p : Path) : Prop := pa_name p ≠ [] ∧ 47 ∉ pa_name p.
Definition sibling (p : Path) (ending : string) : Path := mkPath (pa_parent p) (pa_name p ++ py "." ++ py ending).

Notation mempool_file p := (sibling p "mempool.sqlite3").
Notation index_file p := (sibling p "utxos.sqlite3").
Notation invalid_file p := (sibling p "invalid.sqlite3").

Lemma no_slash x : forallb (λ c, negb (c =? 47)) x = true → 47 ∉ x.
Proof. intros Hx Hin. rewrite forallb_forall in Hx. specialize (Hx 47 (proj1 (list_elem_of_In _ _) Hin)). done. Qed.

Lemma node_paths p : named p →
  mempool_path p = Ok (mempool_file p) ∧ utxo_index_path p = Ok (index_file p) ∧ invalid_blocks_path p = Ok (invalid_file p).
Proof. intros [Hn Hs]. split_and!; (apply with_suffix_extends; [done|done|by apply no_slash; vm_compute|done]). Qed.

Lemma sibling_ne p x : p ≠ sibling p x.
Proof. intros E. apply (f_equal (length ∘ pa_name)) in E. cbn in E. rewrite length_app in E. cbn in E. lia. Qed.

Lemma siblings_ne p x y : py x ≠ py y → sibling p x ≠ sibling p y.
Proof. intros Hxy [= E]. apply app_inv_head in E. by injection E. Qed.

Ltac files_ne := first [apply sibling_ne | apply not_eq_sym, sibling_ne | apply siblings_ne; vm_compute; congruence].

(** The tables of a node are those of its four files, each of which meets [P]. *)
Definition node_tables (P : list Statement → Database → Prop) (p : Path) (s : System) (d : Disk) : Prop :=
  ∃ db dm du di,
    database s p = Some db ∧ database s (mempool_file p) = Some dm ∧ database s (index_file p) = Some du ∧ database s (invalid_file p) = Some di ∧
    P fork_schema db ∧ P mempool_schema dm ∧ P index_schema du ∧ P invalid_schema di ∧
    d = mkDisk (db_fork db) (db_mempool dm) (db_index du) (db_invalid di).

(** The connections of a node. *)
Definition attached (p : Path) (ns : NodeStores) (s : System) : Prop :=
  sy_open s !! ns_store ns = Some (mkConnection p true true) ∧ sy_open s !! ns_mempool ns = Some (mkConnection (mempool_file p) false true) ∧
  sy_open s !! ns_index ns = Some (mkConnection (index_file p) true true) ∧ sy_open s !! ns_invalid ns = Some (mkConnection (invalid_file p) false true).

(** Only the files of the node differ. *)
Definition elsewhere (p : Path) (s s' : System) : Prop :=
  ∀ q, q ≠ p → q ≠ mempool_file p → q ≠ index_file p → q ≠ invalid_file p → sy_files s' !! q = sy_files s !! q.

#[global] Instance elsewhere_preorder p : PreOrder (elsewhere p).
Proof. split; [by intros s q|]. intros s1 s2 s3 H12 H23 q ????. by rewrite H23, H12. Qed.

Lemma with_file_elsewhere p q d s : q = p ∨ q = mempool_file p ∨ q = index_file p ∨ q = invalid_file p → elsewhere p s (with_file q d s).
Proof. intros Hq r ????. cbn. apply lookup_insert_ne. by destruct Hq as [->|[->|[->| ->]]]. Qed.

Lemma database_with_other p q d s : q ≠ p → database (with_file p d s) q = database s q.
Proof. intros Hq. unfold database. cbn. by rewrite lookup_insert_ne. Qed.

Section node_files.
Context `{NumText}.
Variable host : Host.
Hypothesis version_reads : int_of_text (str_of_int STORE_SCHEMA_VERSION) = Ok STORE_SCHEMA_VERSION.

(** A file whose migration returns. *)
Definition openable (schema : list Statement) (d : Database) : Prop := ∃ d', migrate schema (db_with_wal d) = (d', Ok tt).

Lemma ready_openable schema d : ready schema d → openable schema d.
Proof. intros Hd. exists d. by apply ready_migrates. Qed.

Definition node_reachable (p : Path) : Prop :=
  reachable host p ∧ reachable host (mempool_file p) ∧ reachable host (index_file p) ∧ reachable host (invalid_file p).

Lemma open_store_Ok k p s d : fresh s → reachable host p → database s p = Some d → openable (kind_schema k) d →
  ∃ d', ready (kind_schema k) d' ∧ grows d d' ∧
    open_store host k p s =
      (mkSystem (<[p := SQLiteFile d']> (sy_files s)) (<[sy_next s := mkConnection p (kind_foreign_keys k) true]> (sy_open s)) (S (sy_next s)), Ok (sy_next s)).
Proof using Type*.
  intros Hf Hr Hd [d' E]. exists d'. destruct (migrated_ready _ _ _ _ version_reads E) as [Hready Hg]. split; [done|]. split; [done|].
  rewrite open_store_run, Hd by done. by rewrite E.
Qed.

Lemma fresh_next p s x files : fresh s → fresh (mkSystem files (<[sy_next s := mkConnection p x true]> (sy_open s)) (S (sy_next s))).
Proof. intros Hf c Hc. cbn in *. rewrite lookup_insert_ne by lia. apply Hf. lia. Qed.

(** The system after the four constructors. *)
Definition node_connections (p : Path) (s : System) : gmap nat Connection :=
  <[S (S (S (sy_next s))) := mkConnection (invalid_file p) false true]>
    (<[S (S (sy_next s)) := mkConnection (index_file p) true true]>
      (<[S (sy_next s) := mkConnection (mempool_file p) false true]>
        (<[sy_next s := mkConnection p true true]> (sy_open s)))).

Lemma open_stores_run p s d : named p → fresh s → node_reachable p → node_tables openable p s d →
  ∃ s' ns, open_stores host p s = (s', Ok ns) ∧ attached p ns s' ∧ node_tables ready p s' d ∧ elsewhere p s s' ∧
    sy_open s' = node_connections p s ∧ ns = mkStores (sy_next s) (S (sy_next s)) (S (S (sy_next s))) (S (S (S (sy_next s)))) ∧ fresh s'.
Proof using Type*.
  intros Hp Hf (R1 & R2 & R3 & R4) (db & dm & du & di & D1 & D2 & D3 & D4 & P1 & P2 & P3 & P4 & ->).
  destruct (node_paths p Hp) as (Hpm & Hpu & Hpi).
  destruct (open_store_Ok BlockStore p s db) as (e1 & Y1 & G1 & E1); [done..|]. set (s1 := mkSystem _ _ _) in E1.
  assert (F1 : fresh s1) by (apply (fresh_next p); done).
  destruct (open_store_Ok MempoolTable (mempool_file p) s1 dm) as (e2 & Y2 & G2 & E2); [done|done| |done|].
  { change s1 with (with_file p e1 (mkSystem (sy_files s) (sy_open s1) (sy_next s1))). rewrite database_with_other by files_ne. done. }
  set (s2 := mkSystem _ _ _) in E2. assert (F2 : fresh s2) by (apply (fresh_next (mempool_file p)); done).
  destruct (open_store_Ok IndexStore (index_file p) s2 du) as (e3 & Y3 & G3 & E3); [done|done| |done|].
  { unfold database. cbn. rewrite !lookup_insert_ne by files_ne. exact D3. }
  set (s3 := mkSystem _ _ _) in E3. assert (F3 : fresh s3) by (apply (fresh_next (index_file p)); done).
  destruct (open_store_Ok InvalidTable (invalid_file p) s3 di) as (e4 & Y4 & G4 & E4); [done|done| |done|].
  { unfold database. cbn. rewrite !lookup_insert_ne by files_ne. exact D4. }
  set (s4 := mkSystem _ _ _) in E4. assert (F4 : fresh s4) by (apply (fresh_next (invalid_file p)); done).
  exists s4, (mkStores (sy_next s) (S (sy_next s)) (S (S (sy_next s))) (S (S (S (sy_next s))))). split_and!; [| | | |done..].
  - unfold open_stores. rewrite (sm_bind_run _ _ _ _ _ E1), bind_lift_run, Hpm, (sm_bind_run _ _ _ _ _ E2), bind_lift_run, Hpu.
    rewrite (sm_bind_run _ _ _ _ _ E3), bind_lift_run, Hpi, (sm_bind_run _ _ _ _ _ E4). done.
  - unfold attached, s4, s3, s2, s1. cbn. split_and!; repeat (rewrite lookup_insert_ne by lia); apply lookup_insert_eq.
  - exists e1, e2, e3, e4. unfold database. cbn. split_and!; try done.
    1-4: repeat (rewrite lookup_insert_ne by files_ne); by rewrite lookup_insert_eq.
    by rewrite (gr_fork _ _ G1), (gr_mempool _ _ G2), (gr_index _ _ G3), (gr_invalid _ _ G4).
  - intros q ????. cbn. by rewrite !lookup_insert_ne.
Qed.

End node_files.

Section node_disk.
Context `{NumText}.

Lemma ready_file schema s p d : database s p = Some d → ready schema d → sy_files s !! p = Some (SQLiteFile d).
Proof. unfold database. destruct (sy_files s !! p) as [[]|]; [congruence|done|]. intros [= <-] [Hw _]. done. Qed.

Lemma execute_rows {A} c x schema d (f : Database → A) s : sy_open s !! c = Some x → database s (cn_path x) = Some d → ready schema d →
  execute c (rows f) s = (s, Ok (f d)).
Proof.
  intros Hc Hd Hr. rewrite (execute_run c _ s x d) by done. cbn. unfold with_file.
  rewrite insert_id by (by eapply ready_file). by destruct s.
Qed.

Lemma ready_fork schema x d : ready schema d → ready schema (db_with_fork x d).
Proof. intros [Hw Hi]. split; [done|]. by eapply installed_same; [..|exact Hi]. Qed.
Lemma ready_mempool schema x d : ready schema d → ready schema (db_with_mempool x d).
Proof. intros [Hw Hi]. split; [done|]. by eapply installed_same; [..|exact Hi]. Qed.
Lemma ready_index schema x d : ready schema d → ready schema (db_with_index x d).
Proof. intros [Hw Hi]. split; [done|]. by eapply installed_same; [..|exact Hi]. Qed.
Lemma ready_invalid schema x d : ready schema d → ready schema (db_with_invalid x d).
Proof. intros [Hw Hi]. split; [done|]. by eapply installed_same; [..|exact Hi]. Qed.

Lemma read_disk_run p ns s d : attached p ns s → node_tables ready p s d → read_disk ns s = (s, Ok d).
Proof.
  intros (C1 & C2 & C3 & C4) (db & dm & du & di & D1 & D2 & D3 & D4 & P1 & P2 & P3 & P4 & ->). unfold read_disk.
  rewrite (sm_bind_run _ _ _ s (db_fork db)) by (by eapply execute_rows).
  rewrite (sm_bind_run _ _ _ s (db_mempool dm)) by (by eapply execute_rows).
  rewrite (sm_bind_run _ _ _ s (db_index du)) by (by eapply execute_rows).
  rewrite (sm_bind_run _ _ _ s (db_invalid di)) by (by eapply execute_rows). done.
Qed.

Lemma execute_set c x d (f : Database → Database) s : sy_open s !! c = Some x → database s (cn_path x) = Some d →
  execute c (set_rows f) s = (with_file (cn_path x) (f d) s, Ok tt).
Proof. intros Hc Hd. by rewrite (execute_run c _ s x d). Qed.

Lemma write_disk_run p ns s d d' : attached p ns s → node_tables ready p s d →
  ∃ s', write_disk ns d' s = (s', Ok tt) ∧ sy_open s' = sy_open s ∧ sy_next s' = sy_next s ∧ node_tables ready p s' d' ∧ elsewhere p s s'.
Proof.
  intros (C1 & C2 & C3 & C4) (db & dm & du & di & D1 & D2 & D3 & D4 & P1 & P2 & P3 & P4 & ->).
  set (s1 := with_file p (db_with_fork (d_store d') db) s).
  set (s2 := with_file (mempool_file p) (db_with_mempool (d_mempool d') dm) s1).
  set (s3 := with_file (index_file p) (db_with_index (d_index d') du) s2).
  set (s4 := with_file (invalid_file p) (db_with_invalid (d_invalid d') di) s3).
  exists s4. split; [|split; [done|]; split; [done|]; split].
  - unfold write_disk. rewrite (sm_bind_run _ _ _ s1 tt) by (by erewrite execute_set by done).
    rewrite (sm_bind_run _ _ _ s2 tt) by (erewrite (execute_set _ _ dm) by (done || (unfold s1; by rewrite database_with_other by files_ne)); done).
    rewrite (sm_bind_run _ _ _ s3 tt) by (erewrite (execute_set _ _ du) by (done || (unfold s2, s1; by rewrite !database_with_other by files_ne)); done).
    erewrite (execute_set _ _ di) by (done || (unfold s3, s2, s1; by rewrite !database_with_other by files_ne)). done.
  - exists (db_with_fork (d_store d') db), (db_with_mempool (d_mempool d') dm), (db_with_index (d_index d') du), (db_with_invalid (d_invalid d') di).
    unfold s4, s3, s2, s1. split_and!; [| | | |by apply ready_fork|by apply ready_mempool|by apply ready_index|by apply ready_invalid|by destruct d'].
    all: repeat (rewrite database_with_other by files_ne); by rewrite database_with_file.
  - unfold s4, s3, s2, s1. do 4 (etrans; [|apply with_file_elsewhere; tauto]). done.
Qed.

(** A computation on the tables of a node, through its files. *)
Lemma on_disk_run {A} p ns (m : SM Disk A) s d : attached p ns s → node_tables ready p s d →
  ∃ s', on_disk ns m s = (s', (m d).2) ∧ sy_open s' = sy_open s ∧ sy_next s' = sy_next s ∧ node_tables ready p s' (m d).1 ∧ elsewhere p s s'.
Proof.
  intros Ha Ht. destruct (write_disk_run p ns s d (m d).1 Ha Ht) as (s' & E & ? & ? & ? & ?). exists s'. split; [|done].
  unfold on_disk. rewrite (sm_bind_run _ _ _ s d) by (by eapply read_disk_run). cbv zeta. by rewrite (sm_bind_run _ _ _ _ _ E).
Qed.

Lemma close_stores_run ns s : close_stores ns s =
  (with_open (delete (ns_invalid ns) (delete (ns_index ns) (delete (ns_mempool ns) (delete (ns_store ns) (sy_open s))))) s, Ok tt).
Proof. done. Qed.

Lemma close_fresh ns s : fresh s → fresh (close_stores ns s).1.
Proof.
  intros Hf c Hc. rewrite close_stores_run. cbn. rewrite !lookup_delete. repeat case_decide; try done. by apply Hf.
Qed.

(** Closing the connections that the constructors opened. *)
Lemma connections_closed p s : fresh s →
  delete (S (S (S (sy_next s)))) (delete (S (S (sy_next s))) (delete (S (sy_next s)) (delete (sy_next s) (node_connections p s)))) = sy_open s.
Proof.
  intros Hf. unfold node_connections. apply map_eq. intros c. rewrite !lookup_delete, !lookup_insert.
  repeat case_decide; try done; subst; symmetry; apply Hf; lia.
Qed.

End node_disk.

Section refinement.
Context `{NumText} `{Ed25519}.
Variable host : Host.
Hypothesis version_reads : int_of_text (str_of_int STORE_SCHEMA_VERSION) = Ok STORE_SCHEMA_VERSION.

(** What the files, the connections and the result of a system-level operation
    have to do with a computation on the tables.  [guard] says that the guarded
    part of the operation returned. *)
Definition implements (p : Path) (s : System) (guard : bool) (m : Disk * result Node) (r : System * result (NodeStores * Node)) : Prop :=
  node_tables ready p r.1 m.1 ∧ elsewhere p s r.1 ∧
  match m.2 with
  | Ok n => ∃ ns, r.2 = Ok (ns, n) ∧ attached p ns r.1 ∧ sy_open (close_files (ns, n) r.1).1 = sy_open s ∧ fresh r.1
  | Err e => r.2 = Err e ∧ (guard = false → sy_open r.1 = sy_open s)
  end.

(** The shape of [create] and [open]: a part whose failure closes the stores,
    and the rest. *)
Definition guarded {A} (p : Path) (m : SM Disk A) (handler : exn → exn) (k : A → SM Disk Node) : SM System (NodeStores * Node) :=
  ns ← open_stores host p;
  x ← sm_try (on_disk ns m) (λ e, close_stores ns;; sm_lift (Err (handler e)));
  n ← on_disk ns (k x);
  mret (ns, n).

Lemma guarded_implements {A} p s d (m : SM Disk A) handler k : named p → fresh s → node_reachable host p → node_tables openable p s d →
  implements p s (is_ok (m d).2) ((x ← sm_try m (λ e, sm_lift (Err (handler e))); k x) d) (guarded p m handler k s).
Proof using Type*.
  intros Hp Hf Hr Ht. destruct (open_stores_run host version_reads p s d Hp Hf Hr Ht) as (s1 & ns & E1 & A1 & T1 & W1 & O1 & N1 & F1).
  assert (Hclosed : ∀ s', sy_open s' = sy_open s1 → sy_open (close_stores ns s').1 = sy_open s).
  { intros s' Hs'. rewrite close_stores_run. cbn [fst sy_open with_open]. rewrite Hs', O1, N1. by apply connections_closed. }
  assert (Hfresh : ∀ s', sy_open s' = sy_open s1 → sy_next s' = sy_next s1 → fresh s') by (intros s' Ho Hn c; rewrite Ho, Hn; apply F1).
  destruct (on_disk_run p ns m s1 d A1 T1) as (s2 & E2 & O2 & N2 & T2 & W2).
  unfold guarded. rewrite (sm_bind_run _ _ _ _ _ E1). unfold mbind, SM_bind, sm_try. rewrite E2.
  destruct (m d) as [d2 [x|e]]; cbn [fst snd] in *.
  - assert (A2 : attached p ns s2) by (unfold attached; by rewrite O2).
    destruct (on_disk_run p ns (k x) s2 d2 A2 T2) as (s3 & E3 & O3 & N3 & T3 & W3). rewrite E3.
    destruct (k x d2) as [d3 [n|e]]; cbn [fst snd] in *; (split; [done|]; split; [by do 2 (etrans; [eassumption|])|]); [|done].
    exists ns. split; [done|]. unfold mret, SM_ret. cbn [fst snd]. split; [unfold attached; by rewrite O3, O2|].
    split; [apply Hclosed|apply Hfresh]; by rewrite ?O3, ?N3.
  - rewrite close_stores_run. split; [exact T2|]. split; [by etrans|]. split; [done|]. intros _.
    by apply (Hclosed s2).
Qed.

Lemma sm_bind_try_same {S A B} (m : SM S A) (k : A → SM S B) s : (x ← sm_try m (λ e, sm_lift (Err e)); k x) s = (m ≫= k) s.
Proof. unfold mbind, SM_bind, sm_try. by destruct (m s) as [s' [x|e]]. Qed.

Lemma create_implements fuel p allocations difficulty subsidy max now s d :
  named p → fresh s → node_reachable host p → node_tables openable p s d →
  implements p s (is_ok (create_chain fuel allocations difficulty subsidy max now d).2)
    (node_create fuel allocations difficulty subsidy max now d) (create_files host fuel p allocations difficulty subsidy max now s).
Proof using Type*.
  intros Hp Hf Hr Ht. unfold node_create.
  pose proof (guarded_implements p s d (create_chain fuel allocations difficulty subsidy max now) id (λ _, create_node difficulty subsidy max) Hp Hf Hr Ht) as Hg.
  unfold guarded in Hg. rewrite sm_bind_try_same in Hg. exact Hg.
Qed.

Lemma open_implements p difficulty subsidy max s d :
  named p → fresh s → node_reachable host p → node_tables openable p s d →
  implements p s (is_ok (open_chain difficulty subsidy max d).2) (node_open difficulty subsidy max d) (open_files host p difficulty subsidy max s).
Proof using Type*.
  intros Hp Hf Hr Ht.
  exact (guarded_implements p s d (open_chain difficulty subsidy max)
    (λ _, Exn ConsensusNodeError (py "stored consensus chain failed validation")) (λ st, node_init st difficulty (mkForkChoice subsidy max)) Hp Hf Hr Ht).
Qed.

Lemma node_tables_openable p s d : node_tables ready p s d → node_tables openable p s d.
Proof.
  intros (db & dm & du & di & D1 & D2 & D3 & D4 & P1 & P2 & P3 & P4 & ->). exists db, dm, du, di.
  split_and!; try done; by apply ready_openable.
Qed.

(** A session does to the node and its files what its operations do to the node. *)
Lemma session_run p ns l : ∀ n s, attached p ns s → node_tables ready p s (n_disk n) →
  ∃ s', session ns l n s = (s', Ok (run_activities l n)) ∧ sy_open s' = sy_open s ∧ sy_next s' = sy_next s ∧
    node_tables ready p s' (n_disk (run_activities l n)) ∧ elsewhere p s s'.
Proof.
  induction l as [|a l IH]; intros n s Ha Ht; [by exists s|]. cbn [session run_activities foldl].
  destruct (write_disk_run p ns s (n_disk n) (n_disk (run_activity a n).1) Ha Ht) as (s1 & E1 & O1 & N1 & T1 & W1).
  assert (Ed : do_activity ns a n s = (s1, Ok (run_activity a n).1)).
  { unfold do_activity. rewrite (sm_bind_run _ _ _ s (n_disk n)) by (by eapply read_disk_run). cbv zeta.
    replace (with_disk (n_disk n) n) with n by (by destruct n). by rewrite (sm_bind_run _ _ _ _ _ E1). }
  rewrite (sm_bind_run _ _ _ _ _ Ed). destruct (IH (run_activity a n).1 s1) as (s2 & E2 & O2 & N2 & T2 & W2).
  { unfold attached. by rewrite O1. }
  { done. }
  exists s2. split; [exact E2|]. split; [by rewrite O2|]. split; [by rewrite N2|]. split; [exact T2|]. by etrans.
Qed.

(** What the files hold between processes. *)
Definition at_rest (p : Path) (s0 s : System) (n : Node) : Prop :=
  durable n ∧ small_money n ∧ node_tables ready p s (n_disk n) ∧ fresh s ∧ sy_open s = sy_open s0 ∧ elsewhere p s0 s.

(** A node that is used and closed. *)
Lemma session_rests p ns l n s0 s : attached p ns s → node_tables ready p s (n_disk n) → fresh s →
  sy_open (close_files (ns, n) s).1 = sy_open s0 → elsewhere p s0 s → durable n → small_money n → Forall activity_ok l →
  ∃ s' m, (n1 ← session ns l n; close_files (ns, n1);; mret n1) s = (s', Ok m) ∧ grows_to n m ∧ at_rest p s0 s' m.
Proof.
  intros Ha Ht Hf Ho Hw Hd Hs Hl. destruct (session_run p ns l n s Ha Ht) as (s1 & E1 & O1 & N1 & T1 & W1).
  pose proof (activities_grow l n Hd Hs Hl) as Hg. exists (close_stores ns s1).1, (run_activities l n).
  split; [by rewrite (sm_bind_run _ _ _ _ _ E1)|]. split; [done|]. pose proof Hg as (Hd' & Hp & _). split; [done|].
  split; [by eapply small_money_params|]. split; [exact T1|]. split; [|split].
  - apply close_fresh. intros c. rewrite O1, N1. apply Hf.
  - rewrite close_stores_run, O1. rewrite <- Ho. unfold close_files. by rewrite close_stores_run.
  - etrans; [exact Hw|]. exact W1.
Qed.

Lemma open_rests p s0 s n : named p → node_reachable host p → at_rest p s0 s n →
  ∃ s' ns n', open_files host p (n_difficulty n) (fc_block_subsidy (n_fork_choice n)) (fc_max_money (n_fork_choice n)) s = (s', Ok (ns, n')) ∧
    reopened n n' ∧ grows_to n n' ∧ attached p ns s' ∧ node_tables ready p s' (n_disk n') ∧ fresh s' ∧
    sy_open (close_files (ns, n') s').1 = sy_open s0 ∧ elsewhere p s0 s'.
Proof using Type*.
  intros Hp Hr (Hd & Hs & Ht & Hf & Ho & Hw). destruct (reopen_durable n Hd) as (n' & Eo & Hre & Hd').
  destruct (open_implements p (n_difficulty n) (fc_block_subsidy (n_fork_choice n)) (fc_max_money (n_fork_choice n)) s (n_disk n)
    Hp Hf Hr (node_tables_openable _ _ _ Ht)) as (T & W & X). rewrite Eo in T, X. cbn [fst snd] in T, X.
  destruct X as (ns & E & A & C & F). destruct (open_files _ _ _ _ _ s) as [s' r]. cbn [fst snd] in *. subst r.
  exists s', ns, n'. split_and!; [done|done|by apply reopened_grows|done|done|done|by rewrite C|by etrans].
Qed.

Lemma processes_rest p difficulty subsidy max ls s0 : named p → node_reachable host p → ∀ n s,
  at_rest p s0 s n → node_params n = mkParams difficulty subsidy max → Forall (Forall activity_ok) ls →
  ∃ s' m, processes host p difficulty subsidy max ls n s = (s', Ok m) ∧ grows_to n m ∧ at_rest p s0 s' m.
Proof using Type*.
  intros Hp Hr. induction ls as [|l ls IH]; intros n s Hn Hpar Hl.
  - exists s, n. split; [done|]. split; [apply grows_to_refl, Hn|done].
  - apply Forall_cons in Hl as [Hl Hls]. pose proof Hpar as Hpar'. unfold node_params in Hpar'. injection Hpar' as P1 P2 P3.
    destruct (open_rests p s0 s n Hp Hr Hn) as (s1 & ns & n1 & E1 & _ & G1 & A1 & T1 & F1 & C1 & W1). rewrite P1, P2, P3 in E1.
    pose proof G1 as (D1 & Q1 & _). pose proof (small_money_params _ _ Q1 (proj1 (proj2 Hn))) as S1.
    destruct (session_rests p ns l n1 s0 s1 A1 T1 F1 C1 W1 D1 S1 Hl) as (s2 & n2 & E2 & G2 & R2).
    pose proof (grows_to_trans _ _ _ G1 G2) as G12. destruct (IH n2 s2 R2) as (s3 & m & E3 & G3 & R3); [|done|].
    { destruct G12 as (_ & -> & _). done. }
    exists s3, m. split; [|split; [by eapply grows_to_trans|done]]. cbn [processes].
    assert (Ep : process host p difficulty subsidy max l s = (s2, Ok n2)); [|by rewrite (sm_bind_run _ _ _ _ _ Ep)].
    unfold process. by rewrite (sm_bind_run _ _ _ _ _ E1).
Qed.

Lemma wrong_rests p s0 s n difficulty subsidy max : named p → node_reachable host p → at_rest p s0 s n →
  mkParams difficulty subsidy max ≠ node_params n →
  ∃ s', open_files host p difficulty subsidy max s = (s', raise ConsensusNodeError "stored consensus chain failed validation") ∧
    node_tables ready p s' (n_disk n) ∧ sy_open s' = sy_open s0.
Proof using Type*.
  intros Hp Hr (Hd & _ & Ht & Hf & Ho & _) Hne.
  destruct (open_implements p difficulty subsidy max s (n_disk n) Hp Hf Hr (node_tables_openable _ _ _ Ht)) as (T & _ & X).
  rewrite (wrong_parameters n difficulty subsidy max Hd Hne), (wrong_chain n difficulty subsidy max Hd Hne) in *. cbn [fst snd] in *.
  destruct X as [E Hc]. destruct (open_files _ _ _ _ _ s) as [s' r]. cbn [fst snd] in *. subst r. exists s'.
  split; [done|]. split; [done|]. rewrite <- Ho. by apply Hc.
Qed.

Lemma created_rests fuel p allocations difficulty subsidy max now s d s1 ns n :
  named p → fresh s → node_reachable host p → node_tables openable p s d → 0 ≤ now < 2 ^ 64 → max < 2 ^ 63 →
  create_files host fuel p allocations difficulty subsidy max now s = (s1, Ok (ns, n)) →
  attached p ns s1 ∧ node_tables ready p s1 (n_disk n) ∧ fresh s1 ∧ sy_open (close_files (ns, n) s1).1 = sy_open s ∧
  elsewhere p s s1 ∧ durable n ∧ small_money n ∧ node_params n = mkParams difficulty subsidy max.
Proof using Type*.
  intros Hp Hf Hr Ht Hnow Hmax E.
  destruct (create_implements fuel p allocations difficulty subsidy max now s d Hp Hf Hr Ht) as (T & W & X). rewrite E in T, W, X.
  cbn [fst snd] in T, W, X. destruct (node_create fuel allocations difficulty subsidy max now d) as [d1 [n0|e]] eqn:En; [|by destruct X].
  destruct X as (ns0 & [= <- <-] & A & O & F). cbn [fst snd] in *.
  destruct (create_durable _ _ _ _ _ _ _ _ _ Hnow En) as (-> & Hd & Hfc & Hdif & _).
  split_and!; try done; [unfold small_money; by rewrite Hfc|unfold node_params; by rewrite Hdif, Hfc].
Qed.

End refinement.

(** ** What the files are worth *)

(** C22: The files implement the tables.  [create] and [open], from the path of a
    database, through the four constructors and connections, do to the tables in
    its four files what the node's operations do to its tables, return what those
    return, and touch no other file; an error of the guarded part leaves no
    connection open, and [close] leaves as many open as there were before. *)
Theorem files_refine `{NumText} `{Ed25519} host p s d :
  int_of_text (str_of_int STORE_SCHEMA_VERSION) = Ok STORE_SCHEMA_VERSION →
  named p → fresh s → node_reachable host p → node_tables openable p s d →
  (∀ fuel allocations difficulty subsidy max now,
     implements p s (is_ok (create_chain fuel allocations difficulty subsidy max now d).2)
       (node_create fuel allocations difficulty subsidy max now d) (create_files host fuel p allocations difficulty subsidy max now s)) ∧
  (∀ difficulty subsidy max,
     implements p s (is_ok (open_chain difficulty subsidy max d).2)
       (node_open difficulty subsidy max d) (open_files host p difficulty subsidy max s)).
Proof. intros Hone Hp Hf Hr Ht. split; intros; [by apply create_implements|by apply open_implements]. Qed.

(** C5: A node survives its processes.  A node that was created at a path is used,
    one operation after the other, and closed; then any number of processes open
    it in turn, use it and close it.  Whatever the operations are and whether
    they return or raise (imports of decoded blocks, mining, submissions,
    pruning, clearing), every process finds a node to open, no block is lost and
    no connection stays open; and the next process that opens the path gets the
    node the last one had: same blocks and state, a current index, and the
    transactions that still apply.  With other parameters [open] raises and the
    tables stay as they are.  The money limit fits SQLite's integers. *)
Theorem files_restart `{NumText} `{Ed25519} host p s d fuel allocations difficulty subsidy max now s1 ns n first rest :
  int_of_text (str_of_int STORE_SCHEMA_VERSION) = Ok STORE_SCHEMA_VERSION →
  named p → fresh s → node_reachable host p → node_tables openable p s d → 0 ≤ now < 2 ^ 64 → max < 2 ^ 63 →
  create_files host fuel p allocations difficulty subsidy max now s = (s1, Ok (ns, n)) →
  Forall activity_ok first → Forall (Forall activity_ok) rest →
  ∃ s2 m,
    (n1 ← session ns first n; close_files (ns, n1);; processes host p difficulty subsidy max rest n1) s1 = (s2, Ok m) ∧
    fs_blocks (n_store n) ⊆ fs_blocks (n_store m) ∧ sy_open s2 = sy_open s ∧
    (∃ s3 ns' m', open_files host p difficulty subsidy max s2 = (s3, Ok (ns', m')) ∧
       reopened m m' ∧ node_tables ready p s3 (n_disk m') ∧ elsewhere p s s3) ∧
    (∀ difficulty' subsidy' max', mkParams difficulty' subsidy' max' ≠ mkParams difficulty subsidy max →
       ∃ s3, open_files host p difficulty' subsidy' max' s2 =
           (s3, raise ConsensusNodeError "stored consensus chain failed validation") ∧
         node_tables ready p s3 (n_disk m) ∧ sy_open s3 = sy_open s).
Proof.
  intros Hone Hp Hf Hr Ht Hnow Hmax E Hfirst Hrest.
  destruct (created_rests host Hone fuel p allocations difficulty subsidy max now s d s1 ns n Hp Hf Hr Ht Hnow Hmax E)
    as (A1 & T1 & F1 & C1 & W1 & D1 & S1 & P1).
  destruct (session_rests p ns first n s s1 A1 T1 F1 C1 W1 D1 S1 Hfirst) as (s2 & n2 & E2 & G2 & R2).
  destruct (processes_rest host Hone p difficulty subsidy max rest s Hp Hr n2 s2 R2) as (s3 & m & E3 & G3 & R3);
    [destruct G2 as (_ & -> & _); done|done|].
  pose proof (grows_to_trans _ _ _ G2 G3) as (Dm & Pm & Sub). rewrite P1 in Pm. exists s3, m. split.
  { apply SM_bind_Ok in E2 as (n1 & s' & Es & E2). rewrite (sm_bind_run _ _ _ _ _ Es).
    apply SM_bind_Ok in E2 as (u & s'' & Ec & [= -> ->]). by rewrite (sm_bind_run _ _ _ _ _ Ec). }
  split; [done|]. split; [apply R3|]. split.
  - destruct (open_rests host Hone p s s3 m Hp Hr R3) as (s4 & ns' & m' & E4 & Hre & _ & _ & T4 & _ & _ & W4).
    unfold node_params in Pm. injection Pm as Q1 Q2 Q3. rewrite Q1, Q2, Q3 in E4. by exists s4, ns', m'.
  - intros difficulty' subsidy' max' Hne. rewrite <- Pm in Hne. by apply (wrong_rests host Hone).
Qed.

(** ** Samples *)

(** A host that allows everything, and a path. *)
Definition sample_host : Host := mkHost (λ _, Ok tt) (λ _, Ok tt).
Definition sample_path : Path := mkPath (py "/var/lib/bcc") (py "node.sqlite3").
Definition empty_system : System := mkSystem ∅ ∅ 0.

(** A peer table that was written by another version of the program. *)
Definition newer_database : Database := db_with_version (py "2") (migrate (H := toy_numtext) peer_schema empty_database).1.
Definition newer_system : System := mkSystem {[sample_path := SQLiteFile newer_database]} ∅ 0.

Lemma sample_version : @int_of_text toy_numtext (str_of_int STORE_SCHEMA_VERSION) = Ok STORE_SCHEMA_VERSION.
Proof. reflexivity. Qed.

Lemma sample_named : named sample_path.
Proof. split; [done|]. apply no_slash. vm_compute. reflexivity. Qed.

Lemma fresh_empty files n : fresh (mkSystem files ∅ n).
Proof. intros c _. apply lookup_empty. Qed.

Lemma migrates_openable `{NumText} schema d : is_ok (migrate schema (db_with_wal d)).2 = true → openable schema d.
Proof. unfold openable. destruct (migrate schema (db_with_wal d)) as [d' [[]|]]; [by exists d'|done]. Qed.

(** Paths without files are taken for an empty node. *)
Lemma missing_openable `{NumText} p n : node_tables openable p (mkSystem ∅ ∅ n) empty_disk.
Proof.
  exists empty_database, empty_database, empty_database, empty_database.
  split_and!; [done|done|done|done| | | | |done]; apply migrates_openable; vm_compute; reflexivity.
Qed.

(** The version is refused, and a table the file did not have is there. *)
Example newer_schema_grows :
  let r := @open_store toy_numtext sample_host MempoolTable sample_path newer_system in
  err_class r.2 = Some StorageError ∧ sy_open r.1 = ∅ ∧
  is_Some (sy_files r.1 !! sample_path ≫= λ f, match f with SQLiteFile d => db_schema d !! py "mempool_transactions" | OtherFile => None end) ∧
  db_schema newer_database !! py "mempool_transactions" = None.
Proof. vm_compute. split_and!; [done|done|by eexists|done]. Qed.

(** A constructor that fails leaves the connections of the earlier ones open. *)
Example failed_open_leaks :
  let s := mkSystem {[mempool_file sample_path := OtherFile]} ∅ 0 in
  let r := @open_files toy_numtext sample_host toy_ed25519 sample_path 1 50 MAX_MONEY s in
  err_class r.2 = Some DatabaseError ∧ sy_open r.1 !! 0%nat = Some (mkConnection sample_path true true).
Proof. vm_compute. split; reflexivity. Qed.

Lemma store_opened_witness :
  let r := @open_store toy_numtext sample_host MempoolTable sample_path newer_system in
  (∀ q, q ≠ sample_path → sy_files r.1 !! q = sy_files newer_system !! q) ∧
  (∀ d, database newer_system sample_path = Some d → ∃ d', database r.1 sample_path = Some d' ∧ grows d d') ∧
  match r.2 with
  | Ok c =>
      sy_open newer_system !! c = None ∧ sy_open r.1 = <[c := mkConnection sample_path false true]> (sy_open newer_system) ∧
      ∀ s', fresh s' → sy_files s' !! sample_path = sy_files r.1 !! sample_path →
        @open_store toy_numtext sample_host MempoolTable sample_path s' =
          (mkSystem (sy_files s') (<[sy_next s' := mkConnection sample_path false true]> (sy_open s')) (S (sy_next s')), Ok (sy_next s'))
  | Err e => sy_open r.1 = sy_open newer_system
  end.
Proof.
  apply (@store_opened toy_numtext sample_host MempoolTable sample_path newer_system).
  - exact sample_version.
  - apply fresh_empty.
  - split; reflexivity.
Defined.

Lemma files_refine_witness :
  (∀ fuel allocations difficulty subsidy max now,
     @implements toy_numtext sample_path empty_system (is_ok (@create_chain toy_ed25519 fuel allocations difficulty subsidy max now empty_disk).2)
       (@node_create toy_ed25519 fuel allocations difficulty subsidy max now empty_disk)
       (@create_files toy_numtext sample_host toy_ed25519 fuel sample_path allocations difficulty subsidy max now empty_system)) ∧
  (∀ difficulty subsidy max,
     @implements toy_numtext sample_path empty_system (is_ok (@open_chain toy_ed25519 difficulty subsidy max empty_disk).2)
       (@node_open toy_ed25519 difficulty subsidy max empty_disk) (@open_files toy_numtext sample_host toy_ed25519 sample_path difficulty subsidy max empty_system)).
Proof.
  apply (@files_refine toy_numtext toy_ed25519 sample_host sample_path empty_system empty_disk).
  - exact sample_version.
  - exact sample_named.
  - apply fresh_empty.
  - repeat split.
  - apply missing_openable.
Defined.

(** The sample node of [Restart], in files. *)
Definition sample_files : System * result (NodeStores * Node) :=
  @create_files toy_numtext sample_host toy_ed25519 20 sample_path [(toy_address "alice", 1000)] 1 50 MAX_MONEY sample_timestamp empty_system.

Lemma created_files : ∃ ns, sample_files = (sample_files.1, Ok (ns, created_node)).
Proof.
  destruct (@create_implements toy_numtext toy_ed25519 sample_host sample_version 20 sample_path [(toy_address "alice", 1000)] 1 50 MAX_MONEY
    sample_timestamp empty_system empty_disk) as (_ & _ & X); [exact sample_named|apply fresh_empty|repeat split|apply missing_openable|].
  change (@node_create toy_ed25519 20 [(toy_address "alice", 1000)] 1 50 MAX_MONEY sample_timestamp empty_disk) with (sample_create empty_disk) in X.
  rewrite created_Ok in X. destruct X as (ns & E & _). exists ns. unfold sample_files. rewrite <- E. by destruct (create_files _ _ _ _ _ _ _ _ _).
Qed.

(** The process that creates the node imports a block and the same block again;
    a later one takes a payment and mines, another drops what is pending. *)
Definition first_session : list activity := [Import sample_second; Import sample_second].
Definition later_sessions : list (list activity) :=
  [[Submit sample_transfer2; Mine 50 (toy_address "carol") sample_timestamp]; [Prune; Clear]].

Lemma files_restart_witness :
  ∃ ns, sample_files = (sample_files.1, Ok (ns, created_node)) ∧ ∃ s2 m,
    (n1 ← @session toy_ed25519 ns first_session created_node; close_files (ns, n1);;
     @processes toy_numtext sample_host toy_ed25519 sample_path 1 50 MAX_MONEY later_sessions n1) sample_files.1 = (s2, Ok m) ∧
    fs_blocks (n_store created_node) ⊆ fs_blocks (n_store m) ∧ sy_open s2 = ∅ ∧
    (∃ s3 ns' m', @open_files toy_numtext sample_host toy_ed25519 sample_path 1 50 MAX_MONEY s2 = (s3, Ok (ns', m')) ∧
       @reopened toy_ed25519 m m' ∧ node_tables (@ready toy_numtext) sample_path s3 (n_disk m') ∧ elsewhere sample_path empty_system s3) ∧
    (∀ difficulty' subsidy' max', mkParams difficulty' subsidy' max' ≠ mkParams 1 50 MAX_MONEY →
       ∃ s3, @open_files toy_numtext sample_host toy_ed25519 sample_path difficulty' subsidy' max' s2 =
           (s3, raise ConsensusNodeError "stored consensus chain failed validation") ∧
         node_tables (@ready toy_numtext) sample_path s3 (n_disk m) ∧ sy_open s3 = ∅).
Proof.
  destruct created_files as [ns E]. exists ns. split; [exact E|].
  apply (@files_restart toy_numtext toy_ed25519 sample_host sample_path empty_system empty_disk 20 [(toy_address "alice", 1000)] 1 50 MAX_MONEY
           sample_timestamp sample_files.1 ns created_node first_session later_sessions).
  - exact sample_version.
  - exact sample_named.
  - apply fresh_empty.
  - repeat split.
  - apply missing_openable.
  - exact sample_timestamp_range.
  - reflexivity.
  - exact E.
  - do 2 (constructor; [exact sample_second_canonical|]). constructor.
  - constructor; [|constructor; [|constructor]].
    + constructor; [|constructor; [exact sample_timestamp_range|constructor]].
      apply (bool_decide_unpack (canonical_tx sample_transfer2)). vm_compute. exact I.
    + do 2 (constructor; [exact I|]). constructor.
Defined.
