(* ===== verification/Transport.v ===== *)
(** * TCP byte streams (transport.py, [ConnectionBuffer])

    The reassembly of frames from the chunks a socket delivers.  [feed] appends
    a chunk and takes every complete frame off the front; an exception keeps the
    bytes not yet consumed but loses the messages already read from the chunk. *)

From S2P Require Import Prelude PyBytes PyText Sha256 Json Crypto ByteReader Transaction Block BlockProcessor WireJson JsonText Network.
Local Open Scope Z_scope.

(** [ConnectionBuffer] *)
Record ConnectionBuffer := mkBuffer { auth_key : bytes; buffer_data : bytes }.

Definition with_data (d : bytes) (b : ConnectionBuffer) : ConnectionBuffer := mkBuffer (auth_key b) d.

(** [_has_complete_frame] *)
Definition has_complete_frame (data : bytes) : result bool :=
  if zlen data <? HEADER_SIZE then Ok false
  else
    raise_if (negb (bool_decide (take 4 data = NETWORK_MAGIC))) NetworkError "network magic is invalid";;
    let size := unpack_I (slice 4 HEADER_SIZE data) in
    raise_if (MAX_MESSAGE_SIZE <? size) NetworkError "message exceeds maximum size";;
    Ok (HEADER_SIZE + size + AUTH_TAG_SIZE <=? zlen data).

Section transport.
Context `{NumText}.

(** The loop of [feed]: a frame takes at least 40 bytes, so the length of the
    data is fuel enough ([drain_fuel]). *)
Fixpoint drain (fuel : nat) : SM ConnectionBuffer (list PeerMessage) :=
  match fuel with
  | O => mret []
  | S fuel' =>
      b ← sm_get;
      complete ← sm_lift (has_complete_frame (buffer_data b));
      if complete : bool then
        r ← sm_lift (read_frame (buffer_data b) (auth_key b));
        sm_put (with_data r.2 b);;
        rest ← drain fuel';
        mret (r.1 :: rest)
      else mret []
  end.

Definition drain_all : SM ConnectionBuffer (list PeerMessage) := b ← sm_get; drain (S (length (buffer_data b))).

(** [feed] *)
Definition feed (chunk : bytes) : SM ConnectionBuffer (list PeerMessage) :=
  b ← sm_get;
  match chunk with
  | [] => if bool_decide (buffer_data b = []) then mret [] else drain_all
  | _ => sm_put (with_data (buffer_data b ++ chunk) b);; drain_all
  end.

(** Successive chunks of one connection. *)
Fixpoint feed_all (chunks : list bytes) : SM ConnectionBuffer (list PeerMessage) :=
  match chunks with
  | [] => mret []
  | c :: cs => ms ← feed c; rest ← feed_all cs; mret (ms ++ rest)
  end.

End transport.

(** ** Lemmas: complete frames *)

Lemma zlen_prefix {A} (a b : list A) : a `prefix_of` b → zlen a ≤ zlen b.
Proof. intros Hp%prefix_length. unfold zlen. lia. Qed.

(** The header fields of a prefix that has a header. *)
Lemma prefix_header a d : a `prefix_of` d → HEADER_SIZE ≤ zlen a →
  take 4 a = take 4 d ∧ slice 4 HEADER_SIZE a = slice 4 HEADER_SIZE d.
Proof.
  unfold HEADER_SIZE, slice. intros [t ->] H8. unfold zlen in H8.
  replace (Z.to_nat (8 - 4)) with 4%nat by lia. replace (Z.to_nat 4) with 4%nat by lia.
  rewrite take_app_le by lia. rewrite (drop_app_le a t) by lia. rewrite take_app_le by (rewrite length_drop; lia). done.
Qed.

Lemma incomplete_prefix a d : a `prefix_of` d → has_complete_frame d = Ok false → has_complete_frame a = Ok false.
Proof.
  intros Hp Hd. unfold has_complete_frame in *. pose proof (zlen_prefix _ _ Hp).
  destruct (Z.ltb_spec (zlen a) HEADER_SIZE) as [Ha|Ha]; [done|]. destruct (prefix_header _ _ Hp Ha) as [-> ->].
  destruct (Z.ltb_spec (zlen d) HEADER_SIZE) as [Hl|Hl]; [lia|].
  apply raise_if_bind in Hd as [-> Hd]. cbn [raise_if mbind result_bind]. cbv zeta in *.
  apply raise_if_bind in Hd as [-> [= Hd]]. cbn [raise_if mbind result_bind]. f_equal. apply Z.leb_gt in Hd. apply Z.leb_gt. lia.
Qed.

(** A frame followed by anything is complete, and none of its proper prefixes is. *)
Lemma frame_complete f key payload len body t : frame_parts f key payload len body → has_complete_frame (f ++ t) = Ok true.
Proof.
  intros Hp. pose proof (parts_length Hp) as Hl. pose proof (zlen_nonneg payload). pose proof (zlen_nonneg t).
  unfold has_complete_frame. rewrite (parts_magic Hp t), (parts_size_field Hp t), bool_decide_eq_true_2, <- Hl, zlen_app by done.
  replace (zlen f + zlen t <? HEADER_SIZE) with false by (symmetry; apply Z.ltb_ge; unfold HEADER_SIZE, AUTH_TAG_SIZE in *; lia).
  cbn [negb]. rewrite !raise_if_false by (done || (apply Z.ltb_ge; apply Hp)). cbn [mbind result_bind]. f_equal. apply Z.leb_le. lia.
Qed.

Lemma frame_incomplete f key payload len body a : frame_parts f key payload len body → a `prefix_of` f → zlen a < zlen f →
  has_complete_frame a = Ok false.
Proof.
  intros Hp Ha Hlt. pose proof (parts_length Hp) as Hl. pose proof (parts_magic Hp []) as Hm. pose proof (parts_size_field Hp []) as Hs.
  rewrite app_nil_r in Hm, Hs. unfold has_complete_frame. destruct (Z.ltb_spec (zlen a) HEADER_SIZE) as [H8|H8]; [done|].
  destruct (prefix_header _ _ Ha H8) as [-> ->]. rewrite Hm, Hs, bool_decide_eq_true_2, <- Hl by done.
  cbn [negb]. rewrite !raise_if_false by (done || (apply Z.ltb_ge; apply Hp)). cbn [mbind result_bind]. f_equal. apply Z.leb_gt. lia.
Qed.

(** A rejected header is rejected whatever follows. *)
Lemma bad_prefix bad more e : has_complete_frame bad = Err e → has_complete_frame (bad ++ more) = Err e.
Proof.
  unfold has_complete_frame. destruct (Z.ltb_spec (zlen bad) HEADER_SIZE) as [|H8]; [done|]. intros E.
  pose proof (zlen_nonneg more). rewrite zlen_app.
  destruct (Z.ltb_spec (zlen bad + zlen more) HEADER_SIZE) as [|_]; [lia|].
  destruct (prefix_header bad (bad ++ more)) as [<- <-]; [by exists more|done|].
  destruct (raise_if (negb _) _ _) as [[]|]; [|exact E]. cbn [mbind result_bind] in *. cbv zeta in *.
  destruct (raise_if (MAX_MESSAGE_SIZE <? _) _ _) as [[]|]; [done|exact E].
Qed.

Lemma incomplete_nil : has_complete_frame [] = Ok false.
Proof. done. Qed.

(** ** Lemmas: draining a stream *)

Section streams.
Context `{NumTextOk} (key : bytes).

(** The frames of some messages. *)
Definition framed (ms : list PeerMessage) (fs : list bytes) : Prop :=
  Forall2 (λ m f, message_wf m ∧ to_frame m key = Ok f) ms fs.

Lemma framed_nonempty m f : to_frame m key = Ok f → (0 < length f)%nat.
Proof using Type.
  intros (payload & len & body & _ & Hp)%to_frame_parts. pose proof (parts_length Hp) as Hl. pose proof (zlen_nonneg payload).
  unfold zlen, HEADER_SIZE, AUTH_TAG_SIZE in *. lia.
Qed.

Lemma drain_incomplete fuel d : has_complete_frame d = Ok false → drain (S fuel) (mkBuffer key d) = (mkBuffer key d, Ok []).
Proof using Type. intros Hd. cbn [drain]. unfold mbind, SM_bind, sm_get, sm_lift. cbn [buffer_data]. by rewrite Hd. Qed.

Lemma drain_frame fuel m f t : message_wf m → to_frame m key = Ok f →
  drain (S fuel) (mkBuffer key (f ++ t)) =
  match drain fuel (mkBuffer key t) with (b, Ok ms) => (b, Ok (m :: ms)) | (b, Err e) => (b, Err e) end.
Proof using Type*.
  intros Hm Hf. destruct (to_frame_parts _ _ _ Hf) as (payload & len & body & _ & Hp).
  cbn [drain]. unfold mbind, SM_bind, sm_get, sm_lift, sm_put. cbn [buffer_data auth_key].
  rewrite (frame_complete _ _ _ _ _ t Hp), (read_frame_app _ _ _ _ _ t Hp), (to_frame_reads m key f Hm Hf).
  cbn [mbind result_bind fst snd].
  change (with_data t _) with (mkBuffer key t). by destruct (drain fuel (mkBuffer key t)) as [b [ms|e]].
Qed.

(** What arrived of a stream of frames followed by an incomplete one: the
    frames that are complete are read, the rest stays. *)
Lemma drain_stream ms fs : framed ms fs → ∀ fuel d later p,
  d ++ later = concat fs ++ p → has_complete_frame p = Ok false → (length d < fuel)%nat →
  ∃ ms1 ms2 fs2 d', ms = ms1 ++ ms2 ∧ framed ms2 fs2 ∧ d' ++ later = concat fs2 ++ p ∧
    has_complete_frame d' = Ok false ∧ drain fuel (mkBuffer key d) = (mkBuffer key d', Ok ms1).
Proof using Type*.
  intros Hfr. induction Hfr as [|m f ms fs [Hm Hf] Hfr IH]; intros fuel d later p Heq Hp Hfuel; (destruct fuel as [|fuel]; [lia|]).
  - exists [], [], [], d. assert (Hd : has_complete_frame d = Ok false).
    { apply (incomplete_prefix _ p); [|done]. exists later. by rewrite Heq. }
    split_and!; [done|constructor|done|done|by apply drain_incomplete].
  - cbn [concat] in Heq. rewrite <- app_assoc in Heq. destruct (to_frame_parts _ _ _ Hf) as (payload & len & body & _ & Hparts).
    destruct (decide (length f ≤ length d)%nat) as [Hle|Hlt].
    + assert (Hd : d = f ++ drop (length f) d).
      { rewrite <- (take_drop (length f) d) at 1. f_equal.
        apply (f_equal (take (length f))) in Heq. by rewrite take_app_le, take_app_length in Heq. }
      set (t := drop (length f) d) in *. rewrite Hd, <- app_assoc in Heq. apply app_inv_head in Heq.
      pose proof (framed_nonempty m f Hf). destruct (IH fuel t later p Heq Hp) as (ms1 & ms2 & fs2 & d' & -> & ? & ? & ? & Hrun).
      { subst t. rewrite length_drop. lia. }
      exists (m :: ms1), ms2, fs2, d'. split_and!; try done. by rewrite Hd, (drain_frame _ m) by done; rewrite Hrun.
    + assert (Hd : has_complete_frame d = Ok false).
      { apply (frame_incomplete _ _ _ _ _ d Hparts); [|unfold zlen; lia].
        exists (drop (length d) f). apply (f_equal (take (length f))) in Heq. rewrite take_app_length in Heq.
        apply (f_equal (take (length d))) in Heq. rewrite take_take, Nat.min_l, take_app_length in Heq by lia.
        rewrite Heq at 1. by rewrite take_drop. }
      exists [], (m :: ms), (f :: fs), d. split_and!; [done|by constructor|cbn [concat]; by rewrite <- app_assoc|done|by apply drain_incomplete].
Qed.

Lemma feed_drain c d : feed c (mkBuffer key d) = drain (S (length (d ++ c))) (mkBuffer key (d ++ c)).
Proof using Type.
  unfold feed, drain_all, mbind, SM_bind, sm_get, sm_put. destruct c as [|x c]; [|done]. rewrite app_nil_r.
  cbn [buffer_data]. case_bool_decide; [by subst d|done].
Qed.

(** A bad frame after good ones. *)
Lemma drain_bad ms fs : framed ms fs → ∀ fuel bad e, has_complete_frame bad = Err e → (length fs < fuel)%nat →
  drain fuel (mkBuffer key (concat fs ++ bad)) = (mkBuffer key bad, Err e).
Proof using Type*.
  intros Hfr. induction Hfr as [|m f ms fs [Hm Hf] Hfr IH]; intros fuel bad e Hbad Hfuel; (destruct fuel as [|fuel]; [lia|]).
  - cbn [concat app drain]. unfold mbind, SM_bind, sm_get, sm_lift. cbn [buffer_data]. by rewrite Hbad.
  - cbn [concat]. rewrite <- app_assoc, (drain_frame _ m) by done. cbn in Hfuel. by rewrite (IH fuel bad e) by (done || lia).
Qed.

Lemma framed_length ms fs : framed ms fs → (length fs ≤ length (concat fs))%nat.
Proof using Type.
  induction 1 as [|m f ms fs [_ Hf] _ IH]; [done|]. cbn [concat length]. rewrite length_app. apply framed_nonempty in Hf. lia.
Qed.

Lemma feed_all_stream chunks : ∀ ms fs d p, framed ms fs → d ++ concat chunks = concat fs ++ p →
  has_complete_frame d = Ok false → has_complete_frame p = Ok false →
  feed_all chunks (mkBuffer key d) = (mkBuffer key p, Ok ms).
Proof using Type*.
  induction chunks as [|c chunks IH]; intros ms fs d p Hfr Heq Hd Hp; cbn [feed_all concat] in *.
  - rewrite app_nil_r in Heq. subst d. destruct Hfr as [|m f ms fs [_ Hf] _]; [done|].
    destruct (to_frame_parts _ _ _ Hf) as (payload & len & body & _ & Hparts).
    cbn [concat] in Hd. rewrite <- app_assoc, (frame_complete _ _ _ _ _ _ Hparts) in Hd. done.
  - rewrite app_assoc in Heq.
    destruct (drain_stream ms fs Hfr (S (length (d ++ c))) (d ++ c) (concat chunks) p Heq Hp) as (ms1 & ms2 & fs2 & d' & -> & Hfr2 & Heq2 & Hd' & Hrun); [lia|].
    unfold mbind, SM_bind. by rewrite feed_drain, Hrun, (IH ms2 fs2 d' p).
Qed.

End streams.

Lemma unpack_I_nonneg b : length b = 4%nat → 0 ≤ unpack_I b.
Proof. intros H4. apply (unpack_I_range b H4). Qed.

(** Reading a frame shortens the buffer. *)
Lemma read_frame_shorter `{NumText} d key r : read_frame d key = Ok r → (length r.2 < length d)%nat.
Proof.
  unfold read_frame. intros E. apply raise_if_bind in E as [H8 E]. apply raise_if_bind in E as [_ E]. cbv zeta in E.
  apply raise_if_bind in E as [_ E]. apply raise_if_bind in E as [Hl E]. apply bind_Ok in E as (m & _ & [= <-]). cbn [snd].
  rewrite length_drop. unfold HEADER_SIZE, AUTH_TAG_SIZE in *. bool_prop.
  assert (H4 : length (slice 4 8 d) = 4%nat) by (unfold slice; rewrite length_take, length_drop; unfold zlen in *; lia).
  pose proof (unpack_I_nonneg _ H4). unfold zlen in *. lia.
Qed.

(** The loop stops by its condition, never for lack of fuel. *)
Lemma drain_fuel `{NumText} fuel : ∀ b b' ms, (length (buffer_data b) < fuel)%nat → drain fuel b = (b', Ok ms) →
  has_complete_frame (buffer_data b') = Ok false.
Proof.
  induction fuel as [|fuel IH]; intros b b' ms Hf E; [lia|]. cbn [drain] in E.
  unfold mbind, SM_bind, sm_get, sm_lift, sm_put in E.
  destruct (has_complete_frame (buffer_data b)) as [[]|e] eqn:Hc; [|by injection E as <- _|done].
  destruct (read_frame (buffer_data b) (auth_key b)) as [r|e] eqn:Hr; [|done].
  apply read_frame_shorter in Hr. destruct (drain fuel (with_data r.2 b)) as [b1 [ms1|e]] eqn:Hd; [|done]. injection E as <- _.
  eapply IH; [|exact Hd]. cbn. lia.
Qed.

(** ** Properties *)

(** Reassembly does not depend on how the stream is cut.  However the frames
    of a list of valid messages, followed by the start of another frame, are
    split into chunks, feeding the chunks yields exactly those messages in order
    and keeps the start. *)
Theorem feed_fragments `{NumTextOk} key ms fs p chunks :
  Forall2 (λ m f, message_wf m ∧ to_frame m key = Ok f) ms fs →
  has_complete_frame p = Ok false → concat chunks = concat fs ++ p →
  feed_all chunks (mkBuffer key []) = (mkBuffer key p, Ok ms).
Proof. intros Hfr Hp Heq. by apply (feed_all_stream key chunks ms fs [] p). Qed.

Definition sample_stream : bytes := sample_ping_frame ++ sample_ping_frame ++ b_lit "BCCN".

Lemma feed_fragments_witness :
  @feed_all toy_numtext [take 5 sample_stream; []; take 60 (drop 5 sample_stream); drop 65 sample_stream] (mkBuffer sample_key []) =
  (mkBuffer sample_key (b_lit "BCCN"), Ok [sample_ping; sample_ping]).
Proof.
  apply (@feed_fragments toy_numtext toy_numtext_ok sample_key [sample_ping; sample_ping] [sample_ping_frame; sample_ping_frame]).
  - apply Forall2_cons. split; [split; [exact sample_ping_wf|exact sample_ping_framed]|].
    apply Forall2_cons. split; [split; [exact sample_ping_wf|exact sample_ping_framed]|]. constructor.
  - reflexivity.
  - vm_compute. reflexivity.
Defined.

(** A chunk with a bad header loses what was read before it.  When complete
    valid frames are followed by bytes whose header is rejected, [feed] raises:
    none of the messages is returned, and the bad bytes stay in the buffer, so
    the next chunk raises again. *)
Theorem feed_bad_frame `{NumTextOk} key ms fs bad e :
  Forall2 (λ m f, message_wf m ∧ to_frame m key = Ok f) ms fs → has_complete_frame bad = Err e →
  feed (concat fs ++ bad) (mkBuffer key []) = (mkBuffer key bad, Err e) ∧
  (∀ more, feed more (mkBuffer key bad) = (mkBuffer key (bad ++ more), Err e)) ∧
  feed_all fs (mkBuffer key []) = (mkBuffer key [], Ok ms).
Proof.
  intros Hfr Hbad. split_and!.
  - rewrite feed_drain. cbn [app]. apply (drain_bad key ms fs Hfr); [done|]. pose proof (framed_length key ms fs Hfr).
    rewrite length_app. lia.
  - intros more. rewrite feed_drain. cbn [drain]. unfold mbind, SM_bind, sm_get, sm_lift. cbn [buffer_data].
    by rewrite (bad_prefix bad more e).
  - apply (feed_all_stream key fs ms fs [] []); [done|by rewrite app_nil_r|done|done].
Qed.

Lemma feed_bad_frame_witness :
  let e := Exn NetworkError (py "network magic is invalid") in
  @feed toy_numtext (concat [sample_ping_frame] ++ b_lit "GET / HTTP") (mkBuffer sample_key []) =
    (mkBuffer sample_key (b_lit "GET / HTTP"), Err e) ∧
  (∀ more, @feed toy_numtext more (mkBuffer sample_key (b_lit "GET / HTTP")) =
    (mkBuffer sample_key (b_lit "GET / HTTP" ++ more), Err e)) ∧
  @feed_all toy_numtext [sample_ping_frame] (mkBuffer sample_key []) = (mkBuffer sample_key [], Ok [sample_ping]).
Proof.
  apply (@feed_bad_frame toy_numtext toy_numtext_ok sample_key [sample_ping] [sample_ping_frame]).
  - apply Forall2_cons. split; [split; [exact sample_ping_wf|exact sample_ping_framed]|]. constructor.
  - vm_compute. reflexivity.
Defined.
