(* ===== verification/Service.v ===== *)
(** * The node service (service.py, [NodeService])

    What a node does with the messages of its peers: sessions, relay, block
    download scheduling, penalties.  Dictionaries that are only looked up,
    counted or searched for a minimum are maps; [in_flight_blocks] and the
    request lists are association lists in insertion order, since their order
    decides who is asked for which block.  Exceptions leave the service as it
    was mutated, and the [except] clauses of [receive] see that state. *)

From S2P Require Import Prelude PyBytes PyText Sha256 Json Crypto ByteReader Transaction Block Utxo State BlockProcessor ForkStore ForkChoice Stores Policy Mempool Selection Mining Node Peers WireJson JsonText Network Session.
Local Open Scope Z_scope.

(** [BlockDownload] *)
Record BlockDownload := mkDownload { dl_hash : str; dl_peer : str; dl_requested_at : Z }.

(** [ServiceResult] *)
Record ServiceResult := mkResult {
  sr_direct : list PeerMessage;
  sr_direct_to : list (str * list PeerMessage);
  sr_relay : list PeerMessage;
  sr_disconnect : bool;
}.

Record NodeService := mkService {
  sv_node : Node;
  sv_network : str;
  sv_node_id : str;
  sv_peers : PeerManager;
  download_timeout : Z;
  max_batch : Z;
  max_per_peer : Z;
  sync_store : option PeerSyncStore;
  sessions : gmap str PeerSession;
  sv_transactions : gmap str ConsensusTransaction;
  sv_blocks : gmap str ConsensusBlock;
  in_flight : list (str * BlockDownload);
  peer_sync : gmap str PeerSyncProgress;
}.

(** [NodeService(...)] *)
Definition service_init (n : Node) (network node_id : str) (peers : PeerManager) (timeout batch per_peer : Z)
    (store : option PeerSyncStore) : result NodeService :=
  raise_if (bool_decide (network = [])) NodeServiceError "network name is required";;
  raise_if (bool_decide (node_id = [])) NodeServiceError "node id is required";;
  raise_if (timeout <? 0) NodeServiceError "block download timeout cannot be negative";;
  raise_if (batch <=? 0) NodeServiceError "block download batch size must be positive";;
  raise_if (per_peer <=? 0) NodeServiceError "block downloads per peer must be positive";;
  Ok (mkService n network node_id peers timeout batch per_peer store ∅ ∅ ∅ [] ∅).

(** ** Field updates *)

Definition with_node (n : Node) (s : NodeService) : NodeService :=
  mkService n (sv_network s) (sv_node_id s) (sv_peers s) (download_timeout s) (max_batch s) (max_per_peer s) (sync_store s)
    (sessions s) (sv_transactions s) (sv_blocks s) (in_flight s) (peer_sync s).
Definition with_manager (p : PeerManager) (s : NodeService) : NodeService :=
  mkService (sv_node s) (sv_network s) (sv_node_id s) p (download_timeout s) (max_batch s) (max_per_peer s) (sync_store s)
    (sessions s) (sv_transactions s) (sv_blocks s) (in_flight s) (peer_sync s).
Definition with_sessions (m : gmap str PeerSession) (s : NodeService) : NodeService :=
  mkService (sv_node s) (sv_network s) (sv_node_id s) (sv_peers s) (download_timeout s) (max_batch s) (max_per_peer s) (sync_store s)
    m (sv_transactions s) (sv_blocks s) (in_flight s) (peer_sync s).
Definition with_payloads (ts : gmap str ConsensusTransaction) (bs : gmap str ConsensusBlock) (s : NodeService) : NodeService :=
  mkService (sv_node s) (sv_network s) (sv_node_id s) (sv_peers s) (download_timeout s) (max_batch s) (max_per_peer s) (sync_store s)
    (sessions s) ts bs (in_flight s) (peer_sync s).
Definition with_in_flight (l : list (str * BlockDownload)) (s : NodeService) : NodeService :=
  mkService (sv_node s) (sv_network s) (sv_node_id s) (sv_peers s) (download_timeout s) (max_batch s) (max_per_peer s) (sync_store s)
    (sessions s) (sv_transactions s) (sv_blocks s) l (peer_sync s).
Definition with_progress (m : gmap str PeerSyncProgress) (store : option PeerSyncStore) (s : NodeService) : NodeService :=
  mkService (sv_node s) (sv_network s) (sv_node_id s) (sv_peers s) (download_timeout s) (max_batch s) (max_per_peer s) store
    (sessions s) (sv_transactions s) (sv_blocks s) (in_flight s) m.

Definition on_node {A} (m : SM Node A) : SM NodeService A := sm_zoom sv_node with_node m.
Definition on_peers {A} (m : SM PeerManager A) : SM NodeService A := sm_zoom sv_peers with_manager m.

(** A call on the session of an address. *)
Definition on_session {A} (a : str) (m : SM PeerSession A) : SM NodeService A := λ s,
  match sessions s !! a with
  | Some x => let r := m x in (with_sessions (<[a := r.1]> (sessions s)) s, r.2)
  | None => (s, raise KeyError "no session")
  end.

Definition update (f : NodeService → NodeService) : SM NodeService unit := s ← sm_get; sm_put (f s).

Definition add_transaction (h : str) (t : ConsensusTransaction) (s : NodeService) : NodeService :=
  with_payloads (<[h := t]> (sv_transactions s)) (sv_blocks s) s.
Definition add_block (h : str) (b : ConsensusBlock) (s : NodeService) : NodeService :=
  with_payloads (sv_transactions s) (<[h := b]> (sv_blocks s)) s.

(** ** Insertion-ordered dictionaries *)

Definition dict_get {V} (k : str) (l : list (str * V)) : option V :=
  snd <$> head (filter (λ e : str * V, e.1 = k) l).
Definition dict_pop {V} (k : str) (l : list (str * V)) : list (str * V) := filter (λ e : str * V, e.1 ≠ k) l.

(** [d.setdefault(k, []).append(x)] *)
Definition dict_append {V} (k : str) (x : V) (l : list (str * list V)) : list (str * list V) :=
  obj_set k (default [] (dict_get k l) ++ [x]) l.

(** ** Download progress *)

Definition no_progress : PeerSyncProgress := mkProgress 0 0 0 0.

(** [quality_score] *)
Definition quality_score (p : PeerSyncProgress) : Z :=
  let penalty := failed_blocks p * 100 + timed_out_blocks p * 20 + requested_blocks p in
  let reward := completed_blocks p * 10 in
  Z.max 0 (penalty - reward).

(** What [_progress_for] finds for an address. *)
Definition progress_of (s : NodeService) (a : str) : PeerSyncProgress :=
  match peer_sync s !! a with
  | Some p => p
  | None => default no_progress (store ← sync_store s; load_progress store a)
  end.

(** [_progress_for] *)
Definition progress_for (a : str) : SM NodeService PeerSyncProgress :=
  s ← sm_get;
  sm_put (with_progress (<[a := progress_of s a]> (peer_sync s)) (sync_store s) s);;
  mret (progress_of s a).

(** [_save_progress] *)
Definition store_progress (a : str) (p : PeerSyncProgress) : SM NodeService unit := λ s,
  match sync_store s with
  | None => (s, Ok tt)
  | Some m => let r := save_progress a p m in (with_progress (peer_sync s) (Some r.1) s, r.2)
  end.

Definition add_progress (r c t f : Z) (p : PeerSyncProgress) : PeerSyncProgress :=
  mkProgress (requested_blocks p + r) (completed_blocks p + c) (timed_out_blocks p + t) (failed_blocks p + f).

(** [_record_progress] *)
Definition record_progress (a : str) (requested completed timed_out failed : Z) : SM NodeService unit :=
  p ← progress_for a;
  let p' := add_progress requested completed timed_out failed p in
  update (λ s, with_progress (<[a := p']> (peer_sync s)) (sync_store s) s);;
  store_progress a p'.

(** [_in_flight_count] *)
Definition in_flight_count (s : NodeService) (a : str) : Z :=
  zlen (filter (λ e : str * BlockDownload, dl_peer e.2 = a) (in_flight s)).

(** [_clear_peer_downloads] *)
Definition clear_peer_downloads (a : str) (failed : bool) : SM NodeService unit :=
  s ← sm_get;
  let failed_count := in_flight_count s a in
  sm_put (with_in_flight (filter (λ e : str * BlockDownload, dl_peer e.2 ≠ a) (in_flight s)) s);;
  if failed && negb (failed_count =? 0) then record_progress a 0 0 0 failed_count else mret tt.

(** [_penalize_peer] *)
Definition penalize_peer (a : str) (score now : Z) : SM NodeService bool :=
  r ← on_peers (report_misbehavior a score now);
  if is_banned r then
    update (λ s, with_sessions (delete a (sessions s)) s);;
    clear_peer_downloads a true;;
    mret true
  else mret false.

(** ** Connections *)

Definition open_session (a : str) : SM NodeService unit :=
  s ← sm_get;
  h ← sm_lift (node_height (sv_node s));
  sm_put (with_sessions (<[a := new_session (sv_network s) (sv_node_id s) h]> (sessions s)) s).

(** [connect_peer] *)
Definition connect_peer (a : str) (now : Z) (inbound : bool) : SM NodeService PeerMessage :=
  on_peers (mark_connecting a now inbound);;
  on_peers (mark_connected a now);;
  open_session a;;
  on_session a start_handshake.

(** [accept_inbound_peer] *)
Definition accept_inbound_peer (a : str) (now : Z) : SM NodeService unit :=
  on_peers (mark_connecting a now true);;
  on_peers (mark_connected a now);;
  open_session a.

(** [disconnect_peer] *)
Definition disconnect_peer (a : str) (now : Z) : SM NodeService unit :=
  on_peers (mark_disconnected a now);;
  update (λ s, with_sessions (delete a (sessions s)) s);;
  clear_peer_downloads a true.

(** [_session_for] *)
Definition session_for (a : str) (now : Z) : SM NodeService unit :=
  s ← sm_get;
  match sessions s !! a with
  | Some _ => mret tt
  | None =>
      sm_try (on_peers (mark_connected a now))
        (λ e, if exn_is PeerManagerError e
              then on_peers (add_peer a now false);; on_peers (mark_connected a now)
              else sm_lift (Err e));;
      open_session a
  end.

(** ** Block downloads *)

(** One round of its loop. *)
Definition expire_one (d : BlockDownload) : SM NodeService unit :=
  update (λ s, with_in_flight (dict_pop (dl_hash d) (in_flight s)) s);;
  record_progress (dl_peer d) 0 0 1 0.

(** [expire_block_downloads] *)
Definition expire_block_downloads (now : Z) : SM NodeService (list BlockDownload) :=
  s ← sm_get;
  let expired := filter (λ d, download_timeout s ≤ now - dl_requested_at d) (in_flight s).*2 in
  sm_each expire_one expired;;
  mret expired.

(** [_should_request_block] *)
Definition should_request_block (s : NodeService) (h : str) : bool :=
  negb (bool_decide (is_Some (sv_blocks s !! h))) && negb (bool_decide (is_Some (dict_get h (in_flight s))))
  && negb (has_block (n_store (sv_node s)) h).

(** The key of a candidate: [(in_flight, quality, misbehavior, address != source, address)]. *)
Record Candidate := mkCandidate { cd_in_flight : Z; cd_quality : Z; cd_misbehavior : Z; cd_other : bool; cd_address : str }.

Definition candidate_leb (x y : Candidate) : bool :=
  (cd_in_flight x <? cd_in_flight y) || ((cd_in_flight x =? cd_in_flight y) &&
  ((cd_quality x <? cd_quality y) || ((cd_quality x =? cd_quality y) &&
  ((cd_misbehavior x <? cd_misbehavior y) || ((cd_misbehavior x =? cd_misbehavior y) &&
  ((negb (cd_other x) && cd_other y) || (Bool.eqb (cd_other x) (cd_other y) && str_leb (cd_address x) (cd_address y)))))))).

(** The keys of [min] are computed one after the other; [sync_progress] caches
    the progress it loads. *)
Fixpoint candidate_keys (source : str) (l : list str) : SM NodeService (list Candidate) :=
  match l with
  | [] => mret []
  | a :: l' =>
      s ← sm_get;
      p ← progress_for a;
      r ← on_peers (get_peer a);
      rest ← candidate_keys source l';
      mret (mkCandidate (in_flight_count s a) (quality_score p) (pr_misbehavior r) (negb (bool_decide (a = source))) a :: rest)
  end.

(** The sessions that may be asked for a block. *)
Definition download_candidates (s : NodeService) (source h : str) : list str :=
  filter (λ a, a = source ∨ (py "block_header", h) ∈ default ∅ (known_inventory <$> sessions s !! a)) (map_to_list (sessions s)).*1.

(** [_select_block_download_peer] *)
Definition select_block_download_peer (source h : str) (avoid : option str) : SM NodeService (option str) :=
  s ← sm_get;
  let all := download_candidates s source h in
  let alternatives := filter (λ a, Some a ≠ avoid) all in
  let candidates := match alternatives with [] => all | _ => alternatives end in
  match candidates with
  | [] => mret (Some source)
  | _ =>
      match filter (λ a, in_flight_count s a < max_per_peer s) candidates with
      | [] => mret None
      | below_limit =>
          keys ← candidate_keys source below_limit;
          mret (cd_address <$> head (sort_by candidate_leb keys))
      end
  end.

(** One round of the download loops: ask somebody for a block, if it is wanted. *)
Definition request_block (source h : str) (avoid : option str) (now : Z) (requests : list (str * list InventoryVector)) :
    SM NodeService (list (str * list InventoryVector)) :=
  s ← sm_get;
  if negb (should_request_block s h) then mret requests else
  peer ← select_block_download_peer source h avoid;
  match peer with
  | None => mret requests
  | Some p =>
      update (λ s, with_in_flight (obj_set h (mkDownload h p now) (in_flight s)) s);;
      record_progress p 1 0 0 0;;
      mret (dict_append p (mkInventory (py "block") h) requests)
  end.

(** [_chunk_inventory] *)
Fixpoint chunk (fuel n : nat) {A} (l : list A) : list (list A) :=
  match fuel, l with
  | S fuel', _ :: _ => take n l :: chunk fuel' n (drop n l)
  | _, _ => []
  end.

Definition chunk_inventory (s : NodeService) (items : list InventoryVector) : list (list InventoryVector) :=
  chunk (length items) (Z.to_nat (max_batch s)) items.

Definition getdata_messages (s : NodeService) (requests : list (str * list InventoryVector)) :
    result (list (str * list PeerMessage)) :=
  mapR (λ e, ms ← mapR (inventory_message GETDATA) (chunk_inventory s e.2); Ok (e.1, ms)) requests.

Fixpoint sm_fold {S A B} (f : B → A → SM S B) (b : B) (l : list A) : SM S B :=
  match l with [] => mret b | x :: l' => b' ← f b x; sm_fold f b' l' end.

(** One round of its loop, and [retry_expired_block_downloads]. *)
Definition retry_one (now : Z) (requests : list (str * list InventoryVector)) (d : BlockDownload) :
    SM NodeService (list (str * list InventoryVector)) :=
  request_block (dl_peer d) (dl_hash d) (Some (dl_peer d)) now requests.

Definition retry_expired_block_downloads (now : Z) : SM NodeService (list (str * list PeerMessage)) :=
  expired ← expire_block_downloads now;
  requests ← sm_fold (retry_one now) [] expired;
  s ← sm_get;
  sm_lift (getdata_messages s requests).

(** ** Payloads *)

Definition announcement (kind h : str) : result (list PeerMessage) :=
  m ← inventory_message INV [mkInventory kind h]; Ok [m].

Section service.
Context `{Ed25519} `{NumText}.

(** [_handle_transaction] *)
Definition sv_handle_transaction (m : PeerMessage) : SM NodeService (list PeerMessage) :=
  t ← sm_lift (transaction_from_payload (msg_payload m));
  h ← sm_lift (txid t);
  s ← sm_get;
  if bool_decide (is_Some (sv_transactions s !! h)) then mret [] else
  on_node (submit_transaction t);;
  update (add_transaction h t);;
  sm_lift (announcement (py "tx") h).

(** [for transaction in block.transactions: self.transactions[...] = ...] *)
Definition remember_transactions (ts : list ConsensusTransaction) : SM NodeService unit :=
  sm_each (λ t, h ← sm_lift (txid t); update (add_transaction h t)) ts.

(** The end of the download of a block that arrived. *)
Definition finish_download (h : str) : SM NodeService unit :=
  s ← sm_get;
  sm_put (with_in_flight (dict_pop h (in_flight s)) s);;
  match dict_get h (in_flight s) with
  | Some d => record_progress (dl_peer d) 0 1 0 0
  | None => mret tt
  end.

(** [_handle_block] *)
Definition sv_handle_block (m : PeerMessage) : SM NodeService (list PeerMessage) :=
  b ← sm_lift (block_from_payload (msg_payload m));
  h ← sm_lift (block_hash b);
  s ← sm_get;
  if bool_decide (is_Some (sv_blocks s !! h)) then mret [] else
  on_node (import_block b);;
  update (add_block h b);;
  finish_download h;;
  remember_transactions (transactions b);;
  sm_lift (announcement (py "block") h).

(** One item of [_handle_getdata]. *)
Definition serve_item (s : NodeService) (raw : value) : result PeerMessage :=
  i ← inventory_from_value raw;
  match (if bool_decide (inv_kind i = py "tx") then sv_transactions s !! inv_hash i else None) with
  | Some t => transaction_message t
  | None =>
      match (if bool_decide (inv_kind i = py "block") then sv_blocks s !! inv_hash i else None) with
      | Some b => block_message b
      | None => raise NodeServiceError "requested inventory is unknown"
      end
  end.

(** [_handle_getdata] *)
Definition sv_handle_getdata (m : PeerMessage) : SM NodeService (list PeerMessage) :=
  s ← sm_get;
  sm_lift (items ← payload_list (msg_payload m) "items"; mapR (serve_item s) items).

(** [heights_by_hash] *)
Definition heights_by_hash (hashes : list str) : gmap str Z := foldl (λ m e, <[e.2 := e.1]> m) ∅ (enumerate 0 hashes).

(** The index after the first locator hash that is in the chain. *)
Fixpoint locate (heights : gmap str Z) (locator : list value) : result Z :=
  match locator with
  | [] => Ok 0
  | v :: rest =>
      h ← hashable_text v;
      match heights !! h with Some i => Ok (i + 1) | None => locate heights rest end
  end.

(** The loop of [_handle_getheaders]; [n] headers are already collected. *)
Fixpoint collect_headers (limit : Z) (stop : value) (n : Z) (chain : list (str * ConsensusBlock)) : list BlockHeader :=
  match chain with
  | [] => []
  | (h, b) :: rest =>
      header_from_block b ::
      (if match stop with VStr x => bool_decide (h = x) | _ => false end || (limit <=? n + 1) then [] else collect_headers limit stop (n + 1) rest)
  end.

(** [_handle_getheaders] *)
Definition sv_handle_getheaders (m : PeerMessage) : SM NodeService PeerMessage :=
  s ← sm_get;
  sm_lift (
    chain ← active_chain (n_store (sv_node s));
    locator ← payload_list (msg_payload m) "locator";
    stop ← payload_get (msg_payload m) "stop_hash";
    limit ← (v ← payload_item (msg_payload m) "limit"; py_int v);
    hashes ← mapR (λ x, block_hash (sb_block x)) chain;
    start ← locate (heights_by_hash hashes) locator;
    headers_message (collect_headers limit stop 0 (drop (Z.to_nat start) (zip hashes (sb_block <$> chain))))).

(** The first header must extend a block the node has. *)
Definition headers_connect (s : NodeService) (headers : list BlockHeader) : result unit :=
  match headers with
  | [] => Ok tt
  | h :: _ =>
      tip ← tip_hash (sv_node s);
      raise_if (negb (bool_decide (bh_previous_hash h = tip)) && negb (has_block (n_store (sv_node s)) (bh_previous_hash h)))
        NodeServiceError "headers do not connect to a known block"
  end.

(** One round of its loop, and [_handle_headers]. *)
Definition want_header (a : str) (now : Z) (requests : list (str * list InventoryVector)) (h : BlockHeader) :
    SM NodeService (list (str * list InventoryVector)) :=
  hash ← sm_lift (header_hash h);
  request_block a hash None now requests.

Definition sv_handle_headers (a : str) (m : PeerMessage) (now : Z) : SM NodeService (list (str * list PeerMessage)) :=
  expire_block_downloads now;;
  headers ← sm_lift (headers_from_payload (msg_payload m));
  s ← sm_get;
  sm_lift (headers_connect s headers);;
  requests ← sm_fold (want_header a now) [] headers;
  s' ← sm_get;
  sm_lift (getdata_messages s' requests).

(** The messages for the sender itself, and the others. *)
Definition split_targets (a : str) (targeted : list (str * list PeerMessage)) : ServiceResult :=
  mkResult (concat (filter (λ e : str * list PeerMessage, e.1 = a) targeted).*2)
    (filter (λ e : str * list PeerMessage, e.1 ≠ a) targeted) [] false.

(** The dispatch of [receive] after the session. *)
Definition sv_dispatch (a : str) (m : PeerMessage) (now : Z) : SM NodeService ServiceResult :=
  match msg_type m with
  | TX => r ← sv_handle_transaction m; mret (mkResult [] [] r false)
  | BLOCK => r ← sv_handle_block m; mret (mkResult [] [] r false)
  | GETDATA => r ← sv_handle_getdata m; mret (mkResult r [] [] false)
  | GETHEADERS => r ← sv_handle_getheaders m; mret (mkResult [r] [] [] false)
  | HEADERS => r ← sv_handle_headers a m now; mret (split_targets a r)
  | _ => mret (mkResult [] [] [] false)
  end.

(** [except (ConsensusError, ConsensusNodeError, NodeServiceError)] *)
Definition payload_error (e : exn) : bool := exn_is ConsensusError e || is_node_error e || exn_is NodeServiceError e.

Definition is_reject (direct : list PeerMessage) : bool :=
  match direct with d :: _ => bool_decide (msg_type d = REJECT) | [] => false end.

(** [receive] after a session was found. *)
Definition sv_answer (a : str) (m : PeerMessage) (now : Z) : SM NodeService ServiceResult :=
  direct ← on_session a (receive m);
  if is_reject direct then
    d ← penalize_peer a 10 now; mret (mkResult direct [] [] d)
  else
    sm_try
      (r ← sv_dispatch a m now; mret (mkResult (direct ++ sr_direct r) (sr_direct_to r) (sr_relay r) false))
      (λ e, if exn_is MempoolPolicyError e
            then mret (mkResult (direct ++ [reject_message (py "policy rejected")]) [] [] false)
            else if payload_error e
            then d ← penalize_peer a 10 now; mret (mkResult (direct ++ [reject_message (py "invalid payload")]) [] [] d)
            else sm_lift (Err e)).

(** [receive] *)
Definition sv_receive (a : str) (m : PeerMessage) (now : Z) : SM NodeService ServiceResult :=
  known ← sm_try (session_for a now;; mret true) (λ e, if exn_is PeerManagerError e then mret false else sm_lift (Err e));
  if known : bool then sv_answer a m now else mret (mkResult [reject_message (py "peer banned")] [] [] true).

(** [submit_local_transaction] *)
Definition submit_local_transaction (t : ConsensusTransaction) : SM NodeService ServiceResult :=
  h ← on_node (submit_transaction t);
  update (add_transaction h t);;
  r ← sm_lift (announcement (py "tx") h);
  mret (mkResult [] [] r false).

(** [mine_local_block]; the clock and the bound of the nonce search as in [mine_block]. *)
Definition mine_local_block (fuel : nat) (miner : str) (now : Z) : SM NodeService ServiceResult :=
  stored ← on_node (mine_block fuel miner now);
  h ← sm_lift (block_hash (sb_block stored));
  update (add_block h (sb_block stored));;
  remember_transactions (transactions (sb_block stored));;
  r ← sm_lift (announcement (py "block") h);
  mret (mkResult [] [] r false).

End service.
