(* ===== verification/Downloads.v ===== *)
(** * Block downloads are accounted for (service.py)

    The invariant of the download bookkeeping of [NodeService] and its
    preservation by every operation, exceptions included.  [service_wf]: no
    block is requested twice at a time, downloads are assigned to peers with a
    session, sessions belong to known peers, and nobody has more than the limit.
    [balance]: the requests recorded for a peer, less those completed, timed
    out, failed or in flight; no operation changes it. *)

From S2P Require Import Prelude PyBytes PyText Sha256 Json Crypto ByteReader Transaction Block Utxo State BlockProcessor ForkStore ForkChoice Stores Policy Mempool Selection Mining Node Peers WireJson JsonText Network Session Service.
Local Open Scope Z_scope.

Record service_wf (s : NodeService) : Prop := {
  wf_once : NoDup (in_flight s).*1;
  wf_keys : ∀ e, e ∈ in_flight s → dl_hash e.2 = e.1;
  wf_assigned : ∀ e, e ∈ in_flight s → is_Some (sessions s !! dl_peer e.2);
  wf_known : ∀ a, is_Some (sessions s !! a) → is_Some (pm_peers (sv_peers s) !! a);
  wf_limit : ∀ a, in_flight_count s a ≤ max_per_peer s;
}.

(** Requests that have come to an end. *)
Definition settled (p : PeerSyncProgress) : Z := completed_blocks p + timed_out_blocks p + failed_blocks p.

Definition balance (s : NodeService) (a : str) : Z :=
  requested_blocks (progress_of s a) - settled (progress_of s a) - in_flight_count s a.

(** What every operation does to a well-formed service. *)
Definition accounted (s s' : NodeService) : Prop :=
  service_wf s → service_wf s' ∧ max_per_peer s' = max_per_peer s ∧ ∀ a, balance s' a = balance s a.

#[global] Instance accounted_preorder : PreOrder accounted.
Proof.
  split; [by intros s Hs|]. intros s1 s2 s3 H1 H2 Hs. destruct (H1 Hs) as (W2 & E2 & B2). destruct (H2 W2) as (W3 & E3 & B3).
  split; [done|]. split; [congruence|]. intros a. by rewrite B3.
Qed.

(** ** Counting downloads *)

Definition count (l : list (str * BlockDownload)) (a : str) : Z := zlen (filter (λ e : str * BlockDownload, dl_peer e.2 = a) l).

Lemma count_app l k a : count (l ++ k) a = count l a + count k a.
Proof. unfold count. by rewrite filter_app, zlen_app. Qed.

Lemma count_cons e l a : count (e :: l) a = (if decide (dl_peer e.2 = a) then 1 else 0) + count l a.
Proof. unfold count. rewrite filter_cons. case_decide; [rewrite zlen_cons; lia|lia]. Qed.

Lemma count_nonneg l a : 0 ≤ count l a.
Proof. apply zlen_nonneg. Qed.

Lemma obj_set_absent {V} k (v : V) l : k ∉ l.*1 → obj_set k v l = l ++ [(k, v)].
Proof.
  induction l as [|[k' v'] l IH]; [done|]. cbn. intros Hk. rewrite bool_decide_eq_false_2 by set_solver. f_equal. apply IH. set_solver.
Qed.

Lemma dict_get_None {V} k (l : list (str * V)) : dict_get k l = None ↔ k ∉ l.*1.
Proof.
  unfold dict_get. induction l as [|[k' v'] l IH]; [split; [set_solver|done]|]. rewrite filter_cons. cbn [fst fmap list_fmap].
  case_decide as Hk; cbn in *; [split; [done|set_solver]|]. rewrite IH. set_solver.
Qed.

Lemma dict_get_Some {V} k v (l : list (str * V)) : dict_get k l = Some v → (k, v) ∈ l.
Proof.
  unfold dict_get. intros E. destruct (filter _ l) as [|[k' v'] l'] eqn:Ef; [done|]. cbn in E. injection E as ->.
  assert (Hin : (k', v) ∈ filter (λ e : str * V, e.1 = k) l) by (rewrite Ef; left).
  apply list_elem_of_filter in Hin as [Hk Hin]. cbn in Hk. by subst k'.
Qed.

Lemma dict_pop_fst {V} k (l : list (str * V)) : (dict_pop k l).*1 = filter (.≠ k) l.*1.
Proof.
  unfold dict_pop. induction l as [|[k' v'] l IH]; [done|]. cbn [fmap list_fmap fst]. rewrite !filter_cons. cbn [fst].
  case_decide; cbn [fmap list_fmap fst]; by rewrite <- IH.
Qed.

Lemma dict_pop_absent {V} k (l : list (str * V)) : k ∉ l.*1 → dict_pop k l = l.
Proof.
  unfold dict_pop. induction l as [|[k' v'] l IH]; [done|]. cbn [fmap list_fmap fst]. intros Hk. rewrite filter_cons. cbn [fst].
  rewrite decide_True by set_solver. f_equal. apply IH. set_solver.
Qed.

(** Taking out a download of a list without duplicates. *)
Lemma count_pop k d l a : NoDup l.*1 → (k, d) ∈ l → count (dict_pop k l) a = count l a - (if decide (dl_peer d = a) then 1 else 0).
Proof.
  induction l as [|[k' d'] l IH]; [set_solver|]. cbn [fmap list_fmap fst]. intros Hnd Hin. apply NoDup_cons in Hnd as [Hk Hnd].
  unfold dict_pop. rewrite filter_cons. cbn [fst]. apply elem_of_cons in Hin as [[= -> ->]|Hin].
  - rewrite decide_False by (intros Hn; by apply Hn). fold (dict_pop k' l). rewrite dict_pop_absent, count_cons by done. cbn. lia.
  - rewrite decide_True by (intros ->; apply Hk, list_elem_of_fmap; by exists (k, d)). fold (dict_pop k l).
    rewrite !count_cons, IH by done. lia.
Qed.

Lemma count_filter_other l a b : a ≠ b → count (filter (λ e : str * BlockDownload, dl_peer e.2 ≠ a) l) b = count l b.
Proof.
  intros Hab. induction l as [|e l IH]; [done|]. rewrite filter_cons. destruct (decide (dl_peer e.2 ≠ a)) as [He|He].
  - by rewrite !count_cons, IH.
  - rewrite count_cons, IH, decide_False by (intros <-; by apply He). lia.
Qed.

Lemma count_filter_same l a : count (filter (λ e : str * BlockDownload, dl_peer e.2 ≠ a) l) a = 0.
Proof.
  induction l as [|e l IH]; [done|]. rewrite filter_cons. destruct (decide (dl_peer e.2 ≠ a)) as [He|He]; [|done].
  rewrite count_cons, IH. by rewrite decide_False.
Qed.

(** ** Recording progress *)

(** The service after [record_progress], whether or not the row was saved. *)
Record recorded (a : str) (r c t f : Z) (s s' : NodeService) : Prop := {
  rec_node : sv_node s' = sv_node s;
  rec_peers : sv_peers s' = sv_peers s;
  rec_sessions : sessions s' = sessions s;
  rec_in_flight : in_flight s' = in_flight s;
  rec_limit : max_per_peer s' = max_per_peer s;
  rec_timeout : download_timeout s' = download_timeout s;
  rec_blocks : sv_blocks s' = sv_blocks s;
  rec_this : progress_of s' a = add_progress r c t f (progress_of s a);
  rec_others : ∀ b, b ≠ a → progress_of s' b = progress_of s b;
}.

Lemma record_progress_recorded a r c t f s : recorded a r c t f s (record_progress a r c t f s).1.
Proof.
  unfold record_progress, progress_for, update, store_progress, sm_get, sm_put, mbind, SM_bind, mret, SM_ret. cbn.
  set (p := add_progress r c t f (progress_of s a)). rewrite insert_insert_eq.
  destruct (sync_store s) as [m|] eqn:Em.
  - assert (Hm : ∀ b, b ≠ a → (save_progress a p m).1 !! b = m !! b).
    { intros b Hb. unfold save_progress, sm_lift, sm_get, sm_put, mbind, SM_bind. destruct (bind_progress p); [|done].
      by apply lookup_insert_ne. }
    split; try done; cbn; unfold progress_of; cbn; [by rewrite lookup_insert_eq|].
    intros b Hb. rewrite lookup_insert_ne, Em by done. destruct (peer_sync s !! b); [done|]. cbn. unfold load_progress. by rewrite Hm.
  - split; try done; cbn; unfold progress_of; cbn; [by rewrite lookup_insert_eq|]. intros b Hb. by rewrite lookup_insert_ne, Em.
Qed.

Lemma progress_for_run a s :
  progress_for a s = (with_progress (<[a := progress_of s a]> (peer_sync s)) (sync_store s) s, Ok (progress_of s a)).
Proof. done. Qed.

Lemma progress_cached a s b : progress_of (with_progress (<[a := progress_of s a]> (peer_sync s)) (sync_store s) s) b = progress_of s b.
Proof.
  unfold progress_of. cbn. destruct (decide (a = b)) as [->|Hne]; [by rewrite lookup_insert_eq|by rewrite lookup_insert_ne].
Qed.

(** ** Quiet steps *)

(** A step that leaves the downloads and what is recorded of them alone. *)
Lemma accounted_quiet s s' :
  in_flight s' = in_flight s → max_per_peer s' = max_per_peer s → (∀ a, progress_of s' a = progress_of s a) →
  (∀ a, is_Some (sessions s !! a) → is_Some (sessions s' !! a)) →
  (service_wf s → ∀ a, is_Some (sessions s' !! a) → is_Some (pm_peers (sv_peers s') !! a)) → accounted s s'.
Proof.
  intros Ef El Ep Hs Hk Hwf. split; [|split; [done|]].
  - destruct Hwf as [W1 W2 W3 W4 W5] eqn:E. split.
    + by rewrite Ef.
    + by rewrite Ef.
    + rewrite Ef. intros e He. by apply Hs, W3.
    + by apply Hk.
    + intros a. unfold in_flight_count. rewrite Ef, El. apply W5.
  - intros a. unfold balance, in_flight_count. by rewrite Ep, Ef.
Qed.

(** Settling a download: it leaves the list and one of the counters grows. *)
Lemma accounted_settle k d s s' : service_wf s → (k, d) ∈ in_flight s →
  (∃ c t f, c + t + f = 1 ∧ recorded (dl_peer d) 0 c t f (with_in_flight (dict_pop k (in_flight s)) s) s') →
  service_wf s' ∧ max_per_peer s' = max_per_peer s ∧ ∀ a, balance s' a = balance s a.
Proof.
  intros Hwf Hin (c & t & f & Hsum & Hr). destruct Hwf as [W1 W2 W3 W4 W5]. destruct Hr as [_ Rp Rs Ri Rl _ _ Rt Ro].
  cbn in Rp, Rs, Ri, Rl. assert (Hc : ∀ a, count (in_flight s') a = count (in_flight s) a - (if decide (dl_peer d = a) then 1 else 0)).
  { intros a. rewrite Ri. by apply count_pop. }
  split; [split|split].
  - rewrite Ri, dict_pop_fst. by apply NoDup_filter.
  - rewrite Ri. intros e [_ He]%list_elem_of_filter. by apply W2.
  - rewrite Ri, Rs. intros e [_ He]%list_elem_of_filter. by apply W3.
  - by rewrite Rs, Rp.
  - intros a. pose proof (W5 a) as Ha. change (in_flight_count s' a) with (count (in_flight s') a). rewrite Hc, Rl.
    change (in_flight_count s a) with (count (in_flight s) a) in Ha. case_decide; lia.
  - done.
  - intros a. unfold balance. change (in_flight_count s' a) with (count (in_flight s') a). rewrite Hc.
    change (in_flight_count s a) with (count (in_flight s) a). destruct (decide (dl_peer d = a)) as [<-|Hne].
    + rewrite Rt. unfold settled. cbn. unfold progress_of. cbn. lia.
    + rewrite Ro by done. unfold progress_of. cbn. lia.
Qed.

(** Removing a session and failing what its peer was asked for. *)
Lemma accounted_drop a s : accounted s (clear_peer_downloads a true (with_sessions (delete a (sessions s)) s)).1.
Proof.
  intros Hwf. set (s1 := with_sessions (delete a (sessions s)) s).
  set (l := filter (λ e : str * BlockDownload, dl_peer e.2 ≠ a) (in_flight s)).
  assert (Hs : ∃ n s', (clear_peer_downloads a true s1).1 = s' ∧ n = count (in_flight s) a ∧ sessions s' = delete a (sessions s) ∧
    sv_peers s' = sv_peers s ∧ in_flight s' = l ∧ max_per_peer s' = max_per_peer s ∧
    progress_of s' a = add_progress 0 0 0 n (progress_of s a) ∧ ∀ b, b ≠ a → progress_of s' b = progress_of s b).
  { unfold clear_peer_downloads, sm_get, sm_put, mbind, SM_bind. change (in_flight_count s1 a) with (count (in_flight s) a). cbn [andb].
    eexists (count (in_flight s) a), _. split; [done|]. split; [done|]. destruct (Z.eqb_spec (count (in_flight s) a) 0) as [E|E]; cbn [negb].
    - rewrite E. split_and!; try done. change (progress_of s a = add_progress 0 0 0 0 (progress_of s a)).
      unfold add_progress. rewrite !Z.add_0_r. by destruct (progress_of s a).
    - pose proof (record_progress_recorded a 0 0 0 (count (in_flight s) a) (with_in_flight l s1)) as [_ Rp Rs Ri Rl _ _ Rt Ro].
      fold l. split_and!; try done. }
  destruct Hs as (n & s' & -> & -> & Es & Ep & Ei & El & Et & Eo). destruct Hwf as [W1 W2 W3 W4 W5].
  assert (Hc : ∀ b, count l b = if decide (b = a) then 0 else count (in_flight s) b).
  { intros b. unfold l. case_decide as Hb; [subst b; apply count_filter_same|by apply count_filter_other]. }
  split; [split|split; [done|]].
  - rewrite Ei. eapply sublist_NoDup; [done|apply sublist_fmap_fst, sublist_filter].
  - rewrite Ei. intros e [_ He]%list_elem_of_filter. by apply W2.
  - rewrite Ei, Es. intros e [Hne He]%list_elem_of_filter. rewrite lookup_delete_ne by done. by apply W3.
  - rewrite Es, Ep. intros b [x [_ Hx]%lookup_delete_Some]. by apply W4; exists x.
  - intros b. change (in_flight_count s' b) with (count (in_flight s') b). rewrite Ei, Hc, El. pose proof (W5 b). pose proof (W5 a).
    change (in_flight_count s b) with (count (in_flight s) b) in *. change (in_flight_count s a) with (count (in_flight s) a) in *.
    pose proof (count_nonneg (in_flight s) a). case_decide; lia.
  - intros b. unfold balance. change (in_flight_count s' b) with (count (in_flight s') b). change (in_flight_count s b) with (count (in_flight s) b).
    rewrite Ei, Hc. destruct (decide (b = a)) as [->|Hb]; [|by rewrite Eo].
    rewrite Et. unfold settled. cbn. lia.
Qed.

(** ** The address manager *)

Definition grows (m m' : PeerManager) : Prop := ∀ a, is_Some (pm_peers m !! a) → is_Some (pm_peers m' !! a).

#[global] Instance grows_preorder : PreOrder grows.
Proof. split; [by intros m a|]. intros m1 m2 m3 H1 H2 a Ha. by apply H2, H1. Qed.

Lemma put_grows a r m : grows m (put a r m).
Proof. intros b Hb. rewrite lookup_put. by case_decide. Qed.

Lemma write_grows a r : keeps grows (write a r).
Proof. intros m. apply put_grows. Qed.

Lemma get_peer_grows a : keeps grows (get_peer a).
Proof. intros m. unfold get_peer, sm_get, mbind, SM_bind. by destruct (pm_peers m !! a). Qed.
#[export] Hint Resolve write_grows get_peer_grows : bcc.

Lemma add_peer_grows a now i : keeps grows (add_peer a now i).
Proof. unfold add_peer. keeps_steps. Qed.
#[export] Hint Resolve add_peer_grows : bcc.

Lemma mark_connecting_grows a now i : keeps grows (mark_connecting a now i).
Proof. unfold mark_connecting. cbv zeta. keeps_steps. Qed.
Lemma mark_connected_grows a now : keeps grows (mark_connected a now).
Proof. unfold mark_connected. cbv zeta. keeps_steps. Qed.
Lemma mark_disconnected_grows a now : keeps grows (mark_disconnected a now).
Proof. unfold mark_disconnected. cbv zeta. keeps_steps. Qed.
Lemma ban_peer_grows a now : keeps grows (ban_peer a now).
Proof. unfold ban_peer. cbv zeta. keeps_steps. Qed.
#[export] Hint Resolve ban_peer_grows : bcc.
Lemma report_misbehavior_grows a n now : keeps grows (report_misbehavior a n now).
Proof. unfold report_misbehavior. cbv zeta. keeps_steps. Qed.
#[export] Hint Resolve mark_connecting_grows mark_connected_grows mark_disconnected_grows report_misbehavior_grows : bcc.

(** ** Frames of the service's operations *)

Lemma accounted_on_peers {A} (m : SM PeerManager A) : keeps grows m → keeps accounted (on_peers m).
Proof.
  intros Hm s. unfold on_peers, sm_zoom. apply accounted_quiet; try done. intros Hwf a Ha. apply Hm. by apply (wf_known _ Hwf).
Qed.

Lemma accounted_on_node {A} (m : SM Node A) : keeps accounted (on_node m).
Proof. intros s. apply accounted_quiet; try done. intros Hwf a Ha. by apply (wf_known _ Hwf). Qed.

Lemma accounted_payloads ts bs s : accounted s (with_payloads ts bs s).
Proof. apply accounted_quiet; try done. intros Hwf a Ha. by apply (wf_known _ Hwf). Qed.

Lemma accounted_cache a s : accounted s (with_progress (<[a := progress_of s a]> (peer_sync s)) (sync_store s) s).
Proof. apply accounted_quiet; try done; [apply progress_cached|]. intros Hwf b Hb. by apply (wf_known _ Hwf). Qed.

Lemma accounted_on_session {A} a (m : SM PeerSession A) : keeps accounted (on_session a m).
Proof.
  intros s. unfold on_session. destruct (sessions s !! a) as [x|] eqn:Ex; [|done]. cbn.
  apply accounted_quiet; try done; cbn.
  - intros b Hb. by apply lookup_insert_is_Some'; right.
  - intros Hwf b [<-|Hb]%lookup_insert_is_Some'; apply (wf_known _ Hwf); [by exists x|done].
Qed.

Lemma accounted_penalize a n now : keeps accounted (penalize_peer a n now).
Proof.
  intros s. unfold penalize_peer, mbind at 1, SM_bind at 1.
  pose proof (accounted_on_peers (report_misbehavior a n now) (report_misbehavior_grows a n now) s) as Hp.
  destruct (on_peers (report_misbehavior a n now) s) as [s1 [r|e]]; [|done]. destruct (is_banned r); [|done].
  etransitivity; [exact Hp|]. pose proof (accounted_drop a s1) as Hd. unfold update, sm_get, sm_put, mbind, SM_bind, mret, SM_ret.
  by destruct (clear_peer_downloads a true (with_sessions (delete a (sessions s1)) s1)) as [s2 [u|e]].
Qed.

Lemma accounted_disconnect a now : keeps accounted (disconnect_peer a now).
Proof.
  intros s. unfold disconnect_peer, mbind at 1, SM_bind at 1.
  pose proof (accounted_on_peers (mark_disconnected a now) (mark_disconnected_grows a now) s) as Hp.
  destruct (on_peers (mark_disconnected a now) s) as [s1 [r|e]]; [|done]. etransitivity; [exact Hp|]. apply accounted_drop.
Qed.

(** Opening a session of a known peer. *)
Lemma accounted_open a s : is_Some (pm_peers (sv_peers s) !! a) → accounted s (open_session a s).1.
Proof.
  intros Ha. unfold open_session, sm_get, sm_put, sm_lift, mbind, SM_bind. destruct (node_height (sv_node s)) as [h|e]; [|done]. cbn.
  apply accounted_quiet; try done; cbn.
  - intros b Hb. by apply lookup_insert_is_Some'; right.
  - intros Hwf b [<-|Hb]%lookup_insert_is_Some'; [done|]. by apply (wf_known _ Hwf).
Qed.

Lemma connected_known a now s s1 r : on_peers (mark_connected a now) s = (s1, Ok r) → is_Some (pm_peers (sv_peers s1) !! a).
Proof.
  unfold on_peers, sm_zoom. rewrite mark_connected_run. destruct (pm_peers (sv_peers s) !! a) as [r0|]; [|done]. cbv zeta.
  destruct (is_banned _); [done|]. cbn. intros [= <- _]. cbn. rewrite lookup_insert_eq. done.
Qed.

Lemma accounted_connect_open a now : keeps accounted (on_peers (mark_connected a now);; open_session a).
Proof.
  intros s. unfold mbind, SM_bind.
  pose proof (accounted_on_peers (mark_connected a now) (mark_connected_grows a now) s) as Hp.
  destruct (on_peers (mark_connected a now) s) as [s1 [r|e]] eqn:E; [|done]. etransitivity; [exact Hp|].
  apply accounted_open. by eapply connected_known.
Qed.

Lemma session_for_accounted a now s :
  accounted s (session_for a now s).1 ∧ ((session_for a now s).2 = Ok tt → is_Some (sessions (session_for a now s).1 !! a)).
Proof.
  assert (Hopen : ∀ t, (open_session a t).2 = Ok tt → is_Some (sessions (open_session a t).1 !! a)).
  { intros t. unfold open_session, sm_get, sm_put, sm_lift, mbind, SM_bind. destruct (node_height (sv_node t)); [|done]. cbn.
    intros _. rewrite lookup_insert_eq. done. }
  unfold session_for, sm_get, mbind, SM_bind. destruct (sessions s !! a) as [x|] eqn:Ex; [cbn; by split; [|rewrite Ex]|].
  unfold sm_try. pose proof (accounted_on_peers (mark_connected a now) (mark_connected_grows a now) s) as H1.
  destruct (on_peers (mark_connected a now) s) as [s1 [r|e]] eqn:E1.
  { split; [|apply Hopen]. etransitivity; [exact H1|]. apply accounted_open. by eapply connected_known. }
  destruct (exn_is PeerManagerError e); [|done].
  pose proof (accounted_on_peers (add_peer a now false) (add_peer_grows a now false) s1) as H2.
  destruct (on_peers (add_peer a now false) s1) as [s2 [r|e2]] eqn:E2; [|by split; [etransitivity|]].
  pose proof (accounted_on_peers (mark_connected a now) (mark_connected_grows a now) s2) as H3.
  destruct (on_peers (mark_connected a now) s2) as [s3 [r3|e3]] eqn:E3; cbn [fst snd] in *.
  - split; [|apply Hopen]. transitivity s1; [done|]. transitivity s2; [done|]. transitivity s3; [done|].
    apply accounted_open. by eapply connected_known.
  - split; [|done]. transitivity s1; [done|]. by transitivity s2.
Qed.

(** ** Choosing a peer *)

(** Progress records may have been cached, nothing else. *)
Definition cached (s s' : NodeService) : Prop :=
  ∃ m, s' = with_progress m (sync_store s) s ∧ ∀ a, progress_of s' a = progress_of s a.

#[global] Instance cached_preorder : PreOrder cached.
Proof.
  split.
  - intros s. exists (peer_sync s). split; [by destruct s|done].
  - intros s1 s2 s3 (m & -> & E1) (m' & -> & E2). exists m'. split; [done|]. intros a. by rewrite E2, E1.
Qed.

Lemma accounted_cached s s' : cached s s' → accounted s s'.
Proof. intros (m & -> & E). apply accounted_quiet; try done. intros Hwf a Ha. by apply (wf_known _ Hwf). Qed.

Lemma with_manager_same s : with_manager (sv_peers s) s = s.
Proof. by destruct s. Qed.

Lemma get_peer_cached a : keeps cached (on_peers (get_peer a)).
Proof.
  intros s. unfold on_peers, sm_zoom, get_peer, sm_get, mbind, SM_bind.
  destruct (pm_peers (sv_peers s) !! a); cbn [fst snd mret SM_ret sm_raise sm_lift]; by rewrite with_manager_same.
Qed.

Lemma progress_for_cached a : keeps cached (progress_for a).
Proof. intros s. rewrite progress_for_run. eexists. split; [done|]. apply progress_cached. Qed.
#[export] Hint Resolve get_peer_cached progress_for_cached : bcc.

Lemma candidate_keys_cached source l : keeps cached (candidate_keys source l).
Proof.
  induction l as [|a l IH]; cbn [candidate_keys]; [apply keeps_ret, _|]. keeps_steps.
Qed.

Lemma candidate_keys_addresses source l : ∀ s s' keys, candidate_keys source l s = (s', Ok keys) → cd_address <$> keys = l.
Proof.
  induction l as [|a l IH]; intros s s' keys; cbn [candidate_keys]; [by intros [= <- <-]|].
  unfold sm_get, mbind, SM_bind. rewrite progress_for_run.
  destruct (on_peers (get_peer a) _) as [s1 [r|e]]; [|done]. destruct (candidate_keys source l s1) as [s2 [rest|e]] eqn:E; [|done].
  intros [= <- <-]. cbn. f_equal. by eapply IH.
Qed.

Lemma select_cached source h avoid : keeps cached (select_block_download_peer source h avoid).
Proof.
  unfold select_block_download_peer. cbv zeta. apply keeps_bind; [apply _|apply keeps_get, _|]. intros t.
  match goal with |- context [match ?l with [] => mret (Some source) | _ => _ end] => destruct l as [|c cs] end; [apply keeps_ret, _|].
  destruct (filter _ (c :: cs)) as [|b bs]; [apply keeps_ret, _|].
  apply keeps_bind; [apply _|apply candidate_keys_cached|]. intros. apply keeps_ret, _.
Qed.

Lemma head_elem {A} (l : list A) x : head l = Some x → x ∈ l.
Proof. destruct l; [done|]. intros [= ->]. left. Qed.

(** The peer chosen has a session and is below its limit. *)
Lemma select_chosen source h avoid s s' p : is_Some (sessions s !! source) →
  select_block_download_peer source h avoid s = (s', Ok (Some p)) → is_Some (sessions s !! p) ∧ in_flight_count s p < max_per_peer s.
Proof.
  intros Hsource. unfold select_block_download_peer, sm_get, mbind, SM_bind. cbv zeta.
  set (all := download_candidates s source h). set (alternatives := filter (λ a, Some a ≠ avoid) all).
  set (candidates := match alternatives with [] => all | _ => alternatives end).
  assert (Hall : ∀ a, a ∈ all → is_Some (sessions s !! a)).
  { intros a [_ ([b x] & -> & Hin)%list_elem_of_fmap]%list_elem_of_filter. apply elem_of_map_to_list in Hin. by exists x. }
  assert (Hcand : ∀ a, a ∈ candidates → a ∈ all).
  { intros a. unfold candidates. destruct alternatives eqn:E; [done|]. rewrite <- E. unfold alternatives. by intros [_ ?]%list_elem_of_filter. }
  assert (Hne : candidates ≠ []).
  { assert (Hin : source ∈ all).
    { destruct Hsource as [x Hx]. apply list_elem_of_filter. split; [by left|]. apply list_elem_of_fmap. exists (source, x). split; [done|].
      by apply elem_of_map_to_list. }
    unfold candidates. destruct alternatives; [|done]. intros E. rewrite E in Hin. by apply not_elem_of_nil in Hin. }
  destruct candidates as [|c cs] eqn:Ec; [done|]. rewrite <- Ec in *.
  set (below := filter (λ a, in_flight_count s a < max_per_peer s) candidates).
  destruct below as [|b bs] eqn:Eb; [done|]. rewrite <- Eb.
  destruct (candidate_keys source below s) as [s1 [keys|e]] eqn:Ek; [|done]. intros [= <- Hp].
  assert (Hin : p ∈ below).
  { rewrite <- (candidate_keys_addresses _ _ _ _ _ Ek). destruct (head (sort_by candidate_leb keys)) as [k|] eqn:Eh; [|done].
    injection Hp as <-. apply list_elem_of_fmap. exists k. split; [done|]. rewrite <- (sort_by_perm candidate_leb keys). by apply head_elem. }
  unfold below in Hin. apply list_elem_of_filter in Hin as [Hlt Hin]. split; [by apply Hall, Hcand|done].
Qed.

(** ** The download loops *)

(** What a download step does to a well-formed service: sessions stay too. *)
Definition downloads_ok (s s' : NodeService) : Prop :=
  service_wf s' ∧ max_per_peer s' = max_per_peer s ∧ (∀ a, balance s' a = balance s a) ∧ sessions s' = sessions s.

Lemma downloads_ok_refl s : service_wf s → downloads_ok s s.
Proof. by intros Hwf. Qed.

Lemma downloads_ok_trans s1 s2 s3 : downloads_ok s1 s2 → downloads_ok s2 s3 → downloads_ok s1 s3.
Proof. intros (W2 & E2 & B2 & S2) (W3 & E3 & B3 & S3). split; [done|]. split; [congruence|]. split; [|congruence]. intros a. by rewrite B3. Qed.

Lemma downloads_ok_accounted s s' : (service_wf s → downloads_ok s s') → accounted s s'.
Proof. intros Hd Hwf. by destruct (Hd Hwf) as (? & ? & ? & _). Qed.

Lemma downloads_ok_cached s s' : service_wf s → cached s s' → downloads_ok s s'.
Proof.
  intros Hwf Hc. destruct (accounted_cached _ _ Hc Hwf) as (W & E & B). split; [done|]. split; [done|]. split; [done|].
  by destruct Hc as (m & -> & _).
Qed.

(** Dropping a download and recording how it ended. *)
Lemma settle_ok k d c t f s : service_wf s → (k, d) ∈ in_flight s → c + t + f = 1 →
  let s' := (record_progress (dl_peer d) 0 c t f (with_in_flight (dict_pop k (in_flight s)) s)).1 in
  downloads_ok s s' ∧ in_flight s' = dict_pop k (in_flight s).
Proof.
  intros Hwf Hin Hsum s'. pose proof (record_progress_recorded (dl_peer d) 0 c t f (with_in_flight (dict_pop k (in_flight s)) s)) as Hr.
  fold s' in Hr. destruct (accounted_settle k d s s' Hwf Hin) as (W & E & B); [by exists c, t, f|].
  destruct Hr as [_ _ Rs Ri _ _ _ _ _]. by split; [split|].
Qed.

Lemma expire_one_run d s :
  expire_one d s = record_progress (dl_peer d) 0 0 1 0 (with_in_flight (dict_pop (dl_hash d) (in_flight s)) s).
Proof. done. Qed.

Lemma expire_loop_ok ds : ∀ s, service_wf s → (∀ d, d ∈ ds → (dl_hash d, d) ∈ in_flight s) → NoDup (dl_hash <$> ds) →
  downloads_ok s (sm_each expire_one ds s).1.
Proof.
  induction ds as [|d ds IH]; intros s Hwf Hin Hnd; cbn [sm_each]; [by apply downloads_ok_refl|].
  cbn [fmap list_fmap] in Hnd. apply NoDup_cons in Hnd as [Hd Hnd].
  unfold mbind, SM_bind. rewrite expire_one_run.
  destruct (settle_ok (dl_hash d) d 0 1 0 s Hwf) as [Hok Hfl]; [apply Hin; left|done|].
  destruct (record_progress (dl_peer d) 0 0 1 0 _) as [s1 [u|e]]; cbn [fst] in *; [|done].
  eapply downloads_ok_trans; [exact Hok|]. apply IH; [apply Hok| |done].
  intros d' Hd'. rewrite Hfl. apply list_elem_of_filter. split; [|apply Hin; by right]. cbn. intros E. apply Hd. rewrite <- E.
  apply list_elem_of_fmap. by exists d'.
Qed.

Lemma keyed_hashes l : (∀ e : str * BlockDownload, e ∈ l → dl_hash e.2 = e.1) → dl_hash <$> l.*2 = l.*1.
Proof.
  induction l as [|e l IH]; intros Hk; [done|]. cbn [fmap list_fmap]. f_equal; [apply Hk; left|]. apply IH. intros e' He'. apply Hk. by right.
Qed.

Lemma expired_in_flight s d (P : BlockDownload → Prop) `{!∀ d, Decision (P d)} : service_wf s → d ∈ filter P (in_flight s).*2 →
  (dl_hash d, d) ∈ in_flight s.
Proof.
  intros Hwf [_ ([k d'] & -> & Hin)%list_elem_of_fmap]%list_elem_of_filter. by rewrite (wf_keys _ Hwf _ Hin).
Qed.

Lemma expire_ok now s : service_wf s → downloads_ok s (expire_block_downloads now s).1.
Proof.
  intros Hwf. unfold expire_block_downloads. cbv zeta. unfold mbind at 1, SM_bind at 1, sm_get at 1.
  set (expired := filter _ (in_flight s).*2). unfold mbind at 1, SM_bind at 1.
  pose proof (expire_loop_ok expired s Hwf) as Hl. destruct (sm_each _ expired s) as [s1 [u|e]]; cbn [fst mret SM_ret] in *; apply Hl.
  1,3: intros d; by apply expired_in_flight.
  all: eapply sublist_NoDup; [apply (wf_once _ Hwf)|]; rewrite <- (keyed_hashes _ (wf_keys _ Hwf)); apply fmap_sublist, sublist_filter.
Qed.

Lemma should_request_absent s h : should_request_block s h = true → h ∉ (in_flight s).*1.
Proof.
  unfold should_request_block. intros [[_ H2]%andb_true_iff _]%andb_true_iff. apply negb_true_iff, bool_decide_eq_false in H2.
  apply dict_get_None. destruct (dict_get h (in_flight s)); [|done]. exfalso. by apply H2.
Qed.

(** Asking a chosen peer. *)
Lemma assign_ok h p now s : service_wf s → h ∉ (in_flight s).*1 → is_Some (sessions s !! p) → in_flight_count s p < max_per_peer s →
  downloads_ok s (record_progress p 1 0 0 0 (with_in_flight (obj_set h (mkDownload h p now) (in_flight s)) s)).1.
Proof.
  intros Hwf Hh Hp Hlt. rewrite obj_set_absent by done.
  pose proof (record_progress_recorded p 1 0 0 0 (with_in_flight (in_flight s ++ [(h, mkDownload h p now)]) s)) as [_ Rp Rs Ri Rl _ _ Rt Ro].
  set (s' := (record_progress _ _ _ _ _ _).1) in *. cbn in Rp, Rs, Ri, Rl. destruct Hwf as [W1 W2 W3 W4 W5].
  assert (Hc : ∀ a, in_flight_count s' a = in_flight_count s a + (if decide (p = a) then 1 else 0)).
  { intros a. change (count (in_flight s') a = count (in_flight s) a + (if decide (p = a) then 1 else 0)).
    rewrite Ri, count_app, count_cons. cbn. change (count [] a) with 0. lia. }
  split; [split|split; [done|split; [|done]]].
  - rewrite Ri, fmap_app. apply NoDup_app. split; [done|]. split; [set_solver|]. apply NoDup_singleton.
  - rewrite Ri. intros e [He| ->%list_elem_of_singleton]%elem_of_app; [by apply W2|done].
  - rewrite Ri, Rs. intros e [He| ->%list_elem_of_singleton]%elem_of_app; [by apply W3|done].
  - by rewrite Rs, Rp.
  - intros a. rewrite Hc, Rl. pose proof (W5 a). case_decide; [subst a|]; lia.
  - intros a. unfold balance. rewrite Hc. destruct (decide (p = a)) as [<-|Hne].
    + rewrite Rt. unfold settled, progress_of. cbn. lia.
    + rewrite Ro by done. unfold progress_of. cbn. lia.
Qed.

Lemma request_block_ok source h avoid now reqs s : service_wf s → is_Some (sessions s !! source) →
  downloads_ok s (request_block source h avoid now reqs s).1.
Proof.
  intros Hwf Hs. unfold request_block. unfold mbind at 1, SM_bind at 1, sm_get at 1.
  destruct (should_request_block s h) eqn:Er; cbn [negb]; [|by apply downloads_ok_refl]. apply should_request_absent in Er.
  unfold mbind at 1, SM_bind at 1. pose proof (select_cached source h avoid s) as Hc.
  destruct (select_block_download_peer source h avoid s) as [s1 [[p|]|e]] eqn:Esel; cbn [fst] in *; [|by apply downloads_ok_cached..].
  destruct (select_chosen _ _ _ _ _ _ Hs Esel) as [Hp Hlt]. pose proof (downloads_ok_cached _ _ Hwf Hc) as Hok.
  eapply downloads_ok_trans; [exact Hok|]. destruct Hc as (m & -> & _).
  assert (Ha : downloads_ok (with_progress m (sync_store s) s)
    (record_progress p 1 0 0 0 (with_in_flight (obj_set h (mkDownload h p now) (in_flight s)) (with_progress m (sync_store s) s))).1).
  { apply (assign_ok h p now (with_progress m (sync_store s) s)); [apply Hok|done|done|exact Hlt]. }
  unfold update, sm_get, sm_put, mbind, SM_bind. cbn [in_flight with_progress].
  by destruct (record_progress p 1 0 0 0 _) as [s2 [u|e]].
Qed.

(** A loop whose rounds ask for blocks on behalf of peers with a session. *)
Lemma request_loop_ok {A} (step : list (str * list InventoryVector) → A → SM NodeService (list (str * list InventoryVector))) l m :
  (∀ s acc x, service_wf s → sessions s = m → x ∈ l → downloads_ok s (step acc x s).1) →
  ∀ acc s, service_wf s → sessions s = m → downloads_ok s (sm_fold step acc l s).1.
Proof.
  induction l as [|x l IH]; intros Hstep acc s Hwf Hm; cbn [sm_fold]; [by apply downloads_ok_refl|].
  unfold mbind, SM_bind. pose proof (Hstep s acc x Hwf Hm (list_elem_of_here _ _)) as Hok.
  destruct (step acc x s) as [s1 [acc'|e]]; cbn [fst] in *; [|done]. eapply downloads_ok_trans; [exact Hok|].
  destruct Hok as (W & _ & _ & S). apply IH; [|done|congruence]. intros s' acc2 y W' M' Hy. apply Hstep; [done|done|by right].
Qed.

Lemma expire_result now s s' ds : service_wf s → expire_block_downloads now s = (s', Ok ds) →
  ∀ d, d ∈ ds → (dl_hash d, d) ∈ in_flight s.
Proof.
  intros Hwf. unfold expire_block_downloads. cbv zeta. unfold mbind, SM_bind, sm_get.
  destruct (sm_each _ _ s) as [s1 [u|e]]; [|done]. intros [= _ <-] d. by apply expired_in_flight.
Qed.

Lemma accounted_retry now : keeps accounted (retry_expired_block_downloads now).
Proof.
  intros s. apply downloads_ok_accounted. intros Hwf. unfold retry_expired_block_downloads. unfold mbind at 1, SM_bind at 1.
  pose proof (expire_ok now s Hwf) as He. destruct (expire_block_downloads now s) as [s1 [ds|e]] eqn:E; cbn [fst] in *; [|done].
  eapply downloads_ok_trans; [exact He|]. destruct He as (W1 & _ & _ & S1). unfold mbind at 1, SM_bind at 1.
  assert (Hl : downloads_ok s1 (sm_fold (retry_one now) [] ds s1).1).
  { apply (request_loop_ok _ ds (sessions s)); [|done|done]. intros t acc d Wt Mt Hd. apply request_block_ok; [done|].
    rewrite Mt. apply (wf_assigned _ Hwf (dl_hash d, d)). by apply (expire_result now s s1 ds). }
  by destruct (sm_fold (retry_one now) [] ds s1) as [s2 [r|e]].
Qed.

(** ** Handlers *)

Lemma accounted_add_transaction h t : keeps accounted (update (add_transaction h t)).
Proof. intros s. apply accounted_payloads. Qed.
Lemma accounted_add_block h b : keeps accounted (update (add_block h b)).
Proof. intros s. apply accounted_payloads. Qed.
#[export] Hint Resolve accounted_on_node accounted_add_transaction accounted_add_block accounted_on_session accounted_penalize : bcc.

Lemma each_keeps {A} R `{!PreOrder R} (f : A → SM NodeService unit) l : (∀ x, keeps R (f x)) → keeps R (sm_each f l).
Proof. intros Hf. induction l as [|x l IH]; cbn [sm_each]; [apply keeps_ret, _|]. by apply keeps_bind; [apply _| |]. Qed.

Lemma accounted_remember ts : keeps accounted (remember_transactions ts).
Proof. apply each_keeps; [apply _|]. intros t. keeps_steps. Qed.
#[export] Hint Resolve accounted_remember : bcc.

Lemma with_in_flight_same s : with_in_flight (in_flight s) s = s.
Proof. by destruct s. Qed.

Lemma accounted_finish h : keeps accounted (finish_download h).
Proof.
  intros s. apply downloads_ok_accounted. intros Hwf. unfold finish_download, sm_get, sm_put, mbind, SM_bind.
  destruct (dict_get h (in_flight s)) as [d|] eqn:E.
  - apply dict_get_Some in E. by apply (settle_ok h d 1 0 0 s Hwf E).
  - apply dict_get_None in E. rewrite dict_pop_absent, with_in_flight_same by done. by apply downloads_ok_refl.
Qed.
#[export] Hint Resolve accounted_finish : bcc.

Section handlers.
Context `{Ed25519} `{NumText}.

Lemma accounted_transaction m : keeps accounted (sv_handle_transaction m).
Proof. unfold sv_handle_transaction. keeps_steps. Qed.

Lemma accounted_block m : keeps accounted (sv_handle_block m).
Proof. unfold sv_handle_block. keeps_steps. Qed.

Lemma accounted_getdata m : keeps accounted (sv_handle_getdata m).
Proof. unfold sv_handle_getdata. keeps_steps. Qed.

Lemma accounted_getheaders m : keeps accounted (sv_handle_getheaders m).
Proof. unfold sv_handle_getheaders. keeps_steps. Qed.

Lemma headers_ok a m now s : service_wf s → is_Some (sessions s !! a) → downloads_ok s (sv_handle_headers a m now s).1.
Proof.
  intros Hwf Ha. unfold sv_handle_headers. unfold mbind at 1, SM_bind at 1.
  pose proof (expire_ok now s Hwf) as He. destruct (expire_block_downloads now s) as [s1 [ds|e]]; cbn [fst] in *; [|done].
  eapply downloads_ok_trans; [exact He|]. destruct He as (W1 & _ & _ & S1). clear ds. rewrite bind_lift_run.
  destruct (headers_from_payload (msg_payload m)) as [hs|e]; cbn [fst]; [|by apply downloads_ok_refl]. rewrite bind_get_run, bind_lift_run.
  destruct (headers_connect s1 hs) as [u|e]; cbn [fst]; [|by apply downloads_ok_refl]. unfold mbind at 1, SM_bind at 1.
  assert (Hl : downloads_ok s1 (sm_fold (want_header a now) [] hs s1).1).
  { apply (request_loop_ok _ hs (sessions s)); [|done|done]. intros t acc h Wt Mt _. unfold want_header, sm_lift, mbind, SM_bind.
    destruct (header_hash h) as [x|e]; [|by apply downloads_ok_refl]. apply request_block_ok; [done|]. by rewrite Mt. }
  by destruct (sm_fold (want_header a now) [] hs s1) as [s2 [r|e]].
Qed.

(** The session is there while a message is answered. *)
Lemma accounted_dispatch a m now s : is_Some (sessions s !! a) → accounted s (sv_dispatch a m now s).1.
Proof.
  intros Ha. unfold sv_dispatch. destruct (msg_type m); try done; unfold mbind, SM_bind.
  - pose proof (accounted_getdata m s). by destruct (sv_handle_getdata m s) as [? [|]].
  - pose proof (accounted_getheaders m s). by destruct (sv_handle_getheaders m s) as [? [|]].
  - pose proof (downloads_ok_accounted _ _ (λ W, headers_ok a m now s W Ha)). by destruct (sv_handle_headers a m now s) as [? [|]].
  - pose proof (accounted_transaction m s). by destruct (sv_handle_transaction m s) as [? [|]].
  - pose proof (accounted_block m s). by destruct (sv_handle_block m s) as [? [|]].
Qed.

Lemma accounted_answer a m now s : is_Some (sessions s !! a) → accounted s (sv_answer a m now s).1.
Proof.
  intros Ha. unfold sv_answer. unfold mbind at 1, SM_bind at 1. pose proof (accounted_on_session a (receive m) s) as Hr.
  assert (Ha1 : is_Some (sessions (on_session a (receive m) s).1 !! a)).
  { unfold on_session. destruct Ha as [x Hx]. rewrite Hx. cbn. by rewrite lookup_insert_eq. }
  destruct (on_session a (receive m) s) as [s1 [direct|e]]; cbn [fst] in *; [|done]. etransitivity; [exact Hr|].
  destruct (is_reject direct).
  { apply keeps_bind; [apply _|apply accounted_penalize|]. intros. apply keeps_ret, _. }
  pose proof (accounted_dispatch a m now s1 Ha1) as Hd. unfold sm_try. unfold mbind at 1, SM_bind at 1.
  destruct (sv_dispatch a m now s1) as [s2 [r|e]]; cbn [fst] in *; [done|]. etransitivity; [exact Hd|].
  destruct (exn_is MempoolPolicyError e); [done|]. destruct (payload_error e); [|done].
  apply keeps_bind; [apply _|apply accounted_penalize|]. intros. apply keeps_ret, _.
Qed.

Lemma accounted_receive a m now : keeps accounted (sv_receive a m now).
Proof.
  intros s. unfold sv_receive, sm_try. destruct (session_for_accounted a now s) as [Hs Hk]. unfold mbind, SM_bind.
  destruct (session_for a now s) as [s1 [u|e]]; cbn [fst snd] in *.
  - destruct u. etransitivity; [exact Hs|]. by apply accounted_answer, Hk.
  - by destruct (exn_is PeerManagerError e).
Qed.

End handlers.

(** ** Runs of the service *)

Inductive service_event :=
  | SConnect (a : str) (now : Z) (inbound : bool)
  | SAccept (a : str) (now : Z)
  | SDisconnect (a : str) (now : Z)
  | SReceive (a : str) (m : PeerMessage) (now : Z)
  | SExpire (now : Z)
  | SRetry (now : Z)
  | SSubmit (t : ConsensusTransaction)
  | SMine (fuel : nat) (miner : str) (now : Z).

Section runs.
Context `{Ed25519} `{NumText}.

(** The service after an event, raised exceptions included. *)
Definition service_step (s : NodeService) (e : service_event) : NodeService :=
  match e with
  | SConnect a now inbound => (connect_peer a now inbound s).1
  | SAccept a now => (accept_inbound_peer a now s).1
  | SDisconnect a now => (disconnect_peer a now s).1
  | SReceive a m now => (sv_receive a m now s).1
  | SExpire now => (expire_block_downloads now s).1
  | SRetry now => (retry_expired_block_downloads now s).1
  | SSubmit t => (submit_local_transaction t s).1
  | SMine fuel miner now => (mine_local_block fuel miner now s).1
  end.

Definition run_service (s : NodeService) (es : list service_event) : NodeService := foldl service_step s es.

Lemma accounted_accept a now : keeps accounted (accept_inbound_peer a now).
Proof.
  unfold accept_inbound_peer. apply keeps_bind; [apply _|apply accounted_on_peers, mark_connecting_grows|]. intros _.
  apply accounted_connect_open.
Qed.

Lemma accounted_connect a now i : keeps accounted (connect_peer a now i).
Proof.
  unfold connect_peer. apply keeps_bind; [apply _|apply accounted_on_peers, mark_connecting_grows|]. intros _ s.
  pose proof (accounted_connect_open a now s) as Ho. unfold mbind, SM_bind in *.
  destruct (on_peers (mark_connected a now) s) as [s1 [r|e]]; [|done].
  destruct (open_session a s1) as [s2 [u|e]]; [|done]. etransitivity; [exact Ho|]. apply accounted_on_session.
Qed.

Lemma accounted_step e s : accounted s (service_step s e).
Proof.
  destruct e; cbn [service_step].
  - apply accounted_connect.
  - apply accounted_accept.
  - apply accounted_disconnect.
  - apply accounted_receive.
  - apply downloads_ok_accounted. by apply expire_ok.
  - apply accounted_retry.
  - revert s. change (keeps accounted (submit_local_transaction t)). unfold submit_local_transaction. keeps_steps.
  - revert s. change (keeps accounted (mine_local_block fuel miner now)). unfold mine_local_block. keeps_steps.
Qed.

Lemma accounted_run es : ∀ s, accounted s (run_service s es).
Proof.
  induction es as [|e es IH]; intros s; [done|]. change (run_service s (e :: es)) with (run_service (service_step s e) es).
  etransitivity; [apply accounted_step|apply IH].
Qed.

End runs.

Lemma init_wf n network id peers timeout batch per_peer store s :
  service_init n network id peers timeout batch per_peer store = Ok s →
  service_wf s ∧ max_per_peer s = per_peer ∧ ∀ a, balance s a = requested_blocks (progress_of s a) - settled (progress_of s a).
Proof.
  unfold service_init. intros E. do 4 apply raise_if_bind in E as [_ E]. apply raise_if_bind in E as [Hp [= <-]]. bool_prop.
  split; [split|]; cbn.
  - constructor.
  - intros e He. by apply not_elem_of_nil in He.
  - intros e He. by apply not_elem_of_nil in He.
  - intros a [x Hx]. done.
  - intros a. change (0 ≤ per_peer). lia.
  - split; [done|]. intros a. unfold balance. change (in_flight_count _ a) with 0. apply Z.sub_0_r.
Qed.

(** ** Properties *)

(** C15: Block downloads are accounted for.  After any run of a service, whatever
    its peers send and whichever calls raise: no block is being downloaded
    twice; downloads are assigned to peers that have a session, to each at most
    the limit; and every request recorded for a peer since the start was
    completed, timed out, failed or is in flight, exactly once. *)
Theorem downloads_accounted `{Ed25519} `{NumText} n network id peers timeout batch per_peer store s0 es :
  service_init n network id peers timeout batch per_peer store = Ok s0 →
  let s := run_service s0 es in
  NoDup (in_flight s).*1 ∧
  (∀ h d, (h, d) ∈ in_flight s → dl_hash d = h ∧ is_Some (sessions s !! dl_peer d)) ∧
  ∀ a, in_flight_count s a ≤ per_peer ∧
    requested_blocks (progress_of s a) - requested_blocks (progress_of s0 a) =
    settled (progress_of s a) - settled (progress_of s0 a) + in_flight_count s a.
Proof.
  intros Hi s. destruct (init_wf _ _ _ _ _ _ _ _ _ Hi) as (W0 & E0 & B0). destruct (accounted_run es s0 W0) as (W & E & B).
  fold s in W, E, B. split; [apply W|]. split.
  - intros h d Hd. split; [by apply (wf_keys _ W (h, d))|by apply (wf_assigned _ W (h, d))].
  - intros a. split; [rewrite <- E0, <- E; apply W|]. specialize (B a). rewrite B0 in B. unfold balance in B. lia.
Qed.

Definition sample_service : NodeService :=
  mkService genesis_node (py "main") (py "node") sample_manager0 120 16 128 None ∅ ∅ ∅ [] ∅.

(** Headers of the next block arrive from a peer, which is asked for the block. *)
Definition sample_headers : result PeerMessage := headers_message [header_from_block sample_second].
Definition sample_sync : list service_event :=
  [SAccept (py "10.0.0.1:1") 5; SReceive (py "10.0.0.1:1") (ok_or ack sample_headers) 6].

Lemma downloads_accounted_witness :
  let s := @run_service toy_ed25519 toy_numtext sample_service sample_sync in
  NoDup (in_flight s).*1 ∧
  (∀ h d, (h, d) ∈ in_flight s → dl_hash d = h ∧ is_Some (sessions s !! dl_peer d)) ∧
  ∀ a, in_flight_count s a ≤ 128 ∧
    requested_blocks (progress_of s a) - requested_blocks (progress_of sample_service a) =
    settled (progress_of s a) - settled (progress_of sample_service a) + in_flight_count s a.
Proof.
  apply (@downloads_accounted toy_ed25519 toy_numtext genesis_node (py "main") (py "node") sample_manager0 120 16 128 None).
  reflexivity.
Defined.

(** The run of the witness does ask for the block. *)
Example sample_sync_requests :
  (λ d, (dl_hash d, dl_peer d)) <$> (in_flight (@run_service toy_ed25519 toy_numtext sample_service sample_sync)).*2 =
  [(sample_second_hash, py "10.0.0.1:1")].
Proof. vm_compute. reflexivity. Qed.
