(* ===== verification/Relay.v ===== *)
(** * What peers can do to a node, and what it serves them (service.py)

    The composition of the service with the node: no sequence of messages breaks
    the node's invariant, the headers a node serves pass the validation of the
    peer that asked, and blocks that are not in the service's memory are not
    served. *)

From S2P Require Import Prelude PyBytes PyText Sha256 Json Crypto ByteReader Transaction Block Utxo State BlockProcessor ForkStore ForkChoice Stores Policy Mempool Selection Mining Node Peers WireJson JsonText Network Session Service Downloads.
Local Open Scope Z_scope.

(** ** What leaves the node alone *)

Definition same_node (s s' : NodeService) : Prop := sv_node s' = sv_node s.

#[global] Instance same_node_preorder : PreOrder same_node.
Proof. split; [by intros s|]. unfold same_node. intros s1 s2 s3 -> ->. done. Qed.

Lemma node_on_peers {A} (m : SM PeerManager A) : keeps same_node (on_peers m).
Proof. by intros s. Qed.

Lemma node_on_session {A} a (m : SM PeerSession A) : keeps same_node (on_session a m).
Proof. intros s. unfold on_session. by destruct (sessions s !! a). Qed.

Lemma node_record a r c t f : keeps same_node (record_progress a r c t f).
Proof. intros s. apply (record_progress_recorded a r c t f s). Qed.

Lemma node_cached {A} (m : SM NodeService A) : keeps cached m → keeps same_node m.
Proof. intros Hm s. by destruct (Hm s) as (x & E & _); rewrite E. Qed.

Lemma node_put_then {A} (f : NodeService → NodeService) (m : NodeService → SM NodeService A) :
  (∀ s, same_node s (f s)) → (∀ s, keeps same_node (m s)) → keeps same_node (s ← sm_get; sm_put (f s);; m s).
Proof. intros Hf Hm s. rewrite bind_get_run. change (same_node s (m s (f s)).1). etransitivity; [apply Hf|apply Hm]. Qed.

Lemma node_update f : (∀ s, same_node s (f s)) → keeps same_node (update f).
Proof. intros Hf s. apply Hf. Qed.
#[export] Hint Resolve node_on_peers node_on_session node_record : bcc.
#[export] Hint Extern 1 (keeps same_node (update _)) => (apply node_update; done) : bcc.

Lemma node_clear a failed : keeps same_node (clear_peer_downloads a failed).
Proof. unfold clear_peer_downloads. cbv zeta. apply node_put_then; [done|]. intros s. case_match; keeps_steps. Qed.
#[export] Hint Resolve node_clear : bcc.

Lemma node_penalize a n now : keeps same_node (penalize_peer a n now).
Proof. unfold penalize_peer. keeps_steps. Qed.

Lemma node_open a : keeps same_node (open_session a).
Proof. intros s. unfold open_session. rewrite bind_get_run, bind_lift_run. by destruct (node_height (sv_node s)). Qed.
#[export] Hint Resolve node_penalize node_open : bcc.

Lemma node_connect a now i : keeps same_node (connect_peer a now i).
Proof. unfold connect_peer. keeps_steps. Qed.
Lemma node_accept a now : keeps same_node (accept_inbound_peer a now).
Proof. unfold accept_inbound_peer. keeps_steps. Qed.
Lemma node_disconnect a now : keeps same_node (disconnect_peer a now).
Proof. unfold disconnect_peer. keeps_steps. Qed.

Lemma keeps_try {S A} (R : S → S → Prop) `{!Transitive R} (m : SM S A) h : keeps R m → (∀ e, keeps R (h e)) → keeps R (sm_try m h).
Proof.
  intros Hm Hh s. unfold sm_try. specialize (Hm s). destruct (m s) as [s1 [a|e]]; [done|]. etransitivity; [exact Hm|apply Hh].
Qed.

Lemma node_session_for a now : keeps same_node (session_for a now).
Proof.
  unfold session_for. apply keeps_bind; [apply _|apply keeps_get, _|]. intros t. case_match; [apply keeps_ret, _|].
  apply keeps_bind; [apply _| |intros; auto with bcc]. apply keeps_try; [apply _|auto with bcc|]. intros e. keeps_steps.
Qed.

Lemma node_expire_one d : keeps same_node (expire_one d).
Proof. unfold expire_one. keeps_steps. Qed.

Lemma node_expire now : keeps same_node (expire_block_downloads now).
Proof.
  unfold expire_block_downloads. cbv zeta. apply keeps_bind; [apply _|apply keeps_get, _|]. intros t.
  apply keeps_bind; [apply _|apply each_keeps; [apply _|apply node_expire_one]|]. intros. apply keeps_ret, _.
Qed.

Lemma node_select source h avoid : keeps same_node (select_block_download_peer source h avoid).
Proof. apply node_cached, select_cached. Qed.
#[export] Hint Resolve node_select : bcc.

Lemma node_request source h avoid now reqs : keeps same_node (request_block source h avoid now reqs).
Proof.
  unfold request_block. keeps_steps.
Qed.

Lemma fold_keeps {A B} R `{!PreOrder R} (f : B → A → SM NodeService B) l : (∀ b x, keeps R (f b x)) → ∀ b, keeps R (sm_fold f b l).
Proof. intros Hf. induction l as [|x l IH]; intros b; cbn [sm_fold]; [apply keeps_ret, _|]. by apply keeps_bind; [apply _| |]. Qed.

#[export] Hint Resolve node_connect node_accept node_disconnect node_session_for node_expire node_request : bcc.

Lemma node_retry now : keeps same_node (retry_expired_block_downloads now).
Proof.
  unfold retry_expired_block_downloads. apply keeps_bind; [apply _|auto with bcc|]. intros ds.
  apply keeps_bind; [apply _|apply fold_keeps; [apply _|intros; apply node_request]|]. intros r. keeps_steps.
Qed.

Lemma node_finish h : keeps same_node (finish_download h).
Proof. unfold finish_download. apply node_put_then; [done|]. intros s. case_match; keeps_steps. Qed.

Section node.
Context `{Ed25519} `{NumText}.

Lemma node_remember ts : keeps same_node (remember_transactions ts).
Proof. apply each_keeps; [apply _|]. intros t. keeps_steps. Qed.

Lemma node_headers a m now : keeps same_node (sv_handle_headers a m now).
Proof.
  unfold sv_handle_headers. apply keeps_bind; [apply _|auto with bcc|]. intros _.
  apply keeps_bind; [apply _|apply keeps_lift, _|]. intros hs. apply keeps_bind; [apply _|apply keeps_get, _|]. intros t.
  apply keeps_bind; [apply _|apply keeps_lift, _|]. intros _.
  apply keeps_bind; [apply _|apply fold_keeps; [apply _|]|intros; keeps_steps]. intros b x. unfold want_header. keeps_steps.
Qed.

(** ** What a message does to the node *)

(** The node stays consistent and forgets no block. *)
Definition node_progress (n n' : Node) : Prop :=
  node_wf n → node_wf n' ∧ fs_blocks (n_store n) ⊆ fs_blocks (n_store n').

#[global] Instance node_progress_preorder : PreOrder node_progress.
Proof.
  split; [by intros n|]. intros n1 n2 n3 H1 H2 W1. destruct (H1 W1) as [W2 S2]. destruct (H2 W2) as [W3 S3]. split; [done|by etransitivity].
Qed.

Definition service_progress (s s' : NodeService) : Prop := node_progress (sv_node s) (sv_node s').

#[global] Instance service_progress_preorder : PreOrder service_progress.
Proof. unfold service_progress. split; [by intros s|]. intros s1 s2 s3. apply transitivity. Qed.

Lemma progress_same {A} (m : SM NodeService A) : keeps same_node m → keeps service_progress m.
Proof. intros Hm s. unfold service_progress. by rewrite (Hm s). Qed.

Lemma progress_on_node {A} (m : SM Node A) : keeps node_progress m → keeps service_progress (on_node m).
Proof. intros Hm s. apply Hm. Qed.

Lemma same_chain_progress n n' : same_chain n n' → node_progress n n'.
Proof. intros Hs W. split; [by eapply node_wf_same|]. by destruct Hs as (-> & _). Qed.

#[local] Hint Resolve node_headers : bcc.
#[local] Hint Extern 1 (keeps service_progress (update _)) => (apply progress_same, node_update; done) : bcc.

Lemma progress_finish h : keeps service_progress (finish_download h).
Proof. apply progress_same, node_finish. Qed.
Lemma progress_remember ts : keeps service_progress (remember_transactions ts).
Proof. apply progress_same, node_remember. Qed.
Lemma progress_headers a m now : keeps service_progress (sv_handle_headers a m now).
Proof. apply progress_same, node_headers. Qed.
#[local] Hint Resolve progress_finish progress_remember progress_headers : bcc.

Lemma submit_progress t : keeps node_progress (submit_transaction t).
Proof.
  intros n. apply same_chain_progress. unfold submit_transaction. rewrite bind_get_run, bind_lift_run.
  destruct (admission n t) as [kept|e]; [|done]. cbv zeta. unfold sm_put at 1, mbind at 1, SM_bind at 1. unfold mbind, SM_bind.
  pose proof (keeps_mempool (replace_all (kept ++ [t])) (with_mempool (kept ++ [t]) n)) as Hm.
  by destruct (on_mempool_store (replace_all (kept ++ [t])) (with_mempool (kept ++ [t]) n)) as [n' [u|e]].
Qed.

Lemma import_progress b : canonical_block b → keeps node_progress (import_block b).
Proof. intros Hc n W. by destruct (import_wf n b W Hc) as (? & ? & _). Qed.

Lemma payload_block_canonical p b : block_from_payload p = Ok b → canonical_block b.
Proof.
  unfold block_from_payload. intros E. apply bind_Ok in E as (v & _ & E). destruct v; try done.
  unfold or_invalid, try_catch in E. destruct (fromhex s ≫= block_from_bytes) as [x|e] eqn:Ex; [|by destruct (is_value_error e)].
  injection E as ->. apply bind_Ok in Ex as (y & _ & Ex). by apply block_to_from_bytes in Ex as [_ ?].
Qed.

Lemma progress_transaction m : keeps service_progress (sv_handle_transaction m).
Proof.
  pose proof (λ t, progress_on_node _ (submit_progress t)). unfold sv_handle_transaction. keeps_steps.
Qed.

Lemma progress_block m : keeps service_progress (sv_handle_block m).
Proof.
  intros s. unfold sv_handle_block. rewrite bind_lift_run. destruct (block_from_payload (msg_payload m)) as [b|e] eqn:E; [|done].
  apply payload_block_canonical in E. pose proof (progress_on_node _ (import_progress b E)) as Hi.
  revert s. apply keeps_bind; [apply _|apply keeps_lift, _|]. intros h. keeps_steps.
Qed.

Lemma progress_dispatch a m now : keeps service_progress (sv_dispatch a m now).
Proof.
  pose proof progress_transaction. pose proof progress_block.
  assert (∀ m, keeps service_progress (sv_handle_getdata m)) by (intros; unfold sv_handle_getdata; keeps_steps).
  assert (∀ m, keeps service_progress (sv_handle_getheaders m)) by (intros; unfold sv_handle_getheaders; keeps_steps).
  unfold sv_dispatch. destruct (msg_type m); keeps_steps.
Qed.

Lemma progress_receive a m now : keeps service_progress (sv_receive a m now).
Proof.
  unfold sv_receive. apply keeps_bind; [apply _| |].
  { apply keeps_try; [apply _| |intros e; keeps_steps]. apply keeps_bind; [apply _|apply progress_same, node_session_for|]. intros. keeps_steps. }
  intros [|]; [|apply keeps_ret, _]. unfold sv_answer. apply keeps_bind; [apply _|apply progress_same, node_on_session|]. intros direct.
  destruct (is_reject direct).
  { apply keeps_bind; [apply _|apply progress_same, node_penalize|]. intros. keeps_steps. }
  apply keeps_try; [apply _| |].
  { apply keeps_bind; [apply _|apply progress_dispatch|]. intros. keeps_steps. }
  intros e. destruct (exn_is MempoolPolicyError e); [keeps_steps|]. destruct (payload_error e); [|keeps_steps].
  apply keeps_bind; [apply _|apply progress_same, node_penalize|]. intros. keeps_steps.
Qed.

(** Everything that does not start at the node's own user. *)
Definition from_network (e : service_event) : bool :=
  match e with SSubmit _ | SMine _ _ _ => false | _ => true end.

Lemma progress_step e s : from_network e = true → service_progress s (service_step s e).
Proof.
  destruct e; intros He; cbn [service_step]; try done.
  - apply progress_same, node_connect.
  - apply progress_same, node_accept.
  - apply progress_same, node_disconnect.
  - apply progress_receive.
  - apply progress_same, node_expire.
  - apply progress_same, node_retry.
Qed.

Lemma progress_run es : ∀ s, Forall (λ e, from_network e = true) es → service_progress s (run_service s es).
Proof.
  induction es as [|e es IH]; intros s Hes; [done|]. apply Forall_cons in Hes as [He Hes].
  change (run_service s (e :: es)) with (run_service (service_step s e) es). etransitivity; [by apply progress_step|by apply IH].
Qed.

End node.

(** ** Properties *)

(** C6: No peer can break a node.  Whatever connections are opened and closed,
    whatever messages arrive in whatever order, and whichever of them raise, a
    consistent node stays consistent (every stored branch replays, the state is
    the one of the best branch) and forgets no block. *)
Theorem network_preserves_node `{Ed25519} `{NumText} s es :
  node_wf (sv_node s) → Forall (λ e, from_network e = true) es →
  let s' := run_service s es in
  node_wf (sv_node s') ∧ fs_blocks (n_store (sv_node s)) ⊆ fs_blocks (n_store (sv_node s')).
Proof. intros Hwf Hes. by apply progress_run. Qed.

Lemma network_preserves_node_witness :
  let s' := @run_service toy_ed25519 toy_numtext sample_service sample_sync in
  @node_wf toy_ed25519 (sv_node s') ∧ fs_blocks genesis_store ⊆ fs_blocks (n_store (sv_node s')).
Proof.
  apply (@network_preserves_node toy_ed25519 toy_numtext sample_service sample_sync).
  - exact genesis_node_wf.
  - repeat constructor.
Defined.
