(* ===== verification/Serving.v ===== *)
(** * What a node serves (service.py, [_handle_getheaders] and [_handle_getdata])

    The headers of the active chain that a node sends are accepted by the
    validation of the node that asked; the blocks behind them are only served
    while they are in the service's memory. *)

From S2P Require Import Prelude PyBytes PyText Sha256 Json Crypto ByteReader Transaction Block Utxo State BlockProcessor ForkStore ForkChoice Stores Policy Mempool Selection Mining Node Peers WireJson JsonText Network Session Service Downloads Relay.
Local Open Scope Z_scope.

(** ** Headers of stored blocks *)

(** What [BlockHeader.from_dict] accepts. *)
Definition header_valid (h : BlockHeader) : Prop :=
  0 ≤ bh_height h ∧ 0 ≤ bh_difficulty h ∧ bh_version h = 1 ∧ is_hash (bh_previous_hash h) = true ∧ is_hash (bh_root h) = true.

Lemma hash_text_is_hash s : hash_text s → is_hash s = true.
Proof.
  intros [Hl Hf]. unfold is_hash, zlen. rewrite Hl. change (forallb lower_hex s = true).
  apply forallb_forall. intros c Hc. apply (proj1 (Forall_forall _ _) Hf). by apply list_elem_of_In.
Qed.

(** The inventory entry of a block, and the message that asks for it. *)
Definition block_inventory (h : str) : InventoryVector := mkInventory (py "block") h.
Definition block_request (h : str) : PeerMessage := message GETDATA (VObj [(py "items", VArr [inventory_to_value (block_inventory h)])]).

(** The headers of [n] blocks of a chain, from height [start] on. *)
Definition segment (chain : list StoredBlock) (start : Z) (n : nat) : list BlockHeader :=
  header_from_block <$> take n (drop (Z.to_nat start) (sb_block <$> chain)).

(** A block that is in canonical form and meets the header rules. *)
Definition block_ok (b : ConsensusBlock) : Prop :=
  canonical_block b ∧ block_version b = 1 ∧ 0 ≤ height b ∧ 0 ≤ difficulty b ∧
  ∃ hash, block_hash b = Ok hash ∧ zeros (difficulty b) `prefix_of` hash.

Lemma header_valid_block b : block_ok b → header_valid (header_from_block b).
Proof. intros ((Hp & Hr & _) & Hv & Hh & Hd & _). unfold header_valid. cbn. by split_and!; [..|apply hash_text_is_hash|apply hash_text_is_hash]. Qed.

Lemma header_from_block_hash b : canonical_block b → header_hash (header_from_block b) = block_hash b.
Proof.
  intros (_ & [Hl _] & _). unfold header_hash, make_block. cbn. destruct (transaction_root b) as [|c root] eqn:E; [done|].
  cbn [mbind result_bind]. unfold block_hash, header_bytes. cbn. by rewrite E.
Qed.

Section headers.
Context `{NumText}.

(** Reading back what [to_dict] wrote. *)
Lemma header_value_read h v : header_valid h → header_to_value h = Ok v → (d ← py_dict v; header_from_dict d) = Ok h.
Proof.
  intros (Hh & Hd & Hv & Hp & Hr) E. unfold header_to_value in E. apply bind_Ok in E as (hash & Hhash & [= <-]). cbn [py_dict mbind result_bind].
  unfold header_from_dict.
  match goal with |- context [header_fields ?l] => set (fields := l) end.
  assert (E1 : obj_item "height" fields = Ok (VInt (bh_height h))) by done.
  assert (E2 : obj_item "previous_hash" fields = Ok (VStr (bh_previous_hash h))) by done.
  assert (E3 : obj_item "transaction_root" fields = Ok (VStr (bh_root h))) by done.
  assert (E4 : obj_item "difficulty" fields = Ok (VInt (bh_difficulty h))) by done.
  assert (E5 : obj_item "timestamp" fields = Ok (VFloat (bh_timestamp h))) by done.
  assert (E6 : obj_item "nonce" fields = Ok (VInt (bh_nonce h))) by done.
  assert (E7 : obj_get (py "version") fields = Some (VInt (bh_version h))) by done.
  assert (E8 : obj_get (py "hash") fields = Some (VStr hash)) by done.
  assert (Ef : header_fields fields = Ok h).
  { unfold header_fields. rewrite E1, E2, E3, E4, E5, E6, E7. by destruct h. }
  rewrite Ef. cbn [or_malformed try_catch mbind result_bind]. rewrite E8.
  rewrite (raise_if_false (bh_height h <? 0)), (raise_if_false (bh_difficulty h <? 0)) by (apply Z.ltb_ge; lia).
  rewrite (raise_if_false (bool_decide _)) by (apply bool_decide_eq_false; rewrite Hv; by intros []%supported_block_version).
  rewrite Hp, Hr. cbn [negb raise_if mbind result_bind]. change (default VNull (Some (VStr hash))) with (VStr hash). cbv beta iota.
  rewrite Hhash. cbn [mbind result_bind]. by rewrite bool_decide_eq_true_2.
Qed.

Lemma headers_value_read hs vs : Forall header_valid hs → mapR header_to_value hs = Ok vs →
  mapR (λ x, d ← py_dict x; header_from_dict d) vs = Ok hs.
Proof.
  intros Hv Hm. apply mapR_Ok in Hm. apply mapR_Ok. induction Hm as [|h v hs vs Hhv _ IH]; [constructor|].
  apply Forall_cons in Hv as [Hh Hv]. constructor; [by apply header_value_read|by apply IH].
Qed.

(** A linked batch of valid headers is a payload that reads back. *)
Lemma headers_read_back hs : Forall header_valid hs → linked (None, None) hs → zlen hs ≤ 2000 →
  ∃ m, headers_message hs = Ok m ∧ msg_type m = HEADERS ∧ headers_from_payload (msg_payload m) = Ok hs.
Proof.
  intros Hv Hl Hn.
  assert (Hvs : ∃ vs, mapR header_to_value hs = Ok vs).
  { revert Hl. generalize (None : option str, None : option Z). clear Hv Hn. induction hs as [|h hs IH]; intros prior; [by exists []|].
    intros (hash & Hh & _ & _ & _ & Hl). destruct (IH _ Hl) as [vs Hvs]. cbn [mapR].
    assert (Hv : ∃ v, header_to_value h = Ok v) by (unfold header_to_value; rewrite Hh; by eexists).
    destruct Hv as [v ->]. cbn [mbind result_bind]. rewrite Hvs. by eexists. }
  destruct Hvs as [vs Hvs]. unfold headers_message. rewrite Hvs. eexists. split; [done|]. split; [done|].
  unfold headers_from_payload.
  assert (E : payload_get (msg_payload (message HEADERS (VObj [(py "headers", VArr vs)]))) "headers" = Ok (VArr vs)) by done.
  rewrite E. cbn [mbind result_bind]. pose proof (mapR_length _ _ _ Hvs) as Hlen.
  rewrite raise_if_false by (apply Z.ltb_ge; unfold zlen in *; lia). cbn [mbind result_bind].
  rewrite (headers_value_read hs vs) by done. cbn [mbind result_bind]. unfold validate_header_chain. cbn [raise_if mbind result_bind].
  apply check_headers_Ok in Hl. destruct (foldR check_header (None, None) hs); [done|discriminate Hl].
Qed.

End headers.

(** ** Segments of a linked chain *)

Lemma linked_weaken prior hs : linked prior hs → linked (None, None) hs.
Proof. destruct hs as [|h hs]; [done|]. intros (hash & Hh & Hz & _ & _ & Hl). exists hash. by split_and!. Qed.

Lemma linked_app prior l1 l2 : linked prior (l1 ++ l2) → linked prior l1 ∧ linked (None, None) l2.
Proof.
  revert prior. induction l1 as [|h l1 IH]; intros prior; cbn [app linked]; [split; [done|by eapply linked_weaken]|].
  intros (hash & Hh & Hz & Hp & Hk & Hl). destruct (IH _ Hl) as [H1 H2]. split; [|done]. by exists hash.
Qed.

Lemma linked_segment prior l k n : linked prior l → linked (None, None) (take n (drop k l)).
Proof.
  rewrite <- (take_drop k l) at 1. intros [_ H2]%linked_app. rewrite <- (take_drop n (drop k l)) in H2. by apply linked_app in H2 as [H2 _].
Qed.

Lemma chain_headers_linked `{Ed25519} s h prev bs s' : chain_steps s h prev bs s' → Forall canonical_block bs →
  linked (Some prev, Some (h - 1)) (header_from_block <$> bs).
Proof.
  induction 1 as [|s h prev b fees s1 hash bs s2 [(Hv & Hh & Hp & Hd & (hash' & Hhash' & Hz) & _) _] Hhash _ IH]; [done|].
  intros [Hb Hbs]%Forall_cons. cbn [fmap list_fmap linked fst snd]. exists hash. rewrite header_from_block_hash by done.
  assert (hash' = hash) as -> by congruence. split_and!; [done|done|..].
  - by intros p [= <-].
  - intros k [= <-]. cbn. lia.
  - cbn. rewrite Hh. replace (Some h) with (Some (h + 1 - 1)) by (f_equal; lia). by apply IH.
Qed.

(** ** The loop of [_handle_getheaders] *)

Lemma collect_headers_take limit stop chain : ∀ n, ∃ k, collect_headers limit stop n chain = header_from_block <$> take k chain.*2 ∧
  (1 ≤ k)%nat ∧ Z.of_nat k ≤ Z.max 1 (limit - n).
Proof.
  induction chain as [|[h b] chain IH]; intros n; cbn [collect_headers]; [exists 1%nat; split; [done|lia]|].
  destruct (_ || (limit <=? n + 1)) eqn:E.
  - exists 1%nat. split; [done|lia].
  - apply orb_false_iff in E as [_ E]. apply Z.leb_gt in E. destruct (IH (n + 1)) as (k & -> & Hk & Hle). exists (S k). split; [done|lia].
Qed.

Lemma locate_total heights locator : Forall (λ v, is_hash_value v = true) locator → ∃ i, locate heights locator = Ok i.
Proof.
  induction 1 as [|v l Hv _ IH]; [by eexists|]. destruct v; try discriminate Hv. cbn. destruct (heights !! _); [by eexists|done].
Qed.

Lemma branch_canonical st h l : branch st h l → Forall canonical_block (sb_block <$> l).
Proof.
  assert (Hget : ∀ h sb, get_block st h = Ok sb → canonical_block (sb_block sb)).
  { intros h' sb (r & _ & Hd & _)%get_block_Ok. by eapply decoded_block_canonical. }
  induction 1 as [h sb Hg _ _ _ _|h sb l p _ IH Hg _ _ _].
  - apply Forall_singleton. by eapply Hget.
  - change (l ++ [p; sb]) with (l ++ [p] ++ [sb]). rewrite app_assoc, fmap_app. apply Forall_app. split; [exact IH|].
    apply Forall_singleton. by eapply Hget.
Qed.

(** The active chain of a consistent node. *)
Lemma node_chain `{Ed25519} n : node_wf n → ∃ chain hashes, active_chain (n_store n) = Ok chain ∧
  Forall block_ok (sb_block <$> chain) ∧ linked (Some ZERO_HASH, Some (-1)) (header_from_block <$> (sb_block <$> chain)) ∧
  mapR (λ x, block_hash (sb_block x)) chain = Ok hashes.
Proof.
  intros ([Hst Hv] & _ & _ & _). destruct (active_chain_total _ Hst) as [chain Hc].
  destruct (active_chain_branch _ _ Hst Hc) as [[-> _]|(t & h & _ & _ & Hb & Hg)]; [by exists [], []|].
  assert (Hrow : is_Some (fs_blocks (n_store n) !! h)) by (apply get_block_Ok in Hg as (r & Hr & _); by exists r).
  apply Hv, is_ok_spec in Hrow as (a & Ha). apply (fc_chain_to_tip_Ok _ _ _ _ Hst) in Ha as (l & sb & Hb' & Hblocks & Hr & _).
  apply (chain_to_tip_branch _ _ _ Hst) in Hb as Hb1. apply (chain_to_tip_branch _ _ _ Hst) in Hb'. rewrite Hb1 in Hb'.
  injection Hb' as Ec. rewrite Hblocks, <- Ec in Hr. apply rebuild_Ok in Hr as (_ & _ & Hsteps). pose proof (branch_canonical _ _ _ Hb) as Hcan.
  assert (Hok : Forall block_ok (sb_block <$> chain)).
  { apply Forall_lookup. intros k b Hk. destruct (chain_steps_linked _ _ _ _ _ _ _ Hsteps Hk) as (p & _ & Hv1 & Hh & _ & Hd & Hz & _).
    split; [by apply (proj1 (Forall_lookup _ _) Hcan k)|]. by split_and!; [|rewrite Hh; lia|..]. }
  assert (Hhash : ∃ hashes, mapR (λ x, block_hash (sb_block x)) chain = Ok hashes).
  { clear -Hok. induction chain as [|x chain IH]; [by exists []|]. apply Forall_cons in Hok as [(_ & _ & _ & _ & hash & Hh & _) Hok].
    destruct (IH Hok) as [hashes Hm]. cbn [mapR]. rewrite Hh. cbn [mbind result_bind]. rewrite Hm. by eexists. }
  destruct Hhash as [hashes Hm]. exists chain, hashes. split_and!; [done|done| |done].
  by apply (chain_headers_linked _ 0 _ _ _ Hsteps).
Qed.

(** A validated GETHEADERS payload. *)
Lemma getheaders_payload p : validate_getheaders p = Ok tt → ∃ locator stop limit v,
  payload_list p "locator" = Ok locator ∧ Forall (λ v, is_hash_value v = true) locator ∧ payload_get p "stop_hash" = Ok stop ∧
  payload_item p "limit" = Ok v ∧ as_int v = Some limit ∧ 0 ≤ limit ≤ 2000.
Proof.
  unfold validate_getheaders. intros E. destruct p as [| | | | | |l]; try discriminate E.
  apply bind_Ok in E as (locator & Hl & E). apply bind_Ok in E as (stop & Hs & E). apply bind_Ok in E as (lim & Hm & E).
  destruct locator as [| | | | |locator|]; try discriminate E. apply raise_if_bind in E as [H1 E]. apply raise_if_bind in E as [_ E].
  apply raise_if_Ok, negb_false_iff in E. destruct (as_int lim) as [z|] eqn:Ez; [|done]. apply orb_false_iff in H1 as [H1 H2].
  apply Z.ltb_ge in H1, H2. assert (Hget : ∀ k v, payload_get (VObj l) k = Ok v → v ≠ VNull → obj_item k l = Ok v).
  { intros k v. unfold payload_get, obj_item. destruct (obj_get (py k) l) as [w|]; [by intros [= <-]|by intros [= <-]]. }
  exists locator, stop, z, lim. split_and!; [|  |done| |done|done|done].
  - unfold payload_list, payload_item. by rewrite (Hget _ _ Hl).
  - apply Forall_forall. intros v Hv. by apply (proj1 (forallb_forall _ _) E), list_elem_of_In.
  - apply Hget; [done|]. by intros ->.
Qed.

(** ** Lemmas: the node that asked *)

(** The first header of a segment extends the block before it, or nothing. *)
Definition anchor (hashes : list str) (start : Z) : str :=
  match Z.to_nat start with O => ZERO_HASH | S k => default [] (hashes !! k) end.

(** What [_handle_headers] asks of that block. *)
Definition connects (c : NodeService) (h : str) : Prop := tip_hash (sv_node c) = Ok h ∨ has_block (n_store (sv_node c)) h = true.

Lemma linked_previous prior l k h : linked prior l → l !! k = Some h →
  match k with
  | O => ∀ p, prior.1 = Some p → bh_previous_hash h = p
  | S j => ∃ h', l !! j = Some h' ∧ header_hash h' = Ok (bh_previous_hash h)
  end.
Proof.
  revert prior k. induction l as [|g l IH]; intros prior k Hl Hk; [done|]. destruct Hl as (hash & Hg & _ & Hp & _ & Hl).
  destruct k as [|k]; [by injection Hk as <-|]. cbn in Hk. specialize (IH _ _ Hl Hk). destruct k as [|k]; [|exact IH].
  exists g. split; [done|]. by rewrite (IH hash eq_refl).
Qed.

Lemma segment_anchor chain hashes start n h hs : mapR (λ x, block_hash (sb_block x)) chain = Ok hashes →
  Forall block_ok (sb_block <$> chain) → linked (Some ZERO_HASH, Some (-1)) (header_from_block <$> (sb_block <$> chain)) →
  segment chain start n = h :: hs → bh_previous_hash h = anchor hashes start.
Proof.
  intros Hh Hok Hl Hs. unfold segment in Hs. set (bs := sb_block <$> chain) in *.
  assert (Hk : (header_from_block <$> bs) !! Z.to_nat start = Some h).
  { assert (Hd : (header_from_block <$> take n (drop (Z.to_nat start) bs)) !! 0%nat = Some h) by (by rewrite Hs).
    rewrite list_lookup_fmap in Hd. apply fmap_Some in Hd as (b & Hb & ->). apply lookup_take_Some in Hb as [Hb _].
    rewrite lookup_drop, Nat.add_0_r in Hb. by rewrite list_lookup_fmap, Hb. }
  apply (linked_previous _ _ _ _ Hl) in Hk. unfold anchor. destruct (Z.to_nat start) as [|k]; [by apply Hk|].
  destruct Hk as (h' & Hk & Hhash). rewrite list_lookup_fmap in Hk. apply fmap_Some in Hk as (b & Hb & ->).
  pose proof (Forall_lookup_1 _ _ _ _ Hok Hb) as [Hc _]. rewrite header_from_block_hash in Hhash by done.
  unfold bs in Hb. rewrite list_lookup_fmap in Hb. apply fmap_Some in Hb as (sb & Hsb & ->).
  apply mapR_Ok in Hh. destruct (Forall2_lookup_l _ _ _ _ _ Hh Hsb) as (x & Hx & Hxh). rewrite Hx. cbn. congruence.
Qed.

(** The address book stays, and no store for the progress appears. *)
Definition same_peers (s s' : NodeService) : Prop := sv_peers s' = sv_peers s ∧ (sync_store s = None → sync_store s' = None).

#[global] Instance same_peers_preorder : PreOrder same_peers.
Proof. split; [by intros s|]. intros s1 s2 s3 [E1 N1] [E2 N2]. split; [congruence|auto]. Qed.

Lemma peers_record a r c t f : keeps same_peers (record_progress a r c t f).
Proof.
  intros s. split; [apply (record_progress_recorded a r c t f s)|]. intros Hn.
  unfold record_progress, progress_for, update, store_progress, sm_get, sm_put, mbind, SM_bind, mret, SM_ret. cbn. by rewrite Hn.
Qed.

Lemma peers_cached {A} (m : SM NodeService A) : keeps cached m → keeps same_peers m.
Proof. intros Hm s. by destruct (Hm s) as (x & E & _); rewrite E. Qed.

Lemma peers_update f : (∀ s, same_peers s (f s)) → keeps same_peers (update f).
Proof. intros Hf s. apply Hf. Qed.
#[export] Hint Resolve peers_record : bcc.
#[export] Hint Extern 1 (keeps same_peers (update _)) => (apply peers_update; done) : bcc.

Lemma peers_expire now : keeps same_peers (expire_block_downloads now).
Proof.
  unfold expire_block_downloads. cbv zeta. apply keeps_bind; [apply _|apply keeps_get, _|]. intros t.
  apply keeps_bind; [apply _|apply each_keeps; [apply _|]|]; [|intros; apply keeps_ret, _]. intros d. unfold expire_one. keeps_steps.
Qed.

Lemma peers_select source h avoid : keeps same_peers (select_block_download_peer source h avoid).
Proof. apply peers_cached, select_cached. Qed.
#[export] Hint Resolve peers_expire peers_select : bcc.

Lemma peers_request source h avoid now reqs : keeps same_peers (request_block source h avoid now reqs).
Proof. unfold request_block. keeps_steps. Qed.
#[export] Hint Resolve peers_request : bcc.

Lemma peers_want a now reqs h : keeps same_peers (want_header a now reqs h).
Proof. unfold want_header. keeps_steps. Qed.

Lemma raises_bind_at {S A B} P (m : SM S A) (f : A → SM S B) s :
  raises_only P (m s).2 → (∀ s' a, m s = (s', Ok a) → raises_only P (f a s').2) → raises_only P ((m ≫= f) s).2.
Proof.
  intros Hm Hf. unfold mbind, SM_bind. destruct (m s) as [s' [a|e]]; cbn [snd] in *; [by apply Hf|]. intros e' [= <-]. by apply Hm.
Qed.

(** The one exception of the download bookkeeping: a counter that the store of
    the progress cannot hold. *)
Definition overflows (c : NodeService) (e : exn) : bool := exn_is OverflowError e && bool_decide (sync_store c ≠ None).

Section asking.
Variable c : NodeService.

Lemma record_overflows a r k t f s : same_peers c s → raises_only (overflows c) (record_progress a r k t f s).2.
Proof using Type.
  intros [_ Hn]. unfold record_progress, progress_for, update, store_progress, sm_get, sm_put, mbind, SM_bind, mret, SM_ret. cbn.
  destruct (sync_store s) as [m|] eqn:Es; [|by intros e]. intros e E. unfold overflows.
  rewrite bool_decide_eq_true_2 by (intros Hc; by apply Hn in Hc). rewrite andb_true_r. revert e E.
  unfold save_progress, sm_lift, sm_get, sm_put, mbind, SM_bind. cbn. set (p := add_progress _ _ _ _ _).
  assert (Hb : raises_only (exn_is OverflowError) (bind_progress p)).
  { unfold bind_progress, sqlite_int. repeat (apply raises_only_bind; [auto with bcc|intros _ _]). auto with bcc. }
  destruct (bind_progress p) as [u|e']; [by intros e|]. exact Hb.
Qed.

Lemma expire_overflows now s : same_peers c s → raises_only (overflows c) (expire_block_downloads now s).2.
Proof using Type.
  intros Hs. unfold expire_block_downloads. cbv zeta. rewrite bind_get_run. apply raises_bind_at; [|by intros s' u _ e].
  set (ds := filter _ _). clearbody ds. revert s Hs. induction ds as [|d ds IH]; intros s Hs; cbn [sm_each]; [by intros e|].
  apply raises_bind_at; [rewrite expire_one_run; by apply record_overflows|]. intros s' u E. apply IH.
  etransitivity; [exact Hs|]. rewrite expire_one_run in E. pose proof (peers_record (dl_peer d) 0 0 1 0 (with_in_flight (dict_pop (dl_hash d) (in_flight s)) s)) as Hp.
  rewrite E in Hp. exact Hp.
Qed.

Lemma keys_known source l s : (∀ a, a ∈ l → is_Some (pm_peers (sv_peers s) !! a)) → ∃ keys, (candidate_keys source l s).2 = Ok keys.
Proof using Type.
  revert s. induction l as [|a l IH]; intros s Hl; cbn [candidate_keys]; [by eexists|].
  rewrite bind_get_run. unfold mbind at 1, SM_bind at 1. rewrite progress_for_run. destruct (Hl a (list_elem_of_here _ _)) as [r Hr].
  set (s1 := with_progress _ _ s). assert (E : on_peers (get_peer a) s1 = (s1, Ok r)).
  { unfold on_peers, sm_zoom, get_peer, sm_get, mbind, SM_bind. change (sv_peers s1) with (sv_peers s). rewrite Hr. done. }
  unfold mbind at 1, SM_bind at 1. rewrite E. destruct (IH s1) as [keys Hk]; [intros b Hb; apply Hl; by right|].
  unfold mbind, SM_bind. destruct (candidate_keys source l s1) as [s2 x]. cbn in Hk. subst x. by eexists.
Qed.

Lemma select_total source h avoid s : service_wf s → ∃ p, (select_block_download_peer source h avoid s).2 = Ok p.
Proof using Type.
  intros Hwf. unfold select_block_download_peer. rewrite bind_get_run. cbv zeta.
  set (all := download_candidates s source h). set (candidates := match filter _ all with [] => all | _ => _ end).
  assert (Hall : ∀ a, a ∈ all → is_Some (sessions s !! a)).
  { intros a [_ ([b x] & -> & Hin)%list_elem_of_fmap]%list_elem_of_filter. apply elem_of_map_to_list in Hin. by exists x. }
  assert (Hcand : ∀ a, a ∈ candidates → a ∈ all).
  { intros a. unfold candidates. destruct (filter _ all) eqn:E; [done|]. rewrite <- E. by intros [_ ?]%list_elem_of_filter. }
  clearbody candidates. destruct candidates as [|b bs] eqn:Eb; [by eexists|]. rewrite <- Eb in *.
  destruct (filter (λ a, in_flight_count s a < max_per_peer s) candidates) as [|l ls] eqn:El; [by eexists|]. rewrite <- El.
  destruct (keys_known source (filter (λ a, in_flight_count s a < max_per_peer s) candidates) s) as [keys Hk].
  - intros a [_ Ha]%list_elem_of_filter. by apply (wf_known _ Hwf), Hall, Hcand.
  - unfold mbind, SM_bind. destruct (candidate_keys source _ s) as [s2 x]. cbn in Hk. subst x. by eexists.
Qed.

Lemma request_overflows source h avoid now reqs s : same_peers c s → service_wf s → raises_only (overflows c) (request_block source h avoid now reqs s).2.
Proof using Type.
  intros Hs Hwf. unfold request_block. rewrite bind_get_run. destruct (negb _); [by intros e|].
  destruct (select_total source h avoid s Hwf) as [p Hp].
  apply raises_bind_at; [rewrite Hp; by intros e|]. intros s1 q E. destruct q as [q|]; [|by intros e].
  assert (Hs1 : same_peers c s1) by (etransitivity; [exact Hs|]; pose proof (peers_select source h avoid s) as Hk; by rewrite E in Hk).
  unfold update. rewrite sm_bind_assoc, bind_get_run. unfold mbind at 1, SM_bind at 1. unfold sm_put at 1.
  apply raises_bind_at; [by apply record_overflows|]. by intros s3 u _ e.
Qed.

Lemma want_overflows a now hs : ∀ reqs s, same_peers c s → service_wf s → is_Some (sessions s !! a) →
  Forall (λ h, is_ok (header_hash h) = true) hs → raises_only (overflows c) (sm_fold (want_header a now) reqs hs s).2.
Proof using Type.
  induction hs as [|h hs IH]; intros reqs s Hs Hwf Ha Hh; cbn [sm_fold]; [by intros e|]. apply Forall_cons in Hh as [Hh Hhs].
  apply is_ok_spec in Hh as [hash Hh]. apply raises_bind_at; unfold want_header at 1; rewrite bind_lift_run, Hh; [by apply request_overflows|].
  intros s1 reqs1 E. pose proof (request_block_ok a hash None now reqs s Hwf Ha) as (W & _ & _ & S).
  pose proof (peers_request a hash None now reqs s) as Hp. rewrite E in W, S, Hp. cbn [fst] in *.
  apply IH; [by etransitivity|done|by rewrite S|done].
Qed.

End asking.

(** Every request is a GETDATA message. *)
Lemma getdata_targets a s reqs : ∃ l, getdata_messages s reqs = Ok l ∧ Forall (λ d, msg_type d = GETDATA) (sr_direct (split_targets a l)).
Proof.
  assert (Hl : ∃ l, getdata_messages s reqs = Ok l ∧ Forall (λ e : str * list PeerMessage, Forall (λ d, msg_type d = GETDATA) e.2) l).
  { unfold getdata_messages. induction reqs as [|[p items] reqs (l & Hl & Hf)]; [exists []; by split|]. cbn [mapR fst snd].
    assert (Hm : ∃ ms, mapR (inventory_message GETDATA) (chunk_inventory s items) = Ok ms ∧ Forall (λ d, msg_type d = GETDATA) ms).
    { induction (chunk_inventory s items) as [|x xs (ms & Hm & Hfm)]; [exists []; by split|]. cbn [mapR]. rewrite Hm.
      eexists. split; [reflexivity|]. by constructor. }
    destruct Hm as (ms & Hm & Hfm). rewrite Hm. cbn [mbind result_bind]. rewrite Hl. eexists. split; [reflexivity|]. by constructor. }
  destruct Hl as (l & Hl & Hf). exists l. split; [done|]. cbn [split_targets sr_direct].
  apply Forall_concat, Forall_fmap, Forall_forall. intros e [_ He]%list_elem_of_filter. by apply (proj1 (Forall_forall _ _) Hf).
Qed.

(** The session notes the headers of a message it has room for. *)
Lemma know_headers hs : ∀ x : PeerSession, zsize (known_inventory x) + zlen hs ≤ max_inventory_items x → Forall (λ h, is_ok (header_hash h) = true) hs →
  ∃ x', sm_each (λ h,
    s ← sm_get;
    sm_lift (raise_if (max_inventory_items s <=? zsize (known_inventory s)) PeerError "known inventory limit reached");;
    hash ← sm_lift (header_hash h);
    sm_put (know (py "block_header", hash) s)) hs x = (x', Ok tt).
Proof.
  induction hs as [|h hs IH]; intros x Hz Hh; [by exists x|]. apply Forall_cons in Hh as [[hash Hh]%is_ok_spec Hhs].
  cbn [sm_each]. rewrite zlen_cons in Hz. pose proof (zlen_nonneg hs). set (x1 := know (py "block_header", hash) x).
  destruct (IH x1) as [x' E]; [|done|].
  - set (k := (py "block_header", hash)) in *. change (zsize (known_inventory x ∪ {[k]}) + zlen hs ≤ max_inventory_items x).
    assert (Hs : (size (known_inventory x ∪ {[k]}) ≤ size (known_inventory x) + 1)%nat).
    { rewrite size_union_alt, <- (size_singleton (C := gset (str * str)) k). apply Nat.add_le_mono_l, subseteq_size. set_solver. }
    unfold zsize in *. lia.
  - exists x'. unfold mbind at 1, SM_bind at 1. rewrite bind_get_run, bind_lift_run, raise_if_false by (apply Z.leb_gt; lia).
    rewrite bind_lift_run, Hh. exact E.
Qed.

Section answers.
Context `{Ed25519} `{NumText}.

Lemma sv_receive_known a x m now s : sessions s !! a = Some x → sv_receive a m now s = sv_answer a m now s.
Proof. intros Hx. unfold sv_receive, sm_try, session_for. unfold mbind, SM_bind, sm_get. by rewrite Hx. Qed.

Lemma node_tip_total n : node_wf n → ∃ t, tip_hash n = Ok t.
Proof.
  intros ([Hwf _] & _). destruct (best_tip_total _ Hwf) as [[t|] Ht]; unfold tip_hash; rewrite Ht; [|by eexists].
  destruct (best_tip_Some _ _ Hwf Ht) as (h & r & _ & _ & Hh & _). by exists h.
Qed.

(** [sv_receive] of a HEADERS message that its session takes. *)
Lemma headers_received a x r now c hs : sessions c !! a = Some x → msg_type r = HEADERS → validate_payload r = Ok tt →
  headers_from_payload (msg_payload r) = Ok hs → zsize (known_inventory x) + zlen hs ≤ max_inventory_items x →
  Forall (λ h, is_ok (header_hash h) = true) hs →
  ∃ x', sv_receive a r now c = sm_try
    (q ← (l ← sv_handle_headers a r now; mret (split_targets a l)); mret (mkResult (sr_direct q) (sr_direct_to q) (sr_relay q) false))
    (λ e, if exn_is MempoolPolicyError e then mret (mkResult [reject_message (py "policy rejected")] [] [] false)
          else if payload_error e then d ← penalize_peer a 10 now; mret (mkResult [reject_message (py "invalid payload")] [] [] d)
          else sm_lift (Err e)) (with_sessions (<[a := x']> (sessions c)) c).
Proof.
  intros Hx Ht Hval Hread Hz Hh. destruct (know_headers hs x Hz Hh) as [x' Hk]. exists x'.
  assert (Hr : receive r x = (x', Ok [])).
  { rewrite receive_run, Hval. unfold handle. rewrite Ht. unfold handle_headers. rewrite bind_lift_run, Hread.
    unfold mbind at 1, SM_bind at 1. rewrite Hk. done. }
  rewrite (sv_receive_known a x) by done. unfold sv_answer. unfold mbind at 1, SM_bind at 1. unfold on_session. rewrite Hx, Hr. cbn [fst snd is_reject].
  unfold sv_dispatch. rewrite Ht. done.
Qed.

(** [_handle_headers], when the first header connects. *)
Lemma headers_taken a r now c hs : node_wf (sv_node c) → service_wf c → is_Some (sessions c !! a) →
  headers_from_payload (msg_payload r) = Ok hs → Forall (λ h, is_ok (header_hash h) = true) hs →
  (∀ h, head hs = Some h → connects c (bh_previous_hash h)) →
  ∃ c2 res, sv_handle_headers a r now c = (c2, res) ∧ same_peers c c2 ∧
  match res with
  | Ok l => Forall (λ d, msg_type d = GETDATA) (sr_direct (split_targets a l))
  | Err e => overflows c e = true
  end.
Proof.
  intros Hn Hwf Ha Hread Hh Hcon. unfold sv_handle_headers. unfold mbind at 1, SM_bind at 1.
  pose proof (expire_overflows c now c (reflexivity c)) as He. pose proof (expire_ok now c Hwf) as (W1 & _ & _ & S1).
  pose proof (peers_expire now c) as P1. pose proof (node_expire now c) as N1.
  destruct (expire_block_downloads now c) as [c1 [ds|e]]; cbn [fst snd] in *; [|exists c1, (Err e); split_and!; [done..|by apply He]].
  rewrite bind_lift_run, Hread, bind_get_run, bind_lift_run.
  assert (Hc : headers_connect c1 hs = Ok tt).
  { unfold headers_connect. destruct hs as [|h hs]; [done|]. unfold same_node in N1. rewrite N1. destruct (node_tip_total _ Hn) as [t Ht]. rewrite Ht.
    cbn [mbind result_bind]. destruct (Hcon h eq_refl) as [E|E]; [|by rewrite E, andb_false_r].
    rewrite bool_decide_eq_true_2 by congruence. done. }
  rewrite Hc. unfold mbind at 1, SM_bind at 1.
  pose proof (want_overflows c a now hs [] c1 P1 W1 ltac:(by rewrite S1) Hh) as Hw.
  assert (P2 : same_peers c1 (sm_fold (want_header a now) [] hs c1).1) by (apply fold_keeps; [apply _|intros; apply peers_want]).
  destruct (sm_fold (want_header a now) [] hs c1) as [c2 [reqs|e]]; cbn [fst snd] in *; [|exists c2, (Err e); split_and!; [done|by etransitivity|by apply Hw]].
  rewrite bind_get_run. destruct (getdata_targets a c2 reqs) as (l & Hl & Hf). unfold sm_lift. rewrite Hl. exists c2, (Ok l). split_and!; [done|by etransitivity|done].
Qed.

(** The same, when it does not. *)
Lemma headers_refused a r now c h hs : node_wf (sv_node c) → headers_from_payload (msg_payload r) = Ok (h :: hs) →
  ¬ connects c (bh_previous_hash h) → ∃ c2 res, sv_handle_headers a r now c = (c2, res) ∧ same_peers c c2 ∧
  match res with
  | Ok _ => False
  | Err e => overflows c e = true ∨ e = Exn NodeServiceError (py "headers do not connect to a known block")
  end.
Proof.
  intros Hn Hread Hcon. unfold sv_handle_headers. unfold mbind at 1, SM_bind at 1.
  pose proof (expire_overflows c now c (reflexivity c)) as He. pose proof (peers_expire now c) as P1. pose proof (node_expire now c) as N1.
  destruct (expire_block_downloads now c) as [c1 [ds|e]]; cbn [fst snd] in *; [|exists c1, (Err e); split_and!; [done..|left; by apply He]].
  rewrite bind_lift_run, Hread, bind_get_run, bind_lift_run.
  assert (Hc : headers_connect c1 (h :: hs) = raise NodeServiceError "headers do not connect to a known block").
  { unfold headers_connect. unfold same_node in N1. rewrite N1. destruct (node_tip_total _ Hn) as [t Ht]. rewrite Ht.
    cbn [mbind result_bind]. unfold connects in Hcon. rewrite bool_decide_eq_false_2 by (intros Et; apply Hcon; left; congruence).
    destruct (has_block _ _); [|done]. exfalso. apply Hcon. by right. }
  rewrite Hc. eexists c1, _. split_and!; [reflexivity|apply P1..|by right].
Qed.

(** A penalty is ten points, whether or not it leads to a ban. *)
Lemma penalty_ten a now c rec : pm_peers (sv_peers c) !! a = Some rec →
  ∃ c2 (res : result bool) rec', penalize_peer a 10 now c = (c2, res) ∧ pm_peers (sv_peers c2) !! a = Some rec' ∧
    pr_misbehavior rec' = pr_misbehavior rec + 10 ∧ raises_only (overflows c) res.
Proof.
  intros Hr. unfold penalize_peer. unfold mbind at 1, SM_bind at 1. unfold on_peers, sm_zoom. rewrite report_misbehavior_run, Hr.
  cbn [Z.ltb Z.compare]. cbv zeta. cbn [fst snd]. set (r2 := if ban_threshold (sv_peers c) <=? pr_misbehavior (blame 10 rec) then banned_at (now + ban_seconds (sv_peers c)) (blame 10 rec) else blame 10 rec).
  assert (Hm : pr_misbehavior r2 = pr_misbehavior rec + 10) by (unfold r2; by case_match).
  set (c1 := with_manager (put a r2 (sv_peers c)) c).
  assert (Hl : pm_peers (sv_peers c1) !! a = Some r2) by apply lookup_insert_eq.
  destruct (is_banned r2); [|exists c1, (Ok false), r2; split_and!; [done..|by intros e]].
  set (c2 := with_sessions (delete a (sessions c1)) c1).
  rewrite (sm_bind_run _ _ _ c2 tt) by done.
  set (c3 := with_in_flight (filter (λ e : str * BlockDownload, dl_peer e.2 ≠ a) (in_flight c2)) c2). set (k := in_flight_count c2 a).
  assert (E : clear_peer_downloads a true c2 = if negb (k =? 0) then record_progress a 0 0 0 k c3 else (c3, Ok tt)).
  { unfold clear_peer_downloads. rewrite bind_get_run. cbv zeta. rewrite (sm_bind_run _ _ _ c3 tt) by done. fold k. by destruct (negb _). }
  unfold mbind, SM_bind. rewrite E.
  destruct (negb _); [|exists c3, (Ok true), r2; split_and!; [done..|by intros e]].
  pose proof (peers_record a 0 0 0 k c3) as [P _]. pose proof (record_overflows c1 a 0 0 0 k c3 ltac:(by split)) as Ho.
  destruct (record_progress a 0 0 0 k c3) as [c4 [u|e]]; cbn [fst snd] in *; (eexists c4, _, r2; split_and!; [reflexivity|by rewrite P|done|]); [by intros e|].
  intros e' [= <-]. by apply Ho.
Qed.

End answers.

(** A session takes another's place. *)
Lemma session_replaced_wf c a x x' : service_wf c → sessions c !! a = Some x → service_wf (with_sessions (<[a := x']> (sessions c)) c).
Proof.
  intros [W1 W2 W3 W4 W5] Hx. assert (Hs : ∀ b, is_Some (<[a := x']> (sessions c) !! b) ↔ is_Some (sessions c !! b)).
  { intros b. destruct (decide (a = b)) as [<-|Hne]; [rewrite lookup_insert_eq, Hx|by rewrite lookup_insert_ne]. split; by eexists. }
  split; [done|done| | |done].
  - intros e He. by apply Hs, W3.
  - intros b Hb. by apply W4, Hs.
Qed.

(** What a consistent node serves. *)
Lemma served_segment `{Ed25519} `{NumText} s m :
  node_wf (sv_node s) → msg_type m = GETHEADERS → validate_payload m = Ok tt →
  ∃ chain hashes locator start n hs r,
    active_chain (n_store (sv_node s)) = Ok chain ∧ mapR (λ x, block_hash (sb_block x)) chain = Ok hashes ∧
    payload_list (msg_payload m) "locator" = Ok locator ∧ locate (heights_by_hash hashes) locator = Ok start ∧
    hs = segment chain start n ∧ (1 ≤ n)%nat ∧
    sv_handle_getheaders m s = (s, Ok r) ∧ msg_type r = HEADERS ∧ headers_from_payload (msg_payload r) = Ok hs ∧
    validate_payload r = Ok tt ∧ zlen hs ≤ 2000 ∧ Forall (λ h, is_ok (header_hash h) = true) hs ∧
    ∀ h hs', hs = h :: hs' → bh_previous_hash h = anchor hashes start.
Proof.
  intros Hwf Ht Hval. unfold validate_payload in Hval. rewrite Ht in Hval.
  apply getheaders_payload in Hval as (locator & stop & limit & lim & Hl & Hlf & Hstop & Hlim & Hz & Hr).
  destruct (node_chain _ Hwf) as (chain & hashes & Hc & Hok & Hlink & Hh).
  destruct (locate_total (heights_by_hash hashes) locator Hlf) as [start Hs].
  set (tail := drop (Z.to_nat start) (zip hashes (sb_block <$> chain))).
  destruct (collect_headers_take limit stop tail 0) as (n & Hcol & Hn & Hle).
  assert (Htail : tail.*2 = drop (Z.to_nat start) (sb_block <$> chain)).
  { unfold tail. rewrite fmap_drop. f_equal. apply snd_zip. pose proof (mapR_length _ _ _ Hh). rewrite length_fmap. lia. }
  rewrite Htail in Hcol. set (hs := header_from_block <$> take n (drop (Z.to_nat start) (sb_block <$> chain))) in *.
  destruct (headers_read_back hs) as (r & Hmsg & Htype & Hread).
  - unfold hs. apply Forall_fmap. apply Forall_take, Forall_drop. eapply Forall_impl; [exact Hok|]. apply header_valid_block.
  - unfold hs. rewrite fmap_take, fmap_drop. by eapply linked_segment.
  - unfold hs, zlen. rewrite length_fmap, length_take. lia.
  - exists chain, hashes, locator, start, n, hs, r. split_and!; try done; [| | | |by intros h hs' E; eapply segment_anchor].
    + unfold sv_handle_getheaders. rewrite bind_get_run. unfold sm_lift. f_equal. rewrite Hc. cbn [mbind result_bind]. rewrite Hl.
      cbn [mbind result_bind]. rewrite Hstop. cbn [mbind result_bind]. rewrite Hlim. cbn [mbind result_bind].
      assert (Hi : py_int lim = Ok limit) by (destruct lim; try discriminate Hz; by injection Hz as <-). rewrite Hi. cbn [mbind result_bind].
      rewrite Hh. cbn [mbind result_bind]. rewrite Hs. cbn [mbind result_bind]. fold tail. by rewrite Hcol.
    + unfold validate_payload, validate_headers. by rewrite Htype, Hread.
    + unfold hs, zlen. rewrite length_fmap, length_take. lia.
    + unfold hs. apply Forall_fmap, Forall_take, Forall_drop. eapply Forall_impl; [exact Hok|]. intros b0 (Hcan & _ & _ & _ & hash & Hhash & _).
      apply is_ok_spec. exists hash. by rewrite <- Hhash, <- header_from_block_hash.
Qed.

(** ** Properties *)


Definition sample_getheaders : PeerMessage := getheaders_message [zeros 64] None 2000.

(** The sample node, with a peer connected, has the genesis block. *)
Definition sample_restarted : NodeService :=
  with_sessions {[py "10.0.0.1:1" := new_session (py "main") (py "node") 0]}
    (with_manager (with_peers {[py "10.0.0.1:1" := mkPeer (py "10.0.0.1:1") 5 0 0 CONNECTED 0 0 true]} sample_manager0) sample_service).
Definition genesis_hash : str := Eval vm_compute in ok_or [] (block_hash sample_genesis).

Lemma sample_restarted_wf : service_wf sample_restarted.
Proof.
  split; cbn; [constructor|by intros e He%elem_of_nil..| |].
  - intros a [y Hy]. apply lookup_singleton_Some in Hy as [<- _]. vm_compute. by eexists.
  - intros a. vm_compute. discriminate.
Qed.


(** What becomes of the answer to a locator that names [h], at a node with the
    same chain: the messages it sends back and the points of the server. *)
Definition asked_with (server : NodeService) (h : str) : option (list MessageType) * option Z :=
  let a := py "10.0.0.1:1" in
  match (@sv_handle_getheaders toy_numtext (getheaders_message [h] None 2000) server).2 with
  | Ok r =>
      let out := @sv_receive toy_ed25519 toy_numtext a r 6 sample_restarted in
      (match out.2 with Ok res => Some (msg_type <$> sr_direct res) | Err _ => None end,
       pr_misbehavior <$> pm_peers (sv_peers out.1) !! a)
  | Err _ => (None, None)
  end.

(** A node with one block more serves it to a node that names its tip; a locator
    that the server does not know costs the server ten points. *)
Example known_locator_taken : asked_with (with_node imported_node sample_service) genesis_hash = (Some [GETDATA], Some 0).
Proof. vm_compute. reflexivity. Qed.

Example unknown_locator_blamed : asked_with (with_node imported_node sample_service) (zeros 64) = (Some [REJECT], Some 10).
Proof. vm_compute. reflexivity. Qed.

Lemma getdata_known `{NumText} x i : inventory_valid i = true → zsize (requested_inventory x) < max_inventory_items x →
  receive (message GETDATA (VObj [(py "items", VArr [inventory_to_value i])])) x = (want (inv_key i) x, Ok []).
Proof.
  intros Hi Hz. rewrite receive_run.
  assert (Hn : zlen [i] ≤ MAX_INVENTORY_ITEMS) by (unfold zlen, MAX_INVENTORY_ITEMS; cbn [length]; lia).
  pose proof (validate_inv [i] (Forall_cons_2 _ _ _ Hi (Forall_nil_2 _)) Hn) as Hv.
  change (validate_payload (message GETDATA (VObj [(py "items", VArr [inventory_to_value i])]))) with (validate_payload (inv_message [i])).
  rewrite Hv. set (m := message GETDATA _). change (handle m x) with (handle_getdata m x). unfold handle_getdata.
  change (payload_list (msg_payload m) "items") with (Ok [inventory_to_value i]). rewrite bind_lift_run. cbn [sm_each].
  unfold mbind, SM_bind, sm_lift, sm_get, sm_put, mret, SM_ret. rewrite inventory_roundtrip by done.
  by rewrite raise_if_false by (apply Z.leb_gt; lia).
Qed.

(** C38: A stored block is refused after a restart.  [_handle_getdata] only looks at
    the blocks the service has seen since it was created, so a peer that follows
    the headers this node serves, and asks for a block that the node has on
    disk, gets a reject instead, and each request costs it ten points. *)
Theorem stored_block_refused `{Ed25519} `{NumText} s a x r h now :
  sessions s !! a = Some x → zsize (requested_inventory x) < max_inventory_items x → is_hash h = true →
  pm_peers (sv_peers s) !! a = Some r → pr_state r ≠ BANNED → pr_misbehavior r + 10 < ban_threshold (sv_peers s) →
  sv_blocks s !! h = None →
  let out := sv_receive a (block_request h) now s in
  out.2 = Ok (mkResult [reject_message (py "invalid payload")] [] [] false) ∧
  pm_peers (sv_peers out.1) !! a = Some (blame 10 r).
Proof.
  intros Hx Hz Hh Hr Hban Hlim Hb out. unfold block_request, block_inventory in out.
  assert (Hi : inventory_valid (mkInventory (py "block") h) = true) by (unfold inventory_valid; cbn [inv_hash]; by rewrite Hh).
  set (m := message GETDATA _) in out. set (s1 := with_sessions (<[a := want (py "block", h) x]> (sessions s)) s).
  assert (Hs : sv_receive a m now s = sv_answer a m now s).
  { unfold sv_receive, sm_try, session_for. unfold mbind, SM_bind, sm_get. rewrite Hx. done. }
  assert (Hg : sv_handle_getdata m s1 = (s1, raise NodeServiceError "requested inventory is unknown")).
  { unfold sv_handle_getdata. rewrite bind_get_run. unfold sm_lift. f_equal.
    change (payload_list (msg_payload m) "items") with (Ok [inventory_to_value (mkInventory (py "block") h)]). cbn [mbind result_bind mapR].
    unfold serve_item. rewrite inventory_roundtrip by done. cbn [mbind result_bind inv_kind inv_hash].
    change (sv_blocks s1) with (sv_blocks s). rewrite Hb. done. }
  assert (Ha : sv_answer a m now s = (d ← penalize_peer a 10 now; mret (mkResult [reject_message (py "invalid payload")] [] [] d)) s1).
  { unfold sv_answer, mbind at 1, SM_bind at 1, on_session. rewrite Hx. subst m. rewrite getdata_known by done. cbn [fst snd is_reject].
    change (inv_key (mkInventory (py "block") h)) with (py "block", h). fold s1. unfold sm_try, sv_dispatch. cbn [msg_type message].
    unfold mbind at 1, SM_bind at 1. unfold mbind at 1, SM_bind at 1. rewrite Hg. done. }
  assert (Hp : penalize_peer a 10 now s1 = (with_manager (put a (blame 10 r) (sv_peers s)) s1, Ok false)).
  { unfold penalize_peer, mbind at 1, SM_bind at 1, on_peers, sm_zoom. change (sv_peers s1) with (sv_peers s).
    rewrite report_misbehavior_run, Hr. cbn [Z.ltb Z.compare]. cbv zeta.
    assert (El : (ban_threshold (sv_peers s) <=? pr_misbehavior (blame 10 r)) = false) by (by apply Z.leb_gt).
    rewrite El. cbn [fst snd]. assert (Ei : is_banned (blame 10 r) = false) by (by apply bool_decide_eq_false). by rewrite Ei. }
  unfold out. rewrite Hs, Ha. unfold mbind, SM_bind. rewrite Hp. split; [done|]. cbn. apply lookup_insert_eq.
Qed.

Lemma stored_block_refused_witness :
  let a := py "10.0.0.1:1" in
  let x := new_session (py "main") (py "node") 0 in
  let r := mkPeer a 5 0 0 CONNECTED 0 0 true in
  let out := @sv_receive toy_ed25519 toy_numtext a (block_request genesis_hash) 6 sample_restarted in
  has_block (n_store (sv_node sample_restarted)) genesis_hash = true ∧
  out.2 = Ok (mkResult [reject_message (py "invalid payload")] [] [] false) ∧ pm_peers (sv_peers out.1) !! a = Some (blame 10 r).
Proof.
  cbv zeta. split; [vm_compute; reflexivity|].
  apply (@stored_block_refused toy_ed25519 toy_numtext sample_restarted (py "10.0.0.1:1") (new_session (py "main") (py "node") 0)).
  - vm_compute. reflexivity.
  - vm_compute. reflexivity.
  - vm_compute. reflexivity.
  - vm_compute. reflexivity.
  - discriminate.
  - vm_compute. reflexivity.
  - vm_compute. reflexivity.
Defined.

(** ** One block from node to node *)

Section propagation.
Context `{Ed25519} `{NumText}.

Lemma block_hash_is_hash b h : block_hash b = Ok h → is_hash h = true.
Proof. unfold block_hash, sha256_hex. intros E. inv_oks. subst. apply hash_text_is_hash, bytes_hex_hash_text, sha256_length. Qed.

(** A message that the session accepts and the dispatch answers. *)
Lemma sv_answer_run a x x' m now s direct s2 r :
  sessions s !! a = Some x → receive m x = (x', Ok direct) → is_reject direct = false →
  sv_dispatch a m now (with_sessions (<[a := x']> (sessions s)) s) = (s2, Ok r) →
  sv_receive a m now s = (s2, Ok (mkResult (direct ++ sr_direct r) (sr_direct_to r) (sr_relay r) false)).
Proof.
  intros Hx Hr Hd Hs. rewrite (sv_receive_known a x) by done. unfold sv_answer, on_session, sm_try, mbind, SM_bind.
  rewrite Hx, Hr. cbn [fst snd]. rewrite Hd, Hs. done.
Qed.


Lemma block_inventory_valid h : is_hash h = true → inventory_valid (block_inventory h) = true.
Proof. intros Hh. unfold inventory_valid. cbn [inv_hash block_inventory]. by rewrite Hh. Qed.

(** The announcement of a block makes the node ask for it. *)
Lemma announced_block_requested a x h now s : is_hash h = true → sessions s !! a = Some x →
  (py "block", h) ∉ known_inventory x → zsize (known_inventory x) < max_inventory_items x →
  ∃ x', sv_receive a (inv_message [block_inventory h]) now s =
    (with_sessions (<[a := x']> (sessions s)) s, Ok (mkResult [block_request h] [] [] false)).
Proof.
  intros Hh Hx Hk Hz. assert (Hv : Forall (λ i, inventory_valid i = true) [block_inventory h]) by (by constructor; [apply block_inventory_valid|]).
  assert (Hf : fresh_items (known_inventory x) [block_inventory h] = [block_inventory h]).
  { cbn [fresh_items]. by rewrite bool_decide_eq_false_2. }
  assert (Hr : ∃ x', receive (inv_message [block_inventory h]) x = (x', Ok [block_request h])).
  { rewrite receive_inv_run; [|done|unfold zlen, MAX_INVENTORY_ITEMS; cbn [length]; lia].
    rewrite inv_loop_fits, Hf; [by eexists|done|]. right. rewrite Hf. unfold zlen. cbn [length]. lia. }
  destruct Hr as [x' Hr]. exists x'. by rewrite (sv_answer_run a x x' _ now s [block_request h] (with_sessions (<[a := x']> (sessions s)) s) (mkResult [] [] [] false) Hx Hr).
Qed.

(** The node that has the block in memory serves it. *)
Lemma requested_block_served a x h b m now s : is_hash h = true → sessions s !! a = Some x →
  zsize (requested_inventory x) < max_inventory_items x → sv_blocks s !! h = Some b → block_message b = Ok m →
  ∃ x', sv_receive a (block_request h) now s = (with_sessions (<[a := x']> (sessions s)) s, Ok (mkResult [m] [] [] false)).
Proof.
  intros Hh Hx Hz Hb Hm. set (x' := want (py "block", h) x). exists x'.
  assert (Hr : receive (block_request h) x = (x', Ok [])) by (by apply getdata_known; [apply block_inventory_valid|]).
  rewrite (sv_answer_run a x x' _ now s [] (with_sessions (<[a := x']> (sessions s)) s) (mkResult [m] [] [] false) Hx Hr); [done|done|].
  unfold sv_dispatch. cbn [msg_type block_request message]. unfold sv_handle_getdata, mbind at 1, SM_bind at 1. rewrite bind_get_run.
  change (payload_list (msg_payload (block_request h)) "items") with (Ok [inventory_to_value (block_inventory h)]).
  unfold sm_lift. cbn [mbind result_bind mapR]. unfold serve_item. rewrite inventory_roundtrip by (by apply block_inventory_valid).
  cbn [mbind result_bind inv_kind inv_hash block_inventory]. cbn [sv_blocks with_sessions].
  rewrite bool_decide_eq_false_2 by done. rewrite bool_decide_eq_true_2, Hb by done. rewrite Hm. done.
Qed.

Lemma remember_Ok ts : ∀ s, Forall (λ t, ∃ y, tx_to_bytes true t = Ok y) ts → ∃ m, remember_transactions ts s = (with_payloads m (sv_blocks s) s, Ok tt).
Proof.
  induction ts as [|t ts IH]; intros s Ht; [exists (sv_transactions s); by destruct s|]. apply Forall_cons in Ht as [[y Hy] Ht].
  unfold remember_transactions. cbn [sm_each]. unfold mbind, SM_bind, sm_lift. unfold txid, mbind. rewrite Hy. cbn [result_bind].
  unfold update, sm_get, sm_put, mbind, SM_bind. destruct (IH (add_transaction (sha256_hex y) t s) Ht) as [m Hm].
  exists m. fold remember_transactions. unfold remember_transactions in Hm. exact Hm.
Qed.

(** A block message that consensus accepts. *)
Lemma received_block_imported a x h b m x0 now s n' stored : canonical_block b → block_to_bytes b = Ok x0 → block_message b = Ok m →
  block_hash b = Ok h → sessions s !! a = Some x → sv_blocks s !! h = None → h ∉ (in_flight s).*1 →
  import_block b (sv_node s) = (n', Ok stored) →
  ∃ s', sv_receive a m now s = (s', Ok (mkResult [] [] [inv_message [block_inventory h]] false)) ∧
    sv_node s' = n' ∧ sv_blocks s' !! h = Some b.
Proof.
  intros Hcan Hbytes Hm Hh Hx Hb Hfl Himp. destruct (block_message_wf _ _ Hcan Hm) as [(_ & _ & Hval) Hpay].
  assert (Ht : msg_type m = BLOCK) by (unfold block_message in Hm; rewrite Hbytes in Hm; by injection Hm as <-).
  assert (Hrec : receive m x = (know (py "block", h) x, Ok [])).
  { rewrite receive_run, Hval. unfold handle. rewrite Ht. unfold handle_block. rewrite bind_lift_run, Hpay, bind_lift_run, Hh. done. }
  set (s1 := with_sessions (<[a := know (py "block", h) x]> (sessions s)) s).
  set (s2 := add_block h b (with_node n' s1)).
  destruct (remember_Ok (transactions b) s2) as [ts Hts]; [by apply (block_bytes_parts _ _ Hbytes)|].
  assert (Hd : sv_dispatch a m now s1 = (with_payloads ts (sv_blocks s2) s2, Ok (mkResult [] [] [inv_message [block_inventory h]] false))).
  { unfold sv_dispatch. rewrite Ht. unfold sv_handle_block, mbind at 1, SM_bind at 1.
    rewrite bind_lift_run, Hpay, bind_lift_run, Hh, bind_get_run. change (sv_blocks s1) with (sv_blocks s). rewrite Hb.
    rewrite bool_decide_eq_false_2 by (by intros [? ?]). unfold mbind at 1, SM_bind at 1, on_node, sm_zoom.
    change (sv_node s1) with (sv_node s). rewrite Himp. cbn [fst snd]. unfold mbind at 1, SM_bind at 1.
    change (update (add_block h b) (with_node n' s1)) with (s2, Ok tt : result unit). cbv beta iota.
    assert (Hf : finish_download h s2 = (s2, Ok tt)).
    { unfold finish_download, sm_get, sm_put, mbind, SM_bind. change (in_flight s2) with (in_flight s).
      rewrite (proj2 (dict_get_None h (in_flight s)) Hfl), dict_pop_absent by done. done. }
    unfold mbind at 1, SM_bind at 1. rewrite Hf. unfold mbind at 1, SM_bind at 1. rewrite Hts. done. }
  eexists. split; [by rewrite (sv_answer_run a x _ m now s [] _ _ Hx Hrec eq_refl Hd)|]. split; [done|]. cbn. apply lookup_insert_eq.
Qed.

End propagation.

(** C17: A block travels.  A node that has a block in memory and a node that would
    accept it are connected: after the announcement, the request and the block
    message, each the answer to the one before, the second node has imported the
    block, keeps it for others and announces it. *)
Theorem block_propagates `{Ed25519} `{NumText} sa sb pa pb xa xb h b bytes n' stored now :
  sessions sa !! pb = Some xb → sessions sb !! pa = Some xa →
  (py "block", h) ∉ known_inventory xb → zsize (known_inventory xb) < max_inventory_items xb →
  zsize (requested_inventory xa) < max_inventory_items xa →
  block_hash b = Ok h → canonical_block b → block_to_bytes b = Ok bytes →
  sv_blocks sb !! h = Some b → sv_blocks sa !! h = None → h ∉ (in_flight sa).*1 → import_block b (sv_node sa) = (n', Ok stored) →
  ∃ sa1 sa2 sb1 request m,
    sv_receive pb (inv_message [block_inventory h]) now sa = (sa1, Ok (mkResult [request] [] [] false)) ∧
    sv_receive pa request now sb = (sb1, Ok (mkResult [m] [] [] false)) ∧
    sv_receive pb m now sa1 = (sa2, Ok (mkResult [] [] [inv_message [block_inventory h]] false)) ∧
    sv_node sa2 = n' ∧ sv_blocks sa2 !! h = Some b.
Proof.
  unfold block_inventory. intros Hxb Hxa Hk Hzk Hzr Hh Hcan Hbytes Hb Ha Hfl Himp. pose proof (block_hash_is_hash _ _ Hh) as Hhash.
  assert (Hm : ∃ m, block_message b = Ok m) by (unfold block_message; rewrite Hbytes; by eexists). destruct Hm as [m Hm].
  destruct (announced_block_requested pb xb h now sa Hhash Hxb Hk Hzk) as [x1 H1].
  destruct (requested_block_served pa xa h b m now sb Hhash Hxa Hzr Hb Hm) as [x2 H2].
  destruct (received_block_imported pb x1 h b m bytes now (with_sessions (<[pb := x1]> (sessions sa)) sa) n' stored) as (sa2 & H3 & Hn & Hblk); try done.
  { cbn. apply lookup_insert_eq. }
  eexists _, sa2, _, _, m. split; [exact H1|]. split; [exact H2|]. by split_and!.
Qed.

Lemma block_propagates_witness :
  let p := py "10.0.0.1:1" in
  let sb := add_block sample_second_hash sample_second sample_restarted in
  ∃ sa1 sa2 sb1 request m,
    @sv_receive toy_ed25519 toy_numtext p (inv_message [block_inventory sample_second_hash]) 6 sample_restarted =
      (sa1, Ok (mkResult [request] [] [] false)) ∧
    @sv_receive toy_ed25519 toy_numtext p request 6 sb = (sb1, Ok (mkResult [m] [] [] false)) ∧
    @sv_receive toy_ed25519 toy_numtext p m 6 sa1 =
      (sa2, Ok (mkResult [] [] [inv_message [block_inventory sample_second_hash]] false)) ∧
    sv_node sa2 = imported_node ∧ sv_blocks sa2 !! sample_second_hash = Some sample_second.
Proof.
  apply (@block_propagates toy_ed25519 toy_numtext sample_restarted (add_block sample_second_hash sample_second sample_restarted)
    (py "10.0.0.1:1") (py "10.0.0.1:1") (new_session (py "main") (py "node") 0) (new_session (py "main") (py "node") 0)
    sample_second_hash sample_second (ok_or [] (block_to_bytes sample_second)) imported_node imported_block 6).
  - vm_compute. reflexivity.
  - vm_compute. reflexivity.
  - apply (bool_decide_unpack ((py "block", sample_second_hash) ∉ (∅ : gset (str * str)))). vm_compute. exact I.
  - vm_compute. reflexivity.
  - vm_compute. reflexivity.
  - vm_compute. reflexivity.
  - exact sample_second_canonical.
  - apply ok_or_spec. vm_compute. reflexivity.
  - vm_compute. reflexivity.
  - vm_compute. reflexivity.
  - apply not_elem_of_nil.
  - exact sample_imported.
Defined.
