(* ===== verification/Server.v ===== *)
(** * The connection handler (transport.py, [NodeTCPHandler])

    One inbound connection from [accept] to its end, over the chunks the socket
    delivers; an empty chunk is the end of the stream.  What is sent is recorded
    in [sr_sent]; a send to an address of [sr_broken] raises [OSError].  The
    handler runs in a thread of its own; here it runs to its end before another
    one starts, and [Threads] interleaves them. *)

From S2P Require Import Prelude PyBytes PyText Sha256 Json Crypto ByteReader Transaction Block Utxo State BlockProcessor ForkStore ForkChoice Stores Policy Mempool Selection Mining Node Peers WireJson JsonText Network Session Transport Service Downloads.
Local Open Scope Z_scope.

(** [NodeTCPServerAdapter]: [_connections] in insertion order. *)
Record Server := mkServer {
  sr_service : NodeService;
  sr_key : bytes;
  sr_connections : list str;
  sr_sent : list (str * bytes);
  sr_broken : list str;
}.

(** [NodeTCPServerAdapter(...)] *)
Definition server_init (service : NodeService) (key : bytes) : result Server :=
  raise_if (bool_decide (key = [])) TransportError "peer auth key is required";; Ok (mkServer service key [] [] []).

Definition with_service (x : NodeService) (s : Server) : Server := mkServer x (sr_key s) (sr_connections s) (sr_sent s) (sr_broken s).
Definition with_connections (l : list str) (s : Server) : Server := mkServer (sr_service s) (sr_key s) l (sr_sent s) (sr_broken s).
Definition with_sent_log (l : list (str * bytes)) (s : Server) : Server := mkServer (sr_service s) (sr_key s) (sr_connections s) l (sr_broken s).

Definition on_service {A} (m : SM NodeService A) : SM Server A := sm_zoom sr_service with_service m.

(** [register_connection] and [unregister_connection] *)
Definition register_connection (a : str) : SM Server unit :=
  s ← sm_get; sm_put (with_connections (if bool_decide (a ∈ sr_connections s) then sr_connections s else sr_connections s ++ [a]) s).
Definition unregister_connection (a : str) : SM Server unit :=
  s ← sm_get; sm_put (with_connections (filter (.≠ a) (sr_connections s)) s).

(** [try ... finally] *)
Definition sm_finally {S A} (m : SM S A) (f : SM S unit) : SM S A := λ s,
  let r := m s in
  match f r.1 with (s', Ok _) => (s', r.2) | (s', Err e) => (s', Err e) end.

Section server.
Context `{Ed25519} `{NumText}.

(** [sendall(message.to_frame(key))] *)
Definition send (a : str) (m : PeerMessage) : SM Server unit :=
  s ← sm_get;
  f ← sm_lift (to_frame m (sr_key s));
  sm_lift (raise_if (bool_decide (a ∈ sr_broken s)) OSError "send failed");;
  sm_put (with_sent_log (sr_sent s ++ [(a, f)]) s).

(** The loop over the messages for one recipient; whether the connection is stale. *)
Definition deliver (a : str) (ms : list PeerMessage) : SM Server bool :=
  sm_try (sm_each (send a) ms;; mret false) (λ e, if exn_is OSError e then mret true else sm_lift (Err e)).

(** [send_to] *)
Definition send_to (a : str) (ms : list PeerMessage) : SM Server unit :=
  s ← sm_get;
  match ms with
  | [] => mret tt
  | _ =>
      if bool_decide (a ∈ sr_connections s)
      then stale ← deliver a ms; if stale : bool then unregister_connection a else mret tt
      else mret tt
  end.

(** The loop over the recipients, which collects the stale ones. *)
Fixpoint deliver_all (l : list str) (ms : list PeerMessage) : SM Server (list str) :=
  match l with
  | [] => mret []
  | a :: l' => stale ← deliver a ms; rest ← deliver_all l' ms; mret (if stale : bool then a :: rest else rest)
  end.

(** [broadcast] *)
Definition broadcast (ms : list PeerMessage) (exclude : str) : SM Server unit :=
  s ← sm_get;
  match ms with
  | [] => mret tt
  | _ => stale ← deliver_all (filter (.≠ exclude) (sr_connections s)) ms; sm_each unregister_connection stale
  end.

(** The loop over the messages of a chunk; whether the connection is over. *)
Fixpoint serve_messages (a : str) (ms : list PeerMessage) : SM Server bool :=
  match ms with
  | [] => mret false
  | m :: ms' =>
      r ← on_service (sv_receive a m 0);
      sm_each (send a) (sr_direct r);;
      sm_each (λ e, send_to e.1 e.2) (sr_direct_to r);;
      broadcast (sr_relay r) a;;
      if sr_disconnect r then mret true else serve_messages a ms'
  end.

(** The loop over the chunks. *)
Fixpoint serve_chunks (a : str) (chunks : list bytes) (buffer : ConnectionBuffer) : SM Server unit :=
  match chunks with
  | [] | [] :: _ => mret tt
  | chunk :: chunks' =>
      let r := feed chunk buffer in
      match r.2 with
      | Ok ms =>
          stop ← serve_messages a ms;
          if stop : bool then mret tt else serve_chunks a chunks' r.1
      | Err e => if exn_is NetworkError e then mret tt else sm_lift (Err e)
      end
  end.

(** [NodeTCPHandler.handle] *)
Definition handle_connection (a : str) (chunks : list bytes) : SM Server unit :=
  admitted ← sm_try (on_service (accept_inbound_peer a 0);; mret true)
               (λ e, if exn_is PeerManagerError e then mret false else sm_lift (Err e));
  if admitted : bool then
    register_connection a;;
    s ← sm_get;
    sm_finally (serve_chunks a chunks (mkBuffer (sr_key s) [])) (unregister_connection a)
  else mret tt.

End server.

(** ** Lemmas: a visit that sends nothing *)

Definition visitor (a : str) : PeerRecord := mkPeer a 0 0 0 CONNECTED 0 0 true.

Lemma new_inbound_count a m r : pm_peers m !! a = None → active_inbound r = false → inbound_count (put a r m) = inbound_count m.
Proof. intros Ha Hr. unfold inbound_count. rewrite count_put. unfold holds_at. rewrite Ha, Hr. cbn. lia. Qed.

Lemma connecting_new a m : validate_address a = Ok tt → pm_peers m !! a = None →
  mark_connecting a 0 true m =
  if max_inbound m <=? inbound_count m then (put a (new_peer a 0 true) m, raise PeerManagerError "inbound peer limit reached")
  else (put a (with_pstate CONNECTING true (new_peer a 0 true)) m, Ok (with_pstate CONNECTING true (new_peer a 0 true))).
Proof.
  intros Hv Ha. rewrite mark_connecting_run, Hv. unfold added. rewrite Ha. cbv zeta.
  change (clear_expired_ban 0 (new_peer a 0 true)) with (new_peer a 0 true). cbn [is_banned].
  change (is_banned (new_peer a 0 true)) with false. cbv iota. rewrite new_inbound_count by done. cbn [andb negb].
  change (bool_decide (pr_state (new_peer a 0 true) = CONNECTED)) with false. cbn [negb]. rewrite andb_true_r.
  by destruct (max_inbound m <=? inbound_count m).
Qed.

Lemma accept_new a s : validate_address a = Ok tt → pm_peers (sv_peers s) !! a = None → is_ok (node_height (sv_node s)) = true →
  inbound_count (sv_peers s) < max_inbound (sv_peers s) →
  ∃ x, accept_inbound_peer a 0 s = (with_sessions (<[a := x]> (sessions s)) (with_manager (put a (visitor a) (sv_peers s)) s), Ok tt).
Proof.
  intros Hv Ha [h Hh]%is_ok_spec Hlt. unfold accept_inbound_peer, on_peers, sm_zoom, mbind, SM_bind.
  rewrite connecting_new, (proj2 (Z.leb_gt _ _)) by done. cbn [fst snd].
  set (s1 := with_manager _ s). rewrite mark_connected_run. change (sv_peers s1) with (put a (with_pstate CONNECTING true (new_peer a 0 true)) (sv_peers s)).
  rewrite lookup_put, decide_True by done. cbv zeta.
  change (clear_expired_ban 0 (with_pstate CONNECTING true (new_peer a 0 true))) with (with_pstate CONNECTING true (new_peer a 0 true)).
  change (is_banned (with_pstate CONNECTING true (new_peer a 0 true))) with false. cbv iota. cbn [fst snd]. rewrite put_put.
  unfold open_session, sm_get, sm_lift, sm_put, mbind, SM_bind. cbn [sv_node with_manager]. change (sv_node s1) with (sv_node s). rewrite Hh.
  by eexists.
Qed.

Section visits.
Context `{Ed25519} `{NumText}.

(** A peer that connects and closes at once. *)
Lemma visit_run a s : validate_address a = Ok tt → pm_peers (sv_peers (sr_service s)) !! a = None →
  is_ok (node_height (sv_node (sr_service s))) = true → sr_connections s = [] →
  inbound_count (sv_peers (sr_service s)) < max_inbound (sv_peers (sr_service s)) →
  let s' := (handle_connection a [] s).1 in
  sr_connections s' = [] ∧ sv_peers (sr_service s') = put a (visitor a) (sv_peers (sr_service s)) ∧
  sv_node (sr_service s') = sv_node (sr_service s) ∧ sr_sent s' = sr_sent s.
Proof.
  intros Hv Ha Hh Hc Hlt. destruct (accept_new a (sr_service s) Hv Ha Hh Hlt) as [x Hx].
  cbv zeta. unfold handle_connection, on_service, sm_zoom, sm_try, mbind, SM_bind. rewrite Hx. cbn [fst snd].
  unfold register_connection, sm_get, sm_put, mbind, SM_bind, mret, SM_ret. cbn [sr_connections with_service]. rewrite Hc.
  split; [|by split_and!].
  change (filter (λ x, x ≠ a) (if bool_decide (a ∈ []) then [] else [a]) = []).
  rewrite bool_decide_eq_false_2 by apply not_elem_of_nil. rewrite filter_cons. by rewrite decide_False by (intros Hn; by apply Hn).
Qed.

(** The server after some peers came and went. *)
Definition visits (l : list str) (s : Server) : Server := foldl (λ s a, (handle_connection a [] s).1) s l.

Lemma visits_run l : ∀ s, NoDup l → Forall (λ a, validate_address a = Ok tt ∧ pm_peers (sv_peers (sr_service s)) !! a = None) l →
  is_ok (node_height (sv_node (sr_service s))) = true → sr_connections s = [] →
  inbound_count (sv_peers (sr_service s)) + zlen l ≤ max_inbound (sv_peers (sr_service s)) →
  let s' := visits l s in
  sr_connections s' = [] ∧ sv_node (sr_service s') = sv_node (sr_service s) ∧ sr_sent s' = sr_sent s ∧
  max_inbound (sv_peers (sr_service s')) = max_inbound (sv_peers (sr_service s)) ∧
  inbound_count (sv_peers (sr_service s')) = inbound_count (sv_peers (sr_service s)) + zlen l ∧
  ∀ b, b ∉ l → pm_peers (sv_peers (sr_service s')) !! b = pm_peers (sv_peers (sr_service s)) !! b.
Proof.
  induction l as [|a l IH]; intros s Hnd Hl Hh Hc Hm s'; [change s' with s; change (zlen (@nil str)) with 0; rewrite Z.add_0_r; by split_and!|].
  apply NoDup_cons in Hnd as [Hal Hnd]. apply Forall_cons in Hl as [[Hv Ha] Hl]. rewrite zlen_cons in *. pose proof (zlen_nonneg l).
  destruct (visit_run a s Hv Ha Hh Hc) as (C1 & P1 & N1 & S1); [lia|]. set (s1 := (handle_connection a [] s).1) in *.
  assert (Hcount : inbound_count (sv_peers (sr_service s1)) = inbound_count (sv_peers (sr_service s)) + 1).
  { rewrite P1. unfold inbound_count. rewrite count_put. unfold holds_at. rewrite Ha.
    change (Z.b2z (active_inbound (visitor a))) with 1. change (Z.b2z false) with 0. lia. }
  assert (Hmax : max_inbound (sv_peers (sr_service s1)) = max_inbound (sv_peers (sr_service s))) by (by rewrite P1).
  assert (Hl1 : Forall (λ b, validate_address b = Ok tt ∧ pm_peers (sv_peers (sr_service s1)) !! b = None) l).
  { apply Forall_forall. intros b Hb. destruct (proj1 (Forall_forall _ _) Hl b Hb) as [Hvb Hnb]. split; [done|].
    rewrite P1, lookup_put, decide_False by (intros ->; done). done. }
  destruct (IH s1) as (C2 & N2 & S2 & M2 & I2 & L2); [done|done|by rewrite N1|done|lia|].
  change s' with (visits l s1). split_and!; [done|congruence|congruence|congruence|lia|].
  intros b Hb. rewrite L2 by set_solver. rewrite P1, lookup_put, decide_False by set_solver. done.
Qed.

End visits.

(** ** Lemmas: fanout *)

Lemma filter_all {A} (P : A → Prop) `{!∀ x, Decision (P x)} (l : list A) : (∀ x, x ∈ l → P x) → filter P l = l.
Proof.
  induction l as [|x l IH]; intros HP; [done|]. rewrite filter_cons, decide_True by (apply HP; left).
  f_equal. apply IH. intros y Hy. apply HP. by right.
Qed.

(** What the live recipients get. *)
Definition deliveries (l : list str) (broken : list str) (fs : list bytes) : list (str * bytes) :=
  a ← filter (.∉ broken) l; (λ f, (a, f)) <$> fs.

Lemma with_log_same s : with_sent_log (sr_sent s) s = s.
Proof. by destruct s. Qed.

Lemma with_connections_same s : with_connections (sr_connections s) s = s.
Proof. by destruct s. Qed.

Section fanout.
Context `{NumText}.

Lemma send_live a ms : ∀ s fs, mapR (λ m, to_frame m (sr_key s)) ms = Ok fs → a ∉ sr_broken s →
  sm_each (send a) ms s = (with_sent_log (sr_sent s ++ ((λ f, (a, f)) <$> fs)) s, Ok tt).
Proof.
  induction ms as [|m ms IH]; intros s fs Hfs Ha.
  - injection Hfs as <-. cbn [sm_each fmap list_fmap]. by rewrite app_nil_r, with_log_same.
  - apply mapR_cons_Ok in Hfs as (f & fs' & -> & Hf & Hfs). cbn [sm_each]. unfold mbind at 1, SM_bind at 1. unfold send at 1.
    rewrite bind_get_run, bind_lift_run, Hf, bind_lift_run, bool_decide_eq_false_2 by done. unfold sm_put. cbn [raise_if].
    set (s1 := with_sent_log _ s). rewrite (IH s1 fs') by done. f_equal. unfold s1. cbn. by rewrite <- app_assoc.
Qed.

Lemma send_broken a m ms s f : to_frame m (sr_key s) = Ok f → a ∈ sr_broken s →
  sm_each (send a) (m :: ms) s = (s, raise OSError "send failed").
Proof.
  intros Hf Ha. cbn [sm_each]. unfold mbind at 1, SM_bind at 1. unfold send at 1.
  by rewrite bind_get_run, bind_lift_run, Hf, bind_lift_run, bool_decide_eq_true_2 by done.
Qed.

Lemma deliver_run a ms s fs : ms ≠ [] → mapR (λ m, to_frame m (sr_key s)) ms = Ok fs →
  deliver a ms s = (with_sent_log (sr_sent s ++ deliveries [a] (sr_broken s) fs) s, Ok (bool_decide (a ∈ sr_broken s))).
Proof.
  intros Hms Hfs. unfold deliver, sm_try, deliveries. case_bool_decide as Ha.
  - destruct ms as [|m ms]; [done|]. pose proof Hfs as Hfs'. apply mapR_cons_Ok in Hfs' as (f & fs' & -> & Hf & _).
    unfold mbind at 1, SM_bind at 1. rewrite (send_broken a m ms s f) by done. rewrite filter_cons, decide_False by auto.
    cbn. by rewrite app_nil_r, with_log_same.
  - unfold mbind at 1, SM_bind at 1. rewrite (send_live a ms s fs) by done. rewrite filter_cons, decide_True by auto.
    cbn. by rewrite app_nil_r.
Qed.

Lemma deliveries_cons a l broken fs : deliveries (a :: l) broken fs = deliveries [a] broken fs ++ deliveries l broken fs.
Proof. unfold deliveries. rewrite !filter_cons, filter_nil. destruct (decide _); cbn; [by rewrite app_nil_r|done]. Qed.

Lemma deliver_all_run l ms fs : ms ≠ [] → ∀ s, mapR (λ m, to_frame m (sr_key s)) ms = Ok fs →
  deliver_all l ms s = (with_sent_log (sr_sent s ++ deliveries l (sr_broken s) fs) s, Ok (filter (.∈ sr_broken s) l)).
Proof.
  intros Hms. induction l as [|a l IH]; intros s Hfs; cbn [deliver_all].
  - unfold deliveries. cbn. by rewrite app_nil_r, with_log_same.
  - unfold mbind at 1, SM_bind at 1. rewrite (deliver_run a ms s fs) by done. set (s1 := with_sent_log _ s).
    unfold mbind, SM_bind. rewrite (IH s1) by done. unfold mret, SM_ret. rewrite deliveries_cons, filter_cons.
    unfold s1. cbn [sr_sent with_sent_log sr_broken]. rewrite <- app_assoc. f_equal. f_equal. case_bool_decide; [by rewrite decide_True|by rewrite decide_False].
Qed.

Lemma unregister_all l : ∀ s, sm_each unregister_connection l s = (with_connections (filter (.∉ l) (sr_connections s)) s, Ok tt).
Proof.
  induction l as [|a l IH]; intros s.
  - cbn [sm_each]. rewrite (filter_all (.∉ [])) by (intros; apply not_elem_of_nil). by rewrite with_connections_same.
  - cbn [sm_each]. unfold mbind at 1, SM_bind at 1. unfold unregister_connection at 1. rewrite bind_get_run. unfold sm_put. rewrite IH.
    cbn [sr_connections with_connections]. f_equal. unfold with_connections. cbn. f_equal. rewrite list_filter_filter.
    apply list_filter_iff. intros x. rewrite elem_of_cons. tauto.
Qed.

(** The loop over messages, cut into two. *)
Lemma serve_messages_app `{Ed25519} a l1 l2 s :
  serve_messages a (l1 ++ l2) s = (stop ← serve_messages a l1; if stop : bool then mret true else serve_messages a l2) s.
Proof.
  revert s. induction l1 as [|m l1 IH]; intros s; [done|]. cbn [app serve_messages].
  rewrite sm_bind_assoc. apply sm_bind_ext. intros r s1. do 3 (rewrite sm_bind_assoc; apply sm_bind_ext; intros [] ?).
  by destruct (sr_disconnect r).
Qed.

End fanout.

(** The chunks of a stream of frames, whatever the cuts: what [serve_chunks]
    does is what the loop over the messages does. *)
Lemma serve_stream `{Ed25519} `{NumTextOk} a key p chunks : ∀ ms fs d s,
  framed key ms fs → Forall (.≠ []) chunks → d ++ concat chunks = concat fs ++ p →
  has_complete_frame d = Ok false → has_complete_frame p = Ok false →
  serve_chunks a chunks (mkBuffer key d) s = (serve_messages a ms;; mret tt) s.
Proof.
  induction chunks as [|c chunks IH]; intros ms fs d s Hfr Hne Heq Hd Hp.
  - cbn [concat] in Heq. rewrite app_nil_r in Heq. subst d. destruct Hfr as [|m f ms fs [_ Hf] _]; [done|].
    destruct (to_frame_parts _ _ _ Hf) as (payload & len & body & _ & Hparts).
    cbn [concat] in Hd. rewrite <- app_assoc, (frame_complete _ _ _ _ _ _ Hparts) in Hd. done.
  - apply Forall_cons in Hne as [Hc Hne]. destruct c as [|x c]; [done|]. cbn [concat serve_chunks] in *. rewrite app_assoc in Heq.
    destruct (drain_stream key ms fs Hfr (S (length (d ++ x :: c))) (d ++ x :: c) (concat chunks) p Heq Hp) as (ms1 & ms2 & fs2 & d' & -> & Hfr2 & Heq2 & Hd' & Hrun); [lia|].
    cbv zeta. rewrite feed_drain, Hrun. cbn [fst snd].
    rewrite (sm_bind_congr _ _ _ _ (serve_messages_app a ms1 ms2 s)), sm_bind_assoc.
    apply sm_bind_ext. intros [] s1; [done|]. by apply (IH ms2 fs2 d').
Qed.

(** ** Properties *)

(** Fanout is exact and isolates failures.  [broadcast] of messages that can
    be framed sends every one of them, in order, to every registered connection
    but the excluded one; a connection whose socket fails gets nothing, is
    unregistered, and does not keep the others from being served. *)
Theorem broadcast_delivers `{NumText} ms fs exclude s : ms ≠ [] → mapR (λ m, to_frame m (sr_key s)) ms = Ok fs →
  broadcast ms exclude s =
  (mkServer (sr_service s) (sr_key s)
     (filter (λ a, a = exclude ∨ a ∉ sr_broken s) (sr_connections s))
     (sr_sent s ++ deliveries (filter (.≠ exclude) (sr_connections s)) (sr_broken s) fs)
     (sr_broken s), Ok tt).
Proof.
  intros Hms Hfs. unfold broadcast. rewrite bind_get_run. destruct ms as [|m ms]; [done|].
  erewrite sm_bind_run by (by apply deliver_all_run). rewrite unregister_all. unfold with_connections. cbn. f_equal. f_equal.
  apply filter_ext_in. intros a Ha. rewrite !list_elem_of_filter. destruct (decide (a = exclude)); tauto.
Qed.

Definition sample_server0 : Server := mkServer sample_service sample_key [] [] [].
Definition sample_fanout : Server :=
  mkServer sample_service sample_key [py "10.0.0.1:5"; py "10.0.0.2:7"; py "10.0.0.3:9"] [] [py "10.0.0.2:7"].

Lemma broadcast_delivers_witness :
  @broadcast toy_numtext [sample_ping] (py "10.0.0.1:5") sample_fanout =
  (mkServer sample_service sample_key [py "10.0.0.1:5"; py "10.0.0.3:9"] [(py "10.0.0.3:9", sample_ping_frame)] [py "10.0.0.2:7"], Ok tt).
Proof.
  apply (@broadcast_delivers toy_numtext [sample_ping] [sample_ping_frame] (py "10.0.0.1:5") sample_fanout).
  - discriminate.
  - change (sr_key sample_fanout) with sample_key. cbn [mapR]. rewrite sample_ping_framed. reflexivity.
Defined.

(** C18: The handler serves messages, not chunks.  However the stream of a
    connection is cut, the frames of valid messages are served in order exactly
    as if the messages arrived one by one: same states, same replies, same
    relays and the same end, errors and disconnects included. *)
Theorem stream_served `{Ed25519} `{NumTextOk} a key ms fs p chunks s :
  Forall2 (λ m f, message_wf m ∧ to_frame m key = Ok f) ms fs → has_complete_frame p = Ok false →
  Forall (.≠ []) chunks → concat chunks = concat fs ++ p →
  serve_chunks a chunks (mkBuffer key []) s = (serve_messages a ms;; mret tt) s.
Proof. intros Hfr Hp Hne Heq. by apply (serve_stream a key p chunks ms fs []). Qed.

Lemma stream_served_witness :
  @serve_chunks toy_ed25519 toy_numtext (py "10.0.0.1:5") [take 5 sample_stream; drop 5 sample_stream] (mkBuffer sample_key []) sample_server0 =
  (@serve_messages toy_ed25519 toy_numtext (py "10.0.0.1:5") [sample_ping; sample_ping];; mret tt) sample_server0.
Proof.
  apply (@stream_served toy_ed25519 toy_numtext toy_numtext_ok (py "10.0.0.1:5") sample_key [sample_ping; sample_ping]
    [sample_ping_frame; sample_ping_frame] (b_lit "BCCN")).
  - apply Forall2_cons. split; [split; [exact sample_ping_wf|exact sample_ping_framed]|].
    apply Forall2_cons. split; [split; [exact sample_ping_wf|exact sample_ping_framed]|]. constructor.
  - reflexivity.
  - repeat constructor; discriminate.
  - vm_compute. reflexivity.
Defined.


(** Inbound slots leak.  The handler registers a peer with the service but
    never takes it back when the connection ends.  Once as many peers as there
    are inbound slots have connected and closed, nobody is connected, and every
    further new peer is turned away: its connection is neither registered nor
    read, whatever it sends. *)
Theorem inbound_slots_leak `{Ed25519} `{NumText} s l b chunks :
  sr_connections s = [] → is_ok (node_height (sv_node (sr_service s))) = true → NoDup (b :: l) →
  Forall (λ a, validate_address a = Ok tt ∧ pm_peers (sv_peers (sr_service s)) !! a = None) (b :: l) →
  inbound_count (sv_peers (sr_service s)) + zlen l = max_inbound (sv_peers (sr_service s)) →
  let s' := visits l s in
  sr_connections s' = [] ∧
  ∃ p, handle_connection b chunks s' = (with_service (with_manager p (sr_service s')) s', Ok tt).
Proof.
  intros Hc Hh Hnd Hl Hfull s'. apply NoDup_cons in Hnd as [Hb Hnd]. apply Forall_cons in Hl as [[Hv Hn] Hl].
  destruct (visits_run l s Hnd Hl Hh Hc) as (C & _ & _ & M & I & L); [lia|]. fold s' in C, M, I, L. split; [done|].
  specialize (L b Hb). rewrite Hn in L. exists (put b (new_peer b 0 true) (sv_peers (sr_service s'))).
  unfold handle_connection, on_service, sm_zoom, sm_try, mbind, SM_bind, accept_inbound_peer, on_peers, sm_zoom, mbind, SM_bind.
  rewrite connecting_new by done. rewrite (proj2 (Z.leb_le _ _)) by lia. done.
Qed.

Lemma inbound_slots_leak_witness :
  let s' := @visits toy_ed25519 toy_numtext [py "10.0.0.1:5"] sample_server0 in
  sr_connections s' = [] ∧
  ∃ p, @handle_connection toy_ed25519 toy_numtext (py "10.0.0.2:7") [sample_ping_frame] s' =
    (with_service (with_manager p (sr_service s')) s', Ok tt).
Proof.
  apply (@inbound_slots_leak toy_ed25519 toy_numtext sample_server0 [py "10.0.0.1:5"] (py "10.0.0.2:7") [sample_ping_frame]).
  - reflexivity.
  - vm_compute. reflexivity.
  - apply (bool_decide_unpack (NoDup [py "10.0.0.2:7"; py "10.0.0.1:5"])). vm_compute. exact I.
  - repeat constructor.
  - vm_compute. reflexivity.
Defined.
