(* ===== verification/Threads.v ===== *)
(** * Connections in threads (transport.py, [ThreadedTCPServer])

    Every connection has a thread that runs the handler.  Here the threads
    interleave: a step of a thread is its accept, one [recv], or serving one
    message.  Which thread steps next is the schedule.  A call into the service is
    one step, though nothing in the code locks it; [import_race] and
    [admission_race] show what a switch inside such a call can do.  A [recv] that raises ends a thread as the
    end of the stream does.  [th_served] records what was handed to the
    service, by connection. *)

From S2P Require Import Prelude PyBytes PyText Sha256 Json Crypto ByteReader Transaction Block Utxo State BlockProcessor ForkStore ForkChoice Stores Policy Mempool Selection Mining Node Peers WireJson JsonText Network Session Transport Service Downloads Relay Server.
Local Open Scope Z_scope.

(** ** Threads *)

(** The local variables of a handler: its buffer and the rest of [messages]. *)
Record Handler := mkHandler { h_buffer : ConnectionBuffer; h_pending : list PeerMessage }.

Record Threads := mkThreads {
  th_server : Server;
  th_handlers : gmap str Handler;
  th_served : list (str * PeerMessage);
}.

Inductive thread_event := EAccept (a : str) | ERecv (a : str) (chunk : bytes) | EServe (a : str).

Definition event_address (e : thread_event) : str := match e with EAccept a | ERecv a _ | EServe a => a end.

(** [finally: server.unregister_connection(address)] *)
Definition hang_up (a : str) (t : Threads) : Threads :=
  mkThreads (unregister_connection a (th_server t)).1 (delete a (th_handlers t)) (th_served t).

Section threads.
Context `{Ed25519} `{NumText}.

(** The body of [for message in messages]; whether to disconnect. *)
Definition serve_message (a : str) (m : PeerMessage) : SM Server bool :=
  r ← on_service (sv_receive a m 0);
  sm_each (send a) (sr_direct r);;
  sm_each (λ e, send_to e.1 e.2) (sr_direct_to r);;
  broadcast (sr_relay r) a;;
  mret (sr_disconnect r).

(** One step of one thread; [None] when the thread cannot make it. *)
Definition fire (e : thread_event) (t : Threads) : option Threads :=
  match e with
  | EAccept a =>
      match th_handlers t !! a with
      | Some _ => None
      | None =>
          let r := (on_service (accept_inbound_peer a 0);; register_connection a) (th_server t) in
          Some (mkThreads r.1
            (if is_ok r.2 then <[a := mkHandler (mkBuffer (sr_key (th_server t)) []) []]> (th_handlers t) else th_handlers t) (th_served t))
      end
  | ERecv a chunk =>
      match th_handlers t !! a with
      | Some (mkHandler b []) =>
          match chunk with
          | [] => Some (hang_up a t)
          | _ =>
              let r := feed chunk b in
              match r.2 with
              | Ok ms => Some (mkThreads (th_server t) (<[a := mkHandler r.1 ms]> (th_handlers t)) (th_served t))
              | Err _ => Some (hang_up a t)
              end
          end
      | _ => None
      end
  | EServe a =>
      match th_handlers t !! a with
      | Some (mkHandler b (m :: ms)) =>
          let r := serve_message a m (th_server t) in
          let t' := mkThreads r.1 (<[a := mkHandler b ms]> (th_handlers t)) (th_served t ++ [(a, m)]) in
          Some (match r.2 with Ok false => t' | _ => hang_up a t' end)
      | _ => None
      end
  end.

(** A schedule. *)
Fixpoint run_schedule (es : list thread_event) (t : Threads) : option Threads :=
  match es with
  | [] => Some t
  | e :: es' => t' ← fire e t; run_schedule es' t'
  end.

End threads.

(** The bytes a connection received in a schedule, and the messages it served. *)
Definition received_bytes (a : str) (es : list thread_event) : bytes :=
  concat ((λ e, match e with ERecv b chunk => if bool_decide (b = a) then chunk else [] | _ => [] end) <$> es).

Definition served_by (a : str) (t : Threads) : list PeerMessage := (filter (λ e, e.1 = a) (th_served t)).*2.

(** ** Lemmas: schedules *)

Section schedules.
Context `{Ed25519} `{NumText}.

Lemma run_schedule_app es1 es2 t : run_schedule (es1 ++ es2) t = (t' ← run_schedule es1 t; run_schedule es2 t').
Proof.
  revert t. induction es1 as [|e es1 IH]; intros t; [done|]. cbn [app run_schedule]. destruct (fire e t); [|done]. apply IH.
Qed.

(** An invariant of the steps is one of the schedules. *)
Lemma schedule_invariant (P : Threads → Prop) es t t' :
  (∀ e t t', fire e t = Some t' → P t → P t') → run_schedule es t = Some t' → P t → P t'.
Proof.
  intros Hstep. revert t. induction es as [|e es IH]; intros t E Ht; [by injection E as <-|]. cbn [run_schedule] in E.
  destruct (fire e t) as [t1|] eqn:Ef; [|done]. cbn in E. eapply IH; [exact E|]. by eapply Hstep.
Qed.

Lemma serve_messages_cons a m ms s :
  serve_messages a (m :: ms) s = (stop ← serve_message a m; if stop : bool then mret true else serve_messages a ms) s.
Proof.
  cbn [serve_messages]. unfold serve_message. rewrite sm_bind_assoc. apply sm_bind_ext. intros r s1.
  do 3 (rewrite sm_bind_assoc; apply sm_bind_ext; intros [] ?). done.
Qed.

(** A thread that runs alone: the rest of a chunk, *)
Lemma serve_alone a b ms : ∀ t, th_handlers t !! a = Some (mkHandler b ms) →
  ∃ es t', Forall (λ e, event_address e = a) es ∧ run_schedule es t = Some t' ∧
    let r := serve_messages a ms (th_server t) in
    match r.2 with
    | Ok false => th_server t' = r.1 ∧ th_handlers t' = <[a := mkHandler b []]> (th_handlers t)
    | _ => th_server t' = (unregister_connection a r.1).1 ∧ th_handlers t' = delete a (th_handlers t)
    end.
Proof.
  induction ms as [|m ms IH]; intros t Ht.
  - exists [], t. split; [constructor|]. split; [done|]. cbn. by rewrite insert_id.
  - rewrite serve_messages_cons. unfold mbind, SM_bind.
    assert (Hf : fire (EServe a) t = Some (match (serve_message a m (th_server t)).2 with
      | Ok false => mkThreads (serve_message a m (th_server t)).1 (<[a := mkHandler b ms]> (th_handlers t)) (th_served t ++ [(a, m)])
      | _ => hang_up a (mkThreads (serve_message a m (th_server t)).1 (<[a := mkHandler b ms]> (th_handlers t)) (th_served t ++ [(a, m)]))
      end)) by (cbn [fire]; by rewrite Ht).
    destruct (serve_message a m (th_server t)) as [s1 [[]|e]]; cbn [fst snd] in Hf.
    + exists [EServe a]. eexists. split; [by constructor|]. split; [cbn [run_schedule]; rewrite Hf; done|].
      split; [done|]. cbn [hang_up th_handlers]. apply delete_insert_eq.
    + set (t1 := mkThreads _ _ _) in Hf. destruct (IH t1) as (es & t' & Hes & Hrun & Hr); [apply lookup_insert_eq|].
      exists (EServe a :: es), t'. split; [by constructor|]. split; [cbn [run_schedule]; by rewrite Hf|]. cbv zeta in Hr |- *.
      change (th_server t1) with s1 in Hr. change (th_handlers t1) with (<[a := mkHandler b ms]> (th_handlers t)) in Hr.
      rewrite insert_insert_eq, delete_insert_eq in Hr. exact Hr.
    + exists [EServe a]. eexists. split; [by constructor|]. split; [cbn [run_schedule]; rewrite Hf; done|].
      split; [done|]. cbn [hang_up th_handlers]. apply delete_insert_eq.
Qed.

(** and the rest of a stream. *)
Lemma receive_alone a chunks : ∀ b t, th_handlers t !! a = Some (mkHandler b []) →
  ∃ es t', Forall (λ e, event_address e = a) es ∧ run_schedule es t = Some t' ∧
    th_server t' = (unregister_connection a (serve_chunks a chunks b (th_server t)).1).1 ∧ th_handlers t' = delete a (th_handlers t).
Proof.
  assert (Hend : ∀ b t, th_handlers t !! a = Some (mkHandler b []) → fire (ERecv a []) t = Some (hang_up a t)) by (intros b t Ht; cbn [fire]; by rewrite Ht).
  induction chunks as [|chunk chunks IH]; intros b t Ht.
  - exists [ERecv a []], (hang_up a t). split; [by constructor|]. split; [cbn [run_schedule]; by rewrite (Hend _ _ Ht)|done].
  - destruct chunk as [|x chunk]; [exists [ERecv a []], (hang_up a t); split; [by constructor|]; split; [cbn [run_schedule]; by rewrite (Hend _ _ Ht)|done]|].
    cbn [serve_chunks]. cbv zeta.
    assert (Hf : fire (ERecv a (x :: chunk)) t = match (feed (x :: chunk) b).2 with
      | Ok ms => Some (mkThreads (th_server t) (<[a := mkHandler (feed (x :: chunk) b).1 ms]> (th_handlers t)) (th_served t))
      | Err _ => Some (hang_up a t)
      end) by (cbn [fire]; by rewrite Ht).
    destruct (feed (x :: chunk) b) as [b' [ms|e]]; cbn [fst snd] in *.
    + set (t1 := mkThreads _ _ _) in Hf. destruct (serve_alone a b' ms t1) as (es & t2 & Hes & Hrun & Hr); [apply lookup_insert_eq|].
      cbv zeta in Hr. change (th_server t1) with (th_server t) in Hr. unfold mbind, SM_bind.
      change (th_handlers t1) with (<[a := mkHandler b' ms]> (th_handlers t)) in Hr. rewrite insert_insert_eq, delete_insert_eq in Hr.
      assert (Hrun' : run_schedule (ERecv a (x :: chunk) :: es) t = Some t2) by (cbn [run_schedule]; by rewrite Hf).
      destruct (serve_messages a ms (th_server t)) as [s1 [[]|e]]; cbn [fst snd] in Hr; destruct Hr as [Hs Hh].
      * exists (ERecv a (x :: chunk) :: es), t2. split; [by constructor|]. by split.
      * destruct (IH b' t2) as (es2 & t' & Hes2 & Hrun2 & Hs2 & Hh2); [rewrite Hh; apply lookup_insert_eq|].
        exists ((ERecv a (x :: chunk) :: es) ++ es2), t'. split; [apply Forall_app; split; [by constructor|done]|].
        split; [rewrite run_schedule_app, Hrun'; exact Hrun2|]. rewrite Hs2, Hs, Hh2, Hh. split; [done|]. apply delete_insert_eq.
      * exists (ERecv a (x :: chunk) :: es), t2. split; [by constructor|]. by split.
    + exists [ERecv a (x :: chunk)], (hang_up a t). split; [by constructor|]. split; [cbn [run_schedule]; by rewrite Hf|].
      split; [|done]. by destruct (exn_is NetworkError e).
Qed.

End schedules.

(** ** Lemmas: what one step keeps *)

(** The node makes progress and connections are only unregistered. *)
Definition server_progress `{Ed25519} (s s' : Server) : Prop :=
  service_progress (sr_service s) (sr_service s') ∧ sr_connections s' `sublist_of` sr_connections s ∧ sr_key s' = sr_key s.

#[global] Instance server_progress_preorder `{Ed25519} : PreOrder server_progress.
Proof.
  split; [by intros s; split_and!|]. intros s1 s2 s3 (P1 & C1 & K1) (P2 & C2 & K2). split_and!; [by etrans|by etrans|congruence].
Qed.

Section progress.
Context `{Ed25519} `{NumText}.

Lemma progress_service {A} (m : SM NodeService A) : keeps service_progress m → keeps server_progress (on_service m).
Proof. intros Hm s. unfold on_service, sm_zoom. cbn [fst]. split_and!; [apply Hm|done|done]. Qed.

Lemma progress_send a m : keeps server_progress (send a m).
Proof.
  intros s. unfold send. rewrite bind_get_run, bind_lift_run. destruct (to_frame m (sr_key s)); [|done]. rewrite bind_lift_run.
  by destruct (raise_if _ _ _).
Qed.

Lemma progress_unregister a : keeps server_progress (unregister_connection a).
Proof. intros s. split_and!; [done|apply sublist_filter|done]. Qed.

#[local] Hint Resolve progress_send progress_unregister : bcc.

Lemma progress_deliver a ms : keeps server_progress (deliver a ms).
Proof.
  unfold deliver. apply keeps_try; [apply _| |intros e; keeps_steps].
  apply keeps_bind; [apply _|apply keeps_each; [apply _|auto with bcc]|intros; keeps_steps].
Qed.

#[local] Hint Resolve progress_deliver : bcc.

Lemma progress_send_to a ms : keeps server_progress (send_to a ms).
Proof. unfold send_to. keeps_steps. Qed.

Lemma progress_deliver_all l ms : keeps server_progress (deliver_all l ms).
Proof. induction l as [|a l IH]; cbn [deliver_all]; keeps_steps. Qed.

#[local] Hint Resolve progress_send_to progress_deliver_all : bcc.

Lemma progress_broadcast ms x : keeps server_progress (broadcast ms x).
Proof.
  unfold broadcast. apply keeps_bind; [apply _|apply keeps_get, _|intros s]. destruct ms; [keeps_steps|].
  apply keeps_bind; [apply _|auto with bcc|intros]. apply keeps_each; [apply _|auto with bcc].
Qed.

Lemma progress_message a m : keeps server_progress (serve_message a m).
Proof.
  unfold serve_message. apply keeps_bind; [apply _|apply progress_service, progress_receive|intros r].
  apply keeps_bind; [apply _|apply keeps_each; [apply _|auto with bcc]|intros].
  apply keeps_bind; [apply _|apply keeps_each; [apply _|auto with bcc]|intros].
  apply keeps_bind; [apply _|apply progress_broadcast|intros; keeps_steps].
Qed.

End progress.

(** Every registered connection has a thread. *)
Definition threads_wf (t : Threads) : Prop :=
  NoDup (sr_connections (th_server t)) ∧ ∀ a, a ∈ sr_connections (th_server t) → is_Some (th_handlers t !! a).

Lemma hang_up_wf a t : threads_wf t → threads_wf (hang_up a t).
Proof.
  intros [Hn Hc]. unfold threads_wf, hang_up. cbn. split; [by apply NoDup_filter|].
  intros b [Hb Hin]%list_elem_of_filter. rewrite lookup_delete_ne by done. by apply Hc.
Qed.

Lemma threads_wf_less t s h l : threads_wf t → sr_connections s `sublist_of` sr_connections (th_server t) →
  (∀ a, is_Some (th_handlers t !! a) → is_Some (h !! a)) → threads_wf (mkThreads s h l).
Proof.
  intros [Hn Hc] Hs Hh. split; cbn; [by eapply sublist_NoDup|]. intros a Ha. apply Hh, Hc. by eapply elem_of_sublist.
Qed.

Section steps.
Context `{Ed25519} `{NumText}.

Definition threads_progress (t t' : Threads) : Prop := service_progress (sr_service (th_server t)) (sr_service (th_server t')).

Lemma insert_is_Some (h : gmap str Handler) a x b : is_Some (h !! b) → is_Some (<[a := x]> h !! b).
Proof. intros Hb. rewrite lookup_insert. by case_decide. Qed.

Lemma fire_accept_wf a t t' : fire (EAccept a) t = Some t' → threads_wf t → threads_wf t' ∧ threads_progress t t'.
Proof.
  cbn [fire]. destruct (th_handlers t !! a) as [|] eqn:Ea; [done|]. intros [= <-] Hwf.
  assert (Hn : a ∉ sr_connections (th_server t)) by (intros Hin; destruct (proj2 Hwf a Hin) as [x Hx]; congruence).
  unfold threads_progress, mbind, SM_bind, on_service, sm_zoom. cbn [th_server].
  pose proof (progress_same _ (node_accept a 0) (sr_service (th_server t))) as Hp.
  destruct (accept_inbound_peer a 0 (sr_service (th_server t))) as [s1 [[]|e]]; cbn [fst snd] in *; (split; [|exact Hp]).
  - unfold register_connection, mbind, SM_bind, sm_get, sm_put. cbn. rewrite bool_decide_eq_false_2 by done.
    destruct Hwf as [Hnd Hc]. split; cbn.
    + apply NoDup_app. split; [done|]. split; [|apply NoDup_singleton]. intros x Hx ->%list_elem_of_singleton. done.
    + intros b [Hb| ->%list_elem_of_singleton]%elem_of_app; [apply insert_is_Some; by apply Hc|by rewrite lookup_insert_eq].
  - by apply (threads_wf_less t).
Qed.

Lemma fire_wf e t t' : fire e t = Some t' → threads_wf t → threads_wf t' ∧ threads_progress t t'.
Proof.
  destruct e as [a|a chunk|a]; [apply fire_accept_wf|cbn [fire]..]; destruct (th_handlers t !! a) as [[b [|m ms]]|] eqn:Ea; try done.
  - destruct chunk as [|x chunk]; [intros [= <-] Hwf; split; [by apply hang_up_wf|by unfold threads_progress]|]. cbv zeta.
    destruct (feed (x :: chunk) b).2; intros [= <-] Hwf; (split; [|by unfold threads_progress]); [|by apply hang_up_wf].
    apply (threads_wf_less t); [done..|]. intros; by apply insert_is_Some.
  - cbv zeta. pose proof (progress_message a m (th_server t)) as (Hp & Hc & _).
    destruct (serve_message a m (th_server t)) as [s1 r]; cbn [fst snd] in *. intros [= <-] Hwf.
    assert (Hwf1 : threads_wf (mkThreads s1 (<[a := mkHandler b ms]> (th_handlers t)) (th_served t ++ [(a, m)]))).
    { apply (threads_wf_less t); [done..|]. intros; by apply insert_is_Some. }
    by destruct r as [[]|]; (split; [first [by apply hang_up_wf|done]|]).
Qed.

End steps.

(** ** Lemmas: the stream of one connection *)

Section stream.
Context `{Ed25519} `{NumTextOk}.

(** Where connection [a] is in the stream of the frames of [ms]: what was served
    since [t0], what is pending and what is still to come. *)
Definition in_stream (a : str) (key : bytes) (ms : list PeerMessage) (later : bytes) (t0 t : Threads) : Prop :=
  match th_handlers t !! a with
  | Some h =>
      ∃ ms1 ms2 fs2 d, ms = ms1 ++ h_pending h ++ ms2 ∧ h_buffer h = mkBuffer key d ∧ framed key ms2 fs2 ∧
        d ++ later = concat fs2 ∧ has_complete_frame d = Ok false ∧ served_by a t = served_by a t0 ++ ms1
  | None => ∃ ms1, ms1 `prefix_of` ms ∧ served_by a t = served_by a t0 ++ ms1
  end.

Lemma served_by_snoc a b m t t' : th_served t' = th_served t ++ [(b, m)] →
  served_by a t' = served_by a t ++ (if bool_decide (b = a) then [m] else []).
Proof.
  unfold served_by. intros ->. rewrite filter_app, fmap_app, filter_cons. cbn. case_bool_decide as Hb; [by rewrite decide_True|by rewrite decide_False].
Qed.

Lemma in_stream_gone a key ms later t0 t ms1 : th_handlers t !! a = None → ms1 `prefix_of` ms → served_by a t = served_by a t0 ++ ms1 →
  in_stream a key ms later t0 t.
Proof. intros Ht Hp Hs. unfold in_stream. rewrite Ht. by exists ms1. Qed.

(** A step of another connection. *)
Lemma in_stream_other a b key ms later t0 t t' : a ≠ b → th_handlers t' !! a = th_handlers t !! a → served_by a t' = served_by a t →
  in_stream a key ms later t0 t → in_stream a key ms later t0 t'.
Proof. unfold in_stream. by intros _ -> ->. Qed.

Lemma fire_other e a t t' : fire e t = Some t' → event_address e ≠ a →
  th_handlers t' !! a = th_handlers t !! a ∧ served_by a t' = served_by a t.
Proof.
  intros E Hne. destruct e as [b|b chunk|b]; cbn [event_address fire] in *.
  - destruct (th_handlers t !! b); [done|]. injection E as <-. cbn. split; [|done]. destruct (is_ok _); [|done]. by rewrite lookup_insert_ne.
  - destruct (th_handlers t !! b) as [[x [|]]|]; [|done..]. destruct chunk as [|c chunk]; [|destruct ((feed (c :: chunk) x).2)]; injection E as <-; cbn.
    + by rewrite lookup_delete_ne.
    + by rewrite lookup_insert_ne.
    + by rewrite lookup_delete_ne.
  - destruct (th_handlers t !! b) as [[x [|m ms]]|]; [done| |done]. cbv zeta in E.
    destruct (serve_message b m (th_server t)) as [s1 r]. cbn [fst snd] in E. injection E as <-.
    assert (Hs : ∀ t', th_served t' = th_served t ++ [(b, m)] → served_by a t' = served_by a t).
    { intros t' Ht'. rewrite (served_by_snoc a b m t t' Ht'), bool_decide_eq_false_2 by done. by rewrite app_nil_r. }
    destruct r as [[]|]; (split; [|by apply Hs]); cbn; by rewrite ?lookup_delete_ne, lookup_insert_ne.
Qed.

(** The bytes an event gives to connection [a]. *)
Definition event_bytes (a : str) (e : thread_event) : bytes :=
  match e with ERecv b chunk => if bool_decide (b = a) then chunk else [] | _ => [] end.

Lemma fire_in_stream e a key ms later t0 t t' : fire e t = Some t' → e ≠ EAccept a →
  in_stream a key ms (event_bytes a e ++ later) t0 t → in_stream a key ms later t0 t'.
Proof using Type*.
  intros E Hacc Hin. destruct (decide (event_address e = a)) as [<-|Hne].
  2: { destruct (fire_other e a t t' E Hne) as [Hh Hs]. apply (in_stream_other a (event_address e) key ms later t0 t t'); [done..|].
       destruct e as [b|b chunk|b]; try exact Hin. cbn in Hin, Hne. by rewrite bool_decide_eq_false_2 in Hin. }
  destruct e as [b|b chunk|b]; cbn [event_address event_bytes] in *; [done|rewrite bool_decide_eq_true_2 in Hin by done|]; cbn [fire] in E;
    unfold in_stream in Hin; destruct (th_handlers t !! b) as [[x [|m pend]]|] eqn:Eb; try done;
    destruct Hin as (ms1 & ms2 & fs2 & d & Hms & Hx & Hfr & Hd & Hinc & Hsv); cbn [h_pending h_buffer] in *.
  - destruct chunk as [|c chunk].
    { injection E as <-. apply (in_stream_gone _ _ _ _ _ _ ms1); [cbn; apply lookup_delete_eq|subst ms; by apply prefix_app_r|exact Hsv]. }
    subst x. rewrite app_assoc in Hd. rewrite feed_drain in E. rewrite <- (app_nil_r (concat fs2)) in Hd.
    destruct (drain_stream key ms2 fs2 Hfr (S (length (d ++ c :: chunk))) (d ++ c :: chunk) later [] Hd incomplete_nil)
      as (msa & msb & fsb & d' & -> & Hfrb & Heqb & Hincb & Hrun); [lia|].
    rewrite Hrun in E. cbn [fst snd] in E. injection E as <-. unfold in_stream. cbn [th_handlers]. rewrite lookup_insert_eq.
    exists ms1, msb, fsb, d'. rewrite app_nil_r in Heqb. by split_and!.
  - cbv zeta in E. destruct (serve_message b m (th_server t)) as [s1 r]. cbn [fst snd] in E. injection E as <-.
    assert (Hs : ∀ t', th_served t' = th_served t ++ [(b, m)] → served_by b t' = served_by b t0 ++ ms1 ++ [m]).
    { intros t' Ht'. by rewrite (served_by_snoc b b m t t' Ht'), bool_decide_eq_true_2, Hsv, <- app_assoc by done. }
    assert (Hpre : ms1 ++ [m] `prefix_of` ms) by (exists (pend ++ ms2); by rewrite Hms, <- app_assoc).
    destruct r as [[]|]; [|unfold in_stream; cbn [th_handlers]; rewrite lookup_insert_eq|].
    + apply (in_stream_gone _ _ _ _ _ _ (ms1 ++ [m])); [cbn; by rewrite lookup_delete_eq|done|by apply Hs].
    + exists (ms1 ++ [m]), ms2, fs2, d. split_and!; [by rewrite Hms, <- app_assoc|done..|by apply Hs].
    + apply (in_stream_gone _ _ _ _ _ _ (ms1 ++ [m])); [cbn; by rewrite lookup_delete_eq|done|by apply Hs].
Qed.

Lemma run_in_stream a key ms es : ∀ later t0 t t', run_schedule es t = Some t' → EAccept a ∉ es →
  in_stream a key ms (received_bytes a es ++ later) t0 t → in_stream a key ms later t0 t'.
Proof using Type*.
  induction es as [|e es IH]; intros later t0 t t' E Hacc Hin; [by injection E as <-|]. cbn [run_schedule] in E.
  destruct (fire e t) as [t1|] eqn:Ef; [|done]. cbn in E. apply not_elem_of_cons in Hacc as [He Hacc].
  apply (IH later t0 t1 t' E Hacc). apply (fire_in_stream e a key ms _ t0 t t1 Ef); [congruence|].
  rewrite app_assoc. exact Hin.
Qed.

End stream.

(** ** A switch inside a call *)

(** [mark_connecting] in two: up to the last of its checks, *)
Definition admit_check (a : str) (now : Z) (inbound : bool) : SM PeerManager unit :=
  r0 ← add_peer a now inbound;
  let r := clear_expired_ban now r0 in
  write a r;;
  m ← sm_get;
  sm_lift (raise_if (is_banned r) PeerManagerError "peer is banned");;
  sm_lift (raise_if (inbound && (max_inbound m <=? inbound_count m) && negb (bool_decide (pr_state r = CONNECTED)))
             PeerManagerError "inbound peer limit reached");;
  sm_lift (raise_if (negb inbound && (max_outbound m <=? outbound_count m) && negb (bool_decide (pr_state r = CONNECTED)))
             PeerManagerError "outbound peer limit reached").

(** and the assignments to the record after them. *)
Definition admit_commit (a : str) (inbound : bool) : SM PeerManager PeerRecord :=
  r ← get_peer a;
  let r' := with_pstate CONNECTING inbound r in
  write a r';; mret r'.

Lemma mark_connecting_halves a now inbound m : mark_connecting a now inbound m = (admit_check a now inbound;; admit_commit a inbound) m.
Proof.
  unfold mark_connecting, admit_check, admit_commit. rewrite sm_bind_assoc. apply sm_bind_ext. intros r0 s1. cbv zeta.
  unfold write, get_peer, sm_lift, sm_get, sm_put, mbind, SM_bind, mret, SM_ret. cbn [pm_peers with_peers].
  repeat match goal with |- context [raise_if ?c ?k ?x] => destruct (raise_if c k x) end; try done. cbn. by rewrite lookup_insert_eq.
Qed.

Lemma admit_check_new a m : validate_address a = Ok tt → pm_peers m !! a = None → inbound_count m < max_inbound m →
  admit_check a 0 true m = (put a (new_peer a 0 true) m, Ok tt).
Proof.
  intros Hv Ha Hlt. unfold admit_check, mbind at 1, SM_bind at 1. rewrite add_peer_run, Hv. unfold added. rewrite Ha. cbv zeta.
  change (clear_expired_ban 0 (new_peer a 0 true)) with (new_peer a 0 true). run_sm. fold (put a (new_peer a 0 true) (put a (new_peer a 0 true) m)).
  rewrite put_put. change (is_banned (new_peer a 0 true)) with false. rewrite new_inbound_count by done.
  change (max_inbound (put a (new_peer a 0 true) m)) with (max_inbound m). rewrite (proj2 (Z.leb_gt _ _)) by done. done.
Qed.

Lemma admit_commit_run a r m : pm_peers m !! a = Some r → admit_commit a true m = (put a (with_pstate CONNECTING true r) m, Ok (with_pstate CONNECTING true r)).
Proof. intros Ha. unfold admit_commit, get_peer. run_sm. by rewrite Ha. Qed.

Section import_halves.
Context `{ED : Ed25519}.

(** [import_block] in two: up to the active chain that [self.state] will follow, *)
Definition import_scan (b : ConsensusBlock) : SM Node (option ConsensusBlock * StoredBlock * ActiveChain) :=
  n ← sm_get;
  old_tip ← sm_lift (best_tip (n_store n));
  h ← sm_lift (try_catch (block_hash b) (λ _, raise ConsensusNodeError "block header is invalid"));
  if is_invalid (d_invalid (n_disk n)) h then
    sm_lift (Err (Exn ConsensusNodeError (py "block is cached as invalid: " ++ cached_reason n h)))
  else
    stored ← store_candidate b h;
    n ← sm_get;
    active ← sm_lift (fc_active_chain (n_fork_choice n) (n_store n));
    mret (sb_block <$> old_tip, stored, active).

(** and from the assignment of [self.state] on. *)
Definition import_assign (b : ConsensusBlock) (x : option ConsensusBlock * StoredBlock * ActiveChain) : SM Node StoredBlock :=
  let '(old_tip, stored, active) := x in
  n ← sm_get;
  sm_put (with_state (ac_state active) n);;
  reorg ← sm_lift (detect_reorg old_tip (ac_tip active));
  sm_put (with_reorg reorg (with_state (ac_state active) n));;
  index_import stored active;;
  settle_mempool b;;
  mret stored.

Lemma import_block_halves b n : import_block b n = (x ← import_scan b; import_assign b x) n.
Proof.
  unfold import_block, import_scan, import_assign, activate, sm_get, sm_lift, sm_put, mret, SM_ret, mbind, SM_bind.
  destruct (best_tip (n_store n)) as [old|]; [|done]. destruct (try_catch _ _) as [h|]; [|done].
  destruct (is_invalid _ h); [done|]. destruct (store_candidate b h n) as [n1 [stored|]]; [|done].
  destruct (fc_active_chain _ _) as [a|]; [|done]. by destruct (detect_reorg _ _).
Qed.

(** The first half stores the block and finds the chain of the new store. *)
Lemma import_scan_Ok b n n1 x : node_wf n → canonical_block b → import_scan b n = (n1, Ok x) →
  n_fork_choice n1 = n_fork_choice n ∧ fs_blocks (n_store n) ⊆ fs_blocks (n_store n1) ∧
  fc_active_chain (n_fork_choice n1) (n_store n1) = Ok x.2 ∧ node_wf (with_state (ac_state x.2) n1).
Proof.
  intros Hn Hc E. unfold import_scan in E. rewrite bind_get_run, bind_lift_run in E.
  destruct (best_tip (n_store n)) as [old|]; [|done]. rewrite bind_lift_run in E.
  destruct (try_catch _ _) as [h|]; [|done]. destruct (is_invalid _ h); [done|].
  destruct (store_candidate_cases b h n) as [(e & Es & _)|(st & sb & Hv & Hp & Es)]; unfold mbind at 1, SM_bind at 1 in E; rewrite Es in E; [done|].
  rewrite bind_get_run, bind_lift_run in E. destruct (stored_accepted _ _ _ _ Hn Hc Hv Hp) as [Hvalid Hsub].
  cbn [n_fork_choice n_store with_disk with_store n_disk d_store] in E. change (n_store (with_disk (with_store st (n_disk n)) n)) with st in E.
  destruct (fc_active_chain (n_fork_choice n) st) as [a|] eqn:Ea; [|done]. injection E as <- <-.
  split; [done|]. split; [exact Hsub|]. split; [exact Ea|]. destruct Hn as (_ & Hs & Hm & _). split; [exact Hvalid|]. split; [done|]. split; [done|]. by exists a.
Qed.

Lemma import_assign_state b x n :
  n_state (import_assign b x n).1 = ac_state x.2 ∧ n_store (import_assign b x n).1 = n_store n ∧
  n_fork_choice (import_assign b x n).1 = n_fork_choice n.
Proof.
  destruct x as [[old sb] a].
  assert (E : import_assign b (old, sb, a) n = match detect_reorg old (ac_tip a) with
    | Ok r => finish_import b sb a (with_reorg r (with_state (ac_state a) n))
    | Err e => (with_state (ac_state a) n, Err e)
    end).
  { unfold import_assign, sm_get, sm_put, sm_lift, mbind, SM_bind. by destruct (detect_reorg _ _). }
  rewrite E. destruct (detect_reorg _ _) as [r|]; [|done].
  pose proof (keeps_finish b sb a (with_reorg r (with_state (ac_state a) n))) as (E1 & E2 & E3 & _). by rewrite E1, E2, E3.
Qed.

(** Above the genesis height, the state a node has does not matter to an import
    that stores the block. *)
Lemma import_any_state b s n n' sb : store_wf (n_store n) → height b ≠ 0 →
  import_block b n = (n', Ok sb) → import_block b (with_state s n) = (n', Ok sb).
Proof.
  intros Hwf Hh E. destruct (best_tip_total _ Hwf) as [old Hold]. rewrite (import_unfold _ _ _ Hold) in E.
  rewrite (import_unfold (with_state s n) b _ Hold). destruct (block_hash b) as [h|]; [|done].
  change (d_invalid (n_disk (with_state s n))) with (d_invalid (n_disk n)). destruct (is_invalid _ h); [done|].
  assert (Hv : validate_import_candidate (with_state s n) b = validate_import_candidate n b).
  { unfold validate_import_candidate. by rewrite (proj2 (Z.eqb_neq _ _) Hh). }
  destruct (store_candidate_cases b h n) as [(e & Es & _)|(st & sb' & Hv1 & Hp & Es)]; rewrite Es in E; [done|].
  destruct (store_candidate_cases b h (with_state s n)) as [(e & _ & [He|He])|(st2 & sb2 & _ & Hp2 & Es2)].
  - congruence.
  - change (n_store (with_state s n)) with (n_store n) in He. by rewrite Hp in He.
  - change (n_store (with_state s n)) with (n_store n) in Hp2. assert (st2 = st ∧ sb2 = sb') as [-> ->] by (rewrite Hp in Hp2; by injection Hp2).
    rewrite Es2. unfold activate, sm_get, sm_lift, sm_put, mbind, SM_bind in E |- *.
    change (n_store (with_disk _ (with_state s n))) with st. change (n_store (with_disk _ n)) with st in E.
    change (n_fork_choice (with_disk _ (with_state s n))) with (n_fork_choice n).
    change (n_fork_choice (with_disk _ n)) with (n_fork_choice n) in E.
    destruct (fc_active_chain (n_fork_choice n) st); [exact E|done].
Qed.

End import_halves.

(** ** Properties *)

(** C19: Interleaving does not reorder.  While the threads of other connections do
    anything in between, the messages handed to the service for a connection are
    a prefix of those whose frames its peer sends, in order, none twice and none
    invented; and when the whole stream was received and nothing is pending,
    they are all of them. *)
Theorem interleaving_order `{Ed25519} `{NumTextOk} a key ms fs later es t t' :
  Forall2 (λ m f, message_wf m ∧ to_frame m key = Ok f) ms fs →
  th_handlers t !! a = Some (mkHandler (mkBuffer key []) []) →
  run_schedule es t = Some t' → EAccept a ∉ es → received_bytes a es ++ later = concat fs →
  ∃ ms1, served_by a t' = served_by a t ++ ms1 ∧ ms1 `prefix_of` ms ∧
    ∀ h, th_handlers t' !! a = Some h → ∃ ms2, ms = ms1 ++ h_pending h ++ ms2 ∧ (later = [] → ms2 = []).
Proof.
  intros Hfr Ha E Hacc Hb.
  assert (Hin : in_stream a key ms later t t').
  { apply (run_in_stream a key ms es later t t t' E Hacc). unfold in_stream. rewrite Ha. exists [], ms, fs, [].
    rewrite Hb, app_nil_r. by split_and!. }
  unfold in_stream in Hin. destruct (th_handlers t' !! a) as [h|].
  - destruct Hin as (ms1 & ms2 & fs2 & d & Hms & _ & Hfr2 & Hd & Hinc & Hs). exists ms1. split; [done|].
    split; [by exists (h_pending h ++ ms2)|]. intros h' [= <-]. exists ms2. split; [done|]. intros ->. rewrite app_nil_r in Hd. subst d.
    destruct Hfr2 as [|m f ms2 fs2 [_ Hf] _]; [done|]. destruct (to_frame_parts _ _ _ Hf) as (payload & len & body & _ & Hparts).
    cbn [concat] in Hinc. by rewrite (frame_complete _ _ _ _ _ _ Hparts) in Hinc.
  - destruct Hin as (ms1 & Hp & Hs). exists ms1. by split_and!.
Qed.

(** Schedules of whole calls.  As long as no call into the service is interrupted
    by another, the node stays consistent and forgets no block however the
    connections take turns, and every registered connection is registered once
    and still has its thread. *)
Theorem interleaving_safe `{Ed25519} `{NumText} es t t' :
  run_schedule es t = Some t' → threads_wf t → node_wf (sv_node (sr_service (th_server t))) →
  threads_wf t' ∧ node_wf (sv_node (sr_service (th_server t'))) ∧
  fs_blocks (n_store (sv_node (sr_service (th_server t)))) ⊆ fs_blocks (n_store (sv_node (sr_service (th_server t')))).
Proof.
  intros E Hwf Hn.
  apply (schedule_invariant (λ u, threads_wf u ∧ threads_progress t u) es t t') in E as [Hwf' Hp].
  - split; [done|]. by apply Hp.
  - intros e u u' Hf [Hu Hpu]. destruct (fire_wf e u u' Hf Hu) as [Hu' Hpu']. split; [done|]. unfold threads_progress in *. by etrans.
  - split; [done|]. by unfold threads_progress.
Qed.

(** The sequential handler is one of the schedules.  A connection whose
    handler runs without interruption leaves the server as [handle_connection]
    does: what is shown of schedules holds of it. *)
Theorem handler_is_schedule `{Ed25519} `{NumText} a chunks t : th_handlers t !! a = None →
  ∃ es t', Forall (λ e, event_address e = a) es ∧ run_schedule es t = Some t' ∧
    th_server t' = (handle_connection a chunks (th_server t)).1 ∧ th_handlers t' = th_handlers t.
Proof.
  intros Ha.
  assert (Hf : fire (EAccept a) t = Some (let r := (on_service (accept_inbound_peer a 0);; register_connection a) (th_server t) in
    mkThreads r.1 (if is_ok r.2 then <[a := mkHandler (mkBuffer (sr_key (th_server t)) []) []]> (th_handlers t) else th_handlers t) (th_served t)))
    by (cbn [fire]; by rewrite Ha).
  unfold handle_connection, sm_try, mbind, SM_bind, on_service, sm_zoom in *.
  destruct (accept_inbound_peer a 0 (sr_service (th_server t))) as [s1 [[]|e]]; cbn [fst snd mret SM_ret] in *.
  - unfold register_connection, mbind, SM_bind, sm_get, sm_put, sm_finally in *. cbn [fst snd is_ok] in *.
    set (conns := if bool_decide _ then _ else _) in *. set (s2 := with_connections conns _) in *.
    set (t1 := mkThreads _ _ _) in Hf.
    destruct (receive_alone a chunks (mkBuffer (sr_key (th_server t)) []) t1) as (es & t' & Hes & Hrun & Hs & Hh); [apply lookup_insert_eq|].
    exists (EAccept a :: es), t'. split; [by constructor|]. split; [cbn [run_schedule]; by rewrite Hf|]. split.
    + rewrite Hs. change (th_server t1) with s2. change (sr_key s2) with (sr_key (th_server t)).
      by destruct (serve_chunks a chunks (mkBuffer (sr_key (th_server t)) []) s2) as [s3 r3].
    + rewrite Hh. cbn [t1 th_handlers]. by apply delete_insert_id.
  - exists [EAccept a]. eexists. split; [by constructor|]. split; [cbn [run_schedule]; by rewrite Hf|]. cbn. by destruct (exn_is PeerManagerError e).
Qed.

(** C7: An import is not thread-safe.  Let a thread be inside [import_block a], the
    block stored and the active chain found but not yet assigned, when another
    imports [b]; then the first goes on.  Both blocks are stored, but the state
    is put back to the one after [a] alone, whatever the first thread's outcome:
    the node is consistent only if importing [b] had not changed the state.  One
    after the other, the two imports leave it consistent. *)
Theorem import_race `{Ed25519} n a b n1 x n2 sb :
  node_wf n → canonical_block a → canonical_block b → height b ≠ 0 →
  import_scan a n = (n1, Ok x) → import_block b n1 = (n2, Ok sb) →
  let n3 := (import_assign a x n2).1 in
  node_wf n2 ∧ n_store n3 = n_store n2 ∧ n_state n3 = n_state (import_block a n).1 ∧
  (node_wf n3 ↔ n_state n2 = n_state n3) ∧ node_wf (import_block b (import_block a n).1).1.
Proof.
  intros Hn Ha Hb Hh Es Eb. cbv zeta. destruct (import_scan_Ok _ _ _ _ Hn Ha Es) as (_ & _ & _ & Hw1).
  pose proof Hw1 as ([Hst _] & _). apply (import_any_state b (ac_state x.2)) in Eb; [|exact Hst|done].
  pose proof (import_wf _ b Hw1 Hb) as (Hw2 & _). rewrite Eb in Hw2. cbn [fst] in Hw2.
  pose proof (import_assign_state a x n2) as (E1 & E2 & E3).
  assert (Hseq : n_state (import_block a n).1 = ac_state x.2).
  { rewrite import_block_halves. unfold mbind, SM_bind. rewrite Es. apply import_assign_state. }
  split; [done|]. split; [done|]. split; [by rewrite E1, Hseq|]. split.
  - destruct Hw2 as (Hv & Hs & Hm & a2 & Ha2 & Est). unfold node_wf. rewrite E1, E2, E3, Est. split.
    + intros (_ & _ & _ & a3 & Ha3 & ->). congruence.
    + intros E. split_and!; [done..|]. by exists a2.
  - apply import_wf; [|done]. by apply import_wf.
Qed.

(** C40: The connection limits are not thread-safe.  With one inbound slot left,
    two threads that admit new peers, one interrupted by the other between the
    check and the assignment of [mark_connecting], admit both and exceed the
    limit; one after the other, the second is refused. *)
Theorem admission_race a b m : a ≠ b → validate_address a = Ok tt → validate_address b = Ok tt →
  pm_peers m !! a = None → pm_peers m !! b = None → inbound_count m + 1 = max_inbound m →
  (let r := (admit_check a 0 true;; admit_check b 0 true;; admit_commit a true;; admit_commit b true) m in
   is_ok r.2 = true ∧ inbound_count r.1 = max_inbound r.1 + 1) ∧
  (mark_connecting a 0 true;; mark_connecting b 0 true) m =
    ((mark_connecting b 0 true (mark_connecting a 0 true m).1).1, raise PeerManagerError "inbound peer limit reached").
Proof.
  intros Hab Hva Hvb Ha Hb Hc. set (na := new_peer a 0 true). set (nb := new_peer b 0 true). split; cbv zeta.
  - unfold mbind, SM_bind. rewrite admit_check_new by (done || lia). fold na. set (m1 := put a na m).
    assert (H1 : inbound_count m1 = inbound_count m) by (by apply new_inbound_count).
    rewrite admit_check_new; [|done|by unfold m1; rewrite lookup_put, decide_False|by rewrite H1; change (max_inbound m1) with (max_inbound m); lia].
    fold nb. set (m2 := put b nb m1).
    assert (H2 : inbound_count m2 = inbound_count m) by (rewrite <- H1; apply new_inbound_count; [by unfold m1; rewrite lookup_put, decide_False|done]).
    assert (Ha2 : pm_peers m2 !! a = Some na) by (unfold m2; rewrite lookup_put, decide_False by done; unfold m1; by rewrite lookup_put, decide_True).
    rewrite (admit_commit_run a na) by done. set (m3 := put a _ m2).
    assert (H3 : inbound_count m3 = inbound_count m + 1).
    { rewrite <- H2. unfold m3, inbound_count. rewrite count_put. unfold holds_at. rewrite Ha2.
      change (Z.b2z (active_inbound na)) with 0. change (Z.b2z (active_inbound (with_pstate CONNECTING true na))) with 1. lia. }
    assert (Hb3 : pm_peers m3 !! b = Some nb) by (unfold m3; rewrite lookup_put, decide_False by done; unfold m2; by rewrite lookup_put, decide_True).
    rewrite (admit_commit_run b nb) by done. cbn [fst snd]. split; [done|].
    change (max_inbound (put b (with_pstate CONNECTING true nb) m3)) with (max_inbound m).
    unfold inbound_count. rewrite count_put. unfold holds_at. rewrite Hb3. fold (inbound_count m3). rewrite H3.
    change (Z.b2z (active_inbound nb)) with 0. change (Z.b2z (active_inbound (with_pstate CONNECTING true nb))) with 1. lia.
  - unfold mbind, SM_bind. rewrite connecting_new, (proj2 (Z.leb_gt _ _)) by (done || lia). fold na. cbn [fst].
    set (m1 := put a _ m). rewrite connecting_new; [|done|by unfold m1; rewrite lookup_put, decide_False].
    assert (H1 : inbound_count m1 = inbound_count m + 1).
    { unfold m1, inbound_count. rewrite count_put. unfold holds_at. rewrite Ha.
      change (Z.b2z (active_inbound (with_pstate CONNECTING true na))) with 1. cbn. lia. }
    rewrite (proj2 (Z.leb_le _ _)); [done|]. change (max_inbound m1) with (max_inbound m). lia.
Qed.

(** ** Samples *)

(** Two connections that take turns. *)
Definition first_peer : str := py "10.0.0.1:5".
Definition second_peer : str := py "10.0.0.2:7".
Definition roomy_server : Server :=
  mkServer (mkService genesis_node (py "main") (py "node") (mkManager 8 32 100 30 3600 86400 ∅) 120 16 128 None ∅ ∅ ∅ [] ∅) sample_key [] [] [].
Definition idle_threads : Threads := mkThreads roomy_server ∅ [].
Definition two_threads : Threads :=
  default idle_threads (@run_schedule toy_ed25519 toy_numtext [EAccept first_peer; EAccept second_peer] idle_threads).
Definition ping_twice : bytes := sample_ping_frame ++ sample_ping_frame.
Definition taking_turns : list thread_event :=
  [ERecv first_peer (take 5 ping_twice); ERecv second_peer sample_ping_frame; ERecv first_peer (drop 5 ping_twice);
   EServe first_peer; EServe second_peer; ERecv second_peer []].
Definition after_turns : Threads := default idle_threads (@run_schedule toy_ed25519 toy_numtext taking_turns two_threads).

Lemma default_Some {A} (d : A) (o : option A) : bool_decide (is_Some o) = true → o = Some (default d o).
Proof. destruct o; [done|]. intros Ho%bool_decide_eq_true. by destruct Ho. Qed.

Lemma turns_run : @run_schedule toy_ed25519 toy_numtext taking_turns two_threads = Some after_turns.
Proof. apply default_Some. vm_compute. reflexivity. Qed.

Lemma interleaving_order_witness :
  ∃ ms1, served_by first_peer after_turns = served_by first_peer two_threads ++ ms1 ∧ ms1 `prefix_of` [sample_ping; sample_ping] ∧
    ∀ h, th_handlers after_turns !! first_peer = Some h → ∃ ms2, [sample_ping; sample_ping] = ms1 ++ h_pending h ++ ms2 ∧ (@nil Byte.byte = [] → ms2 = []).
Proof.
  apply (@interleaving_order toy_ed25519 toy_numtext toy_numtext_ok first_peer sample_key [sample_ping; sample_ping]
           [sample_ping_frame; sample_ping_frame] [] taking_turns two_threads after_turns).
  - do 2 (constructor; [split; [exact sample_ping_wf|exact sample_ping_framed]|]). constructor.
  - vm_compute. reflexivity.
  - exact turns_run.
  - intros Hin. unfold taking_turns in Hin. repeat (rewrite elem_of_cons in Hin; destruct Hin as [[=]|Hin]). by apply not_elem_of_nil in Hin.
  - vm_compute. reflexivity.
Defined.

Lemma interleaving_safe_witness :
  threads_wf after_turns ∧ @node_wf toy_ed25519 (sv_node (sr_service (th_server after_turns))) ∧
  fs_blocks genesis_store ⊆ fs_blocks (n_store (sv_node (sr_service (th_server after_turns)))).
Proof.
  apply (@interleaving_safe toy_ed25519 toy_numtext ([EAccept first_peer; EAccept second_peer] ++ taking_turns) idle_threads after_turns).
  - rewrite (@run_schedule_app toy_ed25519 toy_numtext), (default_Some idle_threads (run_schedule [_; _] idle_threads)); [exact turns_run|].
    vm_compute. reflexivity.
  - split; [constructor|]. intros a Ha. by apply not_elem_of_nil in Ha.
  - exact genesis_node_wf.
Defined.

Lemma handler_is_schedule_witness :
  ∃ es t', Forall (λ e, event_address e = first_peer) es ∧ @run_schedule toy_ed25519 toy_numtext es idle_threads = Some t' ∧
    th_server t' = (@handle_connection toy_ed25519 toy_numtext first_peer [ping_twice] roomy_server).1 ∧ th_handlers t' = ∅.
Proof. apply (@handler_is_schedule toy_ed25519 toy_numtext first_peer [ping_twice] idle_threads). reflexivity. Defined.

Definition one_slot : PeerManager := mkManager 8 1 100 30 3600 86400 ∅.

Lemma admission_race_witness :
  (let r := (admit_check first_peer 0 true;; admit_check second_peer 0 true;; admit_commit first_peer true;; admit_commit second_peer true) one_slot in
   is_ok r.2 = true ∧ inbound_count r.1 = max_inbound r.1 + 1) ∧
  (mark_connecting first_peer 0 true;; mark_connecting second_peer 0 true) one_slot =
    ((mark_connecting second_peer 0 true (mark_connecting first_peer 0 true one_slot).1).1, raise PeerManagerError "inbound peer limit reached").
Proof. apply (@admission_race first_peer second_peer one_slot); [discriminate|vm_compute; reflexivity..]. Defined.

(** The sample chain grows by its second block and, meanwhile, a third. *)
Definition sample_on_second : ConsensusBlock := Eval vm_compute in
  ok_or empty_block (make_block 2 (hash_or (block_hash sample_second)) [sample_coinbase 2 50 "carol"] 0 sample_timestamp 0 [] 1).
Definition second_scanned : Node := (@import_scan toy_ed25519 sample_second genesis_node).1.
Definition second_found : option ConsensusBlock * StoredBlock * ActiveChain :=
  ok_or (None, imported_block, genesis_chain) (@import_scan toy_ed25519 sample_second genesis_node).2.
Definition overtaken : Node := (@import_block toy_ed25519 sample_on_second second_scanned).1.

Lemma import_race_witness :
  let n3 := (@import_assign toy_ed25519 sample_second second_found overtaken).1 in
  (@node_wf toy_ed25519 overtaken ∧ n_store n3 = n_store overtaken ∧
   n_state n3 = n_state (@import_block toy_ed25519 sample_second genesis_node).1 ∧
   (@node_wf toy_ed25519 n3 ↔ n_state overtaken = n_state n3) ∧
   @node_wf toy_ed25519 (@import_block toy_ed25519 sample_on_second (@import_block toy_ed25519 sample_second genesis_node).1).1) ∧
  is_ok (@import_assign toy_ed25519 sample_second second_found overtaken).2 = true ∧ n_state overtaken ≠ n_state n3.
Proof.
  split; [|split].
  - apply (@import_race toy_ed25519 genesis_node sample_second sample_on_second second_scanned second_found overtaken
             (ok_or imported_block (@import_block toy_ed25519 sample_on_second second_scanned).2)).
    + apply genesis_node_wf.
    + apply sample_second_canonical.
    + apply (bool_decide_unpack (canonical_block sample_on_second)). vm_compute. exact I.
    + discriminate.
    + unfold second_scanned, second_found. apply run_ok_or. vm_compute. reflexivity.
    + unfold overtaken. apply run_ok_or. vm_compute. reflexivity.
  - vm_compute. reflexivity.
  - intros E. apply (f_equal (λ s, utxo_total (utxos s))) in E. vm_compute in E. discriminate E.
Defined.
