(* ===== verification/Runtime.v ===== *)
(** * The process around a node (runtime.py; transport.py, the life cycle of [NodeTCPServerAdapter] and [TCPPeerClient])

    [NodeRuntime] owns a node, its service and its TCP server.  What the
    operating system answers when a port is bound is an argument.  The server's
    thread runs [serve_forever] while its socket is open; on a closed socket the
    thread ends at once.  The connections to the databases are those of
    [Databases] and are not counted here: [rt_closed] says that [node.close()] was called. *)

From S2P Require Import Prelude PyBytes PyText Sha256 Json Crypto ByteReader Transaction Block Utxo State BlockProcessor ForkStore ForkChoice Stores Policy Mempool Selection Mining Node Restart Peers WireJson JsonText Network Session Transport Service Server.
Local Open Scope Z_scope.

(** ** Configuration *)

Record NodeRuntimeConfig := mkConfig {
  rc_db_path : str;
  rc_network : str;
  rc_node_id : str;
  rc_host : str;
  rc_port : Z;
  rc_peer_auth_key : bytes;
  rc_difficulty : Z;
  rc_block_subsidy : Z;
  rc_max_money : Z;
}.

(** [NodeRuntimeConfig.validate] *)
Definition config_validate (c : NodeRuntimeConfig) : result unit :=
  raise_if (bool_decide (rc_network c = [])) RuntimeError "network is required";;
  raise_if (bool_decide (rc_node_id c = [])) RuntimeError "node id is required";;
  raise_if (bool_decide (rc_host c = [])) RuntimeError "host is required";;
  raise_if ((rc_port c <? 0) || (65535 <? rc_port c)) RuntimeError "port is out of range";;
  raise_if (bool_decide (rc_peer_auth_key c = [])) RuntimeError "peer auth key is required";;
  raise_if (rc_difficulty c <? 0) RuntimeError "difficulty cannot be negative";;
  raise_if (rc_block_subsidy c <? 0) RuntimeError "block subsidy cannot be negative";;
  raise_if (rc_max_money c <=? 0) RuntimeError "max money must be positive".

(** ** The TCP server *)

(** [NodeTCPServerAdapter.server] and [thread]: the listening socket, and
    whether the thread was started and is alive. *)
Record Listener := mkListener { li_address : str * Z; li_open : bool; li_thread : option bool }.

(** [start] *)
Definition listener_start : SM Listener unit :=
  l ← sm_get;
  sm_lift (raise_if (bool_decide (li_thread l = Some true)) TransportError "server is already running");;
  sm_put (mkListener (li_address l) (li_open l) (Some (li_open l))).

(** [stop] *)
Definition listener_stop : SM Listener unit :=
  l ← sm_get;
  match li_thread l with
  | None => sm_put (mkListener (li_address l) false None)
  | Some _ => sm_put (mkListener (li_address l) false (Some false))
  end.

(** ** The runtime *)

Record NodeRuntime := mkRuntime {
  rt_config : NodeRuntimeConfig;
  rt_server : Server;
  rt_listener : Listener;
  rt_running : bool;
  rt_closed : bool;
}.

Definition rt_node (r : NodeRuntime) : Node := sv_node (sr_service (rt_server r)).

Definition with_server (x : Server) (r : NodeRuntime) : NodeRuntime := mkRuntime (rt_config r) x (rt_listener r) (rt_running r) (rt_closed r).
Definition with_listener (x : Listener) (r : NodeRuntime) : NodeRuntime := mkRuntime (rt_config r) (rt_server r) x (rt_running r) (rt_closed r).
Definition with_running (b : bool) (r : NodeRuntime) : NodeRuntime := mkRuntime (rt_config r) (rt_server r) (rt_listener r) b (rt_closed r).

Definition on_listener {A} (m : SM Listener A) : SM NodeRuntime A := sm_zoom rt_listener with_listener m.

(** [PeerAddressManager()] *)
Definition default_peers : PeerManager := mkManager 8 32 100 30 3600 86400 ∅.

Section runtime.
Context `{Ed25519}.
Variable bind_socket : str → Z → result (str * Z).

(** [NodeTCPServerAdapter(host, port, service, auth_key)] *)
Definition adapter_init (host : str) (port : Z) (service : NodeService) (key : bytes) : result (Server * Listener) :=
  server ← server_init service key;
  address ← bind_socket host port;
  Ok (server, mkListener address true None).

(** What [create] and [open] build around a node. *)
Definition attach (c : NodeRuntimeConfig) (n : Node) : result NodeRuntime :=
  service ← service_init n (rc_network c) (rc_node_id c) default_peers 120 16 128 None;
  server ← adapter_init (rc_host c) (rc_port c) service (rc_peer_auth_key c);
  Ok (mkRuntime c server.1 server.2 false false).

(** [NodeRuntime.create]; [fuel] and [now] as for [ConsensusNode.create]. *)
Definition runtime_create (fuel : nat) (c : NodeRuntimeConfig) (allocations : list (str * Z)) (now : Z) : SM Disk NodeRuntime :=
  sm_lift (config_validate c);;
  n ← node_create fuel allocations (rc_difficulty c) (rc_block_subsidy c) (rc_max_money c) now;
  sm_lift (attach c n).

(** [NodeRuntime.open] *)
Definition runtime_open (c : NodeRuntimeConfig) : SM Disk NodeRuntime :=
  sm_lift (config_validate c);;
  n ← node_open (rc_difficulty c) (rc_block_subsidy c) (rc_max_money c);
  sm_lift (attach c n).

(** [NodeRuntime.address] *)
Definition runtime_address (r : NodeRuntime) : str * Z := li_address (rt_listener r).

(** [NodeRuntime.start] *)
Definition runtime_start : SM NodeRuntime unit :=
  r ← sm_get;
  sm_lift (raise_if (rt_running r) RuntimeError "runtime is already running");;
  on_listener listener_start;;
  r' ← sm_get;
  sm_put (with_running true r').

(** [NodeRuntime.stop] *)
Definition runtime_stop : SM NodeRuntime unit :=
  r ← sm_get;
  (if rt_running r then on_listener listener_stop;; r' ← sm_get; sm_put (with_running false r')
   else if bool_decide (li_thread (rt_listener r) = None) then on_listener listener_stop
   else mret tt);;
  r' ← sm_get;
  sm_put (mkRuntime (rt_config r') (rt_server r') (rt_listener r') (rt_running r') true).

(** [NodeRuntime.mine] *)
Definition runtime_mine (fuel : nat) (miner : str) (now : Z) : SM NodeRuntime unit :=
  sm_zoom rt_server with_server (on_service (mine_local_block fuel miner now));; mret tt.

End runtime.

(** ** The TCP client *)

Inductive received := RecvChunk (chunk : bytes) | RecvReset.

(** [TCPPeerClient]: whether there is a socket, the buffer, and the frames sent. *)
Record TCPPeerClient := mkClient { tc_connected : bool; tc_buffer : ConnectionBuffer; tc_sent : list bytes }.

(** [__init__] *)
Definition client_init (key : bytes) : result TCPPeerClient :=
  raise_if (bool_decide (key = [])) TransportError "peer auth key is required";; Ok (mkClient false (mkBuffer key []) []).

(** [connect]; [factory] is what [socket_factory] answers. *)
Definition client_connect (factory : result unit) : SM TCPPeerClient unit :=
  c ← sm_get;
  sm_lift (raise_if (tc_connected c) TransportError "client is already connected");;
  sm_lift factory;;
  sm_put (mkClient true (tc_buffer c) (tc_sent c)).

(** [close] *)
Definition client_close : SM TCPPeerClient unit :=
  c ← sm_get; sm_put (mkClient false (tc_buffer c) (tc_sent c)).

Section client.
Context `{NumText}.

(** [send]; [sent] is what [sendall] answers. *)
Definition client_send (m : PeerMessage) (sent : result unit) : SM TCPPeerClient unit :=
  c ← sm_get;
  sm_lift (raise_if (negb (tc_connected c)) TransportError "client is not connected");;
  f ← sm_lift (to_frame m (auth_key (tc_buffer c)));
  sm_lift sent;;
  sm_put (mkClient (tc_connected c) (tc_buffer c) (tc_sent c ++ [f])).

(** [recv_messages] *)
Definition client_recv (r : received) : SM TCPPeerClient (list PeerMessage) :=
  c ← sm_get;
  sm_lift (raise_if (negb (tc_connected c)) TransportError "client is not connected");;
  match r with
  | RecvReset => client_close;; mret []
  | RecvChunk [] => mret []
  | RecvChunk chunk => sm_zoom tc_buffer (λ b c, mkClient (tc_connected c) b (tc_sent c)) (feed chunk)
  end.

(** [request] *)
Definition client_request (m : PeerMessage) (sent : result unit) (r : received) : SM TCPPeerClient (list PeerMessage) :=
  client_send m sent;; client_recv r.

End client.

(** ** Lemmas: starting and stopping *)

(** What a runtime is, seen from outside.  [Zombie] is a runtime that says it is
    running while nothing listens and its databases are closed. *)
Inductive phase := Fresh | Serving | Stopped | Zombie.

Inductive call := CStart | CStop.

(** The life cycle, and whether the call returns. *)
Definition phase_step (p : phase) (c : call) : phase * bool :=
  match p, c with
  | Fresh, CStart => (Serving, true)
  | Stopped, CStart => (Zombie, true)
  | Serving, CStart | Zombie, CStart => (p, false)
  | _, CStop => (Stopped, true)
  end.

Definition runtime_call (c : call) : SM NodeRuntime unit :=
  match c with CStart => runtime_start | CStop => runtime_stop end.

Definition in_phase (r : NodeRuntime) (p : phase) : Prop :=
  match p with
  | Fresh => rt_running r = false ∧ rt_closed r = false ∧ li_open (rt_listener r) = true ∧ li_thread (rt_listener r) = None
  | Serving => rt_running r = true ∧ rt_closed r = false ∧ li_open (rt_listener r) = true ∧ li_thread (rt_listener r) = Some true
  | Stopped => rt_running r = false ∧ rt_closed r = true ∧ li_open (rt_listener r) = false ∧ li_thread (rt_listener r) ≠ Some true
  | Zombie => rt_running r = true ∧ rt_closed r = true ∧ li_open (rt_listener r) = false ∧ li_thread (rt_listener r) = Some false
  end.

Lemma call_phase c r p : in_phase r p →
  in_phase (runtime_call c r).1 (phase_step p c).1 ∧ is_ok (runtime_call c r).2 = (phase_step p c).2 ∧
  rt_node (runtime_call c r).1 = rt_node r.
Proof.
  destruct r as [cfg sv [addr open thread] running closed]. unfold in_phase. cbn.
  destruct p; intros (-> & -> & -> & Ht); destruct c; cbn in *; try (rewrite Ht; done).
  - by destruct thread as [[]|]; [|done|done].
  - by destruct thread as [[]|]; [|done|done].
Qed.

(** The outcomes of a series of calls, and the runtime after it. *)
Fixpoint run_calls (cs : list call) (r : NodeRuntime) : list bool * NodeRuntime :=
  match cs with
  | [] => ([], r)
  | c :: cs' => let x := runtime_call c r in let y := run_calls cs' x.1 in (is_ok x.2 :: y.1, y.2)
  end.

Fixpoint run_phases (cs : list call) (p : phase) : list bool * phase :=
  match cs with
  | [] => ([], p)
  | c :: cs' => let x := phase_step p c in let y := run_phases cs' x.1 in (x.2 :: y.1, y.2)
  end.

(** ** Lemmas: failing halfway *)

Section runtime_lemmas.
Context `{ED : Ed25519}.

Lemma attach_bound bind c n address : config_validate c = Ok tt → bind (rc_host c) (rc_port c) = Ok address →
  ∃ r, attach bind c n = Ok r ∧ rt_node r = n ∧ runtime_address r = address ∧ in_phase r Fresh.
Proof.
  unfold config_validate. intros Hv Hb. apply raise_if_bind in Hv as [Hn Hv]. apply raise_if_bind in Hv as [Hi Hv].
  apply raise_if_bind in Hv as [_ Hv]. apply raise_if_bind in Hv as [_ Hv]. apply raise_if_bind in Hv as [Hk _].
  unfold attach, service_init, adapter_init, server_init. rewrite Hn, Hi, Hk. csimpl. rewrite Hb. csimpl.
  eexists. split; [reflexivity|done].
Qed.

Lemma attach_unbound bind c n e : config_validate c = Ok tt → bind (rc_host c) (rc_port c) = Err e → attach bind c n = Err e.
Proof.
  unfold config_validate. intros Hv Hb. apply raise_if_bind in Hv as [Hn Hv]. apply raise_if_bind in Hv as [Hi Hv].
  apply raise_if_bind in Hv as [_ Hv]. apply raise_if_bind in Hv as [_ Hv]. apply raise_if_bind in Hv as [Hk _].
  unfold attach, service_init, adapter_init, server_init. rewrite Hn, Hi, Hk. csimpl. by rewrite Hb.
Qed.

Lemma attach_fresh bind c n r : attach bind c n = Ok r → in_phase r Fresh.
Proof.
  unfold attach, adapter_init. intros E. apply bind_Ok in E as (service & _ & E). apply bind_Ok in E as (server & Hs & [= <-]).
  apply bind_Ok in Hs as (x & _ & Hs). by apply bind_Ok in Hs as (address & _ & [= <-]).
Qed.

Lemma opened_fresh bind c d d' r : runtime_open bind c d = (d', Ok r) → in_phase r Fresh.
Proof.
  intros E. unfold runtime_open in E. apply SM_bind_Ok in E as (u & d1 & _ & E). apply SM_bind_Ok in E as (n & d2 & _ & E).
  apply sm_lift_Ok in E as [_ E]. by apply attach_fresh in E.
Qed.

(** A second [create] on databases that hold a chain. *)
Lemma create_again n fuel allocations difficulty subsidy max now : durable n →
  node_create fuel allocations difficulty subsidy max now (n_disk n) =
    (n_disk n, raise ConsensusNodeError "node database already has a chain").
Proof.
  intros [_ _ _ (t & h & Ht & _) _ _ _]. unfold node_create, create_chain. unfold mbind at 1, SM_bind at 1. rewrite bind_get_run, bind_lift_run. unfold n_store in Ht. by rewrite Ht.
Qed.

(** [open] on the databases of a node, once the port can be bound. *)
Lemma open_attached bind c n address : durable n → config_validate c = Ok tt →
  node_params n = mkParams (rc_difficulty c) (rc_block_subsidy c) (rc_max_money c) → bind (rc_host c) (rc_port c) = Ok address →
  ∃ r, runtime_open bind c (n_disk n) = (n_disk (rt_node r), Ok r) ∧ reopened n (rt_node r) ∧ durable (rt_node r) ∧
    runtime_address r = address ∧ in_phase r Fresh.
Proof.
  intros Hd Hv [= Hd1 Hd2 Hd3] Hb. destruct (reopen_durable n Hd) as (n' & E & Hr & Hd').
  destruct (attach_bound bind c n' address Hv Hb) as (r & Hat & Hnode & Hadr & Hph). exists r. rewrite Hnode.
  split; [|done]. unfold runtime_open. rewrite bind_lift_run, Hv, <- Hd1, <- Hd2, <- Hd3.
  rewrite (sm_bind_run _ _ _ _ _ E). unfold sm_lift. by rewrite Hat.
Qed.

End runtime_lemmas.

(** ** Properties *)

(** [create] is not atomic, and its leftovers are usable.  When the port
    cannot be bound, [NodeRuntime.create] raises that error after the chain was
    created; creating again then fails whatever the port, configuration and
    allocations, while [NodeRuntime.open] with the same configuration, once the
    port is free, returns a runtime, not yet serving, on the created chain. *)
Theorem failed_create_recovers `{Ed25519} bind c fuel allocations now d d' n e :
  config_validate c = Ok tt → 0 ≤ now < 2 ^ 64 →
  node_create fuel allocations (rc_difficulty c) (rc_block_subsidy c) (rc_max_money c) now d = (d', Ok n) →
  bind (rc_host c) (rc_port c) = Err e →
  runtime_create bind fuel c allocations now d = (d', Err e) ∧
  (∀ bind' fuel' c' allocations' now', config_validate c' = Ok tt →
     runtime_create bind' fuel' c' allocations' now' d' = (d', raise ConsensusNodeError "node database already has a chain")) ∧
  (∀ bind' address, bind' (rc_host c) (rc_port c) = Ok address →
     ∃ r, runtime_open bind' c d' = (n_disk (rt_node r), Ok r) ∧ reopened n (rt_node r) ∧
       runtime_address r = address ∧ in_phase r Fresh).
Proof.
  intros Hv Hnow E Hb. destruct (create_durable _ _ _ _ _ _ _ _ _ Hnow E) as (Ed & Hd & Hfc & Hdif & _). split_and!.
  - unfold runtime_create. rewrite bind_lift_run, Hv, (sm_bind_run _ _ _ _ _ E). unfold sm_lift. by rewrite (attach_unbound _ _ _ _ Hv Hb).
  - intros bind' fuel' c' allocations' now' Hv'. unfold runtime_create. rewrite bind_lift_run, Hv', Ed. unfold mbind at 1, SM_bind.
    by rewrite create_again.
  - intros bind' address Hb'. destruct (open_attached bind' c n address Hd Hv) as (r & Ho & Hr & _ & ? & ?); [|done|].
    + unfold node_params. by rewrite Hfc, Hdif.
    + exists r. by rewrite Ed.
Qed.

Definition sample_config : NodeRuntimeConfig :=
  mkConfig (py "node.sqlite3") (py "regtest") (py "node") (py "127.0.0.1") 8333 (b_lit "key") 1 50 MAX_MONEY.

Lemma failed_create_recovers_witness :
  let bind (_ : str) (_ : Z) : result (str * Z) := raise OSError "Address already in use" in
  let d' := (sample_create empty_disk).1 in
  @runtime_create toy_ed25519 bind 20 sample_config [(toy_address "alice", 1000)] sample_timestamp empty_disk =
    (d', raise OSError "Address already in use") ∧
  (∀ bind' fuel' c' allocations' now', config_validate c' = Ok tt →
     @runtime_create toy_ed25519 bind' fuel' c' allocations' now' d' = (d', raise ConsensusNodeError "node database already has a chain")) ∧
  (∀ bind' address, bind' (py "127.0.0.1") 8333 = Ok address →
     ∃ r, @runtime_open toy_ed25519 bind' sample_config d' = (n_disk (rt_node r), Ok r) ∧ @reopened toy_ed25519 created_node (rt_node r) ∧
       runtime_address r = address ∧ in_phase r Fresh).
Proof.
  refine (@failed_create_recovers toy_ed25519 (λ _ _, raise OSError "Address already in use") sample_config 20
    [(toy_address "alice", 1000)] sample_timestamp empty_disk _ created_node _ _ _ created_Ok _).
  - vm_compute. reflexivity.
  - by vm_compute.
  - reflexivity.
Defined.

(** C35: The life cycle of a runtime.  Whatever calls of [start] and [stop] are
    made on a runtime that was just created or opened, the calls that return
    and the ones that raise, and what the process is afterwards, are those of
    the four-state machine [phase_step]: fresh, serving, stopped, and zombie,
    the state of a runtime that was stopped and started again. *)
Theorem runtime_lifecycle r cs :
  in_phase r Fresh →
  (run_calls cs r).1 = (run_phases cs Fresh).1 ∧ in_phase (run_calls cs r).2 (run_phases cs Fresh).2 ∧
  rt_node (run_calls cs r).2 = rt_node r.
Proof.
  generalize Fresh. revert r. induction cs as [|c cs IH]; intros r p Hp; [done|].
  destruct (call_phase c r p Hp) as (Hp' & Hok & Hn). destruct (IH _ _ Hp') as (E1 & E2 & E3). cbn. by rewrite Hok, E1, E3.
Qed.

Definition sample_runtime : NodeRuntime :=
  mkRuntime sample_config (mkServer (mkService genesis_node (py "regtest") (py "node") default_peers 120 16 128 None ∅ ∅ ∅ [] ∅) (b_lit "key") [] [] [])
    (mkListener (py "127.0.0.1", 8333) true None) false false.

Lemma runtime_lifecycle_witness :
  (run_calls [CStart; CStart; CStop; CStart; CStop] sample_runtime).1 = [true; false; true; true; true] ∧
  in_phase (run_calls [CStart; CStart; CStop; CStart; CStop] sample_runtime).2 Stopped ∧
  rt_node (run_calls [CStart; CStart; CStop; CStart; CStop] sample_runtime).2 = rt_node sample_runtime.
Proof. exact (runtime_lifecycle sample_runtime [CStart; CStart; CStop; CStart; CStop] (conj eq_refl (conj eq_refl (conj eq_refl eq_refl)))). Defined.

(** Bytes of a lost connection stay in the client's buffer: after a reset in
    the middle of a frame, a complete frame on the next connection is not
    understood. *)
Definition sample_exchange (before : list received) : SM TCPPeerClient (list PeerMessage) :=
  client_connect (Ok tt);; sm_each (λ r, @client_recv toy_numtext r;; mret tt) before;;
  client_close;; client_connect (Ok tt);; @client_recv toy_numtext (RecvChunk sample_ping_frame).

Lemma reconnect_stale :
  (sample_exchange [] (mkClient false (mkBuffer sample_key []) [])).2 = Ok [sample_ping] ∧
  (sample_exchange [RecvChunk (take 6 sample_ping_frame); RecvReset] (mkClient false (mkBuffer sample_key []) [])).2 = Ok [] ∧
  err_class (sample_exchange [RecvChunk (take 20 sample_ping_frame)] (mkClient false (mkBuffer sample_key []) [])).2 = Some NetworkError.
Proof. split_and!; vm_compute; reflexivity. Qed.
