(* ===== verification/WalletFile.v ===== *)
(** * Wallet files (crypto.py)

    The plain and the encrypted wallet file: serialisation, passphrase
    encryption, the atomic write and loading.  PBKDF2 and AES-GCM are the
    third-party [cryptography] package: the class [WalletCipher], with the laws
    the program relies on in [WalletCipherOk].  [os.urandom] and the name of the
    temporary file are arguments. *)

From S2P Require Import Prelude PyBytes PyText Sha256 Base64 Json Crypto WireJson JsonText Network.
Local Open Scope Z_scope.

Definition WALLET_SCHEMA_VERSION : Z := 1.
Definition WALLET_KDF : str := py "pbkdf2-sha256".
Definition WALLET_ENCRYPTION : str := py "aes-256-gcm".
Definition WALLET_KDF_ITERATIONS : Z := 600000.
Definition WALLET_AAD : bytes := b_lit "blockchaincoin-wallet-v1".

(** [PBKDF2HMAC(...).derive] of a secret with a salt and an iteration count, and
    [AESGCM(key).encrypt/decrypt] of a nonce, data and associated data;
    [decrypt] raises [InvalidTag], or [ValueError] for a bad nonce. *)
Class WalletCipher := {
  pbkdf2 : bytes → bytes → Z → result bytes;
  aes_encrypt : bytes → bytes → bytes → bytes → bytes;
  aes_decrypt : bytes → bytes → bytes → bytes → result bytes;
}.

(** A key of the length asked for is derived for the parameters the program
    writes, and what was encrypted under such a key with a nonce of the length
    [os.urandom] is asked for decrypts. *)
Class WalletCipherOk `{WalletCipher} : Prop := {
  pbkdf2_defined secret salt : secret ≠ [] → ∃ key, pbkdf2 secret salt WALLET_KDF_ITERATIONS = Ok key ∧ length key = 32%nat;
  aes_decrypt_encrypt key nonce data aad : length key = 32%nat → length nonce = 12%nat →
    aes_decrypt key nonce (aes_encrypt key nonce data aad) aad = Ok data;
}.

(** The text [str] gives a list or a dictionary, which needs the tables of
    printable characters. *)
Class ContainerText := container_text : value → str.

(** The contents of the files of a directory, by path. *)
Abbreviation Disk := (gmap str bytes).

Section wallet_files.
Context `{Ed25519} `{NumText} `{WalletCipher} `{ContainerText}.

(** [str(v)] *)
Definition text_of (v : value) : str :=
  match v with VArr _ | VObj _ => container_text v | _ => py_str v end.

(** [v == text] *)
Definition is_text (v : option value) (s : str) : bool := match v with Some (VStr x) => bool_decide (x = s) | _ => false end.

(** ** Passphrase encryption *)

(** [_derive_wallet_key] *)
Definition derive_wallet_key (passphrase : str) (salt : bytes) (iterations : Z) : result bytes :=
  raise_if (bool_decide (passphrase = [])) ValueError "wallet passphrase is required";;
  raise_if (iterations <=? 0) ValueError "wallet KDF iterations must be positive";;
  secret ← utf8_encode passphrase;
  pbkdf2 secret salt iterations.

(** [_encrypt_wallet_payload], on the salt and nonce it draws. *)
Definition encrypt_wallet_payload (payload : value) (passphrase : str) (salt nonce : bytes) : result value :=
  key ← derive_wallet_key passphrase salt WALLET_KDF_ITERATIONS;
  plaintext ← utf8_encode (dumps payload);
  Ok (VObj
    [(py "schema_version", VInt WALLET_SCHEMA_VERSION);
     (py "encrypted", VBool true);
     (py "encryption", VStr WALLET_ENCRYPTION);
     (py "kdf", VStr WALLET_KDF);
     (py "iterations", VInt WALLET_KDF_ITERATIONS);
     (py "salt", VStr (b64encode salt));
     (py "nonce", VStr (b64encode nonce));
     (py "ciphertext", VStr (b64encode (aes_encrypt key nonce plaintext WALLET_AAD)))]).

(** [except InvalidTag] and [except ValueError] around the decryption. *)
Definition or_bad_cipher {A} (m : result A) : result A :=
  try_catch m (λ e, if exn_is InvalidTag e then raise ValueError "wallet passphrase is invalid"
                    else if is_value_error e then raise ValueError "encrypted wallet payload is invalid" else Err e).

(** [except (UnicodeDecodeError, json.JSONDecodeError)] *)
Definition or_bad_payload {A} (m : result A) : result A :=
  try_catch m (λ e, if exn_is UnicodeError e || exn_is JSONDecodeError e
                    then raise ValueError "encrypted wallet payload is invalid" else Err e).

(** [_decrypt_wallet_payload] *)
Definition decrypt_wallet_payload (data : list (str * value)) (passphrase : option str) : result (list (str * value)) :=
  match passphrase with
  | None => raise ValueError "wallet passphrase is required"
  | Some p =>
      raise_if (negb (is_text (obj_get (py "encryption") data) WALLET_ENCRYPTION)) ValueError "unsupported wallet encryption";;
      raise_if (negb (is_text (obj_get (py "kdf") data) WALLET_KDF)) ValueError "unsupported wallet key derivation";;
      iterations ← (v ← obj_item "iterations" data; py_int v);
      salt ← (v ← obj_item "salt" data; b64decode (text_of v));
      key ← derive_wallet_key p salt iterations;
      plaintext ← or_bad_cipher
        (nonce ← (v ← obj_item "nonce" data; b64decode (text_of v));
         ciphertext ← (v ← obj_item "ciphertext" data; b64decode (text_of v));
         aes_decrypt key nonce ciphertext WALLET_AAD);
      decoded ← or_bad_payload (t ← utf8_decode plaintext; loads t);
      match decoded with VObj l => Ok l | _ => raise ValueError "encrypted wallet payload is invalid" end
  end.

(** ** Wallets as dictionaries *)

(** [PublicKey.to_dict] and [PublicKey.from_dict] on values. *)
Definition pk_to_value (pk : PublicKey) : value := VObj [(py "algorithm", VStr (pk_algorithm pk)); (py "key", VStr (pk_key pk))].

Definition pk_from_value (v : value) : result PublicKey :=
  a ← payload_item v "algorithm"; k ← payload_item v "key"; Ok (mkPublicKey (text_of a) (text_of k)).

(** [Wallet.to_dict] *)
Definition wallet_to_dict (w : Wallet) : value :=
  VObj [(py "schema_version", VInt WALLET_SCHEMA_VERSION);
        (py "public_key", pk_to_value (w_public_key w));
        (py "private_key", VStr (w_private_key w))].

(** [Wallet.from_dict] *)
Definition wallet_from_dict (data : list (str * value)) : result Wallet :=
  schema_version ← py_int (default (VInt 0) (obj_get (py "schema_version") data));
  raise_if (negb (schema_version =? WALLET_SCHEMA_VERSION)) ValueError "unsupported wallet schema version";;
  pk ← (v ← obj_item "public_key" data; pk_from_value v);
  private ← obj_item "private_key" data;
  raw ← b64decode (text_of private);
  raise_if (negb (ed_private_ok raw)) ValueError "An Ed25519 private key is 32 bytes long";;
  raise_if (bool_decide (pk_create (ed_public raw) ≠ pk)) ValueError "wallet private key does not match public key";;
  Ok (mkWallet pk (text_of private)).

(** [Wallet.encrypted_dict] *)
Definition encrypted_dict (w : Wallet) (passphrase : str) (salt nonce : bytes) : result value :=
  encrypt_wallet_payload (wallet_to_dict w) passphrase salt nonce.

(** ** Files *)

(** What [atomic_write_json] writes. *)
Definition json_file (payload : value) : result bytes :=
  encoded ← utf8_encode (render indent2 0 payload); Ok (encoded ++ [byte_of 10]).

(** The disk after [n] bytes were written to the temporary file; one step more
    is the rename. *)
Definition writing (tmp target : str) (content : bytes) (n : nat) (d : Disk) : Disk :=
  if bool_decide (n ≤ length content)%nat then <[tmp := take n content]> d else <[target := content]> (delete tmp d).

(** [atomic_write_json] *)
Definition atomic_write_json (tmp target : str) (payload : value) : SM Disk unit :=
  content ← sm_lift (json_file payload);
  d ← sm_get;
  sm_put (writing tmp target content (S (length content)) d).

(** The payload [Wallet.save] writes. *)
Definition save_payload (w : Wallet) (passphrase : option str) (salt nonce : bytes) : result value :=
  match passphrase with Some p => encrypted_dict w p salt nonce | None => Ok (wallet_to_dict w) end.

(** [Wallet.save]; the permissions of the file are not modelled. *)
Definition wallet_save (tmp path : str) (w : Wallet) (passphrase : option str) (salt nonce : bytes) : SM Disk unit :=
  payload ← sm_lift (save_payload w passphrase salt nonce);
  atomic_write_json tmp path payload.

(** The line ends of text files. *)
Fixpoint universal_newlines (s : str) : str :=
  match s with
  | [] => []
  | c :: s' =>
      if c =? 13 then
        10 :: match s' with
              | [] => []
              | d :: s'' => if d =? 10 then universal_newlines s'' else universal_newlines s'
              end
      else c :: universal_newlines s'
  end.

(** [Wallet.load] on the contents of the file. *)
Definition wallet_parse (content : bytes) (passphrase : option str) : result Wallet :=
  text ← utf8_decode content;
  payload ← loads (universal_newlines text);
  match payload with
  | VObj l =>
      l' ← (match obj_get (py "encrypted") l with Some (VBool true) => decrypt_wallet_payload l passphrase | _ => Ok l end);
      wallet_from_dict l'
  | _ => raise ValueError "wallet file must contain an object"
  end.

(** [Wallet.load] *)
Definition wallet_load (path : str) (passphrase : option str) (d : Disk) : result Wallet :=
  match d !! path with
  | Some content => wallet_parse content passphrase
  | None => raise OSError "No such file or directory"
  end.

End wallet_files.

(** ** Lemmas: JSON files *)

Lemma plain_newlines s : Forall plain s → universal_newlines s = s.
Proof.
  induction 1 as [|c s Hc%plain_spec _ IH]; [done|]. cbn [universal_newlines]. by rewrite (proj2 (Z.eqb_neq c 13)), IH by lia.
Qed.

Lemma plain_scalar s : Forall plain s → Forall (λ c, scalar c = true) s.
Proof. intros Hs. eapply Forall_impl; [exact Hs|]. intros c ?%plain_spec. apply scalar_spec. lia. Qed.

Lemma ascii_scalar s : Forall (λ c, 0 ≤ c < 128) s → Forall (λ c, scalar c = true) s.
Proof. intros Hs. eapply Forall_impl; [exact Hs|]. intros c Hc. apply scalar_spec. simpl in Hc. lia. Qed.

(** A JSON file of the program is written, and parses to what was written. *)
Lemma json_file_parses `{NumTextOk} v : value_wf (sort_keys v) →
  ∃ content, json_file v = Ok content ∧ (text ← utf8_decode content; loads (universal_newlines text)) = Ok (sort_keys v).
Proof.
  intros Hv. destruct (loads_indented v Hv) as [Hl Hp]. pose proof (proj1 (proj1 (Forall_app _ _ _) Hp)) as Hp'.
  destruct (utf8_encode_ascii _ (plain_ascii _ Hp')) as [b Hb]. exists (b ++ [byte_of 10]). unfold json_file. rewrite Hb. split; [done|].
  assert (He : utf8_encode (render indent2 0 v ++ [10]) = Ok (b ++ [byte_of 10])) by (rewrite utf8_encode_app, Hb; done).
  rewrite (utf8_decode_encode_nil _ _ He). cbn [mbind result_bind]. by rewrite plain_newlines.
Qed.

(** Text without surrogates encodes. *)
Lemma utf8_encode_total s : Forall (λ c, scalar c = true) s → ∃ b, utf8_encode s = Ok b ∧ (s ≠ [] → b ≠ []).
Proof.
  induction 1 as [|c s Hc _ (b & Hb & _)]; [by exists []|]. cbn [utf8_encode]. rewrite Hc. cbn [negb raise_if mbind result_bind].
  rewrite Hb. eexists. split; [done|]. intros _. unfold utf8_char. repeat case_match; done.
Qed.

Section wallet_lemmas.
Context `{Ed25519} `{NumTextOk} `{WalletCipher} `{ContainerText}.

(** The private key fits the public key. *)
Definition wallet_matched (w : Wallet) : Prop :=
  ∃ raw, b64decode (w_private_key w) = Ok raw ∧ ed_private_ok raw = true ∧ pk_create (ed_public raw) = w_public_key w.

Lemma created_matched bits raw w : ed_private_ok raw = true → wallet_create bits raw = Ok w → wallet_matched w.
Proof using Type.
  intros Hr Hw. apply raise_if_bind in Hw as [_ [= <-]]. exists raw. split_and!; [apply b64_decode_encode|done|done].
Qed.

Lemma created_text bits raw w : wallet_create bits raw = Ok w → Forall (λ c, scalar c = true) (w_private_key w).
Proof using Type. intros Hw. apply raise_if_bind in Hw as [_ [= <-]]. apply ascii_scalar, b64encode_ascii. Qed.

Lemma matched_key_text w : wallet_matched w →
  Forall (λ c, scalar c = true) (pk_algorithm (w_public_key w)) ∧ Forall (λ c, scalar c = true) (pk_key (w_public_key w)).
Proof using Type.
  intros (raw & _ & _ & <-). split; [by repeat constructor|]. apply ascii_scalar, b64encode_ascii.
Qed.

(** The items of the dictionary of a wallet, in key order. *)
Definition wallet_items (w : Wallet) : list (str * value) :=
  [(py "private_key", VStr (w_private_key w)); (py "public_key", pk_to_value (w_public_key w)); (py "schema_version", VInt 1)].

Lemma wallet_dict_sorted w : sort_keys (wallet_to_dict w) = VObj (wallet_items w).
Proof using Type. done. Qed.

Lemma small_int_wf z : 0 ≤ z < 2 ^ 63 → value_wf (VInt z).
Proof using Type.
  intros Hz. change (zlen (int_digits z) ≤ MAX_STR_DIGITS). unfold int_digits. rewrite Z.abs_eq by lia.
  assert (Hl : ∀ fuel n acc, (length (dec_aux fuel n acc) ≤ fuel + length acc)%nat).
  { induction fuel as [|fuel IH]; intros n acc; cbn [dec_aux]; [done|]. case_match; cbn [length]; [lia|].
    etransitivity; [apply IH|]. cbn [length]. lia. }
  unfold zlen, dec_nonneg. specialize (Hl (S (Z.to_nat (Z.log2 z))) z []). cbn [length] in Hl.
  assert (Z.log2 z ≤ 63). { destruct (decide (z = 0)) as [->|]; [by vm_compute|]. apply Z.lt_succ_r, Z.log2_lt_pow2; [lia|].
    eapply Z.lt_trans; [apply Hz|]. apply Z.pow_lt_mono_r; lia. }
  pose proof (Z.log2_nonneg z). unfold MAX_STR_DIGITS. lia.
Qed.

Lemma wallet_dict_wf w : wallet_matched w → Forall (λ c, scalar c = true) (w_private_key w) → value_wf (sort_keys (wallet_to_dict w)).
Proof using Type.
  intros Hm Ht. destruct (matched_key_text w Hm) as [Ha Hk]. rewrite wallet_dict_sorted.
  obj_wf; [done|by obj_wf|by apply small_int_wf].
Qed.

Lemma wallet_from_items w : wallet_matched w → wallet_from_dict (wallet_items w) = Ok w.
Proof using Type.
  intros (raw & Hraw & Hok & Hpk). unfold wallet_from_dict, wallet_items.
  change (py_int (default (VInt 0) (obj_get (py "schema_version") _))) with (@Ok Z 1).
  change (obj_item "public_key" _) with (Ok (pk_to_value (w_public_key w))).
  change (obj_item "private_key" _) with (Ok (VStr (w_private_key w))). cbn [mbind result_bind].
  change (pk_from_value (pk_to_value (w_public_key w))) with (Ok (mkPublicKey (pk_algorithm (w_public_key w)) (pk_key (w_public_key w)))).
  change (text_of (VStr (w_private_key w))) with (w_private_key w). cbn [mbind result_bind raise_if Z.eqb Pos.eqb negb WALLET_SCHEMA_VERSION].
  rewrite Hraw. cbn [mbind result_bind]. rewrite Hok, Hpk. cbn [raise_if negb mbind result_bind].
  destruct w as [[a k] sk]. cbn [w_public_key pk_algorithm pk_key w_private_key]. by rewrite bool_decide_eq_false_2 by (by intros Hn).
Qed.

(** A plain file loads, whatever passphrase is given. *)
Lemma plain_file_loads w pass : wallet_matched w → Forall (λ c, scalar c = true) (w_private_key w) →
  ∃ content, json_file (wallet_to_dict w) = Ok content ∧ wallet_parse content pass = Ok w.
Proof using Type*.
  intros Hm Ht. destruct (json_file_parses _ (wallet_dict_wf w Hm Ht)) as (content & Hc & Hp). exists content. split; [done|].
  unfold wallet_parse. apply bind_Ok in Hp as (text & -> & Hl). cbn [mbind result_bind]. rewrite Hl. cbn [mbind result_bind].
  rewrite wallet_dict_sorted. change (obj_get (py "encrypted") (wallet_items w)) with (@None value).
  cbn [mbind result_bind]. by apply wallet_from_items.
Qed.

(** The items of an encrypted file, in key order. *)
Definition encrypted_items (salt nonce ciphertext : bytes) : list (str * value) :=
  [(py "ciphertext", VStr (b64encode ciphertext)); (py "encrypted", VBool true); (py "encryption", VStr WALLET_ENCRYPTION);
   (py "iterations", VInt WALLET_KDF_ITERATIONS); (py "kdf", VStr WALLET_KDF); (py "nonce", VStr (b64encode nonce));
   (py "salt", VStr (b64encode salt)); (py "schema_version", VInt WALLET_SCHEMA_VERSION)].

Lemma encrypted_items_wf salt nonce ct : value_wf (VObj (encrypted_items salt nonce ct)).
Proof using Type.
  obj_wf; try done; try (by repeat constructor); try (by apply small_int_wf); apply ascii_scalar, b64encode_ascii.
Qed.

(** What an encrypted file is, and what loading it comes to. *)
Lemma encrypted_run w p salt nonce key : derive_wallet_key p salt WALLET_KDF_ITERATIONS = Ok key →
  wallet_matched w → Forall (λ c, scalar c = true) (w_private_key w) →
  ∃ plaintext content payload, utf8_decode plaintext = Ok (dumps (wallet_to_dict w)) ∧
    encrypted_dict w p salt nonce = Ok payload ∧ json_file payload = Ok content ∧
    ∀ pass, wallet_parse content pass =
      (l ← decrypt_wallet_payload (encrypted_items salt nonce (aes_encrypt key nonce plaintext WALLET_AAD)) pass; wallet_from_dict l).
Proof using Type*.
  intros Hkey Hm Ht. pose proof (wallet_dict_wf w Hm Ht) as Hwf.
  assert (Hd : dumps (wallet_to_dict w) = dumps (sort_keys (wallet_to_dict w))).
  { by rewrite <- !(render_compact _ 0), render_sort_keys. }
  destruct (utf8_encode_ascii (dumps (wallet_to_dict w))) as [plaintext Hpl]; [rewrite Hd; by apply dumps_ascii|].
  destruct (json_file_parses (VObj [(py "schema_version", VInt WALLET_SCHEMA_VERSION); (py "encrypted", VBool true);
     (py "encryption", VStr WALLET_ENCRYPTION); (py "kdf", VStr WALLET_KDF); (py "iterations", VInt WALLET_KDF_ITERATIONS);
     (py "salt", VStr (b64encode salt)); (py "nonce", VStr (b64encode nonce));
     (py "ciphertext", VStr (b64encode (aes_encrypt key nonce plaintext WALLET_AAD)))])) as (content & Hc & Hp).
  { apply encrypted_items_wf. }
  eexists plaintext, content, _. split; [by apply utf8_decode_encode_nil|]. split; [|split; [exact Hc|]].
  - unfold encrypted_dict, encrypt_wallet_payload. rewrite Hkey. cbn [mbind result_bind]. by rewrite Hpl.
  - intros pass. unfold wallet_parse. apply bind_Ok in Hp as (text & -> & Hl). cbn [mbind result_bind]. rewrite Hl. done.
Qed.

(** The ciphertext under a key that opens it. *)
Lemma decrypt_run salt nonce ct p key : derive_wallet_key p salt WALLET_KDF_ITERATIONS = Ok key →
  decrypt_wallet_payload (encrypted_items salt nonce ct) (Some p) =
  (plaintext ← or_bad_cipher (aes_decrypt key nonce ct WALLET_AAD);
   decoded ← or_bad_payload (t ← utf8_decode plaintext; loads t);
   match decoded with VObj l => Ok l | _ => raise ValueError "encrypted wallet payload is invalid" end).
Proof using Type.
  intros Hkey. unfold decrypt_wallet_payload.
  change (is_text (obj_get (py "encryption") _) _) with true. change (is_text (obj_get (py "kdf") _) _) with true.
  change (obj_item "iterations" _) with (Ok (VInt WALLET_KDF_ITERATIONS)).
  change (obj_item "salt" _) with (Ok (VStr (b64encode salt))).
  change (obj_item "nonce" _) with (Ok (VStr (b64encode nonce))).
  change (obj_item "ciphertext" _) with (Ok (VStr (b64encode ct))).
  cbn [negb raise_if mbind result_bind py_int text_of py_str]. rewrite !b64_decode_encode. cbn [mbind result_bind].
  by rewrite Hkey.
Qed.

Lemma encrypted_loads `{!WalletCipherOk} w p salt nonce key plaintext : derive_wallet_key p salt WALLET_KDF_ITERATIONS = Ok key →
  length key = 32%nat → length nonce = 12%nat →
  wallet_matched w → Forall (λ c, scalar c = true) (w_private_key w) → utf8_decode plaintext = Ok (dumps (wallet_to_dict w)) →
  decrypt_wallet_payload (encrypted_items salt nonce (aes_encrypt key nonce plaintext WALLET_AAD)) (Some p) = Ok (wallet_items w).
Proof using Type*.
  intros Hkey Hk32 Hn12 Hm Ht Hpl. rewrite (decrypt_run _ _ _ _ key) by done. rewrite aes_decrypt_encrypt by done. cbn [or_bad_cipher try_catch mbind result_bind].
  rewrite Hpl. cbn [mbind result_bind]. rewrite <- !(render_compact _ 0), <- render_sort_keys, render_compact, loads_dumps by (by apply wallet_dict_wf).
  done.
Qed.

(** A passphrase that can be used. *)
Definition passphrase_ok (p : str) : Prop := p ≠ [] ∧ Forall (λ c, scalar c = true) p.

Lemma derive_defined `{!WalletCipherOk} p salt : passphrase_ok p →
  ∃ key, derive_wallet_key p salt WALLET_KDF_ITERATIONS = Ok key ∧ length key = 32%nat.
Proof using Type.
  intros [Hp Hs]. destruct (utf8_encode_total p Hs) as (b & Hb & Hne). destruct (pbkdf2_defined b salt (Hne Hp)) as (key & Hk & H32).
  exists key. split; [|done]. unfold derive_wallet_key. rewrite bool_decide_eq_false_2 by done. cbn [raise_if mbind result_bind Z.leb Z.compare].
  rewrite Hb. exact Hk.
Qed.

(** What [Wallet.save] writes loads as the wallet. *)
Lemma saved_parses `{!WalletCipherOk} w pass salt nonce : wallet_matched w → Forall (λ c, scalar c = true) (w_private_key w) →
  (∀ p, pass = Some p → passphrase_ok p ∧ length nonce = 12%nat) →
  ∃ payload content, save_payload w pass salt nonce = Ok payload ∧ json_file payload = Ok content ∧ wallet_parse content pass = Ok w.
Proof using Type*.
  intros Hm Ht Hpass. destruct pass as [p|].
  - destruct (Hpass p eq_refl) as [Hp H12]. destruct (derive_defined p salt Hp) as (key & Hkey & H32).
    destruct (encrypted_run w p salt nonce key Hkey Hm Ht) as (plaintext & content & payload & Hpl & He & Hc & Hparse).
    exists payload, content. split_and!; [done|done|]. rewrite Hparse, (encrypted_loads w p salt nonce key) by done. by apply wallet_from_items.
  - destruct (plain_file_loads w None Hm Ht) as (content & Hc & Hp). by exists (wallet_to_dict w), content.
Qed.

Lemma writing_other tmp path content n d q : q ≠ tmp → q ≠ path → writing tmp path content n d !! q = d !! q.
Proof using Type.
  intros Ht Hp. unfold writing. case_bool_decide; [by rewrite lookup_insert_ne|]. by rewrite lookup_insert_ne, lookup_delete_ne.
Qed.

Lemma writing_target tmp path content n d : tmp ≠ path →
  writing tmp path content n d !! path = if bool_decide (n ≤ length content)%nat then d !! path else Some content.
Proof using Type. intros Ht. unfold writing. case_bool_decide; [by rewrite lookup_insert_ne|]. by rewrite lookup_insert_eq. Qed.

Lemma writing_done tmp path content d : d !! tmp = None → tmp ≠ path → writing tmp path content (S (length content)) d !! tmp = None.
Proof using Type.
  intros Hd Ht. unfold writing. rewrite bool_decide_eq_false_2 by lia. by rewrite lookup_insert_ne, lookup_delete_eq.
Qed.

End wallet_lemmas.

(** ** A concrete cipher, to show that the laws can hold: the data with a tag. *)

Definition toy_cipher : WalletCipher := {|
  pbkdf2 secret salt _ := Ok (sha256 (secret ++ salt));
  aes_encrypt key nonce data aad := data ++ hmac_sha256 key (nonce ++ aad ++ data);
  aes_decrypt key nonce ct aad :=
    let data := take (length ct - 32) ct in
    if bool_decide (drop (length ct - 32) ct = hmac_sha256 key (nonce ++ aad ++ data)) then Ok data else raise InvalidTag "";
|}.

Lemma toy_cipher_ok : @WalletCipherOk toy_cipher.
Proof.
  split; cbn [pbkdf2 aes_encrypt aes_decrypt toy_cipher].
  - intros secret salt _. eexists. split; [done|apply sha256_length].
  - intros key nonce data aad _ _. rewrite length_app.
    assert (Hl : ∀ m, length (hmac_sha256 key m) = 32%nat) by (intros; apply hmac_sha256_length).
    rewrite Hl. replace (length data + 32 - 32)%nat with (length data) by lia.
    by rewrite take_app_length, drop_app_length, bool_decide_eq_true_2.
Qed.

Definition toy_container : ContainerText := λ _, [].

(** ** Properties *)

(** C34: A saved wallet loads, and saving is atomic.  A created wallet saved
    plainly or under a usable passphrase, with a nonce of twelve bytes as
    [os.urandom] gives it, is loaded back exactly, no other file
    changes and the temporary file is gone; and if the program dies after any
    number of bytes, the path still loads as it did before, or as the new
    wallet. *)
Theorem wallet_file_roundtrip `{Ed25519} `{NumTextOk} `{WalletCipherOk} `{ContainerText} bits raw w tmp path pass salt nonce d :
  ed_private_ok raw = true → wallet_create bits raw = Ok w → tmp ≠ path → d !! tmp = None →
  (∀ p, pass = Some p → passphrase_ok p ∧ length nonce = 12%nat) →
  ∃ payload content d', save_payload w pass salt nonce = Ok payload ∧ json_file payload = Ok content ∧
    wallet_save tmp path w pass salt nonce d = (d', Ok tt) ∧ wallet_load path pass d' = Ok w ∧
    (∀ q, q ≠ path → d' !! q = d !! q) ∧
    ∀ n, let crashed := writing tmp path content n d in
      wallet_load path pass crashed = wallet_load path pass d ∨ wallet_load path pass crashed = Ok w.
Proof.
  intros Hraw Hw Ht Hd Hpass.
  destruct (saved_parses w pass salt nonce) as (payload & content & Hp & Hc & Hload); [by eapply created_matched|by eapply created_text|done|].
  exists payload, content, (writing tmp path content (S (length content)) d). split; [done|]. split; [done|]. split; [|split; [|split]].
  - unfold wallet_save, atomic_write_json. by rewrite bind_lift_run, Hp, bind_lift_run, Hc.
  - unfold wallet_load. rewrite writing_target by done. by rewrite bool_decide_eq_false_2 by lia.
  - intros q Hq. destruct (decide (q = tmp)) as [->|Hqt]; [by rewrite writing_done|by apply writing_other].
  - intros n crashed. unfold wallet_load, crashed. rewrite writing_target by done. case_bool_decide; [by left|by right].
Qed.

Lemma wallet_file_roundtrip_witness :
  let w := toy_wallet "alice" in let pass := Some (py "correct horse") in
  ∃ payload content d', @save_payload toy_numtext toy_cipher w pass (b_lit "salt") (b_lit "twelve bytes") = Ok payload ∧ @json_file toy_numtext payload = Ok content ∧
    @wallet_save toy_numtext toy_cipher (py ".tmp") (py "alice.json") w pass (b_lit "salt") (b_lit "twelve bytes") ∅ = (d', Ok tt) ∧
    @wallet_load toy_ed25519 toy_numtext toy_cipher toy_container (py "alice.json") pass d' = Ok w ∧
    (∀ q, q ≠ py "alice.json" → d' !! q = (∅ : Disk) !! q) ∧
    ∀ n, let crashed := writing (py ".tmp") (py "alice.json") content n ∅ in
      @wallet_load toy_ed25519 toy_numtext toy_cipher toy_container (py "alice.json") pass crashed =
        @wallet_load toy_ed25519 toy_numtext toy_cipher toy_container (py "alice.json") pass ∅ ∨
      @wallet_load toy_ed25519 toy_numtext toy_cipher toy_container (py "alice.json") pass crashed = Ok w.
Proof.
  apply (@wallet_file_roundtrip toy_ed25519 toy_numtext toy_numtext_ok toy_cipher toy_cipher_ok toy_container None (toy_key "alice")).
  - vm_compute. reflexivity.
  - reflexivity.
  - discriminate.
  - reflexivity.
  - intros p [= <-]. split; [|reflexivity]. split; [discriminate|]. repeat constructor.
Defined.

(** The passphrase protects the file.  An encrypted file is not loaded
    without a passphrase, nor with one whose key fails the authentication of
    AES-GCM, and says so; an empty passphrase is refused when saving, and then
    no file changes. *)
Theorem passphrase_required `{Ed25519} `{NumTextOk} `{WalletCipher} `{ContainerText} bits raw w p salt nonce key :
  ed_private_ok raw = true → wallet_create bits raw = Ok w → derive_wallet_key p salt WALLET_KDF_ITERATIONS = Ok key →
  ∃ plaintext payload content, utf8_decode plaintext = Ok (dumps (wallet_to_dict w)) ∧
    save_payload w (Some p) salt nonce = Ok payload ∧ json_file payload = Ok content ∧
    wallet_parse content None = raise ValueError "wallet passphrase is required" ∧
    (∀ p' key' m, derive_wallet_key p' salt WALLET_KDF_ITERATIONS = Ok key' →
       aes_decrypt key' nonce (aes_encrypt key nonce plaintext WALLET_AAD) WALLET_AAD = Err (Exn InvalidTag m) →
       wallet_parse content (Some p') = raise ValueError "wallet passphrase is invalid") ∧
    (∀ tmp path d, wallet_save tmp path w (Some []) salt nonce d = (d, raise ValueError "wallet passphrase is required")).
Proof.
  intros Hraw Hw Hkey. destruct (encrypted_run w p salt nonce key Hkey) as (plaintext & content & payload & Hpl & He & Hc & Hparse);
    [by eapply created_matched|by eapply created_text|].
  exists plaintext, payload, content. split_and!; [done|done|done|by rewrite Hparse| |done].
  intros p' key' m Hk' Hd. rewrite Hparse, (decrypt_run _ _ _ _ key') by done. unfold or_bad_cipher. rewrite Hd. done.
Qed.

Lemma passphrase_required_witness :
  let w := toy_wallet "alice" in
  ∃ plaintext payload content, utf8_decode plaintext = Ok (@dumps toy_numtext (wallet_to_dict w)) ∧
    @save_payload toy_numtext toy_cipher w (Some (py "correct horse")) (b_lit "salt") (b_lit "nonce") = Ok payload ∧ @json_file toy_numtext payload = Ok content ∧
    @wallet_parse toy_ed25519 toy_numtext toy_cipher toy_container content None = raise ValueError "wallet passphrase is required" ∧
    (∀ p' key' m, @derive_wallet_key toy_cipher p' (b_lit "salt") WALLET_KDF_ITERATIONS = Ok key' →
       @aes_decrypt toy_cipher key' (b_lit "nonce") (@aes_encrypt toy_cipher (sha256 (b_lit "correct horse" ++ b_lit "salt")) (b_lit "nonce") plaintext WALLET_AAD) WALLET_AAD = Err (Exn InvalidTag m) →
       @wallet_parse toy_ed25519 toy_numtext toy_cipher toy_container content (Some p') = raise ValueError "wallet passphrase is invalid") ∧
    (∀ tmp path d, @wallet_save toy_numtext toy_cipher tmp path w (Some []) (b_lit "salt") (b_lit "nonce") d = (d, raise ValueError "wallet passphrase is required")).
Proof.
  apply (@passphrase_required toy_ed25519 toy_numtext toy_numtext_ok toy_cipher toy_container None (toy_key "alice")).
  - vm_compute. reflexivity.
  - reflexivity.
  - reflexivity.
Defined.

(** A loaded wallet can spend what it owns.  Whatever the bytes of a wallet
    file and whatever the passphrase, if loading returns a wallet, its public
    key is the one of its private key, so every signature it makes verifies
    under its public key. *)
Theorem loaded_wallet_signs `{Ed25519Ok} `{NumText} `{WalletCipher} `{ContainerText} content pass w message signature :
  wallet_parse content pass = Ok w → wallet_sign w message = Ok signature →
  verify_signature (w_public_key w) message signature = Ok true.
Proof.
  intros Hp Hs. unfold wallet_parse in Hp. apply bind_Ok in Hp as (text & _ & Hp). apply bind_Ok in Hp as (payload & _ & Hp).
  destruct payload as [| | | | | |l]; try done. apply bind_Ok in Hp as (l' & _ & Hp). unfold wallet_from_dict in Hp. inv_ok Hp.
  apply bool_decide_eq_false, dec_stable in Hc1. apply negb_false_iff in Hc0. subst w x0. cbn [w_public_key].
  unfold wallet_sign in Hs. cbn [w_private_key] in Hs. rewrite Hx2 in Hs. cbn [mbind result_bind] in Hs. apply raise_if_bind in Hs as [_ Hs].
  apply bind_Ok in Hs as (msg & Hmsg & [= <-]). apply verify_signature_true. exists (ed_public x2), (ed_sign x2 msg), msg.
  split_and!; [|apply b64_decode_encode|done|by apply ed_sign_verify].
  unfold material. cbn [pk_create pk_algorithm pk_key]. rewrite b64_decode_encode. cbn. by rewrite ed_public_valid.
Qed.

Lemma loaded_wallet_signs_witness :
  let content := ok_or [] (@json_file toy_numtext (wallet_to_dict (toy_wallet "alice"))) in
  let signature := ok_or [] (@wallet_sign toy_ed25519 (toy_wallet "alice") (py "pay bob")) in
  @verify_signature toy_ed25519 (w_public_key (toy_wallet "alice")) (py "pay bob") signature = Ok true.
Proof.
  apply (@loaded_wallet_signs toy_ed25519 toy_ed25519_ok toy_numtext toy_cipher toy_container
    (ok_or [] (@json_file toy_numtext (wallet_to_dict (toy_wallet "alice")))) None).
  - vm_compute. reflexivity.
  - vm_compute. reflexivity.
Defined.
