(* ===== verification/Dicts.v ===== *)
(** * Transactions and blocks as dictionaries (consensus.py, the [to_dict] and [from_dict] methods)

    [from_dict] reads what JSON can hold, and checks little: a public key of any
    type is kept, so what it builds is a [RawBlock], whose inputs have the value
    they were given.  [raw_block] is the block that has the public keys the rest
    of the program works with. *)

From S2P Require Import Prelude PyBytes PyText Sha256 Json Crypto ByteReader Transaction Block Stores WireJson JsonText Explorer Network WalletFile.
Local Open Scope Z_scope.

(** ** What is read *)

Record RawInput := mkRawInput { ri_previous : OutPoint; ri_signature : option str; ri_public_key : option value }.
Record RawTransaction := mkRawTx { rt_version : Z; rt_inputs : list RawInput; rt_outputs : list TxOutput }.
Record RawBlock := mkRawBlock {
  rb_height : Z; rb_previous_hash : str; rb_transactions : list RawTransaction; rb_difficulty : Z;
  rb_timestamp : Z; rb_nonce : Z; rb_root : str; rb_version : Z;
}.

(** [data.get(key, default)] *)
Definition get_or (v : value) (key : string) (d : value) : result value :=
  match v with
  | VObj l => Ok (default d (obj_get (py key) l))
  | _ => raise AttributeError "object has no attribute 'get'"
  end.

(** [for item in v] *)
Definition iterate (v : value) : result (list value) :=
  match v with
  | VArr l => Ok l
  | VObj l => Ok ((λ e, VStr e.1) <$> l)
  | VStr s => Ok ((λ c, VStr [c]) <$> s)
  | _ => raise TypeError "object is not iterable"
  end.

Section reading.
Context `{NumText} `{ContainerText}.

(** [OutPoint.from_dict] *)
Definition outpoint_from_value (v : value) : result OutPoint :=
  t ← payload_item v "txid";
  i ← (x ← payload_item v "index"; py_int x);
  Ok (mkOutPoint (text_of t) i).

(** [TxInput.from_dict] *)
Definition input_from_value (v : value) : result RawInput :=
  key ← get_or v "public_key" VNull;
  o ← (x ← payload_item v "previous_output"; outpoint_from_value x);
  signature ← get_or v "signature" VNull;
  Ok (mkRawInput o (if truthy signature then Some (text_of signature) else None) (if truthy key then Some key else None)).

(** [TxOutput.from_dict] *)
Definition output_from_value (v : value) : result TxOutput :=
  a ← (x ← payload_item v "amount"; py_int x);
  t ← payload_item v "address";
  Ok (mkTxOutput a (text_of t)).

(** [ConsensusTransaction.from_dict] *)
Definition tx_from_value (v : value) : result RawTransaction :=
  ins ← get_or v "inputs" (VArr []);
  outs ← get_or v "outputs" (VArr []);
  version ← (x ← get_or v "version" (VInt 1); py_int x);
  inputs ← (l ← iterate ins; mapR input_from_value l);
  outputs ← (l ← iterate outs; mapR output_from_value l);
  Ok (mkRawTx version inputs outputs).

(** A transaction without its witnesses, which is what its identifier is of. *)
Definition stripped (t : RawTransaction) : ConsensusTransaction :=
  mkTx ((λ i, mkTxInput (ri_previous i) None None) <$> rt_inputs t) (rt_outputs t) (rt_version t).

(** [ConsensusBlock.from_dict], and [__post_init__] *)
Definition block_from_value (v : value) : result RawBlock :=
  items ← get_or v "transactions" (VArr []);
  height ← (x ← payload_item v "height"; py_int x);
  previous ← payload_item v "previous_hash";
  transactions ← (l ← iterate items; mapR tx_from_value l);
  difficulty ← (x ← payload_item v "difficulty"; py_int x);
  timestamp ← (x ← payload_item v "timestamp"; py_float x);
  nonce ← (x ← payload_item v "nonce"; py_int x);
  root ← payload_item v "transaction_root";
  version ← (x ← get_or v "version" (VInt 1); py_int x);
  root' ← match text_of root with
          | [] => calculate_transaction_root (stripped <$> transactions)
          | r => Ok r
          end;
  Ok (mkRawBlock height (text_of previous) transactions difficulty timestamp nonce root' version).

End reading.

(** ** What is written *)

(** [ConsensusTransaction.to_dict] *)
Definition tx_to_value (t : ConsensusTransaction) : value :=
  VObj [(py "version", VInt (tx_version t)); (py "inputs", VArr (input_to_value <$> inputs t)); (py "outputs", VArr (output_to_value <$> outputs t))].

(** [ConsensusBlock.header] *)
Definition block_header (b : ConsensusBlock) : list (str * value) :=
  [(py "difficulty", VInt (difficulty b)); (py "height", VInt (height b)); (py "nonce", VInt (nonce b));
   (py "previous_hash", VStr (previous_hash b)); (py "timestamp", VFloat (timestamp b));
   (py "transaction_root", VStr (transaction_root b)); (py "version", VInt (block_version b))].

(** [ConsensusBlock.to_dict] *)
Definition block_to_value (b : ConsensusBlock) : result value :=
  hash ← block_hash b;
  Ok (VObj (block_header b ++ [(py "hash", VStr hash); (py "transactions", VArr (tx_to_value <$> transactions b))])).

(** ** The block that was written *)

Definition key_value (d : gmap str str) : value := VObj ((λ e, (e.1, VStr e.2)) <$> by_key d).
Definition raw_input (i : TxInput) : RawInput := mkRawInput (previous_output i) (in_signature i) (key_value <$> in_public_key i).
Definition raw_tx (t : ConsensusTransaction) : RawTransaction := mkRawTx (tx_version t) (raw_input <$> inputs t) (outputs t).
Definition raw_block (b : ConsensusBlock) : RawBlock :=
  mkRawBlock (height b) (previous_hash b) (raw_tx <$> transactions b) (difficulty b) (timestamp b) (nonce b) (transaction_root b) (block_version b).

(** A witness that the truth tests of [from_dict] do not drop. *)
Definition witness_kept (i : TxInput) : Prop := in_signature i ≠ Some [] ∧ in_public_key i ≠ Some ∅.

#[global] Instance witness_kept_dec i : Decision (witness_kept i).
Proof. unfold witness_kept. apply _. Defined.

Lemma mapR_fmap {A B C} (f : B → result C) (g : A → B) (h : A → C) l : (∀ x, x ∈ l → f (g x) = Ok (h x)) → mapR f (g <$> l) = Ok (h <$> l).
Proof.
  induction l as [|x l IH]; intros Hf; [done|]. cbn [fmap list_fmap mapR]. rewrite Hf by left. cbn [mbind result_bind].
  change (list_fmap _ _ g l) with (g <$> l). rewrite IH by (intros; apply Hf; by right). done.
Qed.

Lemma key_value_inj d1 d2 : key_value d1 = key_value d2 → d1 = d2.
Proof.
  intros [= E].
  assert (Hi : Inj (=) (=) (λ e : str * str, (e.1, VStr e.2))) by (intros [k1 v1] [k2 v2] [= -> ->]; done).
  apply (inj (fmap _)) in E. apply (f_equal (list_to_map (M := gmap str str))) in E.
  assert (Hm : ∀ d : gmap str str, list_to_map (by_key d) = d).
  { intros d. transitivity (list_to_map (map_to_list d) : gmap str str); [|apply list_to_map_to_list].
    apply list_to_map_proper; [|apply sort_by_perm]. unfold by_key. rewrite sort_by_perm. apply NoDup_fst_map_to_list. }
  by rewrite !Hm in E.
Qed.

#[global] Instance raw_input_inj : Inj (=) (=) raw_input.
Proof.
  intros [o1 s1 k1] [o2 s2 k2] E. pose proof (f_equal ri_previous E) as E1. pose proof (f_equal ri_signature E) as E2.
  apply (f_equal ri_public_key) in E. cbn in E, E1, E2. subst. f_equal. destruct k1 as [d1|], k2 as [d2|]; try done. f_equal.
  apply key_value_inj. by apply (inj Some) in E.
Qed.

#[global] Instance raw_tx_inj : Inj (=) (=) raw_tx.
Proof. intros [i1 o1 v1] [i2 o2 v2] [= -> E ->]. f_equal. by apply (inj (fmap raw_input)) in E. Qed.

#[global] Instance raw_block_inj : Inj (=) (=) raw_block.
Proof. intros [] [] [= -> -> E -> -> -> -> ->]. f_equal. by apply (inj (fmap raw_tx)) in E. Qed.

Section dict_roundtrip.
Context `{NumText} `{ContainerText}.

Lemma by_key_nonempty (d : gmap str str) : d ≠ ∅ → by_key d ≠ [].
Proof.
  intros Hd E. apply Hd. unfold by_key in E. apply map_to_list_empty_iff, Permutation_nil. rewrite <- E. apply sort_by_perm.
Qed.

Lemma input_read i : witness_kept i → input_from_value (input_to_value i) = Ok (raw_input i).
Proof.
  intros [Hs Hk]. destruct i as [[t n] sg pk]. cbn [in_signature in_public_key] in *.
  unfold input_from_value, input_to_value, raw_input, key_value. cbn [previous_output in_signature in_public_key].
  destruct sg as [[|c s]|]; [done| |]; (destruct pk as [d|]; [|reflexivity]); cbn [fmap option_fmap option_map];
    (assert (Hd : by_key d ≠ []) by (apply by_key_nonempty; congruence)); by destruct (by_key d) as [|e l].
Qed.

Lemma output_read x : output_from_value (output_to_value x) = Ok x.
Proof. by destruct x. Qed.

Lemma tx_read t : Forall witness_kept (inputs t) → tx_from_value (tx_to_value t) = Ok (raw_tx t).
Proof.
  intros Hi.
  assert (E : tx_from_value (tx_to_value t) =
    (i ← mapR input_from_value (input_to_value <$> inputs t); o ← mapR output_from_value (output_to_value <$> outputs t);
     Ok (mkRawTx (tx_version t) i o))) by reflexivity.
  rewrite E, (mapR_fmap _ _ raw_input), (mapR_fmap _ _ id) by (intros; first [apply output_read|apply input_read; by eapply Forall_forall in Hi]).
  cbn. by rewrite list_fmap_id.
Qed.

End dict_roundtrip.

(** ** Properties *)

(** The dictionary of a block says all of it.  [from_dict] reads back, from
    what [to_dict] wrote, every field of the block and of its transactions, the
    public keys as dictionaries; and no other block reads like that.  An input's
    empty signature or empty public key would be dropped. *)
Theorem block_dict_roundtrip `{NumText} `{ContainerText} b v :
  transaction_root b ≠ [] → Forall (λ t, Forall witness_kept (inputs t)) (transactions b) → block_to_value b = Ok v →
  block_from_value v = Ok (raw_block b) ∧ ∀ b', raw_block b' = raw_block b → b' = b.
Proof.
  intros Hroot Hw E. split; [|intros b'; apply (inj raw_block)]. unfold block_to_value in E. apply bind_Ok in E as (hash & _ & [= <-]).
  assert (E : block_from_value (VObj (block_header b ++ [(py "hash", VStr hash); (py "transactions", VArr (tx_to_value <$> transactions b))])) =
    (ts ← mapR tx_from_value (tx_to_value <$> transactions b);
     root ← match transaction_root b with [] => calculate_transaction_root (stripped <$> ts) | r => Ok r end;
     Ok (mkRawBlock (height b) (previous_hash b) ts (difficulty b) (timestamp b) (nonce b) root (block_version b)))) by reflexivity.
  etransitivity; [exact E|]. rewrite (mapR_fmap _ _ raw_tx) by (intros t Ht; apply tx_read; by eapply Forall_forall in Hw).
  cbn [mbind result_bind]. unfold raw_block. by destruct (transaction_root b).
Qed.

Lemma block_dict_roundtrip_witness :
  @block_from_value toy_numtext toy_container (ok_or VNull (block_to_value sample_block)) = Ok (raw_block sample_block) ∧
  ∀ b', raw_block b' = raw_block sample_block → b' = sample_block.
Proof.
  apply (@block_dict_roundtrip toy_numtext toy_container sample_block (ok_or VNull (block_to_value sample_block))).
  - vm_compute. discriminate.
  - apply (bool_decide_unpack (Forall (λ t, Forall witness_kept (inputs t)) (transactions sample_block))). vm_compute. exact I.
  - apply ok_or_spec. vm_compute. reflexivity.
Defined.
