(* ===== verification/Cli.v ===== *)
(** * The command line (cli.py)

    One command of [blockchaincoin], from its parsed arguments to what it prints
    and how it exits.  The world is the wallet files, the databases of the one
    node that [--db] names, and the runtime a command holds; what is random or
    comes from the operating system (keys, salts, the name of a temporary file,
    the clock, the answer to a bind) is in [Env].  [argparse] is not modelled:
    an [option] argument is [None] where the flag is missing. *)

From S2P Require Import Prelude PyBytes PyText Sha256 Json Crypto ByteReader Transaction Block Utxo State BlockProcessor ForkStore ForkChoice Stores Policy Mempool Selection Mining Node Restart Produced Peers WireJson Explorer JsonText Network Session Transport Service Server Runtime WalletFile.
Local Open Scope Z_scope.

(** ** The world *)

Record World := mkWorld { w_files : gmap str bytes; w_db : Mempool.Disk; w_runtime : option NodeRuntime }.

Definition with_files (f : gmap str bytes) (w : World) : World := mkWorld f (w_db w) (w_runtime w).
Definition with_db (d : Mempool.Disk) (w : World) : World := mkWorld (w_files w) d (w_runtime w).
Definition with_runtime (r : option NodeRuntime) (w : World) : World := mkWorld (w_files w) (w_db w) r.

Definition on_files {A} (m : SM (gmap str bytes) A) : SM World A := sm_zoom w_files with_files m.
Definition on_db {A} (m : SM Mempool.Disk A) : SM World A := sm_zoom w_db with_db m.

Definition on_runtime {A} (m : SM NodeRuntime A) : SM World A := λ w,
  match w_runtime w with
  | Some r => let x := m r in (with_runtime (Some x.1) w, x.2)
  | None => (w, raise AssertionError "no runtime")
  end.

Record Env := mkEnv {
  env_key : bytes; env_salt : bytes; env_nonce : bytes; env_tmp : str;
  env_now : Z; env_fuel : nat; env_bind : str → Z → result (str * Z);
}.

(** ** Arguments *)

(** [_add_node_args] and [_add_runtime_args] *)
Record NodeArgs := mkNodeArgs { na_difficulty : Z; na_reward : Z }.

Record RuntimeArgs := mkRuntimeArgs {
  ra_node : NodeArgs; ra_db : str; ra_network : str; ra_node_id : str; ra_host : str; ra_port : Z; ra_peer_auth_key : option str;
}.

(** The subcommands of [build_parser]. *)
Inductive command :=
  | WalletNew (out : str) (passphrase : option str)
  | Init (args : RuntimeArgs) (genesis_wallet : str) (amount : Z)
  | Chain (args : NodeArgs) (wallet : option str)
  | Balance (args : NodeArgs) (wallet : str)
  | Utxos (args : NodeArgs) (wallet address : option str)
  | Send (args : NodeArgs) (from_wallet : str) (to_wallet to_address : option str) (amount fee : Z)
  | MempoolOf (args : NodeArgs) (prune clear : bool)
  | BlockOf (args : NodeArgs) (hash : option str) (height : option Z)
  | Tx (args : NodeArgs) (txid : str)
  | Mine (args : NodeArgs) (miner_wallet : str)
  | Serve (args : RuntimeArgs).

(** ** Output *)

(** What [print] is given: a JSON document with sorted keys, or text. *)
Inductive printed := JsonLine (payload : value) | TextLine (text : str).

(** [_emit] *)
Definition emit (json : bool) (payload : list (str * value)) (text : str) : printed :=
  if json then JsonLine (VObj payload) else TextLine text.

(** The dictionaries the commands emit. *)
Definition opt_int (z : option Z) : value := match z with Some z => VInt z | None => VNull end.

Definition utxo_to_value (u : UTXO) : value :=
  VObj [(py "txid", VStr (op_txid u.1)); (py "index", VInt (op_index u.1));
        (py "amount", VInt (amount u.2)); (py "address", VStr (out_address u.2))].

Definition spendable_items (s : SpendableSummary) : list (str * value) :=
  [(py "address", VStr (ss_address s)); (py "balance", VInt (ss_balance s)); (py "count", VInt (ss_count s));
   (py "utxos", VArr (utxo_to_value <$> ss_utxos s))].

Definition mempool_row_to_value (r : MempoolRow) : value :=
  VObj [(py "txid", VStr (mr_txid r)); (py "inputs", VInt (mr_inputs r)); (py "outputs", VInt (mr_outputs r));
        (py "output_value", VInt (mr_output_value r)); (py "fee", opt_int (mr_fee r)); (py "fee_rate", opt_int (mr_fee_rate r));
        (py "bytes", VInt (mr_bytes r)); (py "valid", VBool (mr_valid r))].

Definition block_items (s : BlockSummary) : list (str * value) :=
  [(py "hash", VStr (bs_hash s)); (py "height", VInt (bs_height s)); (py "previous_hash", VStr (bs_previous_hash s));
   (py "difficulty", VInt (bs_difficulty s)); (py "timestamp", VFloat (bs_timestamp s)); (py "nonce", VInt (bs_nonce s));
   (py "transaction_root", VStr (bs_transaction_root s)); (py "transactions", VArr (VStr <$> bs_transactions s));
   (py "transaction_count", VInt (bs_transaction_count s)); (py "cumulative_work", VInt (bs_cumulative_work s));
   (py "active", VBool (bs_active s))].

Definition tx_items (s : TransactionSummary) : list (str * value) :=
  [(py "txid", VStr (ts_txid s)); (py "status", VStr (ts_status s)); (py "coinbase", VBool (ts_coinbase s));
   (py "inputs", VArr (ts_inputs s)); (py "outputs", VArr (ts_outputs s)); (py "input_count", VInt (ts_input_count s));
   (py "output_count", VInt (ts_output_count s)); (py "output_value", VInt (ts_output_value s))] ++
  match ts_block_hash s with Some h => [(py "block_hash", VStr h)] | None => [] end ++
  match ts_height s with Some k => [(py "height", VInt k)] | None => [] end.

(** A line end inside the text. *)
Definition newline : str := [10].

Section commands.
Context `{Ed25519} `{NumText} `{WalletCipher} `{ContainerText}.

(** [Wallet.load(path)] *)
Definition load_wallet (path : str) : SM World Wallet := w ← sm_get; sm_lift (wallet_load path None (w_files w)).

(** [getattr(args, name)] is set and not empty. *)
Definition given (arg : option str) : option str := match arg with Some (c :: s) => Some (c :: s) | _ => None end.

(** [node = ConsensusNode.open(...)], and [body] up to [node.close()]. *)
Definition with_node_open {A} (a : NodeArgs) (body : SM Node A) : SM World A := λ w,
  match node_open (na_difficulty a) (na_reward a) MAX_MONEY (w_db w) with
  | (d, Ok n) => let x := body n in (with_db (n_disk x.1) w, x.2)
  | (d, Err e) => (with_db d w, Err e)
  end.

(** [except ConsensusNodeError as exc: raise SystemExit(str(exc))] *)
Definition or_exit {A} (m : result A) : result A :=
  try_catch m (λ e, if is_node_error e then Err (Exn SystemExit (exn_msg e)) else Err e).

(** [cmd_wallet_new] *)
Definition cmd_wallet_new (env : Env) (json : bool) (out : str) (passphrase : option str) : SM World printed :=
  wallet ← sm_lift (wallet_create None (env_key env));
  on_files (wallet_save (env_tmp env) out wallet passphrase (env_salt env) (env_nonce env));;
  address ← sm_lift (wallet_address wallet);
  mret (emit json [(py "address", VStr address); (py "wallet", VStr out)] (py "created wallet " ++ address)).

(** [_runtime_config] *)
Definition runtime_config (a : RuntimeArgs) : result NodeRuntimeConfig :=
  key ← utf8_encode (default [] (ra_peer_auth_key a));
  Ok (mkConfig (ra_db a) (ra_network a) (ra_node_id a) (ra_host a) (ra_port a) key (na_difficulty (ra_node a)) (na_reward (ra_node a)) MAX_MONEY).

(** [_wallet_or_address] *)
Definition wallet_or_address (wallet literal : option str) : SM World str :=
  match given wallet, given literal with
  | Some path, _ => w ← load_wallet path; sm_lift (wallet_address w)
  | None, Some a => sm_lift (raise_if (negb (is_valid_address a)) SystemExit "address is invalid");; mret a
  | None, None => sm_raise SystemExit "provide --wallet or --address"
  end.

(** [cmd_init] *)
Definition cmd_init (env : Env) (json : bool) (a : RuntimeArgs) (genesis_wallet : str) (amount : Z) : SM World printed :=
  wallet ← load_wallet genesis_wallet;
  config ← sm_lift (runtime_config a);
  address ← sm_lift (Crypto.wallet_address wallet);
  runtime ← on_db (runtime_create (env_bind env) (env_fuel env) config [(address, amount)] (env_now env));
  w ← sm_get;
  sm_put (with_runtime (Some runtime) w);;
  sm_finally
    (tip ← sm_lift (tip_hash (rt_node runtime));
     height ← sm_lift (node_height (rt_node runtime));
     mret (emit json
             [(py "db", VStr (ra_db a)); (py "network", VStr (ra_network a)); (py "node_id", VStr (ra_node_id a));
              (py "tip", VStr tip); (py "height", VInt height)]
             (py "initialized UTXO node " ++ ra_node_id a ++ py " at height " ++ str_of_int height)))
    (on_runtime runtime_stop).

(** The lines of [cmd_chain]. *)
Definition chain_text (height : Z) (tip : str) (count supply pending : Z) : str :=
  join 10 [py "height: " ++ str_of_int height; py "tip: " ++ tip; py "utxos: " ++ str_of_int count;
           py "supply: " ++ str_of_int supply; py "mempool: " ++ str_of_int pending].

(** [cmd_chain]; wallet files are read while the node is open. *)
Definition cmd_chain (json : bool) (a : NodeArgs) (wallet : option str) : SM World printed :=
  w ← sm_get;
  with_node_open a (
    n ← sm_get;
    height ← sm_lift (node_height n);
    tip ← sm_lift (tip_hash n);
    let count := utxo_len (utxos (n_state n)) in
    let supply := utxo_total (utxos (n_state n)) in
    let payload := [(py "height", VInt height); (py "tip", VStr tip); (py "utxos", VInt count);
                    (py "supply", VInt supply); (py "mempool", VInt (zlen (n_mempool n)))] in
    more ← match given wallet with
           | None => mret []
           | Some path =>
               x ← sm_lift (wallet_load path None (w_files w));
               address ← sm_lift (wallet_address x);
               mret [(py "address", VStr address);
                     (py "balance", VInt (sumZ ((λ u : UTXO, amount u.2) <$> spendable_outputs n address)))]
           end;
    mret (emit json (payload ++ more) (chain_text height tip count supply (zlen (n_mempool n))))).

(** [cmd_balance] *)
Definition cmd_balance (json : bool) (a : NodeArgs) (wallet : str) : SM World printed :=
  w ← sm_get;
  with_node_open a (
    n ← sm_get;
    x ← sm_lift (wallet_load wallet None (w_files w));
    address ← sm_lift (wallet_address x);
    summary ← sm_lift (spendable_summary n address);
    height ← sm_lift (node_height n);
    tip ← sm_lift (tip_hash n);
    mret (emit json (spendable_items summary ++ [(py "height", VInt height); (py "tip", VStr tip)])
            (py "address:   " ++ address ++ newline ++ py "confirmed: " ++ str_of_int (ss_balance summary)))).

(** [cmd_utxos] *)
Definition cmd_utxos (json : bool) (a : NodeArgs) (wallet literal : option str) : SM World printed :=
  address ← wallet_or_address wallet literal;
  with_node_open a (
    n ← sm_get;
    summary ← sm_lift (spendable_summary n address);
    mret (emit json (spendable_items summary)
            (match ss_utxos summary with
             | [] => py "no spendable UTXOs for " ++ address
             | us => join 10 ((λ u : UTXO, op_txid u.1 ++ py ":" ++ str_of_int (op_index u.1) ++ py " amount=" ++ str_of_int (amount u.2)) <$> us)
             end))).

(** [cmd_send] *)
Definition cmd_send (json : bool) (a : NodeArgs) (from_wallet : str) (to_wallet to_address : option str) (amount fee : Z) : SM World printed :=
  sender ← load_wallet from_wallet;
  recipient ← match given to_wallet with
              | Some path => x ← load_wallet path; address ← sm_lift (wallet_address x); mret (given (Some address))
              | None => mret (given to_address)
              end;
  match recipient with
  | None => sm_raise SystemExit "provide --to-wallet or --to-address"
  | Some recipient =>
      with_node_open a (
        n ← sm_get;
        t ← sm_lift (create_transaction n sender recipient amount fee);
        h ← submit_transaction t;
        mret (emit json [(py "txid", VStr h); (py "inputs", VInt (zlen (inputs t))); (py "outputs", VInt (zlen (outputs t)))]
                (py "queued UTXO transaction " ++ h)))
  end.

(** A line of the listing of [cmd_mempool]. *)
Definition mempool_line (r : MempoolRow) : str :=
  mr_txid r ++ py " inputs=" ++ str_of_int (mr_inputs r) ++ py " outputs=" ++ str_of_int (mr_outputs r) ++
  py " fee=" ++ py_str (opt_int (mr_fee r)) ++ py " valid=" ++ py_str (VBool (mr_valid r)).

(** [cmd_mempool] *)
Definition cmd_mempool (json : bool) (a : NodeArgs) (prune clear : bool) : SM World printed :=
  with_node_open a (
    if clear then
      removed ← clear_mempool;
      mret (emit json [(py "removed", VInt removed)] (py "cleared " ++ str_of_int removed ++ py " UTXO mempool transaction(s)"))
    else if prune then
      removed ← prune_mempool;
      mret (emit json [(py "removed", VInt removed)] (py "pruned " ++ str_of_int removed ++ py " UTXO mempool transaction(s)"))
    else
      n ← sm_get;
      rows ← sm_lift (mempool_summary n);
      mret (emit json [(py "count", VInt (zlen rows)); (py "transactions", VArr (mempool_row_to_value <$> rows))]
              (match rows with [] => py "UTXO mempool is empty" | _ => join 10 (mempool_line <$> rows) end))).

(** [cmd_block] *)
Definition cmd_block (json : bool) (a : NodeArgs) (hash : option str) (at_height : option Z) : SM World printed :=
  with_node_open a (
    n ← sm_get;
    s ← sm_lift (or_exit (block_summary n hash at_height));
    mret (emit json (block_items s)
            (py "block #" ++ str_of_int (bs_height s) ++ py " " ++ bs_hash s ++ newline ++
             py "transactions: " ++ str_of_int (bs_transaction_count s) ++ newline ++
             py "active: " ++ py_str (VBool (bs_active s))))).

(** [cmd_tx] *)
Definition cmd_tx (json : bool) (a : NodeArgs) (h : str) : SM World printed :=
  with_node_open a (
    n ← sm_get;
    s ← sm_lift (or_exit (transaction_summary n h));
    let location := if bool_decide (ts_status s = py "confirmed") then py " height=" ++ py_str (opt_int (ts_height s)) else [] in
    mret (emit json (tx_items s)
            (ts_txid s ++ py " status=" ++ ts_status s ++ location ++ py " outputs=" ++ str_of_int (ts_output_count s) ++
             py " value=" ++ str_of_int (ts_output_value s)))).

(** [cmd_mine] *)
Definition cmd_mine (env : Env) (json : bool) (a : NodeArgs) (miner_wallet : str) : SM World printed :=
  wallet ← load_wallet miner_wallet;
  with_node_open a (
    address ← sm_lift (wallet_address wallet);
    stored ← mine_block (env_fuel env) address (env_now env);
    h ← sm_lift (block_hash (sb_block stored));
    mret (emit json [(py "height", VInt (height (sb_block stored))); (py "hash", VStr h); (py "cumulative_work", VInt (cumulative_work stored))]
            (py "mined UTXO block #" ++ str_of_int (height (sb_block stored)) ++ newline ++ py "hash: " ++ h))).

(** [cmd_serve] *)
Definition cmd_serve (env : Env) (json : bool) (a : RuntimeArgs) : SM World printed :=
  config ← sm_lift (runtime_config a);
  runtime ← on_db (runtime_open (env_bind env) config);
  w ← sm_get;
  sm_put (with_runtime (Some runtime) w);;
  sm_finally
    (on_runtime runtime_start;;
     height ← sm_lift (node_height (rt_node runtime));
     let host := (runtime_address runtime).1 in
     let port := (runtime_address runtime).2 in
     mret (emit json [(py "host", VStr host); (py "port", VInt port); (py "height", VInt height)]
             (py "serving UTXO node on " ++ host ++ py ":" ++ str_of_int port)))
    (on_runtime runtime_stop).

(** [args.func(args)] *)
Definition run_command (env : Env) (json : bool) (c : command) : SM World printed :=
  match c with
  | WalletNew out passphrase => cmd_wallet_new env json out passphrase
  | Init a wallet amount => cmd_init env json a wallet amount
  | Chain a wallet => cmd_chain json a wallet
  | Balance a wallet => cmd_balance json a wallet
  | Utxos a wallet literal => cmd_utxos json a wallet literal
  | Send a from_wallet to_wallet to_address amount fee => cmd_send json a from_wallet to_wallet to_address amount fee
  | MempoolOf a prune clear => cmd_mempool json a prune clear
  | BlockOf a hash at_height => cmd_block json a hash at_height
  | Tx a h => cmd_tx json a h
  | Mine a wallet => cmd_mine env json a wallet
  | Serve a => cmd_serve env json a
  end.

(** How the process ends: output, a message of [SystemExit], or a traceback. *)
Inductive outcome := Printed (p : printed) | Exit (message : str) | Traceback (e : exn).

(** [main] *)
Definition main (env : Env) (json : bool) (c : command) (w : World) : World * outcome :=
  let x := run_command env json c w in
  (x.1, match x.2 with
        | Ok p => Printed p
        | Err e => if is_node_error e || exn_is RuntimeError e || exn_is SystemExit e then Exit (exn_msg e) else Traceback e
        end).

End commands.

(** ** Lemmas: what commands do to the databases *)

Lemma keeps_finally {S A} (R : S → S → Prop) `{!Transitive R} (m : SM S A) f : keeps R m → keeps R f → keeps R (sm_finally m f).
Proof.
  intros Hm Hf s. unfold sm_finally. specialize (Hm s). specialize (Hf (m s).1). destruct (f (m s).1) as [s' [u|e]]; cbn in *; by etransitivity.
Qed.

Section cli_lemmas.
Context `{ED : Ed25519}.

(** [n'] is [n] some operations later, on the same chain. *)
Definition succeeds (n n' : Node) : Prop :=
  durable n → durable n' ∧ node_params n' = node_params n ∧ n_store n' = n_store n ∧ n_state n' = n_state n.

#[global] Instance succeeds_preorder : PreOrder succeeds.
Proof.
  split; [by intros n|]. intros n1 n2 n3 H12 H23 Hd. destruct (H12 Hd) as (Hd2 & E2 & S2 & T2). destruct (H23 Hd2) as (Hd3 & E3 & S3 & T3).
  split_and!; [done|congruence..].
Qed.

(** The databases of a node stay the databases of a node. *)
Definition db_kept (d d' : Mempool.Disk) : Prop := ∀ n, durable n → d = n_disk n → ∃ n', d' = n_disk n' ∧ succeeds n n'.

#[global] Instance db_kept_preorder : PreOrder db_kept.
Proof.
  split; [by intros d n Hd ->; exists n|]. intros d1 d2 d3 H12 H23 n Hd Hn. destruct (H12 n Hd Hn) as (n2 & Hn2 & S2).
  destruct (S2 Hd) as (Hd2 & _). destruct (H23 n2 Hd2 Hn2) as (n3 & Hn3 & S3). exists n3. split; [done|]. by etransitivity.
Qed.

Definition world_kept (w w' : World) : Prop := db_kept (w_db w) (w_db w').

#[global] Instance world_kept_preorder : PreOrder world_kept.
Proof. split; [by intros w n Hd ->; exists n|]. intros w1 w2 w3 H12 H23. unfold world_kept. by etransitivity. Qed.

Lemma kept_files {A} (m : SM (gmap str bytes) A) : keeps world_kept (on_files m).
Proof. intros w n Hd Hn. by exists n. Qed.

Lemma kept_runtime {A} (m : SM NodeRuntime A) : keeps world_kept (on_runtime m).
Proof. intros w n Hd Hn. exists n. unfold on_runtime. by destruct (w_runtime w). Qed.

Lemma kept_db {A} (m : SM Mempool.Disk A) : keeps db_kept m → keeps world_kept (on_db m).
Proof. intros Hm w. exact (Hm (w_db w)). Qed.

(** Opening with any parameters. *)
Lemma open_cases n difficulty subsidy max : durable n →
  (mkParams difficulty subsidy max = node_params n ∧ ∃ n', node_open difficulty subsidy max (n_disk n) = (n_disk n', Ok n') ∧
     reopened n n' ∧ durable n') ∨
  (mkParams difficulty subsidy max ≠ node_params n ∧ node_open difficulty subsidy max (n_disk n) =
     (n_disk n, raise ConsensusNodeError "stored consensus chain failed validation")).
Proof.
  intros Hd. destruct (decide (mkParams difficulty subsidy max = node_params n)) as [E|Hne]; [left|right].
  - split; [done|]. injection E as -> -> ->. by apply reopen_durable.
  - split; [done|]. by apply wrong_parameters.
Qed.

Lemma reopened_succeeds n n' : reopened n n' → durable n' → succeeds n n'.
Proof. intros (Hst & Hs & Hdif & Hfc & _) Hd _. unfold node_params. by rewrite Hst, Hs, Hdif, Hfc. Qed.

Lemma kept_open {A} a (body : SM Node A) : keeps succeeds body → keeps world_kept (with_node_open a body).
Proof.
  intros Hb w n Hd Hn. unfold with_node_open. rewrite Hn.
  destruct (open_cases n (na_difficulty a) (na_reward a) MAX_MONEY Hd) as [(_ & n1 & -> & Hr & Hd1)|(_ & ->)].
  - exists (body n1).1. split; [done|]. etransitivity; [by apply reopened_succeeds|apply Hb].
  - by exists n.
Qed.

Lemma kept_submit t : (∀ n, durable n → canonical_tx t) → keeps succeeds (submit_transaction t).
Proof. intros Ht n Hd. pose proof (submit_durable n t Hd (Ht n Hd)) as Hd'. split; [done|].
  destruct (submit_cases n t (du_distinct n Hd)) as [(e & _ & ->)|(kept & h & rows & _ & _ & _ & ->)]; done.
Qed.

Lemma kept_prune : keeps succeeds prune_mempool.
Proof.
  intros n Hd. split; [by apply prune_durable|]. unfold prune_mempool. rewrite bind_get_run.
  destruct (node_state_params _ (du_wf n Hd)) as ((Hs & Hm & _) & _).
  rewrite (sm_bind_run _ _ _ _ _ (prune_invalid_Ok n Hs Hm)), bind_get_run. unfold on_mempool_store, sm_zoom, mbind, SM_bind.
  cbn. destruct (replace_all _ _) as [m [u|e]]; done.
Qed.

Lemma kept_clear : keeps succeeds clear_mempool.
Proof. intros n Hd. split; [by apply clear_durable|done]. Qed.

Lemma kept_create bind fuel c allocations now : keeps db_kept (runtime_create bind fuel c allocations now).
Proof.
  intros d n Hd ->. exists n. split; [|done]. unfold runtime_create. rewrite bind_lift_run.
  destruct (config_validate c); [|done]. unfold mbind, SM_bind. by rewrite create_again.
Qed.

Lemma kept_runtime_open bind c : keeps db_kept (runtime_open bind c).
Proof.
  intros d n Hd ->. unfold runtime_open. rewrite bind_lift_run. destruct (config_validate c); [|by exists n].
  unfold mbind, SM_bind. destruct (open_cases n (rc_difficulty c) (rc_block_subsidy c) (rc_max_money c) Hd) as [(_ & n1 & -> & Hr & Hd1)|(_ & ->)].
  - exists n1. split; [done|]. by apply reopened_succeeds.
  - by exists n.
Qed.

Hint Resolve kept_files kept_runtime kept_prune kept_clear kept_create kept_runtime_open kept_db : bcc.

Lemma kept_load path `{NumText} `{WalletCipher} `{ContainerText} : keeps world_kept (load_wallet path).
Proof. unfold load_wallet. keeps_steps. Qed.
Hint Resolve kept_load : bcc.

Lemma kept_set_runtime {A} r (k : SM World A) : keeps world_kept k → keeps world_kept (w ← sm_get; sm_put (with_runtime r w);; k).
Proof.
  intros Hk w. rewrite bind_get_run. etransitivity; [|exact (Hk (with_runtime r w))]. intros n Hd Hn. by exists n.
Qed.

Section with_io.
Context `{NumText} `{WalletCipher} `{ContainerText}.

Lemma kept_send json a from_wallet to_wallet to_address amount fee :
  keeps world_kept (cmd_send json a from_wallet to_wallet to_address amount fee).
Proof.
  unfold cmd_send. apply keeps_bind; [apply _|auto with bcc|]. intros sender. apply keeps_bind; [apply _|keeps_steps|].
  intros [recipient|]; [|keeps_steps]. apply kept_open. intros n Hd. revert Hd. rewrite bind_get_run, bind_lift_run.
  destruct (create_transaction n sender recipient amount fee) as [t|e] eqn:Et; [|done].
  intros Hd. apply payment_canonical in Et; [|by apply du_wf].
  cut (keeps succeeds (h ← submit_transaction t;
    mret (emit json [(py "txid", VStr h); (py "inputs", VInt (zlen (inputs t))); (py "outputs", VInt (zlen (outputs t)))]
            (py "queued UTXO transaction " ++ h)))); [intros Hk; by apply Hk|].
  apply keeps_bind; [apply _|by apply kept_submit|]. keeps_steps.
Qed.

Lemma command_kept env json c : (∀ a path, c ≠ Mine a path) → keeps world_kept (run_command env json c).
Proof.
  intros Hc. destruct c as [out pass|a path amount|a path|a path|a path lit|a from to lit amount fee|a prune clear|a h k|a h|a path|a]; cbn [run_command].
  - unfold cmd_wallet_new. keeps_steps.
  - unfold cmd_init. do 4 (apply keeps_bind; [apply _|keeps_steps|intros ?]). apply kept_set_runtime.
    apply keeps_finally; [apply _|keeps_steps..].
  - unfold cmd_chain. apply keeps_bind; [apply _|keeps_steps|]. intros w. apply kept_open. keeps_steps.
  - unfold cmd_balance. apply keeps_bind; [apply _|keeps_steps|]. intros w. apply kept_open. keeps_steps.
  - unfold cmd_utxos, wallet_or_address. apply keeps_bind; [apply _|keeps_steps|]. intros w. apply kept_open. keeps_steps.
  - apply kept_send.
  - unfold cmd_mempool. apply kept_open. keeps_steps.
  - unfold cmd_block. apply kept_open. keeps_steps.
  - unfold cmd_tx. apply kept_open. cbv zeta. keeps_steps.
  - by destruct (Hc a path).
  - unfold cmd_serve. do 2 (apply keeps_bind; [apply _|keeps_steps|intros ?]). apply kept_set_runtime.
    cbv zeta. apply keeps_finally; [apply _|keeps_steps..].
Qed.

(** [mine], however it ends. *)
Lemma mine_body {A} n fuel now (address : result str) (k : StoredBlock → result A) : durable n → small_money n → 0 ≤ now < 2 ^ 64 →
  grows_to n ((miner ← sm_lift address; sb ← mine_block fuel miner now; sm_lift (k sb)) n).1.
Proof.
  intros Hd Hs Hnow. rewrite bind_lift_run. destruct address as [miner|]; [|by apply grows_to_refl].
  pose proof (mine_block_grows n fuel miner now Hd Hnow Hs) as Hg. unfold mbind, SM_bind.
  by destruct (mine_block fuel miner now n) as [n1 [sb|]].
Qed.

Lemma mine_kept env json a path w n : durable n → w_db w = n_disk n → 0 ≤ env_now env < 2 ^ 64 →
  ∃ n', w_db (cmd_mine env json a path w).1 = n_disk n' ∧ grows_to n n'.
Proof.
  intros Hd Hn Hnow. unfold cmd_mine, load_wallet. rewrite sm_bind_assoc, bind_get_run, bind_lift_run.
  destruct (wallet_load path None (w_files w)) as [x|]; [|exists n; by split; [|apply grows_to_refl]].
  unfold with_node_open. rewrite Hn.
  destruct (open_cases n (na_difficulty a) (na_reward a) MAX_MONEY Hd) as [(Hp & n1 & E1 & Hr & Hd1)|(_ & E1)]; rewrite E1;
    [|exists n; by split; [|apply grows_to_refl]].
  pose proof (reopened_grows _ _ Hr Hd1) as Hg1. assert (Hs : small_money n1).
  { apply (small_money_params n n1); [apply Hg1|]. unfold small_money. injection Hp as _ _ <-. by vm_compute. }
  eexists. split; [reflexivity|]. eapply grows_to_trans; [exact Hg1|].
  pose proof (mine_body n1 (env_fuel env) (env_now env) (wallet_address x)
    (λ sb, h ← block_hash (sb_block sb);
       Ok (emit json [(py "height", VInt (height (sb_block sb))); (py "hash", VStr h); (py "cumulative_work", VInt (cumulative_work sb))]
             (py "mined UTXO block #" ++ str_of_int (height (sb_block sb)) ++ newline ++ py "hash: " ++ h))) Hd1 Hs Hnow) as Hg.
  revert Hg. rewrite !bind_lift_run. destruct (wallet_address x) as [miner|]; [|done].
  unfold mbind, SM_bind. destruct (mine_block (env_fuel env) miner (env_now env) n1) as [n2 [sb|]]; [|done].
  by destruct (block_hash (sb_block sb)).
Qed.

End with_io.

End cli_lemmas.

(** ** Lemmas: reports *)

Section cli_reports.
Context `{ED : Ed25519} `{NumText} `{WalletCipher} `{ContainerText}.

Lemma durable_tip n : durable n → ∃ h tip, node_height n = Ok h ∧ tip_hash n = Ok tip.
Proof.
  intros [_ _ _ (t & h & Ht & Hh) _ _ _ _]. exists (height (sb_block t)), h. unfold node_height, tip_hash. by rewrite Ht.
Qed.

(** What [cmd_balance] computes on an open node. *)
Lemma address_text w a : wallet_address w = Ok a → is_valid_address a = true.
Proof. unfold wallet_address. apply address_valid. Qed.

(** The wallet a command reads before anything else. *)
Definition first_wallet (c : command) : option str :=
  match c with
  | Init _ path _ | Send _ path _ _ _ _ | Mine _ path => Some path
  | Utxos _ wallet _ => given wallet
  | _ => None
  end.

Lemma first_wallet_fails env json c w path e : first_wallet c = Some path → wallet_load path None (w_files w) = Err e →
  run_command env json c w = (w, Err e).
Proof.
  intros Hf He. assert (Hl : load_wallet path w = (w, Err e)) by (unfold load_wallet; rewrite bind_get_run; unfold sm_lift; by rewrite He).
  destruct c as [out pass|a p amount|a p|a p|a p lit|a from to lit amount fee|a prune clear|a h k|a h|a p|a]; cbn in Hf; try done.
  - injection Hf as ->. cbn [run_command]. unfold cmd_init, mbind, SM_bind. by rewrite Hl.
  - cbn [run_command]. unfold cmd_utxos, wallet_or_address. rewrite Hf. unfold mbind, SM_bind. by rewrite Hl.
  - injection Hf as ->. cbn [run_command]. unfold cmd_send, mbind, SM_bind. by rewrite Hl.
  - injection Hf as ->. cbn [run_command]. unfold cmd_mine, mbind, SM_bind. by rewrite Hl.
Qed.

End cli_reports.

(** A wallet file made with a passphrase. *)
Lemma new_wallet_file `{Ed25519} `{NumTextOk} `{WalletCipher} `{ContainerText} env json out p w w' x :
  ed_private_ok (env_key env) = true → cmd_wallet_new env json out (Some p) w = (w', Ok x) →
  wallet_load out None (w_files w') = raise ValueError "wallet passphrase is required".
Proof.
  intros Hk E. unfold cmd_wallet_new in E. apply SM_bind_Ok in E as (wallet & w0 & [-> Hw]%sm_lift_Ok & E).
  apply SM_bind_Ok in E as (u & w1 & (f & Hf & ->)%sm_zoom_Ok & E). apply SM_bind_Ok in E as (address & w2 & [-> _]%sm_lift_Ok & [= <- _]).
  unfold wallet_save in Hf. apply SM_bind_Ok in Hf as (payload & f1 & [-> Hp]%sm_lift_Ok & Hf). cbn [save_payload] in Hp.
  unfold atomic_write_json in Hf. apply SM_bind_Ok in Hf as (content & f2 & [-> Hc]%sm_lift_Ok & Hf). rewrite bind_get_run in Hf. injection Hf as <-.
  pose proof Hp as Hkey. unfold encrypted_dict, encrypt_wallet_payload in Hkey. apply bind_Ok in Hkey as (key & Hkey & _).
  destruct (encrypted_run wallet p (env_salt env) (env_nonce env) key Hkey) as (pl & content' & payload' & _ & He & Hc' & Hparse);
    [by eapply created_matched|by eapply created_text|].
  assert (payload' = payload) as -> by congruence. assert (content' = content) as -> by congruence.
  cbn [w_files with_files]. unfold wallet_load, writing. rewrite bool_decide_eq_false_2, lookup_insert_eq by lia.
  by rewrite Hparse.
Qed.

(** The [try ... finally] of [cmd_serve] around a body that leaves the runtime alone. *)
Lemma started_and_stopped {A} r (k : SM World A) m w w' x : in_phase r Fresh →
  (sm_put (with_runtime (Some r) w);; m) w = (w', Ok x) →
  m = sm_finally (on_runtime runtime_start;; k) (on_runtime runtime_stop) → (∀ w, (k w).1 = w) →
  ∃ r', w_runtime w' = Some r' ∧ in_phase r' Stopped ∧ rt_closed r' = true ∧ li_open (rt_listener r') = false.
Proof.
  intros Hr E -> Hk. destruct (call_phase CStart r Fresh Hr) as (Hserving & _). destruct (call_phase CStop _ _ Hserving) as (Hstopped & _).
  cbn [phase_step fst] in Hserving, Hstopped. set (r1 := (runtime_call CStart r).1) in *. set (r2 := (runtime_call CStop r1).1) in *.
  assert (Hw : w' = with_runtime (Some r2) w).
  { assert (Hbody : ((on_runtime runtime_start;; k) (with_runtime (Some r) w)).1 = with_runtime (Some r1) w).
    { unfold r1, runtime_call, mbind, SM_bind, on_runtime. cbn [w_runtime with_runtime].
      destruct (runtime_start r) as [r0 [u|e]]; [cbn [fst snd]; apply Hk|done]. }
    change (sm_finally (on_runtime runtime_start;; k) (on_runtime runtime_stop) (with_runtime (Some r) w) = (w', Ok x)) in E.
    unfold sm_finally in E. rewrite Hbody in E. unfold on_runtime at 1 in E. cbn [w_runtime with_runtime] in E.
    change (runtime_stop r1) with (runtime_call CStop r1) in E. fold r2 in E.
    destruct (runtime_call CStop r1).2 as [u|e]; injection E as <- _; done. }
  exists r2. subst w'. split; [done|]. split; [done|]. destruct Hstopped as (_ & ? & ? & _). done.
Qed.

(** ** Samples *)

Definition sample_env : Env :=
  mkEnv (toy_key "alice") (b_lit "salt") (b_lit "nonce") (py "tmp") sample_timestamp 100 (λ host port, Ok (host, port)).

(** The file of a wallet without passphrase. *)
Definition alice_file : bytes := Eval vm_compute in ok_or [] (@json_file toy_numtext (wallet_to_dict (toy_wallet "alice"))).

Definition sample_node : Node := (@submit_transaction toy_ed25519 sample_transfer2 grown_node).1.
Definition sample_world : World := mkWorld {[ py "alice.json" := alice_file ]} (n_disk sample_node) None.
Definition sample_args : NodeArgs := mkNodeArgs 1 50.

Lemma sample_durable : @durable toy_ed25519 sample_node.
Proof. apply history_durable, grown_history. Qed.

Lemma sample_params : mkParams (na_difficulty sample_args) (na_reward sample_args) MAX_MONEY = node_params sample_node.
Proof. symmetry. exact grown_params. Qed.

Lemma alice_loads : @wallet_load toy_ed25519 toy_numtext toy_cipher toy_container (py "alice.json") None (w_files sample_world) = Ok (toy_wallet "alice").
Proof. vm_compute. reflexivity. Qed.

Definition printed_of (o : outcome) : printed := match o with Printed p => p | _ => TextLine [] end.
Definition is_printed (o : outcome) : bool := match o with Printed _ => true | _ => false end.

Lemma is_printed_spec (x : World * outcome) : is_printed x.2 = true → x = (x.1, Printed (printed_of x.2)).
Proof. by destruct x as [w []]. Qed.

(** ** Properties *)

(** C14: Commands keep the databases usable.  Started on the databases of a
    durable node with whatever arguments, right or wrong, a command, whether it
    prints, exits or dies with a traceback, at whatever point, leaves the
    databases of a durable node with the same parameters and at least the same
    blocks; only [mine] changes the chain. *)
Theorem cli_keeps_node `{Ed25519} `{NumText} `{WalletCipher} `{ContainerText} env json c w n w' o :
  durable n → w_db w = n_disk n → 0 ≤ env_now env < 2 ^ 64 → main env json c w = (w', o) →
  ∃ n', w_db w' = n_disk n' ∧ durable n' ∧ node_params n' = node_params n ∧
    fs_blocks (n_store n) ⊆ fs_blocks (n_store n') ∧
    ((∀ a path, c ≠ Mine a path) → n_store n' = n_store n ∧ n_state n' = n_state n).
Proof.
  intros Hd Hn Hnow E. unfold main in E. injection E as <- _.
  assert (Hdec : (∃ a path, c = Mine a path) ∨ ∀ a path, c ≠ Mine a path) by (destruct c; eauto; by right).
  destruct Hdec as [(a & path & ->)|Hc].
  - destruct (mine_kept env json a path w n Hd Hn Hnow) as (n' & Hn' & Hd' & Hp & Hsub). exists n'. split_and!; try done.
    intros Hc. by destruct (Hc a path).
  - destruct (command_kept env json c Hc w n Hd Hn) as (n' & Hn' & Hs). destruct (Hs Hd) as (Hd' & Hp & Hst & Hstate).
    exists n'. split_and!; try done. by rewrite Hst.
Qed.


Definition sample_main (json : bool) (c : command) : World * outcome :=
  @main toy_ed25519 toy_numtext toy_cipher toy_container sample_env json c sample_world.

Definition sample_mine : command := Mine sample_args (py "alice.json").

Lemma cli_keeps_node_witness :
  ∃ n', w_db (sample_main true sample_mine).1 = n_disk n' ∧ @durable toy_ed25519 n' ∧ node_params n' = node_params sample_node ∧
    fs_blocks (n_store sample_node) ⊆ fs_blocks (n_store n') ∧
    ((∀ a path, sample_mine ≠ Mine a path) → n_store n' = n_store sample_node ∧ n_state n' = n_state sample_node).
Proof.
  refine (@cli_keeps_node toy_ed25519 toy_numtext toy_cipher toy_container sample_env true sample_mine sample_world sample_node
           (sample_main true sample_mine).1 (sample_main true sample_mine).2 sample_durable _ _ _).
  - reflexivity.
  - by vm_compute.
  - exact (surjective_pairing (sample_main true sample_mine)).
Defined.

(** [balance] reports the ledger.  With the parameters of the node and a
    wallet file that loads, the command prints the address of the wallet, the
    sum and the list of its unspent outputs in the state of the node, and the
    height and hash of the tip; nothing but what reopening does changes. *)
Theorem cli_balance_exact `{Ed25519} `{NumText} `{WalletCipher} `{ContainerText} env json a path w n x address :
  durable n → w_db w = n_disk n → mkParams (na_difficulty a) (na_reward a) MAX_MONEY = node_params n →
  wallet_load path None (w_files w) = Ok x → wallet_address x = Ok address →
  ∃ n' h tip, reopened n n' ∧ node_height n = Ok h ∧ tip_hash n = Ok tip ∧
    main env json (Balance a path) w =
      (with_db (n_disk n') w,
       Printed (emit json
         [(py "address", VStr address); (py "balance", VInt (balance (n_state n) address));
          (py "count", VInt (zlen (spendable_outputs n address)));
          (py "utxos", VArr (utxo_to_value <$> spendable_outputs n address)); (py "height", VInt h); (py "tip", VStr tip)]
         (py "address:   " ++ address ++ newline ++ py "confirmed: " ++ str_of_int (balance (n_state n) address)))).
Proof.
  intros Hd Hn Hpar Hw Hx. destruct (durable_tip n Hd) as (h & tip & Hh & Ht).
  destruct (open_cases n (na_difficulty a) (na_reward a) MAX_MONEY Hd) as [(_ & n1 & E1 & Hr & Hd1)|(Hne & _)]; [|done].
  exists n1, h, tip. split_and!; [done..|]. pose proof Hr as (Hst & Hs & _).
  assert (Hh1 : node_height n1 = Ok h) by (unfold node_height; by rewrite Hst). assert (Ht1 : tip_hash n1 = Ok tip) by (unfold tip_hash; by rewrite Hst).
  unfold main. cbn [run_command]. unfold cmd_balance. rewrite bind_get_run. unfold with_node_open. rewrite Hn, E1.
  rewrite bind_get_run, bind_lift_run, Hw, bind_lift_run, Hx, bind_lift_run. unfold spendable_summary.
  rewrite (address_text _ _ Hx). csimpl. rewrite bind_lift_run, Hh1, bind_lift_run, Ht1.
  unfold spendable_outputs, balance. rewrite Hs. done.
Qed.

Lemma cli_balance_exact_witness :
  ∃ n' h tip, @reopened toy_ed25519 sample_node n' ∧ node_height sample_node = Ok h ∧ tip_hash sample_node = Ok tip ∧
    sample_main false (Balance sample_args (py "alice.json")) =
      (with_db (n_disk n') sample_world,
       Printed (emit false
         [(py "address", VStr (toy_address "alice")); (py "balance", VInt (balance (n_state sample_node) (toy_address "alice")));
          (py "count", VInt (zlen (spendable_outputs sample_node (toy_address "alice"))));
          (py "utxos", VArr (utxo_to_value <$> spendable_outputs sample_node (toy_address "alice"))); (py "height", VInt h); (py "tip", VStr tip)]
         (py "address:   " ++ toy_address "alice" ++ newline ++ py "confirmed: " ++ str_of_int (balance (n_state sample_node) (toy_address "alice"))))).
Proof.
  apply (@cli_balance_exact toy_ed25519 toy_numtext toy_cipher toy_container sample_env false sample_args (py "alice.json") sample_world
           sample_node (toy_wallet "alice") (toy_address "alice")).
  - exact sample_durable.
  - reflexivity.
  - exact sample_params.
  - exact alice_loads.
  - vm_compute. reflexivity.
Defined.

(** Wallets with a passphrase cannot be used.  After [wallet new] made a file
    with a passphrase, every command that reads that wallet first ends in a
    traceback of [ValueError], whatever else it is given, and changes nothing:
    no command passes a passphrase on, and [main] does not catch the error. *)
Theorem encrypted_wallet_unusable `{Ed25519} `{NumTextOk} `{WalletCipher} `{ContainerText} env json out p w w' x :
  ed_private_ok (env_key env) = true → main env json (WalletNew out (Some p)) w = (w', Printed x) →
  ∀ env' json' c, first_wallet c = Some out →
    main env' json' c w' = (w', Traceback (Exn ValueError (py "wallet passphrase is required"))).
Proof.
  intros Hk E env' json' c Hc. unfold main in E. destruct (run_command env json (WalletNew out (Some p)) w) as [w1 [y|e]] eqn:Er.
  - injection E as <- _. pose proof (new_wallet_file _ _ _ _ _ _ _ Hk Er) as Hl. unfold main.
    by rewrite (first_wallet_fails env' json' c w1 out _ Hc Hl).
  - cbn [fst snd] in E. by destruct (_ || _) in E.
Qed.

Definition sample_new : World * outcome := sample_main true (WalletNew (py "alice.json") (Some (py "correct horse"))).

Lemma encrypted_wallet_unusable_witness :
  @main toy_ed25519 toy_numtext toy_cipher toy_container sample_env true (Mine sample_args (py "alice.json")) sample_new.1 =
    (sample_new.1, Traceback (Exn ValueError (py "wallet passphrase is required"))).
Proof.
  apply (@encrypted_wallet_unusable toy_ed25519 toy_numtext toy_numtext_ok toy_cipher toy_container sample_env true (py "alice.json")
           (py "correct horse") sample_world sample_new.1 (printed_of sample_new.2)).
  - vm_compute. reflexivity.
  - apply (is_printed_spec sample_new). vm_compute. reflexivity.
  - reflexivity.
Defined.

(** C39: [serve] does not serve.  When [serve] has printed the address it is
    serving on and returns, the server it started is stopped already: its socket
    is closed, its thread ended and the databases are closed. *)
Theorem serve_stops `{Ed25519} `{NumText} `{WalletCipher} `{ContainerText} env json a w w' p :
  main env json (Serve a) w = (w', Printed p) →
  ∃ r, w_runtime w' = Some r ∧ in_phase r Stopped ∧ rt_closed r = true ∧ li_open (rt_listener r) = false.
Proof.
  intros E. unfold main in E. destruct (run_command env json (Serve a) w) as [w1 [y|e]] eqn:Er.
  - injection E as <- _. cbn [run_command] in Er. unfold cmd_serve in Er. apply SM_bind_Ok in Er as (c & w2 & [-> _]%sm_lift_Ok & Er).
    apply SM_bind_Ok in Er as (r & w3 & (d & Hr & ->)%sm_zoom_Ok & Er). rewrite bind_get_run in Er.
    apply opened_fresh in Hr. refine (started_and_stopped r _ _ _ _ _ Hr Er eq_refl _).
    intros w4. unfold sm_lift, mbind, SM_bind. by destruct (node_height (rt_node r)).
  - cbn [fst snd] in E. by destruct (_ || _) in E.
Qed.

Definition sample_serve : World * outcome :=
  sample_main true (Serve (mkRuntimeArgs sample_args (py "node.sqlite3") (py "regtest") (py "node") (py "127.0.0.1") 8333 (Some (py "key")))).

Lemma serve_stops_witness :
  ∃ r, w_runtime sample_serve.1 = Some r ∧ in_phase r Stopped ∧ rt_closed r = true ∧ li_open (rt_listener r) = false.
Proof.
  apply (@serve_stops toy_ed25519 toy_numtext toy_cipher toy_container sample_env true
           (mkRuntimeArgs sample_args (py "node.sqlite3") (py "regtest") (py "node") (py "127.0.0.1") 8333 (Some (py "key")))
           sample_world sample_serve.1 (printed_of sample_serve.2)).
  apply (is_printed_spec sample_serve). vm_compute. reflexivity.
Defined.
