(* ===== verification/Release.v ===== *)
(** * Release manifests (release.py)

    The manifest of the built artifacts, its detached signature and the pinning
    of the signing key.  A file is its name and its contents; the version of the
    running interpreter is an argument. *)

From S2P Require Import Prelude PyBytes PyText Sha256 Base64 Json Crypto WireJson JsonText Network WalletFile.
Local Open Scope Z_scope.

(** ** Data *)

Record ReleaseArtifact := mkArtifact { ra_filename : str; ra_size : Z; ra_sha256 : str }.

Record ReleaseManifest := mkManifest { rm_project : str; rm_version : str; rm_python : str; rm_artifacts : list ReleaseArtifact }.

Record ReleaseSignature := mkSignature { rs_public_key : PublicKey; rs_signature : str }.

(** A built file: the last component of its path, and its bytes. *)
Record File := mkFile { file_name : str; file_content : bytes }.

(** [ReleaseArtifact.to_dict] *)
Definition artifact_to_dict (a : ReleaseArtifact) : value :=
  VObj [(py "filename", VStr (ra_filename a)); (py "sha256", VStr (ra_sha256 a)); (py "size", VInt (ra_size a))].

(** [ReleaseManifest.to_dict] *)
Definition manifest_to_dict (m : ReleaseManifest) : value :=
  VObj [(py "artifacts", VArr (map artifact_to_dict (rm_artifacts m))); (py "project", VStr (rm_project m));
        (py "python", VStr (rm_python m)); (py "version", VStr (rm_version m))].

(** ** Building a manifest *)

Definition READ_SIZE : nat := Z.to_nat (1024 * 1024).

Lemma READ_SIZE_pos : (0 < READ_SIZE)%nat.
Proof. unfold READ_SIZE. lia. Qed.

#[global] Opaque READ_SIZE.

(** The loop of [sha256_file]: what the digest was fed, chunk by chunk. *)
Fixpoint read_chunks (fuel : nat) (fed rest : bytes) : bytes :=
  match fuel with
  | O => fed
  | S fuel' =>
      match take READ_SIZE rest with
      | [] => fed
      | chunk => read_chunks fuel' (fed ++ chunk) (drop READ_SIZE rest)
      end
  end.

(** [sha256_file] *)
Definition sha256_file (f : File) : str :=
  bytes_hex (sha256 (read_chunks (S (length (file_content f))) [] (file_content f))).

Definition file_leb (x y : File) : bool := str_leb (file_name x) (file_name y).

Definition artifact_of (f : File) : ReleaseArtifact := mkArtifact (file_name f) (zlen (file_content f)) (sha256_file f).

(** [build_release_manifest] *)
Definition build_release_manifest (artifacts : list File) (project version : str) (python : option str) (interpreter : str) : ReleaseManifest :=
  let runtime := match python with Some (c :: p) => c :: p | _ => interpreter end in
  mkManifest project version runtime (map artifact_of (sort_by file_leb artifacts)).

(** [release_public_key_fingerprint] *)
Definition release_public_key_fingerprint (pk : PublicKey) : result str :=
  sha256_hex_str (canonical_json (JObj [(py "algorithm", JStr (pk_algorithm pk)); (py "key", JStr (pk_key pk))])).

(** The bytes it hashes. *)
Definition key_bytes (pk : PublicKey) : result bytes :=
  utf8_encode (canonical_json (JObj [(py "algorithm", JStr (pk_algorithm pk)); (py "key", JStr (pk_key pk))])).

Section release.
Context `{Ed25519} `{NumText} `{ContainerText}.

(** [ReleaseManifest.to_json] *)
Definition manifest_to_json (m : ReleaseManifest) : str := render indent2 0 (manifest_to_dict m) ++ [10].

(** [ReleaseSignature.to_dict] and [to_json] *)
Definition signature_to_dict (s : ReleaseSignature) : result value :=
  fingerprint ← release_public_key_fingerprint (rs_public_key s);
  Ok (VObj [(py "public_key", pk_to_value (rs_public_key s)); (py "public_key_fingerprint", VStr fingerprint);
            (py "signature", VStr (rs_signature s))]).

Definition signature_to_json (s : ReleaseSignature) : result str :=
  d ← signature_to_dict s; Ok (render indent2 0 d ++ [10]).

(** [ReleaseSignature.from_dict] *)
Definition signature_from_dict (data : list (str * value)) : result ReleaseSignature :=
  public_key ← obj_item "public_key" data;
  raise_if (match public_key with VObj _ => false | _ => true end) ValueError "release signature public key is invalid";;
  pk ← pk_from_value public_key;
  signature ← obj_item "signature" data;
  let s := mkSignature pk (text_of signature) in
  match default VNull (obj_get (py "public_key_fingerprint") data) with
  | VNull => Ok s
  | expected =>
      fingerprint ← release_public_key_fingerprint pk;
      raise_if (bool_decide (text_of expected ≠ fingerprint)) ValueError "release signature public key fingerprint is invalid";;
      Ok s
  end.

(** [sign_release_manifest] *)
Definition sign_release_manifest (m : ReleaseManifest) (w : Wallet) : result ReleaseSignature :=
  s ← wallet_sign w (manifest_to_json m); Ok (mkSignature (w_public_key w) s).

(** [verify_release_manifest_signature] *)
Definition verify_release_manifest_signature (m : ReleaseManifest) (s : ReleaseSignature) (expected : option str) : result bool :=
  mismatch ← match expected with
             | Some e => fingerprint ← release_public_key_fingerprint (rs_public_key s); Ok (bool_decide (fingerprint ≠ e))
             | None => Ok false
             end;
  if mismatch : bool then Ok false else verify_signature (rs_public_key s) (manifest_to_json m) (rs_signature s).

End release.

(** ** Lemmas: building *)

Lemma read_chunks_all fuel : ∀ fed rest, (length rest < fuel)%nat → read_chunks fuel fed rest = fed ++ rest.
Proof.
  induction fuel as [|fuel IH]; intros fed rest Hf; [lia|]. cbn [read_chunks].
  pose proof READ_SIZE_pos as Hpos. destruct (take READ_SIZE rest) as [|x l] eqn:E.
  - destruct rest as [|y rest]; [by rewrite app_nil_r|]. by destruct READ_SIZE; [lia|].
  - rewrite IH, <- app_assoc, <- E, take_drop; [done|]. rewrite length_drop. destruct rest; [by rewrite take_nil in E|]. simpl in *. lia.
Qed.

Lemma sha256_file_spec f : sha256_file f = sha256_hex (file_content f).
Proof. unfold sha256_file, sha256_hex. by rewrite read_chunks_all by lia. Qed.

Lemma file_leb_total x y : file_leb x y = true ∨ file_leb y x = true.
Proof. apply str_leb_total. Qed.
Lemma file_leb_trans x y z : file_leb x y = true → file_leb y z = true → file_leb x z = true.
Proof. apply str_leb_trans. Qed.

(** ** Lemmas: the text of a manifest *)

Definition text_wf (s : str) : Prop := Forall (λ c, scalar c = true) s.

(** Texts without surrogates, and sizes a file can have. *)
Definition artifact_wf (a : ReleaseArtifact) : Prop := text_wf (ra_filename a) ∧ text_wf (ra_sha256 a) ∧ 0 ≤ ra_size a < 2 ^ 63.

Definition manifest_wf (m : ReleaseManifest) : Prop :=
  text_wf (rm_project m) ∧ text_wf (rm_version m) ∧ text_wf (rm_python m) ∧ Forall artifact_wf (rm_artifacts m).

Lemma artifact_value_wf a : artifact_wf a → value_wf (artifact_to_dict a).
Proof.
  intros (Hf & Hh & Hz). obj_wf; [done|done|by apply small_int_wf].
Qed.

Lemma sort_artifact a : sort_keys (artifact_to_dict a) = artifact_to_dict a.
Proof. done. Qed.

Lemma sort_manifest m : sort_keys (manifest_to_dict m) = manifest_to_dict m.
Proof.
  unfold manifest_to_dict. cbn [sort_keys map fst snd]. rewrite map_map. rewrite (map_ext _ _ sort_artifact). done.
Qed.

Lemma manifest_value_wf m : manifest_wf m → value_wf (manifest_to_dict m).
Proof.
  intros (Hp & Hv & Hr & Ha). obj_wf; try done.
  apply value_wf_arr, Forall_map. eapply Forall_impl; [exact Ha|]. apply artifact_value_wf.
Qed.

Lemma artifact_dict_inj a b : artifact_to_dict a = artifact_to_dict b → a = b.
Proof. destruct a, b. by intros [= -> -> ->]. Qed.

#[global] Instance artifact_to_dict_inj : Inj (=) (=) artifact_to_dict.
Proof. exact artifact_dict_inj. Qed.

Lemma manifest_dict_inj m1 m2 : manifest_to_dict m1 = manifest_to_dict m2 → m1 = m2.
Proof. destruct m1, m2. intros [= Ha -> -> ->]. apply (inj (map artifact_to_dict)) in Ha. by subst. Qed.

Section texts.
Context `{NumTextOk}.

Lemma manifest_reads m : manifest_wf m → loads (manifest_to_json m) = Ok (manifest_to_dict m) ∧ Forall plain (manifest_to_json m).
Proof using Type*.
  intros Hm. pose proof (manifest_value_wf m Hm) as Hv. rewrite <- (sort_manifest m) in Hv.
  destruct (loads_indented _ Hv) as [Hl Hp]. by rewrite sort_manifest in Hl.
Qed.

Lemma manifest_json_ascii m : manifest_wf m → Forall (λ c, 0 ≤ c < 128) (manifest_to_json m).
Proof using Type*. intros Hm. by apply plain_ascii, manifest_reads. Qed.

Lemma fingerprint_defined pk : ∃ f, release_public_key_fingerprint pk = Ok f ∧ text_wf f ∧ is_hash f = true.
Proof using Type.
  unfold release_public_key_fingerprint, sha256_hex_str. destruct (utf8_encode_ascii _ (canonical_json_ascii (JObj [(py "algorithm", JStr (pk_algorithm pk)); (py "key", JStr (pk_key pk))]))) as [b ->].
  exists (sha256_hex b). pose proof (sha256_hex_lower b) as Hlow. split_and!; [done| |].
  - eapply Forall_impl; [exact Hlow|]. intros c Hc. apply scalar_spec. unfold lower_hex, is_digit in Hc. bool_prop. lia.
  - unfold is_hash, zlen. rewrite sha256_hex_length. apply forallb_forall. intros c Hc%list_elem_of_In. by eapply Forall_forall in Hlow.
Qed.

End texts.

(** ** Lemmas: signatures *)

(** [json.loads] of a signature file, read. *)
Definition read_signature `{NumText} `{ContainerText} (text : str) : result ReleaseSignature :=
  v ← loads text; match v with VObj l => signature_from_dict l | _ => raise TypeError "" end.

Section signing.
Context `{Ed25519} `{NumTextOk} `{ContainerText}.

Lemma signature_reads s : text_wf (pk_algorithm (rs_public_key s)) → text_wf (pk_key (rs_public_key s)) → text_wf (rs_signature s) →
  ∃ text, signature_to_json s = Ok text ∧ read_signature text = Ok s.
Proof using Type*.
  intros Ha Hk Hs. destruct (fingerprint_defined (rs_public_key s)) as (f & Hf & Hft & _).
  unfold signature_to_json, signature_to_dict. rewrite Hf. cbn [mbind result_bind]. eexists. split; [done|].
  set (items := [(py "public_key", pk_to_value (rs_public_key s)); (py "public_key_fingerprint", VStr f); (py "signature", VStr (rs_signature s))]).
  assert (Hsort : sort_keys (VObj items) = VObj items) by done.
  unfold read_signature. rewrite (proj1 (loads_indented (VObj items) ltac:(rewrite Hsort; obj_wf; try done; by obj_wf))), Hsort.
  cbn [mbind result_bind]. unfold signature_from_dict.
  change (obj_item "public_key" items) with (Ok (pk_to_value (rs_public_key s))).
  change (obj_item "signature" items) with (Ok (VStr (rs_signature s))).
  change (obj_get (py "public_key_fingerprint") items) with (Some (VStr f)).
  cbn [mbind result_bind].
  change (pk_from_value (pk_to_value (rs_public_key s))) with (Ok (mkPublicKey (pk_algorithm (rs_public_key s)) (pk_key (rs_public_key s)))).
  destruct s as [[a k] sg]. cbn [rs_public_key rs_signature pk_algorithm pk_key] in *. change (match pk_to_value _ with VObj _ => false | _ => true end) with false. cbn [mbind result_bind raise_if default from_option id].
  rewrite Hf. cbn [mbind result_bind text_of py_str default from_option id]. by rewrite bool_decide_eq_false_2 by (by intros Hn).
Qed.

Lemma verify_pinned m s f e : release_public_key_fingerprint (rs_public_key s) = Ok f →
  verify_release_manifest_signature m s (Some e) =
  if bool_decide (f ≠ e) then Ok false else verify_release_manifest_signature m s None.
Proof using Type. intros Hf. unfold verify_release_manifest_signature. rewrite Hf. cbn. by case_bool_decide. Qed.

End signing.

(** Two keys with the same fingerprint are equal, or SHA-256 collides on what is
    hashed of them. *)
Lemma fingerprint_binds pk1 pk2 f :
  text_wf (pk_algorithm pk1) → text_wf (pk_key pk1) → text_wf (pk_algorithm pk2) → text_wf (pk_key pk2) →
  release_public_key_fingerprint pk1 = Ok f → release_public_key_fingerprint pk2 = Ok f →
  pk1 = pk2 ∨ ∃ b1 b2, key_bytes pk1 = Ok b1 ∧ key_bytes pk2 = Ok b2 ∧ b1 ≠ b2 ∧ sha256 b1 = sha256 b2.
Proof.
  intros Ha1 Hk1 Ha2 Hk2 H1 H2. apply result_fmap_Ok in H1 as (b1 & E1 & ->). apply result_fmap_Ok in H2 as (b2 & E2 & Hh).
  destruct (decide (b1 = b2)) as [->|Hne]; [left|right; exists b1, b2; split_and!; [done..|by apply sha256_hex_inj]].
  pose proof (utf8_encode_inj _ _ _ E1 E2) as E. apply canonical_json_inj in E.
  - destruct pk1, pk2. by injection E as -> ->.
  - apply json_wf_obj. split; [by repeat constructor|]. repeat (apply Forall_cons_2; [split; [by repeat constructor|done]|]). constructor.
  - apply json_wf_obj. split; [by repeat constructor|]. repeat (apply Forall_cons_2; [split; [by repeat constructor|done]|]). constructor.
Qed.

(** ** Properties *)

(** A manifest does not depend on the order of its inputs.  Built from files
    with distinct names in any order, it is the same, and its entries are
    exactly the files, each with its size and the SHA-256 of its contents, in
    the order of the names. *)
Theorem manifest_deterministic l1 l2 project version python interpreter : l1 ≡ₚ l2 → NoDup (file_name <$> l1) →
  let m := build_release_manifest l1 project version python interpreter in
  m = build_release_manifest l2 project version python interpreter ∧
  rm_artifacts m ≡ₚ (λ f, mkArtifact (file_name f) (zlen (file_content f)) (sha256_hex (file_content f))) <$> l1 ∧
  StronglySorted (λ x y, str_leb x y = true) (ra_filename <$> rm_artifacts m).
Proof.
  intros Hp Hnd m. split; [|split].
  - unfold m, build_release_manifest. do 2 f_equal. apply (sorted_perm_unique_in file_leb).
    + intros x y Hx Hy Hxy Hyx. rewrite sort_by_perm in Hx, Hy. pose proof (str_leb_antisym _ _ Hxy Hyx) as Hn.
      apply list_elem_of_lookup in Hx as [i Hi]. apply list_elem_of_lookup in Hy as [j Hj].
      assert (i = j) as ->; [|congruence]. eapply NoDup_lookup; [exact Hnd|rewrite list_lookup_fmap, Hi; done|rewrite list_lookup_fmap, Hj, Hn; done].
    + apply sort_by_sorted; [apply file_leb_total|apply file_leb_trans].
    + apply sort_by_sorted; [apply file_leb_total|apply file_leb_trans].
    + by rewrite !sort_by_perm.
  - change (rm_artifacts m) with (artifact_of <$> sort_by file_leb l1). rewrite sort_by_perm.
    erewrite list_fmap_ext; [done|]. intros i f _. unfold artifact_of. by rewrite sha256_file_spec.
  - change (rm_artifacts m) with (artifact_of <$> sort_by file_leb l1). rewrite <- list_fmap_compose.
    pose proof (sort_by_sorted file_leb file_leb_total file_leb_trans l1) as Hs.
    induction Hs as [|f l Hs IH Hf]; [constructor|]. constructor; [done|]. by apply Forall_fmap.
Qed.

Definition sample_wheel : File := mkFile (py "coin-0.1.0.whl") (b_lit "wheel").
Definition sample_sdist : File := mkFile (py "coin-0.1.0.tar.gz") (b_lit "sdist").

Lemma manifest_deterministic_witness :
  let m := build_release_manifest [sample_wheel; sample_sdist] (py "coin") (py "0.1.0") None (py "3.12.1") in
  m = build_release_manifest [sample_sdist; sample_wheel] (py "coin") (py "0.1.0") None (py "3.12.1") ∧
  rm_artifacts m ≡ₚ (λ f, mkArtifact (file_name f) (zlen (file_content f)) (sha256_hex (file_content f))) <$> [sample_wheel; sample_sdist] ∧
  StronglySorted (λ x y, str_leb x y = true) (ra_filename <$> rm_artifacts m).
Proof.
  apply (manifest_deterministic [sample_wheel; sample_sdist] [sample_sdist; sample_wheel]).
  - apply perm_swap.
  - apply (bool_decide_unpack (NoDup [py "coin-0.1.0.whl"; py "coin-0.1.0.tar.gz"])). vm_compute. exact I.
Defined.

(** A release verifies.  A manifest signed with a created wallet verifies,
    also against the pinned fingerprint of the key, but against no other; and
    the signature file reads back as the signature. *)
Theorem release_verifies `{Ed25519Ok} `{NumTextOk} `{ContainerText} bits raw w m :
  ed_private_ok raw = true → wallet_create bits raw = Ok w → manifest_wf m →
  ∃ s fingerprint text, sign_release_manifest m w = Ok s ∧ release_public_key_fingerprint (w_public_key w) = Ok fingerprint ∧
    signature_to_json s = Ok text ∧ read_signature text = Ok s ∧
    verify_release_manifest_signature m s None = Ok true ∧ verify_release_manifest_signature m s (Some fingerprint) = Ok true ∧
    ∀ e, e ≠ fingerprint → verify_release_manifest_signature m s (Some e) = Ok false.
Proof.
  intros Hraw Hw Hm. destruct (wallet_sign_total bits raw w _ Hraw Hw (manifest_json_ascii m Hm)) as (sg & Hsg & _).
  destruct (fingerprint_defined (w_public_key w)) as (f & Hf & _).
  destruct (matched_key_text w (created_matched bits raw w Hraw Hw)) as [Ha Hk].
  assert (Ht : text_wf sg). { unfold wallet_sign in Hsg. inv_ok Hsg. subst. apply ascii_scalar, b64encode_ascii. }
  destruct (signature_reads (mkSignature (w_public_key w) sg) Ha Hk Ht) as (text & Htext & Hread).
  assert (Hv : verify_release_manifest_signature m (mkSignature (w_public_key w) sg) None = Ok true) by (by eapply wallet_sign_verifies).
  exists (mkSignature (w_public_key w) sg), f, text. split_and!; try done.
  - unfold sign_release_manifest. by rewrite Hsg.
  - rewrite (verify_pinned _ _ f) by done. by rewrite bool_decide_eq_false_2 by (by intros Hn).
  - intros e He. rewrite (verify_pinned _ _ f) by done. by rewrite bool_decide_eq_true_2 by done.
Qed.

Definition sample_manifest : ReleaseManifest :=
  mkManifest (py "coin") (py "0.1.0") (py "3.12.1") [mkArtifact (py "coin-0.1.0.whl") 5 (sha256_hex (b_lit "wheel"))].

Lemma sample_manifest_wf : manifest_wf sample_manifest.
Proof.
  split_and!; [by repeat constructor..|]. constructor; [|constructor]. split_and!; [by repeat constructor| |done|done].
  eapply Forall_impl; [apply sha256_hex_lower|]. intros c Hc. apply scalar_spec. unfold lower_hex, is_digit in Hc. bool_prop. lia.
Qed.

Lemma release_verifies_witness :
  ∃ s fingerprint text, @sign_release_manifest toy_ed25519 toy_numtext sample_manifest (toy_wallet "release") = Ok s ∧
    release_public_key_fingerprint (w_public_key (toy_wallet "release")) = Ok fingerprint ∧
    @signature_to_json toy_numtext s = Ok text ∧ @read_signature toy_numtext toy_container text = Ok s ∧
    @verify_release_manifest_signature toy_ed25519 toy_numtext sample_manifest s None = Ok true ∧
    @verify_release_manifest_signature toy_ed25519 toy_numtext sample_manifest s (Some fingerprint) = Ok true ∧
    ∀ e, e ≠ fingerprint → @verify_release_manifest_signature toy_ed25519 toy_numtext sample_manifest s (Some e) = Ok false.
Proof.
  apply (@release_verifies toy_ed25519 toy_ed25519_ok toy_numtext toy_numtext_ok toy_container None (toy_key "release")).
  - vm_compute. reflexivity.
  - reflexivity.
  - exact sample_manifest_wf.
Defined.

(** C36: A pinned release is authentic.  A manifest verifies against a pinned
    fingerprint exactly when the fingerprint is that of the key in the signature
    file and the scheme accepts the signature, under this key, of exactly the
    text of the manifest.  The text belongs to no other manifest, and another key
    with the same fingerprint exhibits a collision of SHA-256 between the bytes
    that are hashed of the two keys. *)
Theorem pinned_release_authentic `{Ed25519} `{NumTextOk} m s : manifest_wf m →
  (∀ fingerprint, verify_release_manifest_signature m s (Some fingerprint) = Ok true ↔
     release_public_key_fingerprint (rs_public_key s) = Ok fingerprint ∧
     ∃ key sig msg, material (rs_public_key s) = Ok key ∧ b64decode (rs_signature s) = Ok sig ∧
       utf8_encode (manifest_to_json m) = Ok msg ∧ ed_verify key sig msg = true) ∧
  (∀ m', manifest_wf m' → manifest_to_json m' = manifest_to_json m → m' = m) ∧
  (∀ pk, text_wf (pk_algorithm pk) → text_wf (pk_key pk) → text_wf (pk_algorithm (rs_public_key s)) → text_wf (pk_key (rs_public_key s)) →
     release_public_key_fingerprint pk = release_public_key_fingerprint (rs_public_key s) →
     pk = rs_public_key s ∨
     ∃ b1 b2, key_bytes pk = Ok b1 ∧ key_bytes (rs_public_key s) = Ok b2 ∧ b1 ≠ b2 ∧ sha256 b1 = sha256 b2).
Proof.
  intros Hm. destruct (fingerprint_defined (rs_public_key s)) as (f & Hf & _). split_and!.
  - intros fp. rewrite (verify_pinned _ _ f) by done. rewrite <- verify_signature_true, Hf.
    change (verify_release_manifest_signature m s None) with (verify_signature (rs_public_key s) (manifest_to_json m) (rs_signature s)).
    case_bool_decide as Hfe; naive_solver.
  - intros m' Hm' E. apply manifest_dict_inj. destruct (manifest_reads m Hm) as [R1 _]. destruct (manifest_reads m' Hm') as [R2 _].
    rewrite E in R2. congruence.
  - intros pk Hpa Hpk Ha Hk Hpf. rewrite Hf in Hpf. by eapply fingerprint_binds.
Qed.

Definition sample_release : ReleaseSignature :=
  mkSignature (w_public_key (toy_wallet "release")) (ok_or [] (@wallet_sign toy_ed25519 (toy_wallet "release") (@manifest_to_json toy_numtext sample_manifest))).

(** It verifies against its own fingerprint, and not against another. *)
Example sample_release_verifies :
  @verify_release_manifest_signature toy_ed25519 toy_numtext sample_manifest sample_release
    (Some (ok_or [] (release_public_key_fingerprint (rs_public_key sample_release)))) = Ok true ∧
  @verify_release_manifest_signature toy_ed25519 toy_numtext sample_manifest sample_release
    (Some (ok_or [] (release_public_key_fingerprint (w_public_key (toy_wallet "other"))))) = Ok false.
Proof. split; vm_compute; reflexivity. Qed.

Lemma pinned_release_authentic_witness :
  (∀ fingerprint, @verify_release_manifest_signature toy_ed25519 toy_numtext sample_manifest sample_release (Some fingerprint) = Ok true ↔
     release_public_key_fingerprint (rs_public_key sample_release) = Ok fingerprint ∧
     ∃ key sig msg, @material toy_ed25519 (rs_public_key sample_release) = Ok key ∧ b64decode (rs_signature sample_release) = Ok sig ∧
       utf8_encode (@manifest_to_json toy_numtext sample_manifest) = Ok msg ∧ @ed_verify toy_ed25519 key sig msg = true) ∧
  (∀ m', manifest_wf m' → @manifest_to_json toy_numtext m' = @manifest_to_json toy_numtext sample_manifest → m' = sample_manifest) ∧
  (∀ pk, text_wf (pk_algorithm pk) → text_wf (pk_key pk) → text_wf (pk_algorithm (rs_public_key sample_release)) →
     text_wf (pk_key (rs_public_key sample_release)) →
     release_public_key_fingerprint pk = release_public_key_fingerprint (rs_public_key sample_release) →
     pk = rs_public_key sample_release ∨
     ∃ b1 b2, key_bytes pk = Ok b1 ∧ key_bytes (rs_public_key sample_release) = Ok b2 ∧ b1 ≠ b2 ∧ sha256 b1 = sha256 b2).
Proof. exact (@pinned_release_authentic toy_ed25519 toy_numtext toy_numtext_ok sample_manifest sample_release sample_manifest_wf). Defined.
